(** * Airdrop bot: a shallow embedding of [bot.py] and its crediting engine

    The development follows the source file top-down: text helpers and the
    validators, the calendar used by the streak engine, the content digest,
    the relational store with its uniqueness constraints, and finally the
    event handlers [start], [on_callback] and [on_any_text].

    Modelling conventions.
    - A Python [str] is a [string]: the text seen as its UTF-8 bytes, so
      equality tests are exact.  The helpers of [PyStr] read characters as
      ASCII does; the handlers written with them are the program on ASCII
      text.  Module [Exact] has the functions of the program that look at
      the characters of a text, with the reading of [str] and [re]
      (modules [Utf8] and [Unicode]), and the handlers built on them.
    - A Python [int] is a [Z].  A column of SQLite holds 64 bits: the
      handlers are the program for amounts and ids that fit, and [Exact]
      has the functions that bind an integer or sum a column with what
      [sqlite3] raises when one does not fit.
    - A table is the list of its rows, oldest first; an [INSERT] appends,
      and fails with [IntegrityError] when a uniqueness constraint of the
      schema is violated.
    - Values that come from outside the program (the clock, the random
      referral token, the answer of the recipe service) are the fields of an
      [event_env]; the campaign configuration is a [config].
    - Events are handled one at a time, as the polling loop of the source
      delivers them.  A handler returns the store it leaves and the
      messages it sent, also when it ends with an exception. *)

From Stdlib Require Import ZArith List Bool Ascii String Lia.
From Stdlib Require Import DecimalString.
From Stdlib Require Import Sorted Permutation.
Import ListNotations.

Local Open Scope string_scope.
Local Open Scope Z_scope.

(* ------------------------------------------------------------------ *)
(** ** Python text primitives *)

Module PyStr.

Definition chr (n : nat) : ascii := ascii_of_nat n.
Definition ord (c : ascii) : nat := nat_of_ascii c.

Definition newline : ascii := chr 10.

Definition in_range (lo hi : nat) (c : ascii) : bool :=
  (Nat.leb lo (ord c) && Nat.leb (ord c) hi)%bool.

(** [str.isspace] on one ASCII character; also the class [\s]. *)
Definition isspace (c : ascii) : bool :=
  (in_range 9 13 c || in_range 28 32 c)%bool.

Definition isdigit (c : ascii) : bool := in_range 48 57 c.
Definition isupper (c : ascii) : bool := in_range 65 90 c.
Definition islower (c : ascii) : bool := in_range 97 122 c.

(** The class [\w] on ASCII text. *)
Definition isword (c : ascii) : bool :=
  (isdigit c || isupper c || islower c || Ascii.eqb c "_")%bool.

Definition ishex (c : ascii) : bool :=
  (isdigit c || in_range 65 70 c || in_range 97 102 c)%bool.

Definition lower_char (c : ascii) : ascii :=
  if isupper c then chr (ord c + 32) else c.

Fixpoint lower (s : string) : string :=
  match s with
  | EmptyString => EmptyString
  | String c s' => String (lower_char c) (lower s')
  end.

Fixpoint lstrip (s : string) : string :=
  match s with
  | EmptyString => EmptyString
  | String c s' => if isspace c then lstrip s' else s
  end.

Fixpoint rstrip (s : string) : string :=
  match s with
  | EmptyString => EmptyString
  | String c s' =>
      match rstrip s' with
      | EmptyString => if isspace c then EmptyString else String c EmptyString
      | r => String c r
      end
  end.

(** [s.strip()] *)
Definition strip (s : string) : string := rstrip (lstrip s).

(** [len(s)] *)
Definition len (s : string) : Z := Z.of_nat (String.length s).

(** [s.startswith(p)] *)
Fixpoint startswith (p s : string) : bool :=
  match p with
  | EmptyString => true
  | String a p' =>
      match s with
      | EmptyString => false
      | String b s' => (Ascii.eqb a b && startswith p' s')%bool
      end
  end.

(** [s.split(sep, 1)[1]]: what follows the first [sep]; [None] stands for
    the [IndexError] raised when [sep] does not occur. *)
Fixpoint after_first (sep : ascii) (s : string) : option string :=
  match s with
  | EmptyString => None
  | String c s' => if Ascii.eqb c sep then Some s' else after_first sep s'
  end.

(** [s.replace(c, "")] for a one-character [c]. *)
Fixpoint remove_char (x : ascii) (s : string) : string :=
  match s with
  | EmptyString => EmptyString
  | String c s' =>
      if Ascii.eqb c x then remove_char x s' else String c (remove_char x s')
  end.

(** [s.split()]: the maximal runs of characters that are not white space;
    [cur] is the run being read. *)
Fixpoint split_from (cur : string) (s : string) : list string :=
  match s with
  | EmptyString =>
      match cur with
      | EmptyString => nil
      | _ => cons cur nil
      end
  | String c s' =>
      if isspace c then
        match cur with
        | EmptyString => split_from EmptyString s'
        | _ => cons cur (split_from EmptyString s')
        end
      else split_from (cur ++ String c EmptyString) s'
  end.

Definition split (s : string) : list string := split_from EmptyString s.

(** [str(n)] for an integer. *)
Definition of_int (n : Z) : string := NilZero.string_of_int (Z.to_int n).

(** Truthiness of an optional text: [None] and the empty text are falsy. *)
Definition truthy (o : option string) : bool :=
  match o with
  | Some (String _ _) => true
  | _ => false
  end.

(** [(o or "")] *)
Definition or_empty (o : option string) : string :=
  match o with Some s => s | None => EmptyString end.

End PyStr.

(* ------------------------------------------------------------------ *)
(** ** Regular expressions

    The patterns of the source use neither groups that are read back nor
    back-references, so whether [re.match] or [re.search] finds a match is
    membership in a regular language.  It is decided here with Brzozowski
    derivatives. *)

Module Re.

Inductive re : Type :=
| Void : re
| Eps : re
| Cls : (ascii -> bool) -> re
| Cat : re -> re -> re
| Alt : re -> re -> re
| Star : re -> re.

Fixpoint nullable (r : re) : bool :=
  match r with
  | Void => false
  | Eps => true
  | Cls _ => false
  | Cat a b => nullable a && nullable b
  | Alt a b => nullable a || nullable b
  | Star _ => true
  end.

Fixpoint deriv (c : ascii) (r : re) : re :=
  match r with
  | Void => Void
  | Eps => Void
  | Cls p => if p c then Eps else Void
  | Cat a b =>
      if nullable a then Alt (Cat (deriv c a) b) (deriv c b)
      else Cat (deriv c a) b
  | Alt a b => Alt (deriv c a) (deriv c b)
  | Star a => Cat (deriv c a) (Star a)
  end.

(** Does the whole of [s] belong to the language of [r]? *)
Fixpoint fullmatch (r : re) (s : string) : bool :=
  match s with
  | EmptyString => nullable r
  | String c s' => fullmatch (deriv c r) s'
  end.

(** The language of [r], which [fullmatch] decides. *)
Inductive matches : re -> string -> Prop :=
| MEps : matches Eps EmptyString
| MCls : forall p c, p c = true -> matches (Cls p) (String c EmptyString)
| MCat : forall a b s1 s2,
    matches a s1 -> matches b s2 -> matches (Cat a b) (s1 ++ s2)
| MAltL : forall a b s, matches a s -> matches (Alt a b) s
| MAltR : forall a b s, matches b s -> matches (Alt a b) s
| MStarNil : forall a, matches (Star a) EmptyString
| MStarApp : forall a s1 s2,
    matches a s1 -> matches (Star a) s2 -> matches (Star a) (s1 ++ s2).

Definition chr (c : ascii) : re := Cls (Ascii.eqb c).
(** A letter under [re.IGNORECASE]. *)
Definition chr_i (c : ascii) : re :=
  Cls (fun x => Ascii.eqb (PyStr.lower_char x) (PyStr.lower_char c)).
Definition any : re := Cls (fun _ => true).
Definition opt (r : re) : re := Alt Eps r.

Fixpoint lit (s : string) : re :=
  match s with
  | EmptyString => Eps
  | String c s' => Cat (chr c) (lit s')
  end.

Fixpoint lit_i (s : string) : re :=
  match s with
  | EmptyString => Eps
  | String c s' => Cat (chr_i c) (lit_i s')
  end.

(** [r{n}] *)
Fixpoint rep (n : nat) (r : re) : re :=
  match n with
  | O => Eps
  | S n' => Cat r (rep n' r)
  end.

(** [r{0,n}] *)
Fixpoint upto (n : nat) (r : re) : re :=
  match n with
  | O => Eps
  | S n' => opt (Cat r (upto n' r))
  end.

(** [r{lo,hi}] *)
Definition between (lo hi : nat) (r : re) : re :=
  Cat (rep lo r) (upto (hi - lo) r).

(** [$] at the end of a pattern: the end of the text, or just before a
    newline that ends the text. *)
Definition dollar : re := opt (chr PyStr.newline).

(** [re.compile("^" body "$").match(s)] *)
Definition match_anchored (body : re) (s : string) : bool :=
  fullmatch (Cat body dollar) s.

(** [re.search(r, s)]: some substring of [s] is in the language of [r]. *)
Definition search (r : re) (s : string) : bool :=
  fullmatch (Cat (Star any) (Cat r (Star any))) s.

(** [re.search(r"\bword\b", s, re.IGNORECASE)] for a [word] made of word
    characters: an occurrence that neither follows nor precedes a word
    character. *)
Definition search_word_i (word : string) (s : string) : bool :=
  let nonword := Cls (fun c => negb (PyStr.isword c)) in
  fullmatch
    (Cat (opt (Cat (Star any) nonword))
         (Cat (lit_i word) (opt (Cat nonword (Star any))))) s.

End Re.

(* ------------------------------------------------------------------ *)
(** ** Validators *)

(** [WALLET_RE = ^0x[a-fA-F0-9]{40}$] *)
Definition WALLET_RE : Re.re :=
  Re.Cat (Re.lit "0x") (Re.rep 40 (Re.Cls PyStr.ishex)).

(** [X_PROFILE_URL_RE =
     ^https?://(www\.)?(x\.com|twitter\.com)/[A-Za-z0-9_]{1,15}/?$] *)
Definition X_PROFILE_URL_RE : Re.re :=
  Re.Cat (Re.lit "http")
 (Re.Cat (Re.opt (Re.chr "s"))
 (Re.Cat (Re.lit "://")
 (Re.Cat (Re.opt (Re.lit "www."))
 (Re.Cat (Re.Alt (Re.lit "x.com") (Re.lit "twitter.com"))
 (Re.Cat (Re.chr "/")
 (Re.Cat (Re.between 1 15 (Re.Cls PyStr.isword))
         (Re.opt (Re.chr "/")))))))).

(** [TG_USERNAME_RE = ^@[A-Za-z0-9_]{5,32}$] *)
Definition TG_USERNAME_RE : Re.re :=
  Re.Cat (Re.chr "@") (Re.between 5 32 (Re.Cls PyStr.isword)).

(** [https?://|www\.] under [re.IGNORECASE] *)
Definition LINK_RE : Re.re :=
  Re.Alt (Re.Cat (Re.lit_i "http") (Re.Cat (Re.opt (Re.chr_i "s")) (Re.lit "://")))
         (Re.lit_i "www.").

(** [validate(validator, text) -> (ok, error message, normalized text)] *)
Definition validate (validator text : string) : bool * string * string :=
  if String.eqb validator "x_profile" then
    if Re.match_anchored X_PROFILE_URL_RE text then (true, "", text)
    else (false, "Please send your X profile link like https://x.com/username", text)
  else if String.eqb validator "tg_username" then
    if Re.match_anchored TG_USERNAME_RE text then (true, "", text)
    else (false, "Please send your Telegram username starting with @ (e.g., @myname).", text)
  else if String.eqb validator "recipe_text" then
    let t := PyStr.strip text in
    if PyStr.len t <? 200 then
      (false, "Please send a longer recipe (min 200 characters). Include Ingredients + Steps.", t)
    else if Re.search LINK_RE t then
      (false, "Please do not include links in your recipe.", t)
    else
      let has_en :=
        (Re.search_word_i "ingredients" t &&
         (Re.search_word_i "steps" t || Re.search_word_i "directions" t
          || Re.search_word_i "method" t))%bool in
      if negb has_en then
        (false, "Please include sections: Ingredients + Steps.", t)
      else (true, "", t)
  else (true, "", text).

(* ------------------------------------------------------------------ *)
(** ** Exceptions

    What a handler can raise and does not catch itself. *)

Inductive exn : Type :=
| IntegrityError      (* sqlite3: a uniqueness constraint failed *)
| OverflowError       (* datetime: date value out of range;
                         sqlite3: an integer that does not fit 64 bits *)
| TypeError           (* subscripting [None] *)
| IndexError          (* list index out of range *)
| OperationalError.   (* sqlite3: integer overflow in [SUM] *)

Inductive res (A : Type) : Type :=
| Ok : A -> res A
| Raise : exn -> res A.

Arguments Ok {A} _.
Arguments Raise {A} _.

Definition bind {A B : Type} (m : res A) (k : A -> res B) : res B :=
  match m with
  | Ok a => k a
  | Raise e => Raise e
  end.

Notation "'let*' x ':=' m 'in' k" := (bind m (fun x => k))
  (at level 10, x pattern, m at level 100, k at level 200).

(* ------------------------------------------------------------------ *)
(** ** The calendar of [datetime.date]

    A date is its proleptic Gregorian ordinal, as [date.toordinal] gives
    it: day 1 is 0001-01-01 ([date.min]) and day 3652059 is 9999-12-31
    ([date.max]).  The conversions are those of the [datetime] module. *)

Module Calendar.

Definition date : Type := Z.

Definition MINYEAR : Z := 1.
Definition MAXYEAR : Z := 9999.
Definition min_ordinal : Z := 1.
Definition max_ordinal : Z := 3652059.

Definition is_leap (year : Z) : bool :=
  ((year mod 4 =? 0) && (negb (year mod 100 =? 0) || (year mod 400 =? 0)))%bool.

Definition days_before_year (year : Z) : Z :=
  let y := year - 1 in y * 365 + y / 4 - y / 100 + y / 400.

Definition DAYS_IN_MONTH (month : Z) : Z :=
  match month with
  | 1 => 31 | 2 => 28 | 3 => 31 | 4 => 30 | 5 => 31 | 6 => 30
  | 7 => 31 | 8 => 31 | 9 => 30 | 10 => 31 | 11 => 30 | 12 => 31
  | _ => -1
  end.

Definition DAYS_BEFORE_MONTH (month : Z) : Z :=
  match month with
  | 1 => 0 | 2 => 31 | 3 => 59 | 4 => 90 | 5 => 120 | 6 => 151
  | 7 => 181 | 8 => 212 | 9 => 243 | 10 => 273 | 11 => 304 | 12 => 334
  | _ => -1
  end.

Definition days_in_month (year month : Z) : Z :=
  if ((month =? 2) && is_leap year)%bool then 29 else DAYS_IN_MONTH month.

Definition days_before_month (year month : Z) : Z :=
  DAYS_BEFORE_MONTH month + (if ((2 <? month) && is_leap year)%bool then 1 else 0).

Definition ymd2ord (year month day : Z) : Z :=
  days_before_year year + days_before_month year month + day.

Definition DI400Y : Z := 146097.
Definition DI100Y : Z := 36524.
Definition DI4Y : Z := 1461.

Definition ord2ymd (n0 : Z) : Z * Z * Z :=
  let n := n0 - 1 in
  let n400 := n / DI400Y in
  let n := n mod DI400Y in
  let year := n400 * 400 + 1 in
  let n100 := n / DI100Y in
  let n := n mod DI100Y in
  let n4 := n / DI4Y in
  let n := n mod DI4Y in
  let n1 := n / 365 in
  let n := n mod 365 in
  let year := year + n100 * 100 + n4 * 4 + n1 in
  if ((n1 =? 4) || (n100 =? 4))%bool then (year - 1, 12, 31)
  else
    let leapyear := ((n1 =? 3) && (negb (n4 =? 24) || (n100 =? 3)))%bool in
    let month := Z.shiftr (n + 50) 5 in
    let preceding :=
      DAYS_BEFORE_MONTH month + (if ((2 <? month) && leapyear)%bool then 1 else 0) in
    if n <? preceding then
      let month := month - 1 in
      let preceding :=
        preceding - (DAYS_IN_MONTH month
                     + (if ((month =? 2) && leapyear)%bool then 1 else 0)) in
      (year, month, n - preceding + 1)
    else (year, month, n - preceding + 1).

(** [date(year, month, day)]; [None] stands for its [ValueError]. *)
Definition make_date (year month day : Z) : option date :=
  if ((MINYEAR <=? year) && (year <=? MAXYEAR) &&
      (1 <=? month) && (month <=? 12) &&
      (1 <=? day) && (day <=? days_in_month year month))%bool
  then Some (ymd2ord year month day) else None.

(** [d - timedelta(days=1)] *)
Definition minus_one_day (d : date) : res date :=
  if d - 1 <? min_ordinal then Raise OverflowError else Ok (d - 1).

(** Decimal, zero-padded on the left to [width] characters. *)
Fixpoint zeros (n : nat) : string :=
  match n with
  | O => EmptyString
  | S n' => String "0" (zeros n')
  end.

Definition zpad (width : nat) (n : Z) : string :=
  let s := PyStr.of_int n in
  zeros (width - String.length s) ++ s.

(** [d.strftime("%Y-%m-%d")].  The year is written with four digits; the
    dates formatted by the program come from the clock, and for the years
    from 1000 on every platform prints them so. *)
Definition strftime_ymd (d : date) : string :=
  let '(y, m, dd) := ord2ymd d in
  zpad 4 y ++ "-" ++ zpad 2 m ++ "-" ++ zpad 2 dd.

Definition digit (c : ascii) : Z := Z.of_nat (PyStr.ord c) - 48.

(** The alternatives of the directive [%m], [1[0-2]|0[1-9]|[1-9]], in the
    order the matcher tries them, each with the text left after it. *)
Definition month_alts (s : string) : list (Z * string) :=
  match s with
  | String a r =>
      (match r with
       | String b r' =>
           (if (Ascii.eqb a "1" && PyStr.in_range 48 50 b)%bool
            then [(10 + digit b, r')] else [])
           ++ (if (Ascii.eqb a "0" && PyStr.in_range 49 57 b)%bool
               then [(digit b, r')] else [])
       | EmptyString => []
       end)
      ++ (if PyStr.in_range 49 57 a then [(digit a, r)] else [])
  | EmptyString => []
  end.

(** The alternatives of [%d], [3[0-1]|[1-2]\d|0[1-9]|[1-9]| [1-9]]. *)
Definition day_alts (s : string) : list (Z * string) :=
  match s with
  | String a r =>
      (match r with
       | String b r' =>
           (if (Ascii.eqb a "3" && PyStr.in_range 48 49 b)%bool
            then [(30 + digit b, r')] else [])
           ++ (if (PyStr.in_range 49 50 a && PyStr.isdigit b)%bool
               then [(10 * digit a + digit b, r')] else [])
           ++ (if (Ascii.eqb a "0" && PyStr.in_range 49 57 b)%bool
               then [(digit b, r')] else [])
       | EmptyString => []
       end)
      ++ (if PyStr.in_range 49 57 a then [(digit a, r)] else [])
      ++ (match r with
          | String b r' =>
              if (Ascii.eqb a " " && PyStr.in_range 49 57 b)%bool
              then [(digit b, r')] else []
          | EmptyString => []
          end)
  | EmptyString => []
  end.

(** The matcher keeps the first alternative of [%m] after which the
    literal [-] and some alternative of [%d] match; that alternative of
    [%d] is the first one that matches, and text left over after it is the
    [ValueError] [unconverted data remains]. *)
Fixpoint first_month (alts : list (Z * string)) : option (Z * Z) :=
  match alts with
  | [] => None
  | (m, r) :: rest =>
      match r with
      | String c r' =>
          if Ascii.eqb c "-" then
            match day_alts r' with
            | (d, EmptyString) :: _ => Some (m, d)
            | (_, String _ _) :: _ => None
            | [] => first_month rest
            end
          else first_month rest
      | EmptyString => first_month rest
      end
  end.

(** [datetime.strptime(s, "%Y-%m-%d").date()]; [None] stands for the
    [ValueError] of a text that does not match or is not a date. *)
Definition strptime_ymd (s : string) : option date :=
  match s with
  | String y1 (String y2 (String y3 (String y4 (String dash r)))) =>
      if (PyStr.isdigit y1 && PyStr.isdigit y2 && PyStr.isdigit y3
          && PyStr.isdigit y4 && Ascii.eqb dash "-")%bool
      then
        match first_month (month_alts r) with
        | Some (m, d) =>
            make_date (1000 * digit y1 + 100 * digit y2 + 10 * digit y3 + digit y4) m d
        | None => None
        end
      else None
  | _ => None
  end.

End Calendar.

(* ------------------------------------------------------------------ *)
(** ** The content digest: [hashlib.sha256(...).hexdigest()]

    SHA-256 as in FIPS 180-4, on the bytes of the text; 32-bit words are
    integers reduced modulo [2^32]. *)

Module Sha256.

Definition mask32 : Z := 0xffffffff.
Definition w32 (x : Z) : Z := Z.land x mask32.
Definition add32 (a b : Z) : Z := w32 (a + b).
Definition rotr (n x : Z) : Z :=
  Z.lor (Z.shiftr x n) (w32 (Z.shiftl x (32 - n))).
Definition shr (n x : Z) : Z := Z.shiftr x n.

Definition Ch (x y z : Z) : Z :=
  Z.lxor (Z.land x y) (Z.land (Z.lxor x mask32) z).
Definition Maj (x y z : Z) : Z :=
  Z.lxor (Z.lxor (Z.land x y) (Z.land x z)) (Z.land y z).
Definition bsig0 (x : Z) : Z := Z.lxor (Z.lxor (rotr 2 x) (rotr 13 x)) (rotr 22 x).
Definition bsig1 (x : Z) : Z := Z.lxor (Z.lxor (rotr 6 x) (rotr 11 x)) (rotr 25 x).
Definition ssig0 (x : Z) : Z := Z.lxor (Z.lxor (rotr 7 x) (rotr 18 x)) (shr 3 x).
Definition ssig1 (x : Z) : Z := Z.lxor (Z.lxor (rotr 17 x) (rotr 19 x)) (shr 10 x).

(** The first primes, by trial division: [n] is kept when no prime found
    so far divides it. *)
Fixpoint primes_from (count : nat) (n : Z) (found : list Z) : list Z :=
  match count with
  | O => found
  | S count' =>
      primes_from count' (n + 1)
        (if forallb (fun p => negb (n mod p =? 0)) found
         then (found ++ [n])%list else found)
  end.

(** The sixty-four primes from 2 to 311. *)
Definition primes : list Z := Eval vm_compute in primes_from 310 2 [].

(** The integer cube root, one bit at a time from bit [bits - 1] down. *)
Fixpoint cube_root_bits (bits : nat) (x r : Z) : Z :=
  match bits with
  | O => r
  | S bits' =>
      let c := r + 2 ^ Z.of_nat bits' in
      cube_root_bits bits' x (if c * c * c <=? x then c else r)
  end.

Definition cube_root (x : Z) : Z := cube_root_bits 40 x 0.

(** The round constants: the first 32 bits of the fractional parts of the
    cube roots of the primes. *)
Definition K : list Z :=
  Eval vm_compute in map (fun p => w32 (cube_root (p * 2 ^ 96))) primes.

(** The initial hash value: the first 32 bits of the fractional parts of
    the square roots of the first eight primes. *)
Definition H0 : list Z :=
  Eval vm_compute in map (fun p => w32 (Z.sqrt (p * 2 ^ 64))) (firstn 8 primes).

Definition bytes_of (s : string) : list Z :=
  map (fun c => Z.of_nat (nat_of_ascii c)) (list_ascii_of_string s).

(** Big-endian bytes of [x], [n] of them. *)
Fixpoint be_bytes (n : nat) (x : Z) : list Z :=
  match n with
  | O => []
  | S n' => Z.land (Z.shiftr x (8 * Z.of_nat n')) 0xff :: be_bytes n' x
  end.

(** The message, the byte [0x80], zero bytes up to 56 modulo 64, and the
    length in bits on 8 bytes. *)
Definition pad (msg : list Z) : list Z :=
  let l := Z.of_nat (List.length msg) in
  let k := Z.to_nat ((55 - l) mod 64) in
  msg ++ [0x80] ++ repeat 0 k ++ be_bytes 8 (8 * l).

Fixpoint words (n : nat) (bs : list Z) : list Z :=
  match n, bs with
  | S n', b0 :: b1 :: b2 :: b3 :: rest =>
      (Z.shiftl b0 24 + Z.shiftl b1 16 + Z.shiftl b2 8 + b3) :: words n' rest
  | _, _ => []
  end.

(** The message schedule: [t] more words after the ones in [w]. *)
Fixpoint schedule (t : nat) (w : list Z) : list Z :=
  match t with
  | O => w
  | S t' =>
      let n := List.length w in
      let at_ (k : nat) := nth (n - k) w 0 in
      schedule t'
        (w ++ [add32 (add32 (ssig1 (at_ 2%nat)) (at_ 7%nat))
                     (add32 (ssig0 (at_ 15%nat)) (at_ 16%nat))])
  end.

Definition round (st : list Z) (kw : Z * Z) : list Z :=
  match st with
  | [a; b; c; d; e; f; g; h] =>
      let t1 := add32 (add32 (add32 h (bsig1 e)) (add32 (Ch e f g) (fst kw))) (snd kw) in
      let t2 := add32 (bsig0 a) (Maj a b c) in
      [add32 t1 t2; a; b; c; add32 d t1; e; f; g]
  | _ => st
  end.

Definition compress (h : list Z) (block : list Z) : list Z :=
  let w := schedule 48 (words 16 block) in
  let st := fold_left round (combine K w) h in
  map (fun p => add32 (fst p) (snd p)) (combine h st).

Fixpoint blocks (n : nat) (h : list Z) (bs : list Z) : list Z :=
  match n with
  | O => h
  | S n' => blocks n' (compress h (firstn 64 bs)) (skipn 64 bs)
  end.

Definition digest (msg : list Z) : list Z :=
  let p := pad msg in
  blocks (List.length p / 64) H0 p.

Definition hex_char (n : Z) : ascii :=
  if n <? 10 then ascii_of_nat (Z.to_nat (48 + n))
  else ascii_of_nat (Z.to_nat (87 + n)).

Fixpoint hex (n : nat) (x : Z) : string :=
  match n with
  | O => EmptyString
  | S n' => String (hex_char (Z.land (Z.shiftr x (4 * Z.of_nat n')) 0xf)) (hex n' x)
  end.

(** [hashlib.sha256(s.encode("utf-8")).hexdigest()] *)
Definition hexdigest (s : string) : string :=
  String.concat "" (map (hex 8) (digest (bytes_of s))).

End Sha256.

(* ------------------------------------------------------------------ *)
(** ** Campaign configuration ([config.json], read once at start-up) *)

(** An entry of [MISSIONS], with the conversions the handlers apply:
    [int(m.get("points", 0))], [int(m.get("delay_minutes", 0) or 0)],
    [m.get("validator", "")]. *)
Record mission : Type := mkMission {
  mission_id : string;
  mission_points : Z;
  mission_delay_minutes : Z;
  mission_validator : string;
}.

Record config : Type := mkConfig {
  MENU_terms : option string;
  MENU_chat : option string;
  MENU_bonus : option string;
  MENU_balance : option string;
  MENU_connect_wallet : option string;
  POINT_WALLET_REGISTER : Z;
  POINT_REFERRAL_QUALIFIED : Z;
  POINT_DAILY_CHECKIN : Z;
  RAW_STREAK_BONUSES : list (Z * Z);      (* (days, points) *)
  MISSIONS : list mission;
}.

(** [list.sort(key=days)]: a stable insertion sort; of two rules with
    the same [days], the one that comes first in the file stays first. *)
Fixpoint insert_by_days (r : Z * Z) (l : list (Z * Z)) : list (Z * Z) :=
  match l with
  | [] => [r]
  | x :: l' => if fst r <=? fst x then r :: l else x :: insert_by_days r l'
  end.

Definition sort_by_days (l : list (Z * Z)) : list (Z * Z) :=
  fold_right insert_by_days [] l.

(** [STREAK_BONUSES]: the rules with [days > 0] and [points != 0], sorted
    by [days]. *)
Definition STREAK_BONUSES (cfg : config) : list (Z * Z) :=
  sort_by_days
    (filter (fun r => ((0 <? fst r) && negb (snd r =? 0))%bool)
            (RAW_STREAK_BONUSES cfg)).

(** [get_mission(mission_id)] *)
Definition get_mission (cfg : config) (mid : string) : option mission :=
  find (fun m => String.eqb (mission_id m) mid) (MISSIONS cfg).

(* ------------------------------------------------------------------ *)
(** ** The relational store *)

Record user_row : Type := mkUser {
  user_id : Z;
  username : option string;
  ref_code : string;
  referred_by : option Z;
  wallet_address : option string;
  wallet_pending : option string;
  wallet_change_count : Z;
  state : option string;
}.

Inductive json : Type :=
| JStr : string -> json
| JInt : Z -> json
| JBool : bool -> json.

Record ledger_row : Type := mkLedger {
  ledger_user_id : Z;
  unique_key : string;
  type : string;
  amount : Z;
  meta : list (string * json);
}.

Record submission_row : Type := mkSubmission {
  submission_user_id : Z;
  submission_mission_id : string;
  payload : string;
}.

Record fingerprint_row : Type := mkFingerprint {
  fingerprint_mission_id : string;
  fingerprint : string;
  fingerprint_user_id : Z;
}.

Record pending_row : Type := mkPending {
  pending_user_id : Z;
  pending_mission_id : string;
  pending_unique_key : string;
  pending_amount : Z;
  available_at_ts : Z;
}.

Record db : Type := mkDb {
  users : list user_row;
  ledger : list ledger_row;
  submissions : list submission_row;
  recipe_fingerprints : list fingerprint_row;
  pending_rewards : list pending_row;
}.

Definition empty_db : db := mkDb [] [] [] [] [].

Definition with_users (d : db) (us : list user_row) : db :=
  mkDb us (ledger d) (submissions d) (recipe_fingerprints d) (pending_rewards d).
Definition with_ledger (d : db) (l : list ledger_row) : db :=
  mkDb (users d) l (submissions d) (recipe_fingerprints d) (pending_rewards d).
Definition with_submissions (d : db) (l : list submission_row) : db :=
  mkDb (users d) (ledger d) l (recipe_fingerprints d) (pending_rewards d).
Definition with_fingerprints (d : db) (l : list fingerprint_row) : db :=
  mkDb (users d) (ledger d) (submissions d) l (pending_rewards d).
Definition with_pending (d : db) (l : list pending_row) : db :=
  mkDb (users d) (ledger d) (submissions d) (recipe_fingerprints d) l.

(** [UPDATE users SET ... WHERE user_id = ?] *)
Definition update_user (d : db) (uid : Z) (f : user_row -> user_row) : db :=
  with_users d (map (fun u => if user_id u =? uid then f u else u) (users d)).

Definition set_username (n : option string) (u : user_row) : user_row :=
  mkUser (user_id u) n (ref_code u) (referred_by u) (wallet_address u)
         (wallet_pending u) (wallet_change_count u) (state u).
Definition set_referred_by (r : option Z) (u : user_row) : user_row :=
  mkUser (user_id u) (username u) (ref_code u) r (wallet_address u)
         (wallet_pending u) (wallet_change_count u) (state u).
Definition set_wallet_address (w : option string) (u : user_row) : user_row :=
  mkUser (user_id u) (username u) (ref_code u) (referred_by u) w
         (wallet_pending u) (wallet_change_count u) (state u).
Definition set_wallet_pending (w : option string) (u : user_row) : user_row :=
  mkUser (user_id u) (username u) (ref_code u) (referred_by u) (wallet_address u)
         w (wallet_change_count u) (state u).
Definition set_wallet_change_count (n : Z) (u : user_row) : user_row :=
  mkUser (user_id u) (username u) (ref_code u) (referred_by u) (wallet_address u)
         (wallet_pending u) n (state u).
Definition set_user_state (s : option string) (u : user_row) : user_row :=
  mkUser (user_id u) (username u) (ref_code u) (referred_by u) (wallet_address u)
         (wallet_pending u) (wallet_change_count u) s.

(** [get_user(user_id)]: [SELECT * FROM users WHERE user_id = ?], first row. *)
Definition get_user (d : db) (uid : Z) : option user_row :=
  find (fun u => user_id u =? uid) (users d).

(** [find_user_by_ref_code(ref_code)] *)
Definition find_user_by_ref_code (d : db) (code : string) : option user_row :=
  find (fun u => String.eqb (ref_code u) code) (users d).

(** [ensure_user(user_id, username)].  [token] is the value of
    [secrets.token_urlsafe(8)]; the [INSERT] of a new row fails on the
    [UNIQUE] column [ref_code], and nothing catches that. *)
Definition ensure_user (d : db) (uid : Z) (name : option string) (token : string)
  : res db :=
  match get_user d uid with
  | Some _ => Ok (update_user d uid (set_username name))
  | None =>
      let code := PyStr.remove_char "_" (PyStr.remove_char "-" token) in
      if existsb (fun u => String.eqb (ref_code u) code) (users d)
      then Raise IntegrityError
      else Ok (with_users d
                 (users d ++ [mkUser uid name code None None None 0 None])%list)
  end.

(** [set_referred_by_if_empty(user_id, referrer_id)] *)
Definition set_referred_by_if_empty (d : db) (uid referrer : Z) : db :=
  if uid =? referrer then d
  else
    match get_user d uid with
    | Some row =>
        match referred_by row with
        | None => update_user d uid (set_referred_by (Some referrer))
        | Some _ => d
        end
    | None => d
    end.

(** [set_state(user_id, state)] *)
Definition set_state (d : db) (uid : Z) (st : option string) : db :=
  update_user d uid (set_user_state st).

(** A ledger row of [uid] under [key]: what [UNIQUE(user_id, unique_key)]
    forbids to insert again. *)
Definition ledger_has (l : list ledger_row) (uid : Z) (key : string) : bool :=
  existsb (fun r => ((ledger_user_id r =? uid) && String.eqb (unique_key r) key)%bool) l.

(** [add_points_once(user_id, unique_key, typ, amount, meta) -> bool] *)
Definition add_points_once (d : db) (uid : Z) (key typ : string) (amt : Z)
    (m : list (string * json)) : db * bool :=
  if ledger_has (ledger d) uid key then (d, false)
  else (with_ledger d (ledger d ++ [mkLedger uid key typ amt m])%list, true).

Definition pending_has (l : list pending_row) (uid : Z) (mid : string) : bool :=
  existsb (fun r => ((pending_user_id r =? uid)
                     && String.eqb (pending_mission_id r) mid)%bool) l.

(** [add_pending_reward(user_id, mission_id, unique_key, amount,
    delay_minutes) -> (ok, available_at_ts)]; [now] is [int(time.time())]. *)
Definition add_pending_reward (d : db) (now : Z) (uid : Z) (mid key : string)
    (amt delay_minutes : Z) : db * (bool * Z) :=
  let available := now + delay_minutes * 60 in
  if pending_has (pending_rewards d) uid mid then (d, (false, available))
  else (with_pending d (pending_rewards d ++ [mkPending uid mid key amt available])%list,
        (true, available)).

(** [DELETE FROM pending_rewards WHERE user_id=? AND mission_id=?] *)
Definition delete_pending (d : db) (uid : Z) (mid : string) : db :=
  with_pending d
    (filter (fun r => negb ((pending_user_id r =? uid)
                            && String.eqb (pending_mission_id r) mid)%bool)
            (pending_rewards d)).

(** The rows [SELECT ... WHERE user_id=? AND available_at_ts<=?] returns. *)
Definition due_rows (d : db) (now uid : Z) : list pending_row :=
  filter (fun r => ((pending_user_id r =? uid) && (available_at_ts r <=? now))%bool)
         (pending_rewards d).

(** The body of the loop of [process_due_rewards]. *)
Definition settle_row (uid : Z) (acc : db * list (string * Z)) (r : pending_row)
  : db * list (string * Z) :=
  let '(d, credited) := acc in
  let mid := pending_mission_id r in
  let amt := pending_amount r in
  let '(d1, ok) :=
    add_points_once d uid (pending_unique_key r) ("mission:" ++ mid) amt
                    [("delayed", JBool true)] in
  let d2 := delete_pending d1 uid mid in
  (d2, if ok then (credited ++ [(mid, amt)])%list else credited).

(** [process_due_rewards(user_id) -> list of (mission_id, amount)] *)
Definition process_due_rewards (d : db) (now uid : Z) : db * list (string * Z) :=
  fold_left (settle_row uid) (due_rows d now uid) (d, []).

(** [get_points(user_id)]: [COALESCE(SUM(amount), 0)] over the user's rows. *)
Definition get_points (d : db) (uid : Z) : Z :=
  fold_right Z.add 0
    (map amount (filter (fun r => ledger_user_id r =? uid) (ledger d))).

(** [get_referral_counts(referrer_id) -> (total, qualified)] *)
Definition get_referral_counts (d : db) (referrer : Z) : Z * Z :=
  let referred :=
    filter (fun u => match referred_by u with
                     | Some r => r =? referrer
                     | None => false
                     end) (users d) in
  (Z.of_nat (List.length referred),
   Z.of_nat (List.length
     (filter (fun u => match wallet_address u with Some _ => true | None => false end)
             referred))).

(** [has_wallet(user_id)] *)
Definition has_wallet (d : db) (uid : Z) : bool :=
  match get_user d uid with
  | Some row => PyStr.truthy (wallet_address row)
  | None => false
  end.

(** SQLite's [LIKE]: [_] is any one character, [%] any text, and letters
    compare without regard to ASCII case. *)
Fixpoint like_re (pat : string) : Re.re :=
  match pat with
  | EmptyString => Re.Eps
  | String c pat' =>
      Re.Cat (if Ascii.eqb c "_" then Re.any
              else if Ascii.eqb c "%" then Re.Star Re.any
              else Re.chr_i c)
             (like_re pat')
  end.

Definition like (pat s : string) : bool := Re.fullmatch (like_re pat) s.

(** [get_checkin_dates(user_id) -> set of dates]; the set is the list of
    its elements, read through [In] and [date_in] only. *)
Definition get_checkin_dates (d : db) (uid : Z) : list Calendar.date :=
  let rows :=
    filter (fun r => ((ledger_user_id r =? uid)
                      && String.eqb (type r) "daily_checkin"
                      && like "daily_checkin:%" (unique_key r))%bool)
           (ledger d) in
  flat_map (fun r =>
              match PyStr.after_first ":" (unique_key r) with
              | Some ds =>
                  match Calendar.strptime_ymd ds with
                  | Some dt => [dt]
                  | None => []
                  end
              | None => []
              end) rows.

Definition date_in (x : Calendar.date) (dates : list Calendar.date) : bool :=
  existsb (Z.eqb x) dates.

(** The loop of [compute_streak]: [fuel] bounds the number of its turns. *)
Fixpoint streak_loop (fuel : nat) (dates : list Calendar.date)
    (streak : Z) (d : Calendar.date) : res Z :=
  if date_in d dates then
    match fuel with
    | O => Ok streak
    | S fuel' =>
        let* d' := Calendar.minus_one_day d in
        streak_loop fuel' dates (streak + 1) d'
    end
  else Ok streak.

(** [compute_streak(user_id, today_date)].  Each turn of the loop moves
    [d] one day back and [date.min] stops it, so [today]'s ordinal bounds
    the number of turns. *)
Definition compute_streak (d : db) (uid : Z) (today_date : Calendar.date) : res Z :=
  streak_loop (Z.to_nat today_date) (get_checkin_dates d uid) 0 today_date.

(** [\s+] replaced by one space: [in_run] tells whether the previous
    character was already white space. *)
Fixpoint collapse_ws (in_run : bool) (s : string) : string :=
  match s with
  | EmptyString => EmptyString
  | String c s' =>
      if PyStr.isspace c then
        if in_run then collapse_ws true s' else String " " (collapse_ws true s')
      else String c (collapse_ws false s')
  end.

(** [normalize_recipe_text(text)] *)
Definition normalize_recipe_text (text : string) : string :=
  collapse_ws false (PyStr.lower (PyStr.strip text)).

Definition fingerprint_has (l : list fingerprint_row) (mid fp : string) : bool :=
  existsb (fun r => (String.eqb (fingerprint_mission_id r) mid
                     && String.eqb (fingerprint r) fp)%bool) l.

(** [claim_recipe_fingerprint(mission_id, user_id, text) -> bool] *)
Definition claim_recipe_fingerprint (d : db) (mid : string) (uid : Z) (text : string)
  : db * bool :=
  let norm := normalize_recipe_text text in
  let fp := Sha256.hexdigest norm in
  if fingerprint_has (recipe_fingerprints d) mid fp then (d, false)
  else (with_fingerprints d (recipe_fingerprints d ++ [mkFingerprint mid fp uid])%list,
        true).

Definition submission_has (l : list submission_row) (uid : Z) (mid : string) : bool :=
  existsb (fun r => ((submission_user_id r =? uid)
                     && String.eqb (submission_mission_id r) mid)%bool) l.

(** The [INSERT INTO submissions] of [on_any_text], whose [IntegrityError]
    is passed over. *)
Definition record_submission (d : db) (uid : Z) (mid text : string) : db :=
  if submission_has (submissions d) uid mid then d
  else with_submissions d (submissions d ++ [mkSubmission uid mid text])%list.

(* ------------------------------------------------------------------ *)
(** ** Events and replies *)

(** What one event reads from outside the program. *)
Record event_env : Type := mkEnv {
  clock_settle : Z;            (* [int(time.time())] in [process_due_rewards] *)
  clock_schedule : Z;          (* [int(time.time())] in [add_pending_reward] *)
  today : Calendar.date;       (* [datetime.now(TZ).date()] *)
  token : string;              (* [secrets.token_urlsafe(8)] *)
  ai_answer : string;          (* what [call_recipe_ai] returns *)
}.

(** The messages sent back, one constructor per message of the source,
    with the values the message is built from. *)
Inductive reply : Type :=
| DelayedRewardsCredited (total : Z)
| ConnectWalletFirst
| AlreadyCheckedIn (streak : Z)
| CheckinComplete (points streak : Z) (bonus_lines : list (Z * Z))
| InviteLink (code : string)
| MissionNotFound
| MissionPrompt (mid : string)
| WalletChangeLimited
| EnterNewWallet
| WalletAlreadyRegistered
| NoPendingWallet
| WalletRegisteredByAnother
| WalletAlreadyTaken
| WalletRegistered (address : string)
| EnterWalletAgain
| NoExistingWallet
| NoPendingWalletChange
| SameWallet
| WalletUpdated (old new : string)
| EnterNewWalletAgain
| Welcome
| Terms
| BonusMenu
| WalletOnFile (address : string)
| EnterWallet
| Balance (points total_ref qualified_ref : Z)
| ChatIntro
| ChatAnswer (answer : string)
| WalletNotCorrect
| ConfirmWallet (address : string)
| ConfirmNewWallet (address : string)
| MissionNotConfigured
| ValidationFailed (err : string)
| RecipeAlreadySubmitted
| SavedPending (delay_minutes : Z)
| SavedAlreadyScheduled
| SavedWithPoints (points : Z)
| SavedAlreadyGranted
| UseMenu.

(** How the handling of an event ends: normally, or with an exception
    that nothing catches.  Each statement of the source commits its own
    change, so what was written before an exception stays written: both
    ends carry the store and the messages sent so far. *)
Inductive outcome : Type :=
| Done (r : db * list reply)
| Failed (e : exn) (r : db * list reply).

Definition final (o : outcome) : db * list reply :=
  match o with
  | Done r => r
  | Failed _ r => r
  end.

(** Go on with the value of [m], or fail where the handler stands. *)
Definition attempt {A : Type} (m : res A) (d : db) (out : list reply)
    (k : A -> outcome) : outcome :=
  match m with
  | Ok a => k a
  | Raise e => Failed e (d, out)
  end.

(** One more message after those already sent. *)
Definition say (out : list reply) (r : reply) : list reply := (out ++ [r])%list.

(** The built-in menu labels, as UTF-8 text: an emoji and a name. *)
Definition utf8 (bytes : list nat) : string :=
  string_of_list_ascii (map ascii_of_nat bytes).

Definition label_terms : string := utf8 [240; 159; 147; 132]%nat ++ " Terms".
Definition label_bonus : string := utf8 [240; 159; 146; 176]%nat ++ " Bonus".
Definition label_connect_wallet : string :=
  utf8 [240; 159; 166; 138]%nat ++ " Connect Wallet".
Definition label_balance : string := utf8 [240; 159; 143; 134]%nat ++ " Balance".
Definition label_chat : string := utf8 [240; 159; 164; 150]%nat ++ " Chat".

(** [MENU.get(key, default)] *)
Definition menu_get (o : option string) (default : string) : string :=
  match o with Some s => s | None => default end.

Definition is_terms (cfg : config) (text : string) : bool :=
  (String.eqb text (menu_get (MENU_terms cfg) label_terms)
   || String.eqb text "Terms" || String.eqb text label_terms)%bool.
Definition is_bonus (cfg : config) (text : string) : bool :=
  (String.eqb text (menu_get (MENU_bonus cfg) label_bonus)
   || String.eqb text "Bonus" || String.eqb text label_bonus)%bool.
Definition is_connect_wallet (cfg : config) (text : string) : bool :=
  (String.eqb text (menu_get (MENU_connect_wallet cfg) label_connect_wallet)
   || String.eqb text "Connect Wallet" || String.eqb text label_connect_wallet)%bool.
Definition is_balance (cfg : config) (text : string) : bool :=
  (String.eqb text (menu_get (MENU_balance cfg) label_balance)
   || String.eqb text "Balance" || String.eqb text label_balance)%bool.
Definition is_chat (cfg : config) (text : string) : bool :=
  String.eqb text (menu_get (MENU_chat cfg) label_chat).

(** Some other user's active wallet is [address]:
    [SELECT user_id FROM users WHERE wallet_address = ? AND user_id != ?],
    and what the unique index on [wallet_address] refuses. *)
Definition wallet_of_another (d : db) (address : string) (uid : Z) : bool :=
  existsb (fun u => (match wallet_address u with
                     | Some w => String.eqb w address
                     | None => false
                     end && negb (user_id u =? uid))%bool) (users d).

(** The sum of the amounts [process_due_rewards] reports. *)
Definition total_credited (newly : list (string * Z)) : Z :=
  fold_right Z.add 0 (map snd newly).

(** The key of a daily check-in and of a streak bonus, as [on_callback]
    builds them. *)
Definition checkin_key (today_str : string) : string :=
  "daily_checkin:" ++ today_str.
Definition streak_bonus_key (days : Z) (today_str : string) : string :=
  "streak_bonus:" ++ PyStr.of_int days ++ ":" ++ today_str.
Definition mission_key (mid : string) : string := "mission:" ++ mid.
Definition referral_key (uid : Z) : string := "referral:" ++ PyStr.of_int uid.

(** One turn of the loop over [STREAK_BONUSES] in the check-in branch. *)
Definition grant_streak_bonus (uid streak : Z) (today_str : string)
    (acc : db * list (Z * Z)) (rule : Z * Z) : db * list (Z * Z) :=
  let '(d, bonus_lines) := acc in
  if streak =? fst rule then
    let '(d1, ok) :=
      add_points_once d uid (streak_bonus_key (fst rule) today_str) "streak_bonus"
        (snd rule) [("days", JInt (fst rule)); ("date", JStr today_str)] in
    (d1, if ok then (bonus_lines ++ [rule])%list else bonus_lines)
  else acc.

(** The branch [data == "daily_checkin"] of [on_callback]. *)
Definition daily_checkin (cfg : config) (env : event_env) (d : db)
    (user_row : user_row) (out : list reply) : outcome :=
  let uid := user_id user_row in
  if negb (PyStr.truthy (wallet_address user_row)) then
    Done (d, say out ConnectWalletFirst)
  else
    let today_date := today env in
    let today_str := Calendar.strftime_ymd today_date in
    let '(d1, awarded) :=
      add_points_once d uid (checkin_key today_str) "daily_checkin"
        (POINT_DAILY_CHECKIN cfg) [("date", JStr today_str)] in
    attempt (compute_streak d1 uid today_date) d1 out (fun streak =>
    if negb awarded then Done (d1, say out (AlreadyCheckedIn streak))
    else
      let '(d2, bonus_lines) :=
        fold_left (grant_streak_bonus uid streak today_str)
                  (STREAK_BONUSES cfg) (d1, []) in
      Done (d2, say out (CheckinComplete (POINT_DAILY_CHECKIN cfg) streak bonus_lines))).

(** The branch [data.startswith("mission:")] of [on_callback]. *)
Definition choose_mission (cfg : config) (d : db) (user_row : user_row)
    (data : string) (out : list reply) : outcome :=
  let uid := user_id user_row in
  if negb (PyStr.truthy (wallet_address user_row)) then
    Done (d, say out ConnectWalletFirst)
  else
    match PyStr.after_first ":" data with
    | None => Failed IndexError (d, out)
    | Some mid =>
        match get_mission cfg mid with
        | None => Done (d, say out MissionNotFound)
        | Some _ =>
            Done (set_state d uid (Some ("MISSION:" ++ mid)), say out (MissionPrompt mid))
        end
    end.

(** The branch [data == "wallet_change"]. *)
Definition wallet_change (d : db) (user_row : user_row) (out : list reply) : outcome :=
  let uid := user_id user_row in
  if negb (PyStr.truthy (wallet_address user_row)) then
    Done (d, say out ConnectWalletFirst)
  else if 1 <=? wallet_change_count user_row then
    Done (d, say out WalletChangeLimited)
  else
    Done (update_user d uid
            (fun u => set_wallet_pending None
                        (set_user_state (Some "AWAIT_WALLET_CHANGE") u)),
          say out EnterNewWallet).

(** [if referred_by:] *)
Definition referrer_of (row : user_row) : option Z :=
  match referred_by row with
  | Some r => if r =? 0 then None else Some r
  | None => None
  end.

(** The branch [data == "wallet_confirm"]. *)
Definition wallet_confirm (cfg : config) (d : db) (uid : Z) (out : list reply)
  : outcome :=
  match get_user d uid with
  | None => Done (d, out)
  | Some dbrow =>
      if PyStr.truthy (wallet_address dbrow) then
        Done (d, say out WalletAlreadyRegistered)
      else
        match wallet_pending dbrow with
        | Some (String c p) =>
            let pending := String c p in
            if wallet_of_another d pending uid then
              Done (d, say out WalletRegisteredByAnother)
            else if wallet_of_another d pending uid then
              (* the [IntegrityError] of the [UPDATE], caught: the unique
                 index refuses what the [SELECT] above looks for *)
              Done (d, say out WalletAlreadyTaken)
            else
              let d1 :=
                update_user d uid
                  (fun u => set_user_state None
                              (set_wallet_pending None
                                 (set_wallet_address (Some pending) u))) in
              let '(d2, _) :=
                add_points_once d1 uid "wallet_register" "wallet_register"
                                (POINT_WALLET_REGISTER cfg) [] in
              let d3 :=
                match referrer_of dbrow with
                | Some r =>
                    fst (add_points_once d2 r (referral_key uid)
                           "referral_wallet_connected"
                           (POINT_REFERRAL_QUALIFIED cfg)
                           [("referred_user_id", JInt uid)])
                | None => d2
                end in
              Done (d3, say out (WalletRegistered pending))
        | _ => Done (d, say out NoPendingWallet)
        end
  end.

(** The branch [data == "wallet_change_confirm"]. *)
Definition wallet_change_confirm (d : db) (uid : Z) (out : list reply) : outcome :=
  match get_user d uid with
  | None => Done (d, out)
  | Some dbrow =>
      match wallet_address dbrow with
      | Some (String c0 w0) =>
          let old_wallet := String c0 w0 in
          match wallet_pending dbrow with
          | Some (String c p) =>
              let pending := String c p in
              if String.eqb pending old_wallet then
                Done (d, say out SameWallet)
              else if wallet_of_another d pending uid then
                Done (d, say out WalletRegisteredByAnother)
              else if wallet_of_another d pending uid then
                (* the [IntegrityError] of the [UPDATE], not caught here *)
                Failed IntegrityError (d, out)
              else
                Done (update_user d uid
                        (fun u => set_wallet_change_count (wallet_change_count u + 1)
                                    (set_user_state None
                                       (set_wallet_pending None
                                          (set_wallet_address (Some pending) u)))),
                      say out (WalletUpdated old_wallet pending))
          | _ => Done (d, say out NoPendingWalletChange)
          end
      | _ => Done (d, say out NoExistingWallet)
      end
  end.

(** What every event but [/start] begins with: [ensure_user], [get_user],
    and [process_due_rewards] with its message; [k] is the rest of the
    handler. *)
Definition prelude (env : event_env) (d : db) (uid : Z) (name : option string)
    (k : db -> user_row -> list reply -> outcome) : outcome :=
  attempt (ensure_user d uid name (token env)) d [] (fun d1 =>
  match get_user d1 uid with
  | None => Failed TypeError (d1, [])
  | Some row =>
      let '(d2, newly) := process_due_rewards d1 (clock_settle env) uid in
      k d2 row
        match newly with
        | [] => []
        | _ :: _ => [DelayedRewardsCredited (total_credited newly)]
        end
  end).

(** [on_callback]: a button press carrying [data]. *)
Definition on_callback (cfg : config) (env : event_env) (d : db)
    (uid : Z) (name : option string) (q_data : option string) : outcome :=
  let data := PyStr.or_empty q_data in
  prelude env d uid name (fun d user_row out =>
  if String.eqb data "daily_checkin" then daily_checkin cfg env d user_row out
  else if String.eqb data "invite_friend" then
    if negb (PyStr.truthy (wallet_address user_row)) then
      Done (d, say out ConnectWalletFirst)
    else Done (d, say out (InviteLink (ref_code user_row)))
  else if PyStr.startswith "mission:" data then choose_mission cfg d user_row data out
  else if String.eqb data "wallet_change" then wallet_change d user_row out
  else if String.eqb data "wallet_confirm" then wallet_confirm cfg d uid out
  else if String.eqb data "wallet_retry" then
    Done (update_user d uid
            (fun u => set_user_state (Some "AWAIT_WALLET") (set_wallet_pending None u)),
          say out EnterWalletAgain)
  else if String.eqb data "wallet_change_confirm" then wallet_change_confirm d uid out
  else if String.eqb data "wallet_change_retry" then
    Done (update_user d uid
            (fun u => set_user_state (Some "AWAIT_WALLET_CHANGE")
                        (set_wallet_pending None u)),
          say out EnterNewWalletAgain)
  else Done (d, out)).

(** [start]: the [/start] command with its arguments. *)
Definition start (env : event_env) (d : db) (uid : Z) (name : option string)
    (args : list string) : outcome :=
  attempt (ensure_user d uid name (token env)) d [] (fun d1 =>
  let d2 :=
    match args with
    | a :: _ =>
        match find_user_by_ref_code d1 (PyStr.strip a) with
        | Some ref_user => set_referred_by_if_empty d1 uid (user_id ref_user)
        | None => d1
        end
    | [] => d1
    end in
  Done (d2, [Welcome])).

(** The menu handlers [bonus], [connect_wallet], [balance] and
    [ai_chat_start], as [on_any_text] calls them. *)
Definition bonus (env : event_env) (d : db) (uid : Z) (name : option string)
    (out : list reply) : outcome :=
  attempt (ensure_user d uid name (token env)) d out (fun d1 =>
  if negb (has_wallet d1 uid) then Done (d1, say out ConnectWalletFirst)
  else Done (d1, say out BonusMenu)).

Definition connect_wallet (env : event_env) (d : db) (uid : Z)
    (name : option string) (out : list reply) : outcome :=
  attempt (ensure_user d uid name (token env)) d out (fun d1 =>
  match get_user d1 uid with
  | None => Failed TypeError (d1, out)
  | Some row =>
      match wallet_address row with
      | Some (String c w) => Done (d1, say out (WalletOnFile (String c w)))
      | _ => Done (set_state d1 uid (Some "AWAIT_WALLET"), say out EnterWallet)
      end
  end).

Definition balance (env : event_env) (d : db) (uid : Z) (name : option string)
    (out : list reply) : outcome :=
  attempt (ensure_user d uid name (token env)) d out (fun d1 =>
  if negb (has_wallet d1 uid) then Done (d1, say out ConnectWalletFirst)
  else
    let '(total_ref, qualified_ref) := get_referral_counts d1 uid in
    Done (d1, say out (Balance (get_points d1 uid) total_ref qualified_ref))).

Definition ai_chat_start (env : event_env) (d : db) (uid : Z)
    (name : option string) (out : list reply) : outcome :=
  attempt (ensure_user d uid name (token env)) d out (fun d1 =>
  Done (set_state d1 uid (Some "AI_CHAT"), say out ChatIntro)).

(** The wallet-input branches of [on_any_text]: the address is staged in
    [wallet_pending]. *)
Definition stage_wallet (d : db) (uid : Z) (text : string) (confirm : string -> reply)
    (out : list reply) : outcome :=
  if negb (Re.match_anchored WALLET_RE text) then Done (d, say out WalletNotCorrect)
  else Done (update_user d uid (set_wallet_pending (Some text)), say out (confirm text)).

(** What a submission is checked against before it is recorded: for the
    mission [recipe_submit], the fingerprint of its text. *)
Definition claim_if_recipe (d : db) (mid : string) (uid : Z) (normalized : string)
  : db * bool :=
  if String.eqb mid "recipe_submit" then claim_recipe_fingerprint d mid uid normalized
  else (d, true).

(** The branch [state.startswith("MISSION:")] of [on_any_text]. *)
Definition submit_mission (cfg : config) (env : event_env) (d : db) (uid : Z)
    (st text : string) (out : list reply) : outcome :=
  match PyStr.after_first ":" st with
  | None => Failed IndexError (d, out)
  | Some mid =>
      match get_mission cfg mid with
      | None => Done (set_state d uid None, say out MissionNotConfigured)
      | Some m =>
          let '(ok, err, normalized) := validate (mission_validator m) text in
          if negb ok then Done (d, say out (ValidationFailed err))
          else
            let '(d1, claimed) := claim_if_recipe d mid uid normalized in
            if negb claimed then Done (d1, say out RecipeAlreadySubmitted)
            else
              let d2 := record_submission d1 uid mid normalized in
              let points := mission_points m in
              let delay_minutes := mission_delay_minutes m in
              if 0 <? delay_minutes then
                let '(d3, (scheduled, _)) :=
                  add_pending_reward d2 (clock_schedule env) uid mid
                                     (mission_key mid) points delay_minutes in
                Done (set_state d3 uid None,
                      say out (if scheduled then SavedPending delay_minutes
                               else SavedAlreadyScheduled))
              else
                let '(d3, awarded) :=
                  add_points_once d2 uid (mission_key mid) (mission_key mid) points
                                  [("payload", JStr normalized)] in
                Done (set_state d3 uid None,
                      say out (if awarded then SavedWithPoints points
                               else SavedAlreadyGranted))
      end
  end.

(** What [on_any_text] does once the menu labels are ruled out: the free
    text is read according to the conversation state. *)
Definition dispatch_state (cfg : config) (env : event_env) (d : db) (uid : Z)
    (row : user_row) (text : string) (out : list reply) : outcome :=
  let st := PyStr.strip (PyStr.or_empty (state row)) in
  if String.eqb st "AI_CHAT" then Done (d, say out (ChatAnswer (ai_answer env)))
  else if String.eqb st "AWAIT_WALLET" then stage_wallet d uid text ConfirmWallet out
  else if String.eqb st "AWAIT_WALLET_CHANGE" then
    stage_wallet d uid text ConfirmNewWallet out
  else if PyStr.startswith "MISSION:" st then submit_mission cfg env d uid st text out
  else Done (d, say out UseMenu).

(** [text] is one of the menu labels. *)
Definition is_menu (cfg : config) (text : string) : bool :=
  (is_terms cfg text || is_bonus cfg text || is_connect_wallet cfg text
   || is_balance cfg text || is_chat cfg text)%bool.

(** [on_any_text]: a text message. *)
Definition on_any_text (cfg : config) (env : event_env) (d : db)
    (uid : Z) (name : option string) (message_text : option string) : outcome :=
  prelude env d uid name (fun d row out =>
  let text := PyStr.strip (PyStr.or_empty message_text) in
  if is_terms cfg text then Done (d, say out Terms)
  else if is_bonus cfg text then bonus env d uid name out
  else if is_connect_wallet cfg text then connect_wallet env d uid name out
  else if is_balance cfg text then balance env d uid name out
  else if is_chat cfg text then ai_chat_start env d uid name out
  else dispatch_state cfg env d uid row text out).

(** One inbound event of a user, and a run of events from a store. *)
Inductive event : Type :=
| Start (args : list string)
| Callback (data : option string)
| Text (message_text : option string).

Definition handle (cfg : config) (env : event_env) (d : db) (uid : Z)
    (name : option string) (e : event) : outcome :=
  match e with
  | Start args => start env d uid name args
  | Callback data => on_callback cfg env d uid name data
  | Text t => on_any_text cfg env d uid name t
  end.

(** A run of events, each with its environment and its user: the store
    it leaves.  An event that fails leaves what it had written. *)
Fixpoint run (cfg : config) (d : db)
    (evs : list (event_env * Z * option string * event)) : db :=
  match evs with
  | [] => d
  | (env, uid, name, e) :: rest =>
      run cfg (fst (final (handle cfg env d uid name e))) rest
  end.

(* ------------------------------------------------------------------ *)
(** ** Vocabulary of the statements *)

(** The number of ledger rows of [uid] under [key]. *)
Definition count_key (l : list ledger_row) (uid : Z) (key : string) : nat :=
  List.length
    (filter (fun r => ((ledger_user_id r =? uid) && String.eqb (unique_key r) key)%bool) l).

(** [l'] is [l] with rows appended: nothing was updated or deleted. *)
Definition extends (l l' : list ledger_row) : Prop :=
  exists added, l' = (l ++ added)%list.

(** One call of [add_points_once], and a sequence of calls made one after
    the other, with the result of each. *)
Record credit_call : Type := mkCall {
  call_user : Z;
  call_key : string;
  call_type : string;
  call_amount : Z;
  call_meta : list (string * json);
}.

Fixpoint replay (d : db) (calls : list credit_call) : db * list bool :=
  match calls with
  | [] => (d, [])
  | c :: rest =>
      let '(d1, ok) :=
        add_points_once d (call_user c) (call_key c) (call_type c)
                        (call_amount c) (call_meta c) in
      let '(d2, oks) := replay d1 rest in
      (d2, ok :: oks)
  end.

Definition same_pair (uid : Z) (key : string) (c : credit_call) : bool :=
  ((call_user c =? uid) && String.eqb (call_key c) key)%bool.

(** The amounts of the calls for [uid] that returned [True]. *)
Fixpoint credited_amounts (uid : Z) (calls : list credit_call) (oks : list bool)
  : list Z :=
  match calls, oks with
  | c :: calls', ok :: oks' =>
      if (ok && (call_user c =? uid))%bool
      then call_amount c :: credited_amounts uid calls' oks'
      else credited_amounts uid calls' oks'
  | _, _ => []
  end.

Definition sum (l : list Z) : Z := fold_right Z.add 0 l.

(** The rows appended to [l] to make [l'] all satisfy [P]. *)
Definition adds (P : ledger_row -> Prop) (l l' : list ledger_row) : Prop :=
  exists added, l' = (l ++ added)%list /\ Forall P added.

(** The same for the table of pending rewards. *)
Definition schedules (P : pending_row -> Prop) (l l' : list pending_row) : Prop :=
  exists added, l' = (l ++ added)%list /\ Forall P added.

(* ------------------------------------------------------------------ *)
(** ** A sample campaign, for the concrete runs *)

Definition sample_config : config :=
  mkConfig None None None None None 50 100 10
    [(7, 100); (3, 50)]
    [ mkMission "X" 20 30 "";
      mkMission "recipe_submit" 30 0 "recipe_text";
      mkMission "follow_x" 5 0 "x_profile" ].

Definition sample_env (clock : Z) (day : Calendar.date) : event_env :=
  mkEnv clock clock day "c2FtcGxl" "hello".

Definition wallet_A : string := "0xAAAAAAAAAAAAAAAAAAAAAAAAAAAAAAAAAAAAAAAA".
Definition wallet_B : string := "0xBBBBBBBBBBBBBBBBBBBBBBBBBBBBBBBBBBBBBBBB".

(** A user with an active wallet. *)
Definition sample_user (uid : Z) (code : string) (referrer : option Z)
    (wallet : string) : user_row :=
  mkUser uid None code referrer (Some wallet) None 0 None.

(** A user who staged [wallet] and has not confirmed it yet. *)
Definition staging_user (uid : Z) (code : string) (referrer : option Z)
    (wallet : string) : user_row :=
  mkUser uid None code referrer None (Some wallet) 0 (Some "AWAIT_WALLET").

Definition checkin_row (uid : Z) (day : string) : ledger_row :=
  mkLedger uid ("daily_checkin:" ++ day) "daily_checkin" 10 [("date", JStr day)].

(** User 2 has a wallet and checked in on 2023-12-30, then on 2024-01-01
    and 2024-01-02. *)
Definition sample_checkins : db :=
  mkDb [sample_user 1 "ref1" None wallet_A; sample_user 2 "ref2" (Some 1) wallet_B]
       [checkin_row 2 "2023-12-30"; checkin_row 2 "2024-01-01"; checkin_row 2 "2024-01-02"]
       [] [] [].

(** User 1 has a wallet; user 2, referred by user 1, has staged one. *)
Definition sample_staging : db :=
  mkDb [sample_user 1 "ref1" None wallet_A; staging_user 2 "ref2" (Some 1) wallet_B]
       [] [] [] [].

(** The active wallet of each user. *)
Definition wallets (d : db) : list (Z * option string) :=
  map (fun u => (user_id u, wallet_address u)) (users d).

(** The store after what every event of an existing user starts with:
    the user name is refreshed and the due rewards are settled. *)
Definition after_prelude (env : event_env) (d : db) (uid : Z)
    (name : option string) : db :=
  fst (process_due_rewards (update_user d uid (set_username name))
                           (clock_settle env) uid).

(** The message about the rewards settled at the start of the event. *)
Definition prelude_replies (env : event_env) (d : db) (uid : Z)
    (name : option string) : list reply :=
  match snd (process_due_rewards (update_user d uid (set_username name))
                                 (clock_settle env) uid) with
  | [] => []
  | newly => [DelayedRewardsCredited (total_credited newly)]
  end.

(** The active wallet of [uid], if any. *)
Definition wallet_of (d : db) (uid : Z) : option string :=
  match get_user d uid with
  | Some row => wallet_address row
  | None => None
  end.

(** What a first confirmation of [w] writes into the user's row. *)
Definition confirmed (w : string) (u : user_row) : user_row :=
  set_user_state None (set_wallet_pending None (set_wallet_address (Some w) u)).



(** The ledger only grows, and a pair that has at most one row keeps at
    most one. *)
Definition ledger_grows (d d' : db) : Prop :=
  extends (ledger d) (ledger d')
  /\ forall u k, (count_key (ledger d) u k <= 1)%nat ->
                 (count_key (ledger d') u k <= 1)%nat.

(** The mission of [r] is one of those of [rows]. *)
Definition mission_among (rows : list pending_row) (r : pending_row) : bool :=
  existsb (fun x => String.eqb (pending_mission_id r) (pending_mission_id x)) rows.

(** Every pending reward carries the key of its mission, as the
    submission handler writes it. *)
Definition pending_keys_wf (d : db) : Prop :=
  Forall (fun p => pending_unique_key p = "mission:" ++ pending_mission_id p)
         (pending_rewards d).

(** User 2 has submitted the delayed mission [X] at time 100: the reward
    is due from time 1900. *)
Definition sample_pending : db :=
  mkDb [sample_user 1 "ref1" None wallet_A; sample_user 2 "ref2" (Some 1) wallet_B]
       [] [mkSubmission 2 "X" "done"] []
       [mkPending 2 "X" "mission:X" 20 1900].

(** No two users have the same active wallet: what the unique index on
    [wallet_address] stands for. *)
Definition wallets_unique (d : db) : Prop :=
  forall i1 i2 w,
    In (i1, Some w) (wallets d) -> In (i2, Some w) (wallets d) -> i1 = i2.

(** Every pair of user and key has at most one ledger row: the constraint
    [UNIQUE(user_id, unique_key)]. *)
Definition ledger_unique (d : db) : Prop :=
  forall u k, (count_key (ledger d) u k <= 1)%nat.


(** A step that schedules nothing and settles nothing: the ledger grows,
    the pending rewards stay, and wallets stay with one owner. *)
Definition quiet (d d' : db) : Prop :=
  ledger_grows d d'
  /\ pending_rewards d' = pending_rewards d
  /\ (wallets_unique d -> wallets_unique d').

(** The events whose handler begins with the settlement of the due
    rewards: button presses and text messages, not the [/start] command. *)
Definition settles (e : event) : bool :=
  match e with
  | Start _ => false
  | Callback _ => true
  | Text _ => true
  end.

(** A user with a wallet who was asked for the submission of [mid]. *)
Definition awaiting_user (uid : Z) (code : string) (wallet mid : string) : user_row :=
  mkUser uid None code None (Some wallet) None 0 (Some ("MISSION:" ++ mid)).

(** User 2 is about to submit the delayed mission [X]. *)
Definition sample_awaiting : db :=
  mkDb [sample_user 1 "ref1" None wallet_A; awaiting_user 2 "ref2" wallet_B "X"]
       [] [] [] [].

(** A recipe that passes the validator [recipe_text], and the same recipe
    as another user types it: other capitals, other white space. *)
Definition sample_recipe : string :=
  "Ingredients: two cups of flour, one cup of warm water, a pinch of salt, "
  ++ "a spoon of olive oil and a little dry yeast. "
  ++ "Steps: mix the flour with the salt, add the water and the yeast, "
  ++ "knead for ten minutes, let the dough rest for one hour, "
  ++ "then bake it in a hot oven until the crust is golden.".

Definition sample_recipe_copy : string :=
  "   INGREDIENTS: two cups of flour,   one cup of warm water, a pinch of salt, "
  ++ "a spoon of olive oil and a little dry yeast. "
  ++ "STEPS: mix the flour with the salt, add the water and the yeast, "
  ++ "knead for ten minutes, let the dough rest for one hour, "
  ++ "then bake it in a hot oven until the crust is golden.  ".

(** User 1 has submitted [sample_recipe]; user 2 is asked for a recipe. *)
Definition sample_recipes : db :=
  mkDb [sample_user 1 "ref1" None wallet_A;
        awaiting_user 2 "ref2" wallet_B "recipe_submit"]
       [mkLedger 1 "mission:recipe_submit" "mission:recipe_submit" 30
                 [("payload", JStr sample_recipe)]]
       [mkSubmission 1 "recipe_submit" sample_recipe]
       [mkFingerprint "recipe_submit"
          (Sha256.hexdigest (normalize_recipe_text sample_recipe)) 1]
       [].

(* ------------------------------------------------------------------ *)
(** ** Keyboards and outbound messages *)



(** What [reply_photo_or_text] sends: a photo, with or without caption,
    or a text message; each with the keyboard it carries, if any. *)
Inductive sent (text markup : Type) : Type :=
| Photo (caption : option text) (reply_markup : option markup)
| TextMessage (body : text) (reply_markup : option markup).

Arguments Photo {text markup} _ _.
Arguments TextMessage {text markup} _ _.

Section PhotoOrText.

Variables text markup : Type.
Variable len : text -> Z.                (* [len(caption)] *)

(** [reply_photo_or_text(msg_obj, image_path, caption, reply_markup)].
    [image_exists] is [image_path.exists()], [opens] tells whether the
    file can be opened, and [fails k] whether the [k]-th call of the
    Telegram API made here raises.  The result is what was sent, and
    whether the last call raised, which nothing catches. *)
Definition reply_photo_or_text (image_exists opens : bool) (fails : nat -> bool)
    (caption : text) (reply_markup : option markup)
  : list (sent text markup) * bool :=
  let fallback (delivered : list (sent text markup)) (k : nat) :=
    if fails k then (delivered, true)
    else ((delivered ++ [TextMessage caption reply_markup])%list, false) in
  if image_exists then
    if negb opens then fallback [] 0%nat
    else if len caption <=? 900 then
      if fails 0%nat then fallback [] 1%nat
      else ([Photo (Some caption) reply_markup], false)
    else
      if fails 0%nat then fallback [] 1%nat
      else if fails 1%nat then fallback [Photo None reply_markup] 2%nat
      else ([Photo None reply_markup; TextMessage caption None], false)
  else fallback [] 0%nat.

(** The caption as it reached the chat: under a photo or as a message. *)
Definition carries (caption : text) (m : sent text markup) : Prop :=
  match m with
  | Photo c _ => c = Some caption
  | TextMessage body _ => body = caption
  end.

Definition has_markup (reply_markup : option markup) (m : sent text markup) : Prop :=
  match m with
  | Photo _ k => k = reply_markup
  | TextMessage _ k => k = reply_markup
  end.

End PhotoOrText.

Arguments reply_photo_or_text {text markup} _ _ _ _ _ _.
Arguments carries {text markup} _ _.
Arguments has_markup {text markup} _ _.


(** The handler ends normally. *)
Definition done (o : outcome) : Prop := exists r, o = Done r.

(* ------------------------------------------------------------------ *)
(** ** The texts the validators are written for *)

(** Every character of [s] satisfies [f]. *)
Definition all_chars (f : ascii -> bool) (s : string) : bool :=
  forallb f (list_ascii_of_string s).

(** A wallet address: [0x] and forty hexadecimal digits. *)
Definition is_address (s : string) : bool :=
  match s with
  | String a (String b h) =>
      (Ascii.eqb a "0" && Ascii.eqb b "x" && Nat.eqb (String.length h) 40
       && all_chars PyStr.ishex h)%bool
  | _ => false
  end.

(** A Telegram user name: [@] and 5 to 32 word characters. *)
Definition tg_username_text (s : string) : Prop :=
  exists w, s = "@" ++ w /\ (5 <= String.length w <= 32)%nat
            /\ all_chars PyStr.isword w = true.

(** The address of a profile on X. *)
Definition x_profile_text (s : string) : Prop :=
  exists scheme www host handle slash,
    s = scheme ++ "://" ++ www ++ host ++ "/" ++ handle ++ slash
    /\ (scheme = "http" \/ scheme = "https")
    /\ (www = "" \/ www = "www.")
    /\ (host = "x.com" \/ host = "twitter.com")
    /\ (1 <= String.length handle <= 15)%nat
    /\ all_chars PyStr.isword handle = true
    /\ (slash = "" \/ slash = "/").

(** [s], or [s] and one newline: what a pattern that ends in [$] takes
    for [s]. *)
Definition up_to_newline (P : string -> Prop) (text : string) : Prop :=
  P text \/ exists s, P s /\ text = s ++ String PyStr.newline "".

(** A rule of the configuration that [STREAK_BONUSES] keeps. *)
Definition valid_rule (r : Z * Z) : bool := ((0 <? fst r) && negb (snd r =? 0))%bool.

(* ------------------------------------------------------------------ *)
(** ** Checks by enumeration, for the calendar *)

(** [f] holds of the [n] integers from [lo] on. *)
Fixpoint holds_from (n : nat) (lo : Z) (f : Z -> bool) : bool :=
  match n with
  | O => true
  | S n' => (f lo && holds_from n' (lo + 1) f)%bool
  end.

(** The month and the day of the [n]-th day (from 0) of a year, as the
    second half of [ord2ymd] finds them. *)
Definition month_day (leapyear : bool) (n : Z) : Z * Z :=
  let month := Z.shiftr (n + 50) 5 in
  let preceding :=
    Calendar.DAYS_BEFORE_MONTH month + (if ((2 <? month) && leapyear)%bool then 1 else 0) in
  if n <? preceding then
    let month := month - 1 in
    let preceding :=
      preceding - (Calendar.DAYS_IN_MONTH month
                   + (if ((month =? 2) && leapyear)%bool then 1 else 0)) in
    (month, n - preceding + 1)
  else (month, n - preceding + 1).

Definition month_day_ok (leapyear : bool) (n : Z) : bool :=
  let '(m, dd) := month_day leapyear n in
  ((1 <=? m) && (m <=? 12) && (1 <=? dd)
   && (dd <=? (if ((m =? 2) && leapyear)%bool then 29 else Calendar.DAYS_IN_MONTH m))
   && (Calendar.DAYS_BEFORE_MONTH m
       + (if ((2 <? m) && leapyear)%bool then 1 else 0) + dd =? n + 1))%bool.

(** The year as [strftime] writes it is four digits that read back. *)
Definition year_text_ok (y : Z) : bool :=
  match Calendar.zpad 4 y with
  | String a (String b (String c (String e EmptyString))) =>
      (PyStr.isdigit a && PyStr.isdigit b && PyStr.isdigit c && PyStr.isdigit e
       && (1000 * Calendar.digit a + 100 * Calendar.digit b
           + 10 * Calendar.digit c + Calendar.digit e =? y))%bool
  | _ => false
  end.

(** The month and the day as [strftime] writes them read back. *)
Definition month_day_text_ok (m dd : Z) : bool :=
  match Calendar.first_month
          (Calendar.month_alts (Calendar.zpad 2 m ++ "-" ++ Calendar.zpad 2 dd)) with
  | Some (m', dd') => ((m' =? m) && (dd' =? dd))%bool
  | None => false
  end.

(* ------------------------------------------------------------------ *)
(** ** Consistency of the store, and the writes of the handlers *)

(** The rows the handlers append to the ledger when they credit at once. *)
Inductive ledger_kind (cfg : config) : ledger_row -> Prop :=
| KCheckin : forall uid day,
    ledger_kind cfg
      (mkLedger uid (checkin_key (Calendar.strftime_ymd day)) "daily_checkin"
         (POINT_DAILY_CHECKIN cfg) [("date", JStr (Calendar.strftime_ymd day))])
| KStreak : forall uid day rule,
    In rule (STREAK_BONUSES cfg) ->
    ledger_kind cfg
      (mkLedger uid (streak_bonus_key (fst rule) (Calendar.strftime_ymd day))
         "streak_bonus" (snd rule)
         [("days", JInt (fst rule)); ("date", JStr (Calendar.strftime_ymd day))])
| KWallet : forall uid,
    ledger_kind cfg
      (mkLedger uid "wallet_register" "wallet_register" (POINT_WALLET_REGISTER cfg) [])
| KReferral : forall referrer uid,
    ledger_kind cfg
      (mkLedger referrer (referral_key uid) "referral_wallet_connected"
         (POINT_REFERRAL_QUALIFIED cfg) [("referred_user_id", JInt uid)])
| KMission : forall uid mid m normalized,
    get_mission cfg mid = Some m -> mission_delay_minutes m <= 0 ->
    ledger_kind cfg
      (mkLedger uid (mission_key mid) (mission_key mid) (mission_points m)
         [("payload", JStr normalized)]).

(** A reward scheduled by a submission: for a configured mission with a
    delay, under the key of the mission, for its points. *)
Definition pending_ok (cfg : config) (p : pending_row) : Prop :=
  exists m,
    get_mission cfg (pending_mission_id p) = Some m
    /\ 0 < mission_delay_minutes m
    /\ pending_unique_key p = mission_key (pending_mission_id p)
    /\ pending_amount p = mission_points m.

(** The ledger row [process_due_rewards] appends for the reward [p]. *)
Definition settled_row (p : pending_row) : ledger_row :=
  mkLedger (pending_user_id p) (pending_unique_key p)
           ("mission:" ++ pending_mission_id p) (pending_amount p)
           [("delayed", JBool true)].

(** A ledger row as the handlers write them: credited at once, or the
    settlement of a scheduled reward. *)
Definition ledger_row_ok (cfg : config) (r : ledger_row) : Prop :=
  ledger_kind cfg r \/ exists p, pending_ok cfg p /\ r = settled_row p.

(** The primary keys of the tables [pending_rewards], [submissions] and
    [recipe_fingerprints]. *)
Definition pending_key (p : pending_row) : Z * string :=
  (pending_user_id p, pending_mission_id p).
Definition submission_key (s : submission_row) : Z * string :=
  (submission_user_id s, submission_mission_id s).
Definition fingerprint_key (f : fingerprint_row) : string * string :=
  (fingerprint_mission_id f, fingerprint f).

(** What the schema and the handlers together keep true of the store. *)
Record consistent (cfg : config) (d : db) : Prop := mkConsistent {
  user_ids_unique : NoDup (map user_id (users d));
  ref_codes_unique : NoDup (map ref_code (users d));
  no_self_referral :
    forall u, In u (users d) -> referred_by u <> Some (user_id u);
  referrers_exist :
    forall u r, In u (users d) -> referred_by u = Some r ->
                exists v, In v (users d) /\ user_id v = r;
  wallets_wf :
    forall u w, In u (users d) ->
                wallet_address u = Some w \/ wallet_pending u = Some w ->
                is_address w = true;
  wallets_one_owner : wallets_unique d;
  ledger_one_row : ledger_unique d;
  ledger_rows_ok : Forall (ledger_row_ok cfg) (ledger d);
  pending_rows_ok : Forall (pending_ok cfg) (pending_rewards d);
  pending_one_row : NoDup (map pending_key (pending_rewards d));
  submissions_one_row : NoDup (map submission_key (submissions d));
  fingerprints_one_row : NoDup (map fingerprint_key (recipe_fingerprints d));
}.

(** An update of a user's row that touches neither identity, referral nor
    active wallet, and at most clears the staged wallet. *)
Definition minor (f : user_row -> user_row) : Prop :=
  forall u,
    user_id (f u) = user_id u /\ ref_code (f u) = ref_code u
    /\ referred_by (f u) = referred_by u
    /\ wallet_address (f u) = wallet_address u
    /\ (wallet_pending (f u) = wallet_pending u \/ wallet_pending (f u) = None)
    /\ wallet_change_count u <= wallet_change_count (f u).

(** The single writes of the handlers, each with what the handler has
    checked before it; [now] is the clock of the settlement. *)
Inductive write (cfg : config) (now : Z) (d : db) : db -> Prop :=
| WNewUser : forall uid name code,
    get_user d uid = None ->
    (forall u, In u (users d) -> ref_code u <> code) ->
    write cfg now d
      (with_users d (users d ++ [mkUser uid name code None None None 0 None])%list)
| WMinor : forall uid f, minor f -> write cfg now d (update_user d uid f)
| WReferred : forall uid row r,
    get_user d uid = Some row -> referred_by row = None -> r <> uid ->
    (exists v, In v (users d) /\ user_id v = r) ->
    write cfg now d (update_user d uid (set_referred_by (Some r)))
| WStage : forall uid text,
    is_address text = true ->
    write cfg now d (update_user d uid (set_wallet_pending (Some text)))
| WWallet : forall uid row w,
    get_user d uid = Some row -> wallet_pending row = Some w ->
    PyStr.truthy (Some w) = true -> wallet_of_another d w uid = false ->
    write cfg now d (update_user d uid (set_wallet_address (Some w)))
| WCredit : forall row,
    ledger_has (ledger d) (ledger_user_id row) (unique_key row) = false ->
    ledger_kind cfg row ->
    write cfg now d (with_ledger d (ledger d ++ [row])%list)
| WSettle : forall p,
    In p (pending_rewards d) -> available_at_ts p <= now ->
    ledger_has (ledger d) (pending_user_id p) (pending_unique_key p) = false ->
    write cfg now d (with_ledger d (ledger d ++ [settled_row p])%list)
| WSchedule : forall p,
    pending_ok cfg p ->
    pending_has (pending_rewards d) (pending_user_id p) (pending_mission_id p) = false ->
    write cfg now d (with_pending d (pending_rewards d ++ [p])%list)
| WUnschedule : forall p,
    In p (pending_rewards d) -> available_at_ts p <= now ->
    write cfg now d (delete_pending d (pending_user_id p) (pending_mission_id p))
| WSubmit : forall row,
    submission_has (submissions d) (submission_user_id row)
                   (submission_mission_id row) = false ->
    write cfg now d (with_submissions d (submissions d ++ [row])%list)
| WFingerprint : forall row,
    fingerprint_has (recipe_fingerprints d) (fingerprint_mission_id row)
                    (fingerprint row) = false ->
    write cfg now d (with_fingerprints d (recipe_fingerprints d ++ [row])%list).

(** A sequence of writes. *)
Inductive writes (cfg : config) (now : Z) (d : db) : db -> Prop :=
| writes_nil : writes cfg now d d
| writes_snoc : forall d1 d2,
    writes cfg now d d1 -> write cfg now d1 d2 -> writes cfg now d d2.

(** What stays of a user's row: identity and referral code, the referrer
    once there is one, the fact of having a wallet, and the count of
    wallet changes, which only grows. *)
Definition row_kept (row row' : user_row) : Prop :=
  user_id row' = user_id row /\ ref_code row' = ref_code row
  /\ (forall r, referred_by row = Some r -> referred_by row' = Some r)
  /\ (PyStr.truthy (wallet_address row) = true ->
      PyStr.truthy (wallet_address row') = true)
  /\ wallet_change_count row <= wallet_change_count row'.

Definition users_kept (d d' : db) : Prop :=
  forall uid row, get_user d uid = Some row ->
                  exists row', get_user d' uid = Some row' /\ row_kept row row'.

(** The reward [p] is still pending and its mission is not in the ledger
    of its user. *)
Definition waiting (p : pending_row) (d : db) : Prop :=
  In p (pending_rewards d)
  /\ ledger_has (ledger d) (pending_user_id p) (mission_key (pending_mission_id p)) = false.

(* ------------------------------------------------------------------ *)
(** ** A sample run, for the concrete cases *)

Definition env_at (clock : Z) (day : Calendar.date) (tok : string) : event_env :=
  mkEnv clock clock day tok "hello".

(** On 2024-01-03 Alice (user 1) joins and registers a wallet; Bob (user
    2) joins through her link, registers his wallet, checks in, opens the
    mission [X], which has a delay of 30 minutes, and submits it at time
    300. *)
Definition sample_events : list (event_env * Z * option string * event) :=
  [ (env_at 100 738888 "QWxpY2U", 1, Some "alice", Start []);
    (env_at 110 738888 "QWxpY2U", 1, Some "alice", Text (Some "Connect Wallet"));
    (env_at 120 738888 "QWxpY2U", 1, Some "alice", Text (Some wallet_A));
    (env_at 130 738888 "QWxpY2U", 1, Some "alice", Callback (Some "wallet_confirm"));
    (env_at 200 738888 "Qm9i", 2, Some "bob", Start ["QWxpY2U"]);
    (env_at 210 738888 "Qm9i", 2, Some "bob", Text (Some "Connect Wallet"));
    (env_at 220 738888 "Qm9i", 2, Some "bob", Text (Some wallet_B));
    (env_at 230 738888 "Qm9i", 2, Some "bob", Callback (Some "wallet_confirm"));
    (env_at 240 738888 "Qm9i", 2, Some "bob", Callback (Some "daily_checkin"));
    (env_at 250 738888 "Qm9i", 2, Some "bob", Callback (Some "mission:X"));
    (env_at 300 738888 "Qm9i", 2, Some "bob", Text (Some "done")) ].

Definition sample_store : db := run sample_config empty_db sample_events.

(** Bob's row in the sample store, and his reward for the mission [X]. *)
Definition sample_bob : user_row :=
  mkUser 2 (Some "bob") "Qm9i" (Some 1) (Some wallet_B) None 0 None.
Definition sample_reward : pending_row :=
  mkPending 2 "X" "mission:X" 20 2100.

(** A third address, and the sample store after Bob has opened the chat
    with the recipe service. *)
Definition wallet_C : string := "0xCCCCCCCCCCCCCCCCCCCCCCCCCCCCCCCCCCCCCCCC".

Definition sample_chatting : db :=
  run sample_config sample_store
      [(env_at 400 738888 "Qm9i", 2, Some "bob", Text (Some label_chat))].

Definition sample_alice : user_row :=
  mkUser 1 (Some "alice") "QWxpY2U" None (Some wallet_A) None 0 None.

(* ------------------------------------------------------------------ *)
(** ** Integers as SQLite holds them

    An [INTEGER] column holds a signed integer of 64 bits.  The [sqlite3]
    module raises [OverflowError] when a Python [int] outside that range
    is bound to a parameter, before the statement runs; [SUM] over integers
    fails with "integer overflow", an [OperationalError], when its running
    total leaves the range. *)

Module Sqlite.

Definition INT64_MIN : Z := - 2 ^ 63.
Definition INT64_MAX : Z := 2 ^ 63 - 1.

Definition fits (n : Z) : bool := ((INT64_MIN <=? n) && (n <=? INT64_MAX))%bool.

(** [SUM] over the values in the order the rows are visited, from the
    running [total]. *)
Fixpoint sum_from (total : Z) (values : list Z) : res Z :=
  match values with
  | [] => Ok total
  | v :: rest =>
      if fits (total + v) then sum_from (total + v) rest
      else Raise OperationalError
  end.

End Sqlite.

(* ------------------------------------------------------------------ *)
(** ** UTF-8

    A text is carried as its UTF-8 bytes; the functions of [str] that look
    at characters read it as the sequence of its code points. *)

Module Utf8.

Definition byte (n : Z) : ascii := ascii_of_nat (Z.to_nat n).
Definition code (c : ascii) : Z := Z.of_nat (nat_of_ascii c).

Definition encode_char (c : Z) : list ascii :=
  if c <? 128 then [byte c]
  else if c <? 2048 then [byte (192 + c / 64); byte (128 + c mod 64)]
  else if c <? 65536 then
    [byte (224 + c / 4096); byte (128 + (c / 64) mod 64); byte (128 + c mod 64)]
  else
    [byte (240 + c / 262144); byte (128 + (c / 4096) mod 64);
     byte (128 + (c / 64) mod 64); byte (128 + c mod 64)].

Definition encode (t : list Z) : string :=
  string_of_list_ascii (flat_map encode_char t).

(** A continuation byte. *)
Definition cont (c : ascii) : bool := ((128 <=? code c) && (code c <? 192))%bool.

(** The code points of a text.  A byte that starts no well-formed sequence,
    which the UTF-8 form of a text never has, is read as U+FFFD. *)
Fixpoint decode (s : string) : list Z :=
  match s with
  | EmptyString => []
  | String a s1 =>
      let x := code a in
      if x <? 128 then x :: decode s1
      else
        match s1 with
        | EmptyString => [65533]
        | String b s2 =>
            if ((192 <=? x) && (x <? 224) && cont b)%bool then
              ((x - 192) * 64 + (code b - 128)) :: decode s2
            else
              match s2 with
              | EmptyString => 65533 :: decode s1
              | String c s3 =>
                  if ((224 <=? x) && (x <? 240) && cont b && cont c)%bool then
                    ((x - 224) * 4096 + (code b - 128) * 64 + (code c - 128))
                      :: decode s3
                  else
                    match s3 with
                    | EmptyString => 65533 :: decode s1
                    | String e s4 =>
                        if ((240 <=? x) && (x <? 248)
                            && cont b && cont c && cont e)%bool then
                          ((x - 240) * 262144 + (code b - 128) * 4096
                           + (code c - 128) * 64 + (code e - 128)) :: decode s4
                        else 65533 :: decode s1
                    end
              end
        end
  end.

End Utf8.

(* ------------------------------------------------------------------ *)
(** ** Text as [str] reads it

    White space is what [str.isspace] says of a code point; [str.strip]
    and the class [\s] of [re] use the same test.  Lower case, the letters
    and the digits are read from the Unicode database of the interpreter:
    they are the fields of a [tables], and the statements hold for every
    value of it. *)

Module Unicode.

Record tables : Type := mkTables {
  str_lower : list Z -> list Z;   (* [str.lower()] *)
  tolower : Z -> Z;               (* the one-to-one lower case [re.IGNORECASE] uses *)
  isalnum : Z -> bool;            (* [str.isalnum()] of one character *)
}.

Definition isspace (c : Z) : bool :=
  ((9 <=? c) && (c <=? 13) || (28 <=? c) && (c <=? 32)
   || (c =? 133) || (c =? 160) || (c =? 5760)
   || (8192 <=? c) && (c <=? 8202)
   || (c =? 8232) || (c =? 8233) || (c =? 8239) || (c =? 8287)
   || (c =? 12288))%bool.

Fixpoint lstrip (t : list Z) : list Z :=
  match t with
  | [] => []
  | c :: t' => if isspace c then lstrip t' else t
  end.

Definition rstrip (t : list Z) : list Z := rev (lstrip (rev t)).

Definition strip (t : list Z) : list Z := rstrip (lstrip t).

(** [re.sub(r"\s+", " ", t)]: [in_run] tells whether the previous
    character was white space. *)
Fixpoint collapse_ws (in_run : bool) (t : list Z) : list Z :=
  match t with
  | [] => []
  | c :: t' =>
      if isspace c then
        if in_run then collapse_ws true t' else 32 :: collapse_ws true t'
      else c :: collapse_ws false t'
  end.

(** What [re] adds to a cased letter of a pattern under [re.IGNORECASE]:
    the rows of its table of equivalent lower-case letters for [i] and
    [s], the only letters of the patterns of the program that have one. *)
Definition fixes (lo : Z) : list Z :=
  if lo =? 105 then [305] else if lo =? 115 then [383] else [].

(** A cased letter [p] of a pattern under [re.IGNORECASE] matches [x]. *)
Definition letter_i (U : tables) (p x : Z) : bool :=
  let lo := tolower U p in
  existsb (Z.eqb (tolower U x)) (lo :: fixes lo).

(** A pattern without repetition: one test per character. *)
Definition pattern : Type := list (Z -> bool).

Definition lit (s : string) : pattern :=
  map (fun c x => x =? Utf8.code c) (list_ascii_of_string s).

Definition lit_i (U : tables) (s : string) : pattern :=
  map (fun c => letter_i U (Utf8.code c)) (list_ascii_of_string s).

(** The pattern matches at the start of [t]. *)
Fixpoint matches_here (p : pattern) (t : list Z) : bool :=
  match p with
  | [] => true
  | test :: p' =>
      match t with
      | [] => false
      | x :: t' => (test x && matches_here p' t')%bool
      end
  end.

(** [re.search] for an alternation of such patterns. *)
Fixpoint search (alternatives : list pattern) (t : list Z) : bool :=
  (existsb (fun p => matches_here p t) alternatives
   || match t with
      | [] => false
      | _ :: t' => search alternatives t'
      end)%bool.

(** The class [\w] *)
Definition is_word (U : tables) (c : Z) : bool := (isalnum U c || (c =? 95))%bool.

(** [\b] between two neighbours, [None] at an end of the text. *)
Definition boundary (U : tables) (before after : option Z) : bool :=
  xorb (match before with Some c => is_word U c | None => false end)
       (match after with Some c => is_word U c | None => false end).

(** [\b p \b] matches at the start of [t], which [before] precedes;
    [p] is not empty. *)
Definition word_here (U : tables) (p : pattern) (before : option Z) (t : list Z)
  : bool :=
  (boundary U before (hd_error t)
   && matches_here p t
   && boundary U (hd_error (rev (firstn (List.length p) t)))
               (hd_error (skipn (List.length p) t)))%bool.

(** [re.search(r"\bword\b", t, re.IGNORECASE)] *)
Fixpoint search_word_from (U : tables) (p : pattern) (before : option Z)
    (t : list Z) : bool :=
  (word_here U p before t
   || match t with
      | [] => false
      | x :: t' => search_word_from U p (Some x) t'
      end)%bool.

Definition search_word_i (U : tables) (word : string) (t : list Z) : bool :=
  search_word_from U (lit_i U word) None t.

(** [re.search(r"https?://|www\.", t, re.IGNORECASE)] *)
Definition search_link (U : tables) (t : list Z) : bool :=
  search [ (lit_i U "http" ++ lit "://")%list;
           (lit_i U "https" ++ lit "://")%list;
           (lit_i U "www" ++ lit ".")%list ] t.

End Unicode.

(* ------------------------------------------------------------------ *)
(** ** The functions of the program on any text and any integer

    The definitions above read text with the ASCII helpers of [PyStr] and
    hold integers without bound: they are the program on ASCII text and on
    amounts that SQLite can hold.  Here are the functions that look at
    the characters of a text or bind an integer, without these two
    limits, and the handlers built on them.  What is not repeated here
    (the users, the wallets, the settlement) neither looks at characters
    nor binds an integer that was not bound before. *)

Module Exact.

(** [s.strip()] *)
Definition strip (s : string) : string :=
  Utf8.encode (Unicode.strip (Utf8.decode s)).

(** [len(s)] *)
Definition len (s : string) : Z := Z.of_nat (List.length (Utf8.decode s)).

(** [validate(validator, text) -> (ok, error message, normalized text)] *)
Definition validate (U : Unicode.tables) (validator text : string)
  : bool * string * string :=
  if String.eqb validator "x_profile" then
    if Re.match_anchored X_PROFILE_URL_RE text then (true, "", text)
    else (false, "Please send your X profile link like https://x.com/username", text)
  else if String.eqb validator "tg_username" then
    if Re.match_anchored TG_USERNAME_RE text then (true, "", text)
    else (false, "Please send your Telegram username starting with @ (e.g., @myname).", text)
  else if String.eqb validator "recipe_text" then
    let t := strip text in
    if len t <? 200 then
      (false, "Please send a longer recipe (min 200 characters). Include Ingredients + Steps.", t)
    else if Unicode.search_link U (Utf8.decode t) then
      (false, "Please do not include links in your recipe.", t)
    else
      let has_en :=
        (Unicode.search_word_i U "ingredients" (Utf8.decode t)
         && (Unicode.search_word_i U "steps" (Utf8.decode t)
             || Unicode.search_word_i U "directions" (Utf8.decode t)
             || Unicode.search_word_i U "method" (Utf8.decode t)))%bool in
      if negb has_en then
        (false, "Please include sections: Ingredients + Steps.", t)
      else (true, "", t)
  else (true, "", text).

(** [normalize_recipe_text(text)] *)
Definition normalize_recipe_text (U : Unicode.tables) (text : string) : string :=
  Utf8.encode
    (Unicode.collapse_ws false
       (Unicode.str_lower U (Unicode.strip (Utf8.decode text)))).

(** [claim_recipe_fingerprint(mission_id, user_id, text) -> bool] *)
Definition claim_recipe_fingerprint (U : Unicode.tables) (d : db) (mid : string)
    (uid : Z) (text : string) : res (db * bool) :=
  let norm := normalize_recipe_text U text in
  let fp := Sha256.hexdigest norm in
  if Sqlite.fits uid then
    if fingerprint_has (recipe_fingerprints d) mid fp then Ok (d, false)
    else Ok (with_fingerprints d
               (recipe_fingerprints d ++ [mkFingerprint mid fp uid])%list, true)
  else Raise OverflowError.

(** [add_points_once(user_id, unique_key, typ, amount, meta) -> bool] *)
Definition add_points_once (d : db) (uid : Z) (key typ : string) (amt : Z)
    (m : list (string * json)) : res (db * bool) :=
  if (Sqlite.fits uid && Sqlite.fits amt)%bool then
    if ledger_has (ledger d) uid key then Ok (d, false)
    else Ok (with_ledger d (ledger d ++ [mkLedger uid key typ amt m])%list, true)
  else Raise OverflowError.

(** [add_pending_reward(user_id, mission_id, unique_key, amount,
    delay_minutes) -> (ok, available_at_ts)] *)
Definition add_pending_reward (d : db) (now : Z) (uid : Z) (mid key : string)
    (amt delay_minutes : Z) : res (db * (bool * Z)) :=
  let available := now + delay_minutes * 60 in
  if (Sqlite.fits uid && Sqlite.fits amt && Sqlite.fits available)%bool then
    if pending_has (pending_rewards d) uid mid then Ok (d, (false, available))
    else Ok (with_pending d
               (pending_rewards d ++ [mkPending uid mid key amt available])%list,
             (true, available))
  else Raise OverflowError.

(** The rows of a user as the index of [UNIQUE(user_id, unique_key)]
    gives them: by [unique_key], byte by byte. *)
Fixpoint insert_by_key (r : ledger_row) (l : list ledger_row) : list ledger_row :=
  match l with
  | [] => [r]
  | x :: l' =>
      if String.leb (unique_key r) (unique_key x) then r :: l
      else x :: insert_by_key r l'
  end.

Definition index_order (l : list ledger_row) : list ledger_row :=
  fold_right insert_by_key [] l.

(** [get_points(user_id)]: [COALESCE(SUM(amount), 0)] over the user's rows. *)
Definition get_points (d : db) (uid : Z) : res Z :=
  if Sqlite.fits uid then
    Sqlite.sum_from 0
      (map amount
         (index_order (filter (fun r => ledger_user_id r =? uid) (ledger d))))
  else Raise OverflowError.

(** A sequence of calls of [add_points_once] made one after the other,
    with what each returns or raises; a call that raises writes nothing. *)
Fixpoint replay (d : db) (calls : list credit_call) : db * list (res bool) :=
  match calls with
  | [] => (d, [])
  | c :: rest =>
      match add_points_once d (call_user c) (call_key c) (call_type c)
                            (call_amount c) (call_meta c) with
      | Ok (d1, ok) => let '(d2, results) := replay d1 rest in (d2, Ok ok :: results)
      | Raise e => let '(d2, results) := replay d rest in (d2, Raise e :: results)
      end
  end.

(** The amounts of the calls for [uid] that returned [True]. *)
Fixpoint credited_amounts (uid : Z) (calls : list credit_call)
    (results : list (res bool)) : list Z :=
  match calls, results with
  | c :: calls', r :: results' =>
      match r with
      | Ok true =>
          if call_user c =? uid
          then call_amount c :: credited_amounts uid calls' results'
          else credited_amounts uid calls' results'
      | _ => credited_amounts uid calls' results'
      end
  | _, _ => []
  end.

(** The menu handler [balance]. *)
Definition balance (env : event_env) (d : db) (uid : Z) (name : option string)
    (out : list reply) : outcome :=
  attempt (ensure_user d uid name (token env)) d out (fun d1 =>
  if negb (has_wallet d1 uid) then Done (d1, say out ConnectWalletFirst)
  else
    attempt (get_points d1 uid) d1 out (fun points =>
    let '(total_ref, qualified_ref) := get_referral_counts d1 uid in
    Done (d1, say out (Balance points total_ref qualified_ref)))).

Definition claim_if_recipe (U : Unicode.tables) (d : db) (mid : string) (uid : Z)
    (normalized : string) : res (db * bool) :=
  if String.eqb mid "recipe_submit" then claim_recipe_fingerprint U d mid uid normalized
  else Ok (d, true).

(** The branch [state.startswith("MISSION:")] of [on_any_text]. *)
Definition submit_mission (U : Unicode.tables) (cfg : config) (env : event_env)
    (d : db) (uid : Z) (st text : string) (out : list reply) : outcome :=
  match PyStr.after_first ":" st with
  | None => Failed IndexError (d, out)
  | Some mid =>
      match get_mission cfg mid with
      | None => Done (set_state d uid None, say out MissionNotConfigured)
      | Some m =>
          let '(ok, err, normalized) := validate U (mission_validator m) text in
          if negb ok then Done (d, say out (ValidationFailed err))
          else
            attempt (claim_if_recipe U d mid uid normalized) d out (fun c =>
            let '(d1, claimed) := c in
            if negb claimed then Done (d1, say out RecipeAlreadySubmitted)
            else
              let d2 := record_submission d1 uid mid normalized in
              let points := mission_points m in
              let delay_minutes := mission_delay_minutes m in
              if 0 <? delay_minutes then
                attempt (add_pending_reward d2 (clock_schedule env) uid mid
                           (mission_key mid) points delay_minutes) d2 out (fun p =>
                let '(d3, (scheduled, _)) := p in
                Done (set_state d3 uid None,
                      say out (if scheduled then SavedPending delay_minutes
                               else SavedAlreadyScheduled)))
              else
                attempt (add_points_once d2 uid (mission_key mid) (mission_key mid)
                           points [("payload", JStr normalized)]) d2 out (fun a =>
                let '(d3, awarded) := a in
                Done (set_state d3 uid None,
                      say out (if awarded then SavedWithPoints points
                               else SavedAlreadyGranted))))
      end
  end.

(** The free text, read according to the conversation state. *)
Definition dispatch_state (U : Unicode.tables) (cfg : config) (env : event_env)
    (d : db) (uid : Z) (row : user_row) (text : string) (out : list reply)
  : outcome :=
  let st := strip (PyStr.or_empty (state row)) in
  if String.eqb st "AI_CHAT" then Done (d, say out (ChatAnswer (ai_answer env)))
  else if String.eqb st "AWAIT_WALLET" then stage_wallet d uid text ConfirmWallet out
  else if String.eqb st "AWAIT_WALLET_CHANGE" then
    stage_wallet d uid text ConfirmNewWallet out
  else if PyStr.startswith "MISSION:" st then submit_mission U cfg env d uid st text out
  else Done (d, say out UseMenu).

(** [on_any_text]: a text message.  The first statement binds the user
    id; the amounts of the pending rows were bound when they were
    written. *)
Definition on_any_text (U : Unicode.tables) (cfg : config) (env : event_env)
    (d : db) (uid : Z) (name : option string) (message_text : option string)
  : outcome :=
  if negb (Sqlite.fits uid) then Failed OverflowError (d, [])
  else
    prelude env d uid name (fun d row out =>
    let text := strip (PyStr.or_empty message_text) in
    if is_terms cfg text then Done (d, say out Terms)
    else if is_bonus cfg text then bonus env d uid name out
    else if is_connect_wallet cfg text then connect_wallet env d uid name out
    else if is_balance cfg text then balance env d uid name out
    else if is_chat cfg text then ai_chat_start env d uid name out
    else dispatch_state U cfg env d uid row text out).

(** The loop over [STREAK_BONUSES] in the check-in branch; a call that
    raises ends it, and what the turns before it wrote stays. *)
Fixpoint grant_streak_bonuses (uid streak : Z) (today_str : string)
    (rules : list (Z * Z)) (d : db) (bonus_lines : list (Z * Z))
  : db * res (list (Z * Z)) :=
  match rules with
  | [] => (d, Ok bonus_lines)
  | rule :: rest =>
      if streak =? fst rule then
        match add_points_once d uid (streak_bonus_key (fst rule) today_str)
                "streak_bonus" (snd rule)
                [("days", JInt (fst rule)); ("date", JStr today_str)] with
        | Ok (d1, ok) =>
            grant_streak_bonuses uid streak today_str rest d1
              (if ok then (bonus_lines ++ [rule])%list else bonus_lines)
        | Raise e => (d, Raise e)
        end
      else grant_streak_bonuses uid streak today_str rest d bonus_lines
  end.

(** The branch [data == "daily_checkin"] of [on_callback]. *)
Definition daily_checkin (cfg : config) (env : event_env) (d : db)
    (user_row : user_row) (out : list reply) : outcome :=
  let uid := user_id user_row in
  if negb (PyStr.truthy (wallet_address user_row)) then
    Done (d, say out ConnectWalletFirst)
  else
    let today_date := today env in
    let today_str := Calendar.strftime_ymd today_date in
    attempt (add_points_once d uid (checkin_key today_str) "daily_checkin"
               (POINT_DAILY_CHECKIN cfg) [("date", JStr today_str)]) d out (fun a =>
    let '(d1, awarded) := a in
    attempt (compute_streak d1 uid today_date) d1 out (fun streak =>
    if negb awarded then Done (d1, say out (AlreadyCheckedIn streak))
    else
      match grant_streak_bonuses uid streak today_str (STREAK_BONUSES cfg) d1 [] with
      | (d2, Ok bonus_lines) =>
          Done (d2, say out (CheckinComplete (POINT_DAILY_CHECKIN cfg) streak bonus_lines))
      | (d2, Raise e) => Failed e (d2, out)
      end)).

(** The branch [data == "wallet_confirm"]. *)
Definition wallet_confirm (cfg : config) (d : db) (uid : Z) (out : list reply)
  : outcome :=
  match get_user d uid with
  | None => Done (d, out)
  | Some dbrow =>
      if PyStr.truthy (wallet_address dbrow) then
        Done (d, say out WalletAlreadyRegistered)
      else
        match wallet_pending dbrow with
        | Some (String c p) =>
            let pending := String c p in
            if wallet_of_another d pending uid then
              Done (d, say out WalletRegisteredByAnother)
            else if wallet_of_another d pending uid then
              (* the [IntegrityError] of the [UPDATE], caught *)
              Done (d, say out WalletAlreadyTaken)
            else
              let d1 :=
                update_user d uid
                  (fun u => set_user_state None
                              (set_wallet_pending None
                                 (set_wallet_address (Some pending) u))) in
              attempt (add_points_once d1 uid "wallet_register" "wallet_register"
                         (POINT_WALLET_REGISTER cfg) []) d1 out (fun a =>
              let d2 := fst a in
              match referrer_of dbrow with
              | Some r =>
                  attempt (add_points_once d2 r (referral_key uid)
                             "referral_wallet_connected"
                             (POINT_REFERRAL_QUALIFIED cfg)
                             [("referred_user_id", JInt uid)]) d2 out (fun b =>
                  Done (fst b, say out (WalletRegistered pending)))
              | None => Done (d2, say out (WalletRegistered pending))
              end)
        | _ => Done (d, say out NoPendingWallet)
        end
  end.

(** [on_callback]: a button press carrying [data]. *)
Definition on_callback (cfg : config) (env : event_env) (d : db)
    (uid : Z) (name : option string) (q_data : option string) : outcome :=
  if negb (Sqlite.fits uid) then Failed OverflowError (d, [])
  else
    let data := PyStr.or_empty q_data in
    prelude env d uid name (fun d user_row out =>
    if String.eqb data "daily_checkin" then daily_checkin cfg env d user_row out
    else if String.eqb data "invite_friend" then
      if negb (PyStr.truthy (wallet_address user_row)) then
        Done (d, say out ConnectWalletFirst)
      else Done (d, say out (InviteLink (ref_code user_row)))
    else if PyStr.startswith "mission:" data then choose_mission cfg d user_row data out
    else if String.eqb data "wallet_change" then wallet_change d user_row out
    else if String.eqb data "wallet_confirm" then wallet_confirm cfg d uid out
    else if String.eqb data "wallet_retry" then
      Done (update_user d uid
              (fun u => set_user_state (Some "AWAIT_WALLET") (set_wallet_pending None u)),
            say out EnterWalletAgain)
    else if String.eqb data "wallet_change_confirm" then wallet_change_confirm d uid out
    else if String.eqb data "wallet_change_retry" then
      Done (update_user d uid
              (fun u => set_user_state (Some "AWAIT_WALLET_CHANGE")
                          (set_wallet_pending None u)),
            say out EnterNewWalletAgain)
    else Done (d, out)).

(** [start]: the [/start] command with its arguments. *)
Definition start (env : event_env) (d : db) (uid : Z) (name : option string)
    (args : list string) : outcome :=
  if negb (Sqlite.fits uid) then Failed OverflowError (d, [])
  else
    attempt (ensure_user d uid name (token env)) d [] (fun d1 =>
    let d2 :=
      match args with
      | a :: _ =>
          match find_user_by_ref_code d1 (strip a) with
          | Some ref_user => set_referred_by_if_empty d1 uid (user_id ref_user)
          | None => d1
          end
      | [] => d1
      end in
    Done (d2, [Welcome])).

Definition handle (U : Unicode.tables) (cfg : config) (env : event_env) (d : db)
    (uid : Z) (name : option string) (e : event) : outcome :=
  match e with
  | Start args => start env d uid name args
  | Callback data => on_callback cfg env d uid name data
  | Text t => on_any_text U cfg env d uid name t
  end.

End Exact.

(** Every amount of the campaign, and the time at which a reward
    scheduled now falls due, fit 64 bits. *)
Definition campaign_fits (cfg : config) (env : event_env) : Prop :=
  Sqlite.fits (POINT_WALLET_REGISTER cfg) = true
  /\ Sqlite.fits (POINT_REFERRAL_QUALIFIED cfg) = true
  /\ Sqlite.fits (POINT_DAILY_CHECKIN cfg) = true
  /\ Forall (fun rule => Sqlite.fits (snd rule) = true) (STREAK_BONUSES cfg)
  /\ Forall (fun m => Sqlite.fits (mission_points m) = true
                      /\ Sqlite.fits (clock_schedule env
                                      + mission_delay_minutes m * 60) = true)
            (MISSIONS cfg).

(** The user id and the amount of the call fit 64 bits. *)
Definition call_fits (c : credit_call) : bool :=
  (Sqlite.fits (call_user c) && Sqlite.fits (call_amount c))%bool.

(** The amounts of the ledger rows of [uid]. *)
Definition amounts_of (d : db) (uid : Z) : list Z :=
  map amount (filter (fun r => ledger_user_id r =? uid) (ledger d)).

(** Tables for the concrete cases: the Unicode database below U+0100,
    the identity and no letter above. *)
Definition latin1_upper (c : Z) : bool :=
  ((65 <=? c) && (c <=? 90)
   || (192 <=? c) && (c <=? 222) && negb (c =? 215))%bool.

Definition latin1_tolower (c : Z) : Z := if latin1_upper c then c + 32 else c.

Definition latin1_isalnum (c : Z) : bool :=
  ((48 <=? c) && (c <=? 57) || (65 <=? c) && (c <=? 90) || (97 <=? c) && (c <=? 122)
   || (c =? 170) || (c =? 178) || (c =? 179) || (c =? 181) || (c =? 185)
   || (c =? 186) || (188 <=? c) && (c <=? 190)
   || (192 <=? c) && (c <=? 255) && negb (c =? 215) && negb (c =? 247))%bool.

Definition sample_tables : Unicode.tables :=
  Unicode.mkTables (map latin1_tolower) latin1_tolower latin1_isalnum.

(** Two texts that differ in capitals, in the white space around and
    between the words, with an accented capital and a no-break space. *)
Definition creme_1 : string :=
  Utf8.encode [32; 32; 67; 82; 200; 77; 69; 160; 160; 98; 114; 251; 108; 233; 101; 10].

Definition creme_2 : string :=
  Utf8.encode [99; 114; 232; 109; 101; 32; 66; 114; 251; 108; 201; 69; 12288].

(** A recipe with accented letters, and the same recipe as another user
    types it: other capitals, no-break spaces, other white space. *)
Definition sample_recipe_fr : string :=
  sample_recipe
  ++ Utf8.encode [32; 83; 101; 114; 118; 101; 32; 119; 105; 116; 104; 32;
                  99; 114; 232; 109; 101; 32; 102; 114; 97; 238; 99; 104; 101; 46].

Definition sample_recipe_fr_copy : string :=
  Utf8.encode [160; 8195] ++ sample_recipe_copy
  ++ Utf8.encode [83; 69; 82; 86; 69; 160; 87; 73; 84; 72; 32; 32;
                  67; 82; 200; 77; 69; 12288; 70; 82; 65; 206; 67; 72; 69; 46; 8232].

(** User 1 has submitted [sample_recipe_fr]; user 2 is asked for a
    recipe. *)
Definition sample_recipes_fr : db :=
  mkDb [sample_user 1 "ref1" None wallet_A;
        awaiting_user 2 "ref2" wallet_B "recipe_submit"]
       [mkLedger 1 "mission:recipe_submit" "mission:recipe_submit" 30
                 [("payload", JStr sample_recipe_fr)]]
       [mkSubmission 1 "recipe_submit" sample_recipe_fr]
       [mkFingerprint "recipe_submit"
          (Sha256.hexdigest (Exact.normalize_recipe_text sample_tables sample_recipe_fr)) 1]
       [].

(* ================================================================== *)
(** * Properties *)

(* ------------------------------------------------------------------ *)
(** ** The model against known values *)

Example wallet_re_accepts :
  Re.match_anchored WALLET_RE "0xAAAAAAAAAAaaaaaaaaaa00000000001111111111" = true.
Proof. vm_compute. reflexivity. Qed.

Example wallet_re_rejects_short :
  Re.match_anchored WALLET_RE "0xAAAAAAAAAAaaaaaaaaaa0000000000111111111" = false.
Proof. vm_compute. reflexivity. Qed.

Example x_profile_accepts :
  validate "x_profile" "https://www.twitter.com/some_user/"
  = (true, "", "https://www.twitter.com/some_user/").
Proof. vm_compute. reflexivity. Qed.

Example x_profile_rejects_handle :
  fst (fst (validate "x_profile" "@some_user")) = false.
Proof. vm_compute. reflexivity. Qed.

Example tg_username_bounds :
  fst (fst (validate "tg_username" "@abcd")) = false /\
  fst (fst (validate "tg_username" "@abcde")) = true.
Proof. vm_compute. split; reflexivity. Qed.

Example search_word_examples :
  Re.search_word_i "steps" "1. Ingredients; 2. STEPS: mix" = true /\
  Re.search_word_i "steps" "footsteps" = false /\
  Re.search_word_i "steps" "steps_1" = false.
Proof. vm_compute. repeat split; reflexivity. Qed.

Example of_int_examples :
  PyStr.of_int 0 = "0" /\ PyStr.of_int 42 = "42" /\ PyStr.of_int (-7) = "-7".
Proof. vm_compute. repeat split; reflexivity. Qed.

Example calendar_known_ordinals :
  Calendar.ymd2ord 2024 1 3 = 738888 /\ Calendar.ord2ymd 738888 = (2024, 1, 3) /\
  Calendar.ord2ymd 1 = (1, 1, 1) /\ Calendar.ord2ymd 3652059 = (9999, 12, 31) /\
  Calendar.ord2ymd (738888 + 57) = (2024, 2, 29) /\
  Calendar.ord2ymd (738888 - 3) = (2023, 12, 31).
Proof. vm_compute. repeat split; reflexivity. Qed.

Example strftime_known : Calendar.strftime_ymd 738888 = "2024-01-03".
Proof. vm_compute. reflexivity. Qed.

Example strptime_known :
  Calendar.strptime_ymd "2024-01-03" = Some 738888 /\
  Calendar.strptime_ymd "2024-1-3" = Some 738888 /\
  Calendar.strptime_ymd "2024-12- 1" = Some (Calendar.ymd2ord 2024 12 1) /\
  Calendar.strptime_ymd "2024-02-29" = Some (738888 + 57) /\
  Calendar.strptime_ymd "2023-02-29" = None /\
  Calendar.strptime_ymd "2024-12-32" = None /\
  Calendar.strptime_ymd "2024-13-01" = None /\
  Calendar.strptime_ymd "0000-01-01" = None /\
  Calendar.strptime_ymd "2024-01-031" = None /\
  Calendar.strptime_ymd " 2024-01-03" = None.
Proof. vm_compute. repeat split; reflexivity. Qed.

Example minus_one_day_at_min :
  Calendar.minus_one_day 1 = Raise OverflowError /\
  Calendar.minus_one_day 2 = Ok 1.
Proof. vm_compute. split; reflexivity. Qed.

Example sha256_constants :
  List.length Sha256.primes = 64%nat /\ nth 63 Sha256.primes 0 = 311 /\
  nth 0 Sha256.K 0 = 0x428a2f98 /\ nth 63 Sha256.K 0 = 0xc67178f2 /\
  nth 0 Sha256.H0 0 = 0x6a09e667 /\ nth 7 Sha256.H0 0 = 0x5be0cd19.
Proof. vm_compute. repeat split; reflexivity. Qed.

Example sha256_empty :
  Sha256.hexdigest "" = "e3b0c44298fc1c149afbf4c8996fb92427ae41e4649b934ca495991b7852b855".
Proof. vm_compute. reflexivity. Qed.

Example sha256_abc :
  Sha256.hexdigest "abc" = "ba7816bf8f01cfea414140de5dae2223b00361a396177a9cb410ff61f20015ad".
Proof. vm_compute. reflexivity. Qed.

Example sha256_two_blocks :
  Sha256.hexdigest "abcdbcdecdefdefgefghfghighijhijkijkljklmklmnlmnomnopnopq"
  = "248d6a61d20638b8e5c026930c3e6039a33ce45964ff2167f6ecedd419db06c1".
Proof. vm_compute. reflexivity. Qed.

Example like_known :
  like "daily_checkin:%" "daily_checkin:2024-01-03" = true /\
  like "daily_checkin:%" "DAILY-CHECKIN:x" = true /\
  like "daily_checkin:%" "checkin:2024-01-03" = false.
Proof. vm_compute. repeat split; reflexivity. Qed.

Example normalize_known :
  normalize_recipe_text "  Mix   THE flour  " = "mix the flour"
  /\ PyStr.split "  Mix   THE flour  " = ["Mix"; "THE"; "flour"]
  /\ PyStr.strip "  Mix   THE flour  " = "Mix   THE flour".
Proof. vm_compute. repeat split; reflexivity. Qed.

(* ------------------------------------------------------------------ *)
(** ** The matcher decides the language of the expression *)

Section Matcher.

Import Re.

Lemma append_empty : forall s1 s2, s1 ++ s2 = EmptyString ->
                                   s1 = EmptyString /\ s2 = EmptyString.
Proof. intros [|c s1] s2 H; [auto | discriminate]. Qed.

Lemma matches_cat_inv :
  forall a b s, matches (Cat a b) s ->
                exists s1 s2, s = s1 ++ s2 /\ matches a s1 /\ matches b s2.
Proof. intros a b s H. inversion H; subst. eauto. Qed.

Lemma matches_alt_inv :
  forall a b s, matches (Alt a b) s -> matches a s \/ matches b s.
Proof. intros a b s H. inversion H; subst; auto. Qed.

Lemma matches_cls_inv :
  forall p s, matches (Cls p) s -> exists c, s = String c EmptyString /\ p c = true.
Proof. intros p s H. inversion H; subst. eauto. Qed.

Lemma nullable_matches : forall r, nullable r = true <-> matches r EmptyString.
Proof.
  induction r as [| | p | a IHa b IHb | a IHa b IHb | a IHa]; simpl.
  - split; [discriminate | intros H; inversion H].
  - split; [constructor | reflexivity].
  - split; [discriminate|].
    intros H. apply matches_cls_inv in H as (c & E & _). discriminate.
  - rewrite andb_true_iff, IHa, IHb. split.
    + intros [Ha Hb]. exact (MCat a b EmptyString EmptyString Ha Hb).
    + intros H. apply matches_cat_inv in H as (s1 & s2 & E & Ha & Hb).
      symmetry in E. apply append_empty in E as [-> ->]. auto.
  - rewrite orb_true_iff, IHa, IHb. split.
    + intros [H|H]; [now apply MAltL | now apply MAltR].
    + apply matches_alt_inv.
  - split; [constructor | reflexivity].
Qed.

(** A non-empty word of a star starts with a non-empty word of the body. *)
Lemma star_head :
  forall r s, matches r s ->
    forall body x t, r = Star body -> s = String x t ->
      exists t1 t2,
        t = t1 ++ t2 /\ matches body (String x t1) /\ matches (Star body) t2.
Proof.
  intros r s H.
  induction H as [| | | | | |a0 s1 s2 H1 _ H2 IH2]; intros body x t Er Es;
    try discriminate.
  injection Er as Er. subst a0.
  destruct s1 as [|c1 s1]; simpl in Es.
  - now apply IH2.
  - injection Es as Ec Et. subst c1 t. exists s1, s2. auto.
Qed.

Lemma deriv_matches :
  forall r c s, matches (deriv c r) s <-> matches r (String c s).
Proof.
  induction r as [| | p | a IHa b IHb | a IHa b IHb | a IHa]; intros c s; simpl.
  - split; intros H; inversion H.
  - split; intros H; inversion H.
  - destruct (p c) eqn:E; split; intros H.
    + inversion H; subst. now constructor.
    + apply matches_cls_inv in H as (c' & Es & _).
      injection Es as _ Es. subst s. constructor.
    + inversion H.
    + apply matches_cls_inv in H as (c' & Es & Hp).
      injection Es as Ec _. subst c'. congruence.
  - assert (Hcat : matches (Cat (deriv c a) b) s ->
                   matches (Cat a b) (String c s)).
    { intros H. apply matches_cat_inv in H as (s1 & s2 & -> & Ha & Hb).
      apply IHa in Ha. exact (MCat a b (String c s1) s2 Ha Hb). }
    assert (Hsplit : matches (Cat a b) (String c s) ->
                     matches (Cat (deriv c a) b) s
                     \/ (matches a EmptyString /\ matches (deriv c b) s)).
    { intros H. apply matches_cat_inv in H as (s1 & s2 & E & Ha & Hb).
      destruct s1 as [|c1 s1]; simpl in E.
      - right. subst s2. split; [exact Ha | now apply IHb].
      - injection E as Ec Es. subst c1 s. left.
        apply MCat; [now apply IHa | exact Hb]. }
    destruct (nullable a) eqn:N.
    + split.
      * intros H. apply matches_alt_inv in H as [H|H]; [now apply Hcat|].
        apply nullable_matches in N.
        apply (MCat a b EmptyString (String c s) N). now apply IHb.
      * intros H. destruct (Hsplit H) as [H1|[_ H1]];
          [now apply MAltL | now apply MAltR].
    + split; [exact Hcat|].
      intros H. destruct (Hsplit H) as [H1|[H1 _]]; [exact H1|].
      apply nullable_matches in H1. congruence.
  - split; intros H; apply matches_alt_inv in H as [H|H];
      solve [apply MAltL; now apply IHa | apply MAltR; now apply IHb].
  - split.
    + intros H. apply matches_cat_inv in H as (s1 & s2 & -> & Ha & Hb).
      apply IHa in Ha. exact (MStarApp a (String c s1) s2 Ha Hb).
    + intros H.
      destruct (star_head (Star a) (String c s) H a c s eq_refl eq_refl)
        as (t1 & t2 & -> & Ha & Hs).
      apply MCat; [now apply IHa | exact Hs].
Qed.

(** [fullmatch r s] holds exactly when [s] is in the language of [r]. *)
Lemma fullmatch_matches :
  forall s r, fullmatch r s = true <-> matches r s.
Proof.
  induction s as [|c s IH]; intros r; simpl.
  - apply nullable_matches.
  - rewrite IH. apply deriv_matches.
Qed.

End Matcher.

(* ------------------------------------------------------------------ *)
(** ** Validation *)

(** C9. A validator kind that is none of [x_profile], [tg_username] and
    [recipe_text] accepts every text and hands it back unchanged. *)
Theorem validate_unrecognized_kind :
  forall validator text,
    String.eqb validator "x_profile" = false ->
    String.eqb validator "tg_username" = false ->
    String.eqb validator "recipe_text" = false ->
    validate validator text = (true, "", text).
Proof.
  intros validator text H1 H2 H3.
  unfold validate. rewrite H1, H2, H3. reflexivity.
Qed.

Lemma validate_unrecognized_kind_witness :
  validate "" "any text at all" = (true, "", "any text at all")
  /\ validate "wallet" "0x12" = (true, "", "0x12").
Proof.
  split; apply validate_unrecognized_kind; reflexivity.
Defined.

(* ------------------------------------------------------------------ *)
(** ** Fingerprints *)

Section Fingerprints.

Local Open Scope list_scope.

Lemma fingerprint_has_app :
  forall l1 l2 mid fp,
    fingerprint_has (l1 ++ l2) mid fp
    = (fingerprint_has l1 mid fp || fingerprint_has l2 mid fp)%bool.
Proof. intros. unfold fingerprint_has. apply existsb_app. Qed.

(** After a claim, whatever its result, the fingerprint is in the store. *)
Lemma claimed_after_claim :
  forall d mid uid text,
    fingerprint_has (recipe_fingerprints (fst (claim_recipe_fingerprint d mid uid text)))
                    mid (Sha256.hexdigest (normalize_recipe_text text)) = true.
Proof.
  intros d mid uid text. unfold claim_recipe_fingerprint.
  destruct (fingerprint_has (recipe_fingerprints d) mid _) eqn:E; simpl.
  - exact E.
  - rewrite fingerprint_has_app, E. simpl.
    rewrite !String.eqb_refl. reflexivity.
Qed.

(** A claim for one mission leaves the other missions' fingerprints as
    they were. *)
Lemma claim_other_mission :
  forall d mid mid' uid text fp,
    String.eqb mid mid' = false ->
    fingerprint_has (recipe_fingerprints (fst (claim_recipe_fingerprint d mid uid text)))
                    mid' fp
    = fingerprint_has (recipe_fingerprints d) mid' fp.
Proof.
  intros d mid mid' uid text fp Hne. unfold claim_recipe_fingerprint.
  destruct (fingerprint_has (recipe_fingerprints d) mid _); simpl.
  - reflexivity.
  - rewrite fingerprint_has_app. simpl. rewrite Hne. simpl.
    now rewrite !orb_false_r.
Qed.

Lemma claim_result :
  forall d mid uid text,
    snd (claim_recipe_fingerprint d mid uid text)
    = negb (fingerprint_has (recipe_fingerprints d) mid
              (Sha256.hexdigest (normalize_recipe_text text))).
Proof.
  intros. unfold claim_recipe_fingerprint.
  now destruct (fingerprint_has _ _ _).
Qed.

Lemma claim_rejected_unchanged :
  forall d mid uid text,
    snd (claim_recipe_fingerprint d mid uid text) = false ->
    fst (claim_recipe_fingerprint d mid uid text) = d.
Proof.
  intros d mid uid text. unfold claim_recipe_fingerprint.
  now destruct (fingerprint_has _ _ _).
Qed.

End Fingerprints.

(** *** Normalisation does not see case or outer white space *)

Lemma isspace_lower_char : forall c, PyStr.isspace (PyStr.lower_char c) = PyStr.isspace c.
Proof. intros [[] [] [] [] [] [] [] []]; reflexivity. Qed.

Lemma lower_lstrip : forall s, PyStr.lower (PyStr.lstrip s) = PyStr.lstrip (PyStr.lower s).
Proof.
  induction s as [|c s IH]; simpl; [reflexivity|].
  rewrite isspace_lower_char. destruct (PyStr.isspace c); [exact IH | reflexivity].
Qed.

Lemma lower_rstrip : forall s, PyStr.lower (PyStr.rstrip s) = PyStr.rstrip (PyStr.lower s).
Proof.
  induction s as [|c s IH]; simpl; [reflexivity|].
  rewrite <- IH, isspace_lower_char.
  destruct (PyStr.rstrip s); simpl; [destruct (PyStr.isspace c)|]; reflexivity.
Qed.

Lemma lower_strip : forall s, PyStr.lower (PyStr.strip s) = PyStr.strip (PyStr.lower s).
Proof. intros. unfold PyStr.strip. now rewrite lower_rstrip, lower_lstrip. Qed.

(** Two texts that differ in capitalisation only have one normal form. *)
Lemma normalize_ignores_case :
  forall t1 t2, PyStr.lower t1 = PyStr.lower t2 ->
                normalize_recipe_text t1 = normalize_recipe_text t2.
Proof.
  intros t1 t2 H. unfold normalize_recipe_text. now rewrite !lower_strip, H.
Qed.

(** White space before the text does not count. *)
Lemma normalize_ignores_leading_space :
  forall c t, PyStr.isspace c = true ->
              normalize_recipe_text (String c t) = normalize_recipe_text t.
Proof.
  intros c t H. unfold normalize_recipe_text, PyStr.strip. simpl. now rewrite H.
Qed.

(** *** The normal form is the words of the text, in lower case, with
    one space between them: [" ".join(text.lower().split())] *)

Lemma lstrip_head :
  forall s c r, PyStr.lstrip s = String c r -> PyStr.isspace c = false.
Proof.
  induction s as [|a s IH]; intros c r H; simpl in H; [discriminate|].
  destruct (PyStr.isspace a) eqn:E; [now apply IH in H|].
  now inversion H; subst.
Qed.

Lemma rstrip_tail :
  forall c s, PyStr.rstrip (String c s) = String c s -> PyStr.rstrip s = s.
Proof.
  intros c s H. simpl in H. destruct (PyStr.rstrip s) as [|a r] eqn:E.
  - destruct (PyStr.isspace c); [discriminate | now inversion H].
  - now inversion H.
Qed.

Lemma rstrip_space_nonempty :
  forall c s, PyStr.isspace c = true -> PyStr.rstrip (String c s) = String c s ->
              s <> EmptyString.
Proof.
  intros c s Hc H ->. simpl in H. rewrite Hc in H. discriminate.
Qed.

Lemma rstrip_idem : forall s, PyStr.rstrip (PyStr.rstrip s) = PyStr.rstrip s.
Proof.
  induction s as [|c s IH]; simpl; [reflexivity|].
  destruct (PyStr.rstrip s) as [|a r] eqn:E.
  - destruct (PyStr.isspace c) eqn:Hc; simpl; [reflexivity | now rewrite Hc].
  - simpl in *. now rewrite IH.
Qed.

Lemma lstrip_rstrip_head :
  forall s, PyStr.lstrip (PyStr.rstrip (PyStr.lstrip s)) = PyStr.rstrip (PyStr.lstrip s).
Proof.
  intros s. destruct (PyStr.lstrip s) as [|c r] eqn:E; [reflexivity|].
  pose proof (lstrip_head s c r E) as Hc. simpl.
  destruct (PyStr.rstrip r); rewrite ?Hc; simpl; rewrite ?Hc; reflexivity.
Qed.

Lemma split_from_lstrip :
  forall s, PyStr.split_from EmptyString (PyStr.lstrip s) = PyStr.split_from EmptyString s.
Proof.
  induction s as [|c s IH]; simpl; [reflexivity|].
  destruct (PyStr.isspace c) eqn:E; [exact IH|]. simpl. now rewrite E.
Qed.

Lemma split_from_rstrip :
  forall s cur, PyStr.split_from cur (PyStr.rstrip s) = PyStr.split_from cur s.
Proof.
  induction s as [|c s IH]; intros cur; [reflexivity|]. simpl.
  destruct (PyStr.rstrip s) as [|a r] eqn:E.
  - destruct (PyStr.isspace c) eqn:Hc; simpl.
    + rewrite <- (IH EmptyString). reflexivity.
    + rewrite Hc, <- IH. reflexivity.
  - cbn [PyStr.split_from]. destruct (PyStr.isspace c).
    + now rewrite <- (IH EmptyString).
    + now rewrite <- IH.
Qed.

Lemma split_from_nil :
  forall s cur, PyStr.split_from cur s = nil -> cur = EmptyString /\ PyStr.rstrip s = EmptyString.
Proof.
  induction s as [|c s IH]; intros cur H; simpl in H.
  - destruct cur; [auto | discriminate].
  - destruct (PyStr.isspace c) eqn:Hc.
    + destruct cur; [|discriminate]. apply IH in H as [_ H].
      split; [reflexivity|]. simpl. now rewrite H, Hc.
    + apply IH in H as [H _]. destruct cur; discriminate.
Qed.

Lemma append_snoc :
  forall a c b, (a ++ String c EmptyString) ++ b = a ++ String c b.
Proof. induction a as [|x a IH]; intros c b; simpl; [reflexivity | now rewrite IH]. Qed.

Lemma append_snoc_nonempty : forall a c, a ++ String c EmptyString <> EmptyString.
Proof. intros [|x a] c; discriminate. Qed.

Lemma concat_cons :
  forall sep x l, l <> nil -> String.concat sep (x :: l) = x ++ sep ++ String.concat sep l.
Proof. intros sep x [|y l] H; [contradiction | reflexivity]. Qed.

(** On a text without white space at its end, collapsing the runs of
    white space writes the words with one space between them; [cur] is the
    word being written, and when there is none the text does not start with
    white space. *)
Lemma collapse_is_join :
  forall s,
    PyStr.rstrip s = s ->
    (s <> EmptyString ->
     collapse_ws true s = String.concat " " (PyStr.split_from EmptyString s))
    /\ (forall cur,
          (cur = EmptyString -> PyStr.lstrip s = s) ->
          cur ++ collapse_ws false s = String.concat " " (PyStr.split_from cur s)).
Proof.
  induction s as [|c s IH]; intros Hr.
  - split; [contradiction|]. intros cur _. simpl.
    destruct cur; simpl; [reflexivity|]. f_equal. clear. induction cur; simpl; congruence.
  - pose proof (rstrip_tail c s Hr) as Hr'. destruct (IH Hr') as (IH1 & IH2).
    destruct (PyStr.isspace c) eqn:Hc.
    + pose proof (rstrip_space_nonempty c s Hc Hr) as Hne.
      assert (Hl : PyStr.split_from EmptyString s <> nil).
      { intros E. apply split_from_nil in E as [_ E]. rewrite Hr' in E. contradiction. }
      split.
      * intros _. simpl. rewrite Hc. now apply IH1.
      * intros cur Hcur. destruct cur as [|x cur].
        { specialize (Hcur eq_refl). simpl in Hcur. rewrite Hc in Hcur.
          destruct (PyStr.lstrip s) as [|a r] eqn:E; [discriminate|].
          apply lstrip_head in E. inversion Hcur; subst. congruence. }
        cbn [collapse_ws PyStr.split_from]. rewrite Hc.
        rewrite concat_cons by exact Hl. rewrite <- (IH1 Hne). reflexivity.
    + split.
      * intros _. cbn [collapse_ws PyStr.split_from]. rewrite Hc.
        rewrite <- IH2 by (intros E; discriminate E). reflexivity.
      * intros cur _. cbn [collapse_ws PyStr.split_from]. rewrite Hc.
        rewrite <- IH2 by (intros E; now apply append_snoc_nonempty in E).
        now rewrite append_snoc.
Qed.

(** [normalize_recipe_text(text)] is [" ".join(text.lower().split())]. *)
Lemma normalize_is_join_of_words :
  forall text,
    normalize_recipe_text text = String.concat " " (PyStr.split (PyStr.lower text)).
Proof.
  intros text. unfold normalize_recipe_text, PyStr.split.
  rewrite lower_strip. set (u := PyStr.lower text). unfold PyStr.strip.
  destruct (collapse_is_join (PyStr.rstrip (PyStr.lstrip u)) (rstrip_idem _))
    as (_ & H).
  specialize (H EmptyString (fun _ => lstrip_rstrip_head u)). simpl in H.
  now rewrite H, split_from_rstrip, split_from_lstrip.
Qed.

(** Texts with the same words, whatever the capitals and the white space
    between and around the words, have one normal form. *)
Lemma normalize_same_words :
  forall t1 t2,
    PyStr.split (PyStr.lower t1) = PyStr.split (PyStr.lower t2) ->
    normalize_recipe_text t1 = normalize_recipe_text t2.
Proof. intros t1 t2 H. now rewrite !normalize_is_join_of_words, H. Qed.

(** C10. The fingerprint store is keyed on the mission and the digest, not
    on the claimant: the result of a claim is the same whoever makes it,
    and once a text has been claimed for a mission, claiming it again for
    that mission is refused and changes nothing, also for the user who
    made the first claim. *)
Theorem claim_fingerprint_ignores_claimant :
  forall d mid uid uid' text,
    snd (claim_recipe_fingerprint d mid uid text)
    = snd (claim_recipe_fingerprint d mid uid' text)
    /\ (let d1 := fst (claim_recipe_fingerprint d mid uid text) in
        claim_recipe_fingerprint d1 mid uid text = (d1, false)
        /\ claim_recipe_fingerprint d1 mid uid' text = (d1, false)).
Proof.
  intros d mid uid uid' text. split.
  - now rewrite !claim_result.
  - pose proof (claimed_after_claim d mid uid text) as H.
    cbv zeta. split; unfold claim_recipe_fingerprint at 1; now rewrite H.
Qed.

(* ------------------------------------------------------------------ *)
(** ** Fingerprints of any text *)

Section ExactFingerprints.

Local Open Scope list_scope.

Variable U : Unicode.tables.

Lemma lstrip_spaces :
  forall ws t, forallb Unicode.isspace ws = true ->
               Unicode.lstrip (ws ++ t) = Unicode.lstrip t.
Proof.
  induction ws as [|c ws IH]; intros t H; [reflexivity|].
  simpl in *. apply andb_true_iff in H as [Hc H]. rewrite Hc. now apply IH.
Qed.

Lemma lstrip_all_spaces :
  forall ws, forallb Unicode.isspace ws = true -> Unicode.lstrip ws = [].
Proof.
  intros ws H. rewrite <- (app_nil_r ws). now rewrite lstrip_spaces.
Qed.

Lemma forallb_rev :
  forall (f : Z -> bool) l, forallb f (rev l) = forallb f l.
Proof.
  intros f l. induction l as [|x l IH]; [reflexivity|].
  simpl. rewrite forallb_app, IH. simpl. rewrite andb_true_r. apply andb_comm.
Qed.

Lemma rstrip_spaces :
  forall t ws, forallb Unicode.isspace ws = true ->
               Unicode.rstrip (t ++ ws) = Unicode.rstrip t.
Proof.
  intros t ws H. unfold Unicode.rstrip. rewrite rev_app_distr.
  rewrite lstrip_spaces; [reflexivity|]. now rewrite forallb_rev.
Qed.

(** What is left of [t ++ ws] once the white space in front is gone. *)
Lemma lstrip_app_spaces :
  forall t ws, forallb Unicode.isspace ws = true ->
               Unicode.rstrip (Unicode.lstrip (t ++ ws))
               = Unicode.rstrip (Unicode.lstrip t).
Proof.
  induction t as [|c t IH]; intros ws H.
  - simpl. rewrite lstrip_all_spaces by exact H. reflexivity.
  - simpl. destruct (Unicode.isspace c); [now apply IH|].
    now apply (rstrip_spaces (c :: t) ws).
Qed.

(** White space around a text does not count. *)
Lemma strip_outer_spaces :
  forall ws1 t ws2,
    forallb Unicode.isspace ws1 = true -> forallb Unicode.isspace ws2 = true ->
    Unicode.strip (ws1 ++ t ++ ws2) = Unicode.strip t.
Proof.
  intros ws1 t ws2 H1 H2. unfold Unicode.strip.
  rewrite lstrip_spaces by exact H1. now apply lstrip_app_spaces.
Qed.

Lemma exact_claim_value :
  forall d mid uid text,
    Sqlite.fits uid = true ->
    Exact.claim_recipe_fingerprint U d mid uid text
    = Ok (if fingerprint_has (recipe_fingerprints d) mid
               (Sha256.hexdigest (Exact.normalize_recipe_text U text))
          then (d, false)
          else (with_fingerprints d
                  (recipe_fingerprints d
                   ++ [mkFingerprint mid
                         (Sha256.hexdigest (Exact.normalize_recipe_text U text)) uid]),
                true)).
Proof.
  intros d mid uid text Hu. unfold Exact.claim_recipe_fingerprint. rewrite Hu.
  now destruct (fingerprint_has _ _ _).
Qed.

End ExactFingerprints.



Example exact_normal_forms :
  Exact.normalize_recipe_text sample_tables creme_1
  = Utf8.encode [99; 114; 232; 109; 101; 32; 98; 114; 251; 108; 233; 101]
  /\ Exact.normalize_recipe_text sample_tables creme_2
     = Exact.normalize_recipe_text sample_tables creme_1
  /\ normalize_recipe_text creme_1 <> normalize_recipe_text creme_2
  /\ Exact.len creme_1 = 16 /\ PyStr.len creme_1 = 21
  /\ Utf8.decode creme_1
     = [32; 32; 67; 82; 200; 77; 69; 160; 160; 98; 114; 251; 108; 233; 101; 10]
  /\ Exact.strip creme_1 = Utf8.encode [67; 82; 200; 77; 69; 160; 160; 98; 114; 251; 108; 233; 101].
Proof. vm_compute. repeat split; try reflexivity. discriminate. Qed.

(** On a kind other than [recipe_text] the validator does not look at
    characters beyond those its patterns name: it is [validate]. *)
Lemma exact_validate_other_kinds :
  forall U validator text,
    String.eqb validator "recipe_text" = false ->
    Exact.validate U validator text = validate validator text.
Proof.
  intros U validator text H. unfold Exact.validate, validate. now rewrite H.
Qed.

(** The result of a claim does not depend on the claimant, on any text. *)
Lemma exact_claim_ignores_claimant :
  forall U d mid uid uid' text,
    Sqlite.fits uid = true -> Sqlite.fits uid' = true ->
    exists d1 d1' r,
      Exact.claim_recipe_fingerprint U d mid uid text = Ok (d1, r)
      /\ Exact.claim_recipe_fingerprint U d mid uid' text = Ok (d1', r)
      /\ Exact.claim_recipe_fingerprint U d1 mid uid text = Ok (d1, false)
      /\ Exact.claim_recipe_fingerprint U d1 mid uid' text = Ok (d1, false).
Proof.
  intros U d mid uid uid' text Hu Hu'.
  rewrite !exact_claim_value by assumption.
  destruct (fingerprint_has (recipe_fingerprints d) mid _) eqn:E.
  - exists d, d, false. rewrite !exact_claim_value by assumption. rewrite E. auto.
  - do 3 eexists. split; [reflexivity|]. split; [reflexivity|].
    rewrite !exact_claim_value by assumption. simpl.
    rewrite fingerprint_has_app. simpl. rewrite !String.eqb_refl. simpl.
    rewrite orb_true_r. auto.
Qed.

(* ------------------------------------------------------------------ *)
(** ** The ledger *)

Section Ledger.

Local Open Scope list_scope.

Lemma ledger_has_app :
  forall l1 l2 uid key,
    ledger_has (l1 ++ l2) uid key = (ledger_has l1 uid key || ledger_has l2 uid key)%bool.
Proof. intros. unfold ledger_has. apply existsb_app. Qed.

Lemma count_key_app :
  forall l1 l2 uid key,
    count_key (l1 ++ l2) uid key = (count_key l1 uid key + count_key l2 uid key)%nat.
Proof. intros. unfold count_key. now rewrite filter_app, length_app. Qed.

Lemma ledger_has_count :
  forall l uid key, ledger_has l uid key = negb (Nat.eqb (count_key l uid key) 0).
Proof.
  intros l uid key. unfold ledger_has, count_key.
  induction l as [|r l IH]; simpl; [reflexivity|].
  destruct ((ledger_user_id r =? uid) && String.eqb (unique_key r) key)%bool;
    simpl; [reflexivity | exact IH].
Qed.

Lemma ledger_has_false_count :
  forall l uid key, ledger_has l uid key = false -> count_key l uid key = 0%nat.
Proof.
  intros l uid key H. rewrite ledger_has_count in H.
  destruct (count_key l uid key); [reflexivity | discriminate].
Qed.

Lemma ledger_has_true_count :
  forall l uid key, ledger_has l uid key = true -> (1 <= count_key l uid key)%nat.
Proof.
  intros l uid key H. rewrite ledger_has_count in H.
  destruct (count_key l uid key); [discriminate | lia].
Qed.

Lemma points_of_app :
  forall l1 l2 uid,
    sum (map amount (filter (fun r => ledger_user_id r =? uid) (l1 ++ l2)))
    = sum (map amount (filter (fun r => ledger_user_id r =? uid) l1))
      + sum (map amount (filter (fun r => ledger_user_id r =? uid) l2)).
Proof.
  intros l1 l2 uid. rewrite filter_app, map_app. unfold sum.
  induction (map amount (filter _ l1)) as [|x xs IH]; simpl; [reflexivity | lia].
Qed.

Lemma get_points_sum :
  forall d uid,
    get_points d uid = sum (map amount (filter (fun r => ledger_user_id r =? uid) (ledger d))).
Proof. reflexivity. Qed.

(** What one call does, in its two cases. *)
Lemma add_points_once_new :
  forall d uid key typ amt m,
    ledger_has (ledger d) uid key = false ->
    add_points_once d uid key typ amt m
    = (with_ledger d (ledger d ++ [mkLedger uid key typ amt m]), true).
Proof. intros. unfold add_points_once. now rewrite H. Qed.

Lemma add_points_once_dup :
  forall d uid key typ amt m,
    ledger_has (ledger d) uid key = true ->
    add_points_once d uid key typ amt m = (d, false).
Proof. intros. unfold add_points_once. now rewrite H. Qed.

Lemma add_points_once_result :
  forall d uid key typ amt m,
    snd (add_points_once d uid key typ amt m) = negb (ledger_has (ledger d) uid key).
Proof. intros. unfold add_points_once. now destruct (ledger_has _ _ _). Qed.

Lemma add_points_once_has :
  forall d uid key typ amt m,
    ledger_has (ledger (fst (add_points_once d uid key typ amt m))) uid key = true.
Proof.
  intros. unfold add_points_once.
  destruct (ledger_has (ledger d) uid key) eqn:E; simpl; [exact E|].
  rewrite ledger_has_app. simpl. rewrite Z.eqb_refl, String.eqb_refl.
  now rewrite orb_true_r.
Qed.

Lemma add_points_once_extends :
  forall d uid key typ amt m,
    extends (ledger d) (ledger (fst (add_points_once d uid key typ amt m))).
Proof.
  intros. unfold add_points_once, extends.
  destruct (ledger_has (ledger d) uid key); simpl.
  - exists []. now rewrite app_nil_r.
  - now eexists.
Qed.

Lemma add_points_once_frame :
  forall d uid key typ amt m,
    let d' := fst (add_points_once d uid key typ amt m) in
    users d' = users d /\ submissions d' = submissions d
    /\ recipe_fingerprints d' = recipe_fingerprints d
    /\ pending_rewards d' = pending_rewards d.
Proof.
  intros. unfold d', add_points_once.
  destruct (ledger_has (ledger d) uid key); simpl; auto.
Qed.

Lemma extends_refl : forall l, extends l l.
Proof. intros l. exists []. now rewrite app_nil_r. Qed.

Lemma extends_trans : forall l1 l2 l3, extends l1 l2 -> extends l2 l3 -> extends l1 l3.
Proof.
  intros l1 l2 l3 [a ->] [b ->]. exists (a ++ b). now rewrite app_assoc.
Qed.

Lemma extends_has :
  forall l l' uid key, extends l l' -> ledger_has l uid key = true ->
                       ledger_has l' uid key = true.
Proof. intros l l' uid key [a ->] H. now rewrite ledger_has_app, H. Qed.

Lemma count_key_snoc :
  forall l r uid key,
    count_key (l ++ [r]) uid key
    = Nat.add (count_key l uid key)
        (if ((ledger_user_id r =? uid) && String.eqb (unique_key r) key)%bool
         then 1%nat else 0%nat).
Proof.
  intros. rewrite count_key_app. f_equal. unfold count_key. simpl.
  now destruct ((ledger_user_id r =? uid) && String.eqb (unique_key r) key)%bool.
Qed.

(** A call never brings the number of rows of a pair above one, and
    never lowers it. *)
Lemma add_points_once_count :
  forall d uid key typ amt m u k,
    let d' := fst (add_points_once d uid key typ amt m) in
    (count_key (ledger d) u k <= count_key (ledger d') u k)%nat
    /\ ((count_key (ledger d) u k <= 1)%nat -> (count_key (ledger d') u k <= 1)%nat).
Proof.
  intros d uid key typ amt m u k d'. unfold d', add_points_once.
  destruct (ledger_has (ledger d) uid key) eqn:E; simpl; [split; lia|].
  rewrite count_key_snoc. simpl.
  destruct ((uid =? u) && String.eqb key k)%bool eqn:P; [|split; lia].
  apply andb_true_iff in P as [Pu Pk].
  apply Z.eqb_eq in Pu. apply String.eqb_eq in Pk. subst u k.
  rewrite (ledger_has_false_count _ _ _ E). split; lia.
Qed.

Lemma replay_extends :
  forall calls d, extends (ledger d) (ledger (fst (replay d calls))).
Proof.
  induction calls as [|c calls IH]; intros d; simpl; [apply extends_refl|].
  pose proof (add_points_once_extends d (call_user c) (call_key c) (call_type c)
                (call_amount c) (call_meta c)) as H1.
  destruct (add_points_once d _ _ _ _ _) as [d1 ok]. simpl in H1.
  specialize (IH d1). destruct (replay d1 calls) as [d2 oks]. simpl in *.
  eapply extends_trans; eassumption.
Qed.

Lemma replay_count :
  forall calls d u k,
    (count_key (ledger d) u k <= 1)%nat ->
    (count_key (ledger (fst (replay d calls))) u k <= 1)%nat.
Proof.
  induction calls as [|c calls IH]; intros d u k H; simpl; [exact H|].
  pose proof (add_points_once_count d (call_user c) (call_key c) (call_type c)
                (call_amount c) (call_meta c) u k) as [_ H1].
  destruct (add_points_once d _ _ _ _ _) as [d1 ok]. simpl in H1.
  specialize (IH d1 u k (H1 H)). now destruct (replay d1 calls).
Qed.

Lemma replay_points :
  forall calls d uid,
    get_points (fst (replay d calls)) uid
    = get_points d uid + sum (credited_amounts uid calls (snd (replay d calls))).
Proof.
  induction calls as [|c calls IH]; intros d uid; simpl; [unfold sum; simpl; lia|].
  unfold add_points_once.
  destruct (ledger_has (ledger d) (call_user c) (call_key c)) eqn:E.
  - specialize (IH d uid). destruct (replay d calls) as [d2 oks]. simpl in *.
    exact IH.
  - match goal with |- context [replay ?d1 calls] => specialize (IH d1 uid);
      destruct (replay d1 calls) as [d2 oks] end.
    simpl in *. rewrite IH. rewrite !get_points_sum. simpl.
    rewrite points_of_app. simpl.
    destruct (call_user c =? uid); unfold sum; simpl; lia.
Qed.

Lemma firstn_same_pair :
  forall calls u k,
    existsb (same_pair u k) calls = false ->
    forall i, existsb (same_pair u k) (firstn i calls) = false.
Proof.
  induction calls as [|c calls IH]; intros u k H [|i]; simpl in *; try reflexivity.
  apply orb_false_iff in H as [H1 H2]. rewrite H1. simpl. now apply IH.
Qed.

Lemma replay_results :
  forall calls d i c,
    nth_error calls i = Some c ->
    nth_error (snd (replay d calls)) i
    = Some (negb (ledger_has (ledger d) (call_user c) (call_key c)
                  || existsb (same_pair (call_user c) (call_key c)) (firstn i calls))).
Proof.
  induction calls as [|c0 calls IH]; intros d i c H; [destruct i; discriminate|].
  simpl.
  pose proof (add_points_once_result d (call_user c0) (call_key c0) (call_type c0)
                (call_amount c0) (call_meta c0)) as Hres.
  pose proof (add_points_once_has d (call_user c0) (call_key c0) (call_type c0)
                (call_amount c0) (call_meta c0)) as Hhas.
  pose proof (add_points_once_extends d (call_user c0) (call_key c0) (call_type c0)
                (call_amount c0) (call_meta c0)) as Hext.
  assert (Hother : forall u k, same_pair u k c0 = false ->
            ledger_has (ledger (fst (add_points_once d (call_user c0) (call_key c0)
                         (call_type c0) (call_amount c0) (call_meta c0)))) u k
            = ledger_has (ledger d) u k).
  { intros u k Hp. unfold add_points_once.
    destruct (ledger_has (ledger d) (call_user c0) (call_key c0)); simpl; [reflexivity|].
    rewrite ledger_has_app. simpl. unfold same_pair in Hp. rewrite Hp. simpl.
    now rewrite !orb_false_r. }
  destruct (add_points_once d _ _ _ _ _) as [d1 ok]. simpl in *.
  specialize (IH d1). destruct (replay d1 calls) as [d2 oks]. simpl in *.
  destruct i as [|i]; simpl in *.
  - inversion H; subst c. now rewrite Hres, orb_false_r.
  - rewrite (IH i c H). f_equal. f_equal.
    destruct (same_pair (call_user c) (call_key c) c0) eqn:P.
    + unfold same_pair in P. apply andb_true_iff in P as [Pu Pk].
      apply Z.eqb_eq in Pu. apply String.eqb_eq in Pk. rewrite <- Pu, <- Pk, Hhas.
      now rewrite orb_true_r.
    + now rewrite (Hother _ _ P).
Qed.

End Ledger.

(* ------------------------------------------------------------------ *)
(** ** The streak *)

Section Streak.

Lemma streak_loop_eq :
  forall fuel dates streak d,
    streak_loop fuel dates streak d
    = if date_in d dates then
        match fuel with
        | O => Ok streak
        | S fuel' =>
            let* d' := Calendar.minus_one_day d in
            streak_loop fuel' dates (streak + 1) d'
        end
      else Ok streak.
Proof. intros [|fuel]; reflexivity. Qed.

Lemma minus_one_day_ok :
  forall d, Calendar.min_ordinal <= d - 1 -> Calendar.minus_one_day d = Ok (d - 1).
Proof.
  intros d H. unfold Calendar.minus_one_day.
  destruct (Z.ltb_spec (d - 1) Calendar.min_ordinal); [lia | reflexivity].
Qed.

(** [n] days in a row, then a gap: the loop counts [n]. *)
Lemma streak_loop_counts :
  forall (n : nat) fuel dates streak d,
    (n <= fuel)%nat ->
    (forall k, 0 <= k < Z.of_nat n -> date_in (d - k) dates = true) ->
    date_in (d - Z.of_nat n) dates = false ->
    Calendar.min_ordinal <= d - Z.of_nat n ->
    streak_loop fuel dates streak d = Ok (streak + Z.of_nat n).
Proof.
  induction n as [|n IH]; intros fuel dates streak d Hfuel Hin Hgap Hmin.
  - rewrite streak_loop_eq. simpl in Hgap. rewrite Z.sub_0_r in Hgap.
    rewrite Hgap. f_equal. simpl. lia.
  - rewrite streak_loop_eq.
    assert (H0 : date_in d dates = true).
    { specialize (Hin 0). rewrite Z.sub_0_r in Hin. apply Hin. lia. }
    rewrite H0. destruct fuel as [|fuel]; [lia|].
    rewrite minus_one_day_ok by lia. simpl bind.
    rewrite (IH fuel dates (streak + 1) (d - 1)).
    + f_equal. lia.
    + lia.
    + intros k Hk. replace (d - 1 - k) with (d - (k + 1)) by lia. apply Hin. lia.
    + replace (d - 1 - Z.of_nat n) with (d - Z.of_nat (S n)) by lia. exact Hgap.
    + lia.
Qed.

(** More fuel than the ordinal of the day changes nothing: the loop of
    [compute_streak] always ends by itself. *)
Lemma streak_loop_enough_fuel :
  forall fuel extra dates streak d,
    (Z.to_nat d <= fuel)%nat ->
    (forall x, date_in x dates = true -> Calendar.min_ordinal <= x) ->
    streak_loop (fuel + extra) dates streak d = streak_loop fuel dates streak d.
Proof.
  induction fuel as [|fuel IH]; intros extra dates streak d Hfuel Hvalid;
    rewrite (streak_loop_eq (_ + extra)), (streak_loop_eq _ dates streak d);
    destruct (date_in d dates) eqn:E; try reflexivity;
    apply Hvalid in E; unfold Calendar.min_ordinal in E.
  - lia.
  - simpl. unfold Calendar.minus_one_day.
    destruct (d - 1 <? Calendar.min_ordinal); [reflexivity|].
    simpl. apply IH; [lia | exact Hvalid].
Qed.

Lemma days_before_year_nonneg :
  forall y, 1 <= y -> 0 <= Calendar.days_before_year y.
Proof.
  intros y Hy. unfold Calendar.days_before_year. cbv zeta.
  assert (0 <= (y - 1) / 400) by (apply Z.div_pos; lia).
  assert ((y - 1) / 100 <= (y - 1) / 4)
    by (apply Z.div_le_compat_l; lia).
  lia.
Qed.

Lemma make_date_valid :
  forall y m dd x, Calendar.make_date y m dd = Some x -> Calendar.min_ordinal <= x.
Proof.
  intros y m dd x. unfold Calendar.make_date.
  destruct (_ && _)%bool eqn:E; [|discriminate].
  intros H; inversion H; subst x; clear H.
  repeat (apply andb_true_iff in E as [E ?]).
  apply Z.leb_le in E. repeat match goal with H : (_ <=? _) = true |- _ =>
    apply Z.leb_le in H end.
  pose proof (days_before_year_nonneg y E).
  unfold Calendar.ymd2ord, Calendar.days_before_month, Calendar.min_ordinal.
  assert (0 <= Calendar.DAYS_BEFORE_MONTH m).
  { assert (Hm : m = 1 \/ m = 2 \/ m = 3 \/ m = 4 \/ m = 5 \/ m = 6 \/ m = 7
                 \/ m = 8 \/ m = 9 \/ m = 10 \/ m = 11 \/ m = 12) by lia.
    repeat (destruct Hm as [-> | Hm]; [simpl; lia|]). subst m. simpl. lia. }
  destruct ((2 <? m) && Calendar.is_leap y)%bool; lia.
Qed.

Lemma strptime_valid :
  forall s x, Calendar.strptime_ymd s = Some x -> Calendar.min_ordinal <= x.
Proof.
  intros s x. unfold Calendar.strptime_ymd.
  repeat (destruct s as [|? s]; [discriminate|]).
  destruct (_ && _)%bool; [|discriminate].
  destruct (Calendar.first_month _) as [[m dd]|]; [|discriminate].
  apply make_date_valid.
Qed.

Lemma date_in_In : forall x dates, date_in x dates = true <-> In x dates.
Proof.
  intros x dates. unfold date_in. rewrite existsb_exists. split.
  - intros [y [Hy E]]. apply Z.eqb_eq in E. now subst.
  - intros H. exists x. split; [exact H | apply Z.eqb_refl].
Qed.

Lemma checkin_dates_valid :
  forall d uid x,
    date_in x (get_checkin_dates d uid) = true -> Calendar.min_ordinal <= x.
Proof.
  intros d uid x H. apply date_in_In in H. unfold get_checkin_dates in H.
  apply in_flat_map in H as [r [_ H]].
  destruct (PyStr.after_first ":" (unique_key r)) as [ds|]; [|contradiction].
  destruct (Calendar.strptime_ymd ds) as [dt|] eqn:E; [|contradiction].
  destruct H as [->|[]]. eapply strptime_valid; eassumption.
Qed.

(** [compute_streak] gives the same answer with any larger bound on the
    turns of its loop. *)
Lemma compute_streak_total :
  forall d uid today_date extra,
    streak_loop (Z.to_nat today_date + extra) (get_checkin_dates d uid) 0 today_date
    = compute_streak d uid today_date.
Proof.
  intros. unfold compute_streak. apply streak_loop_enough_fuel; [lia|].
  apply checkin_dates_valid.
Qed.

End Streak.

(** C7. When the check-in dates of a user contain the [n] days that end
    at [today] and not the day before them, [compute_streak] returns
    [n]: the walk back stops at the first day without a check-in, whatever
    lies before it.  With no check-in on [today] the streak is 0. *)
Theorem compute_streak_consecutive_days :
  forall d uid today_date n,
    0 <= n ->
    (forall k, 0 <= k < n ->
               date_in (today_date - k) (get_checkin_dates d uid) = true) ->
    date_in (today_date - n) (get_checkin_dates d uid) = false ->
    Calendar.min_ordinal <= today_date - n ->
    compute_streak d uid today_date = Ok n
    /\ (date_in today_date (get_checkin_dates d uid) = false ->
        compute_streak d uid today_date = Ok 0).
Proof.
  intros d uid today_date n Hn Hin Hgap Hmin. split.
  - unfold compute_streak.
    rewrite (streak_loop_counts (Z.to_nat n)); rewrite ?Z2Nat.id by lia;
      try assumption.
    + reflexivity.
    + unfold Calendar.min_ordinal in Hmin. lia.
  - intros H0. unfold compute_streak. rewrite streak_loop_eq, H0. reflexivity.
Qed.

Lemma compute_streak_consecutive_days_witness :
  compute_streak sample_checkins 2 738887 = Ok 2
  /\ (date_in 738887 (get_checkin_dates sample_checkins 2) = false ->
      compute_streak sample_checkins 2 738887 = Ok 0).
Proof.
  apply compute_streak_consecutive_days.
  - lia.
  - intros k Hk. assert (Hc : k = 0 \/ k = 1) by lia.
    destruct Hc as [-> | ->]; reflexivity.
  - reflexivity.
  - unfold Calendar.min_ordinal. lia.
Defined.

Example streak_after_a_gap :
  get_checkin_dates sample_checkins 2 = [738884; 738886; 738887]
  /\ compute_streak sample_checkins 2 738887 = Ok 2
  /\ compute_streak sample_checkins 2 738888 = Ok 0
  /\ compute_streak sample_checkins 2 738885 = Ok 0
  /\ compute_streak sample_checkins 2 738884 = Ok 1
  /\ compute_streak sample_checkins 1 738887 = Ok 0.
Proof. vm_compute. repeat split; reflexivity. Qed.

Example streak_back_to_the_first_day :
  compute_streak (with_ledger empty_db [checkin_row 2 "0001-01-01"]) 2 1
  = Raise OverflowError.
Proof. vm_compute. reflexivity. Qed.

(* ------------------------------------------------------------------ *)
(** ** Idempotency keys *)

Section Keys.

Local Open Scope list_scope.

Lemma adds_refl : forall P l, adds P l l.
Proof. intros P l. exists []. split; [now rewrite app_nil_r | constructor]. Qed.

Lemma adds_trans :
  forall P l1 l2 l3, adds P l1 l2 -> adds P l2 l3 -> adds P l1 l3.
Proof.
  intros P l1 l2 l3 (a & -> & Ha) (b & -> & Hb). exists (a ++ b).
  split; [now rewrite app_assoc | now apply Forall_app].
Qed.

Lemma adds_eq : forall P l l', l' = l -> adds P l l'.
Proof. intros P l l' ->. apply adds_refl. Qed.

Lemma add_points_once_adds :
  forall (P : ledger_row -> Prop) d uid key typ amt m,
    P (mkLedger uid key typ amt m) ->
    adds P (ledger d) (ledger (fst (add_points_once d uid key typ amt m))).
Proof.
  intros P d uid key typ amt m HP. unfold add_points_once.
  destruct (ledger_has (ledger d) uid key); simpl.
  - apply adds_refl.
  - exists [mkLedger uid key typ amt m]. split; [reflexivity|]. now constructor.
Qed.

Lemma schedules_refl : forall P l, schedules P l l.
Proof. intros P l. exists []. split; [now rewrite app_nil_r | constructor]. Qed.

Lemma add_pending_reward_schedules :
  forall (P : pending_row -> Prop) d now uid mid key amt delay,
    P (mkPending uid mid key amt (now + delay * 60)) ->
    schedules P (pending_rewards d)
      (pending_rewards (fst (add_pending_reward d now uid mid key amt delay))).
Proof.
  intros P d now uid mid key amt delay HP. unfold add_pending_reward.
  destruct (pending_has (pending_rewards d) uid mid); simpl.
  - apply schedules_refl.
  - eexists. split; [reflexivity|]. now constructor.
Qed.

Lemma add_pending_reward_frame :
  forall d now uid mid key amt delay,
    let d' := fst (add_pending_reward d now uid mid key amt delay) in
    users d' = users d /\ ledger d' = ledger d /\ submissions d' = submissions d
    /\ recipe_fingerprints d' = recipe_fingerprints d.
Proof.
  intros. unfold d', add_pending_reward.
  destruct (pending_has (pending_rewards d) uid mid); simpl; auto.
Qed.

Lemma record_submission_frame :
  forall d uid mid text,
    let d' := record_submission d uid mid text in
    users d' = users d /\ ledger d' = ledger d
    /\ recipe_fingerprints d' = recipe_fingerprints d
    /\ pending_rewards d' = pending_rewards d.
Proof.
  intros. unfold d', record_submission.
  destruct (submission_has (submissions d) uid mid); simpl; auto.
Qed.

Lemma claim_if_recipe_frame :
  forall d mid uid text,
    let d' := fst (claim_if_recipe d mid uid text) in
    users d' = users d /\ ledger d' = ledger d
    /\ submissions d' = submissions d
    /\ pending_rewards d' = pending_rewards d.
Proof.
  intros. unfold d', claim_if_recipe, claim_recipe_fingerprint.
  destruct (String.eqb mid "recipe_submit"); simpl; auto.
  destruct (fingerprint_has _ _ _); simpl; auto.
Qed.

Lemma after_mission_prefix :
  forall mid, PyStr.after_first ":" ("MISSION:" ++ mid) = Some mid.
Proof. reflexivity. Qed.

(** The rows the loop over the streak rules appends. *)
Lemma grant_streak_bonus_adds :
  forall (P : ledger_row -> Prop) uid streak today_str rules d lines,
    (forall rule, In rule rules ->
       P (mkLedger uid (streak_bonus_key (fst rule) today_str) "streak_bonus"
            (snd rule) [("days", JInt (fst rule)); ("date", JStr today_str)])) ->
    adds P (ledger d)
      (ledger (fst (fold_left (grant_streak_bonus uid streak today_str) rules
                      (d, lines)))).
Proof.
  intros P uid streak today_str rules.
  induction rules as [|rule rules IH]; intros d lines HP; simpl.
  - apply adds_refl.
  - destruct (streak =? fst rule).
    + pose proof (add_points_once_adds P d uid
                    (streak_bonus_key (fst rule) today_str) "streak_bonus" (snd rule)
                    [("days", JInt (fst rule)); ("date", JStr today_str)]
                    (HP rule (or_introl eq_refl))) as H1.
      destruct (add_points_once d uid _ _ _ _) as [d1 ok]. simpl in H1.
      eapply adds_trans; [exact H1|]. apply IH. intros r Hr. apply HP. now right.
    + apply IH. intros r Hr. apply HP. now right.
Qed.

End Keys.

(** C1, as the program has it.  The rows a daily check-in appends to the
    ledger are the user's own, under the key [daily_checkin:<date>] and,
    for a rule of the streak table, [streak_bonus:<days>:<date>], where
    the date is today's in the form YYYY-MM-DD; with a wallet, the
    check-in key is in the ledger afterwards.  A mission submission uses
    [mission:<mission id>], both for the row it appends and for the reward
    it schedules.  A wallet confirmation appends the user's
    [wallet_register] row and, in the ledger of the referrer,
    [referral:<id of the referred user>]. *)
Theorem ledger_keys_as_built :
  (forall cfg env d row out d' out',
      daily_checkin cfg env d row out = Done (d', out') ->
      let date := Calendar.strftime_ymd (today env) in
      adds (fun r =>
              ledger_user_id r = user_id row /\
              ((type r = "daily_checkin" /\ unique_key r = "daily_checkin:" ++ date)
               \/ (type r = "streak_bonus" /\
                   exists days pts,
                     In (days, pts) (STREAK_BONUSES cfg) /\
                     unique_key r
                     = "streak_bonus:" ++ PyStr.of_int days ++ ":" ++ date)))
           (ledger d) (ledger d')
      /\ (PyStr.truthy (wallet_address row) = true ->
          ledger_has (ledger d') (user_id row) ("daily_checkin:" ++ date) = true))
  /\ (forall cfg env d uid mid text out d' out',
         submit_mission cfg env d uid ("MISSION:" ++ mid) text out = Done (d', out') ->
         adds (fun r => ledger_user_id r = uid /\ unique_key r = "mission:" ++ mid)
              (ledger d) (ledger d')
         /\ schedules (fun p => pending_user_id p = uid /\ pending_mission_id p = mid
                                /\ pending_unique_key p = "mission:" ++ mid)
                      (pending_rewards d) (pending_rewards d'))
  /\ (forall cfg d uid out d' out',
         wallet_confirm cfg d uid out = Done (d', out') ->
         adds (fun r =>
                 (ledger_user_id r = uid /\ unique_key r = "wallet_register")
                 \/ (exists row,
                        get_user d uid = Some row /\
                        referred_by row = Some (ledger_user_id r) /\
                        unique_key r = "referral:" ++ PyStr.of_int uid))
              (ledger d) (ledger d')).
Proof.
  split; [|split].
  - (* the check-in *)
    intros cfg env d row out d' out' H date. unfold daily_checkin in H. fold date in H.
    destruct (PyStr.truthy (wallet_address row)) eqn:W; simpl in H.
    2:{ inversion H; subst. split; [apply adds_refl | discriminate]. }
    match type of H with context [add_points_once ?a ?b ?c ?e ?f ?g] =>
      pose proof (add_points_once_adds
                    (fun r => ledger_user_id r = user_id row /\
                       ((type r = "daily_checkin" /\
                         unique_key r = "daily_checkin:" ++ date)
                        \/ (type r = "streak_bonus" /\
                            exists days pts,
                              In (days, pts) (STREAK_BONUSES cfg) /\
                              unique_key r
                              = "streak_bonus:" ++ PyStr.of_int days ++ ":" ++ date)))
                    a b c e f g) as Hadd;
      pose proof (add_points_once_has a b c e f g) as Hhas;
      destruct (add_points_once a b c e f g) as [d1 awarded]
    end.
    simpl in Hadd, Hhas. unfold checkin_key in Hhas.
    assert (Hadd1 := Hadd (conj eq_refl (or_introl (conj eq_refl eq_refl)))).
    clear Hadd.
    destruct (compute_streak d1 (user_id row) (today env)) as [streak|e];
      [|discriminate]. simpl in H.
    destruct awarded; simpl in H.
    + match type of H with context [fold_left ?f ?rules ?acc] =>
        pose proof (grant_streak_bonus_adds
                      (fun r => ledger_user_id r = user_id row /\
                         ((type r = "daily_checkin" /\
                           unique_key r = "daily_checkin:" ++ date)
                          \/ (type r = "streak_bonus" /\
                              exists days pts,
                                In (days, pts) (STREAK_BONUSES cfg) /\
                                unique_key r
                                = "streak_bonus:" ++ PyStr.of_int days ++ ":" ++ date)))
                      (user_id row) streak date rules d1 []) as Hfold;
        destruct (fold_left f rules acc) as [d2 lines]
      end.
      simpl in Hfold. inversion H; subst d' out'; clear H.
      assert (Hall : adds
                (fun r => ledger_user_id r = user_id row /\
                   ((type r = "daily_checkin" /\
                     unique_key r = "daily_checkin:" ++ date)
                    \/ (type r = "streak_bonus" /\
                        exists days pts,
                          In (days, pts) (STREAK_BONUSES cfg) /\
                          unique_key r
                          = "streak_bonus:" ++ PyStr.of_int days ++ ":" ++ date)))
                (ledger d1) (ledger d2)).
      { apply Hfold. intros [days pts] Hin. simpl. split; [reflexivity|].
        right. split; [reflexivity|]. exists days, pts. split; [exact Hin|].
        reflexivity. }
      split; [eapply adds_trans; eassumption|].
      intros _. destruct Hall as (added & -> & _).
      now rewrite ledger_has_app, Hhas.
    + inversion H; subst d' out'. split; [exact Hadd1 | intros _; exact Hhas].
  - (* the submission *)
    intros cfg env d uid mid text out d' out' H. unfold submit_mission in H.
    rewrite after_mission_prefix in H.
    destruct (get_mission cfg mid) as [m|].
    2:{ inversion H; subst. split; [apply adds_refl | apply schedules_refl]. }
    destruct (validate (mission_validator m) text) as [[ok err] normalized].
    destruct ok; simpl in H.
    2:{ inversion H; subst. split; [apply adds_refl | apply schedules_refl]. }
    pose proof (claim_if_recipe_frame d mid uid normalized) as (_ & Hl1 & _ & Hp1).
    destruct (claim_if_recipe d mid uid normalized) as [d1 claimed].
    simpl in Hl1, Hp1.
    destruct claimed; simpl in H.
    2:{ inversion H; subst. rewrite Hl1, Hp1.
        split; [apply adds_refl | apply schedules_refl]. }
    pose proof (record_submission_frame d1 uid mid normalized) as (_ & Hl2 & _ & Hp2).
    simpl in Hl2, Hp2.
    destruct (0 <? mission_delay_minutes m).
    + match type of H with context [add_pending_reward ?a ?b ?c ?e ?f ?g ?h] =>
        pose proof (add_pending_reward_schedules
                      (fun p => pending_user_id p = uid /\ pending_mission_id p = mid
                                /\ pending_unique_key p = "mission:" ++ mid)
                      a b c e f g h) as Hs;
        pose proof (add_pending_reward_frame a b c e f g h) as (_ & Hl3 & _);
        destruct (add_pending_reward a b c e f g h) as [d3 [scheduled ts]]
      end.
      simpl in Hs, Hl3. inversion H; subst d' out'; clear H. simpl.
      rewrite Hl3, Hl2, Hl1. rewrite Hp2, Hp1 in Hs.
      split; [apply adds_refl | apply Hs; auto].
    + match type of H with context [add_points_once ?a ?b ?c ?e ?f ?g] =>
        pose proof (add_points_once_adds
                      (fun r => ledger_user_id r = uid /\ unique_key r = "mission:" ++ mid)
                      a b c e f g) as Ha;
        pose proof (add_points_once_frame a b c e f g) as (_ & _ & _ & Hp3);
        destruct (add_points_once a b c e f g) as [d3 awarded]
      end.
      simpl in Ha, Hp3. inversion H; subst d' out'; clear H. simpl.
      rewrite Hl2, Hl1 in Ha. rewrite Hp3, Hp2, Hp1.
      split; [apply Ha; auto | apply schedules_refl].
  - (* the confirmation *)
    intros cfg d uid out d' out' H. unfold wallet_confirm in H.
    destruct (get_user d uid) as [dbrow|] eqn:G.
    2:{ inversion H; subst. apply adds_refl. }
    destruct (PyStr.truthy (wallet_address dbrow)).
    { inversion H; subst. apply adds_refl. }
    destruct (wallet_pending dbrow) as [[|c p]|].
    1,3: inversion H; subst; apply adds_refl.
    destruct (wallet_of_another d (String c p) uid).
    { inversion H; subst. apply adds_refl. }
    match type of H with context [add_points_once ?a ?b ?c ?e ?f ?g] =>
      pose proof (add_points_once_adds
                    (fun r =>
                       (ledger_user_id r = uid /\ unique_key r = "wallet_register")
                       \/ (exists row,
                              Some dbrow = Some row /\
                              referred_by row = Some (ledger_user_id r) /\
                              unique_key r = "referral:" ++ PyStr.of_int uid))
                    a b c e f g) as Ha;
      destruct (add_points_once a b c e f g) as [d2 ok]
    end.
    simpl in Ha. specialize (Ha (or_introl (conj eq_refl eq_refl))).
    inversion H; subst d' out'; clear H.
    eapply adds_trans; [exact Ha|].
    unfold referrer_of. destruct (referred_by dbrow) as [r|] eqn:R; [|apply adds_refl].
    destruct (r =? 0); [apply adds_refl|].
    apply add_points_once_adds. right. exists dbrow. simpl. auto.
Qed.

Lemma ledger_keys_as_built_witness :
  (exists d' out',
      daily_checkin sample_config (sample_env 0 738888) sample_checkins
                    (sample_user 2 "ref2" (Some 1) wallet_B) [] = Done (d', out')
      /\ adds (fun r =>
                 ledger_user_id r = 2 /\
                 ((type r = "daily_checkin" /\
                   unique_key r = "daily_checkin:" ++ "2024-01-03")
                  \/ (type r = "streak_bonus" /\
                      exists days pts,
                        In (days, pts) (STREAK_BONUSES sample_config) /\
                        unique_key r
                        = "streak_bonus:" ++ PyStr.of_int days ++ ":" ++ "2024-01-03")))
              (ledger sample_checkins) (ledger d'))
  /\ (exists d' out',
         submit_mission sample_config (sample_env 0 738888) sample_checkins 2
                        ("MISSION:" ++ "follow_x") "https://x.com/somebody" []
         = Done (d', out')
         /\ adds (fun r => ledger_user_id r = 2 /\ unique_key r = "mission:" ++ "follow_x")
                 (ledger sample_checkins) (ledger d'))
  /\ (exists d' out',
         wallet_confirm sample_config sample_staging 2 [] = Done (d', out')
         /\ adds (fun r =>
                    (ledger_user_id r = 2 /\ unique_key r = "wallet_register")
                    \/ (exists row,
                           get_user sample_staging 2 = Some row /\
                           referred_by row = Some (ledger_user_id r) /\
                           unique_key r = "referral:" ++ PyStr.of_int 2))
                 (ledger sample_staging) (ledger d')
         /\ map unique_key (ledger d') = ["wallet_register"; "referral:2"]).
Proof.
  destruct ledger_keys_as_built as (Hcheckin & Hmission & Hconfirm).
  split; [|split].
  - do 2 eexists. split; [vm_compute; reflexivity|].
    eapply (Hcheckin sample_config (sample_env 0 738888) sample_checkins
              (sample_user 2 "ref2" (Some 1) wallet_B) []).
    vm_compute. reflexivity.
  - do 2 eexists. split; [vm_compute; reflexivity|].
    eapply (Hmission sample_config (sample_env 0 738888) sample_checkins 2
              "follow_x" "https://x.com/somebody" []).
    vm_compute. reflexivity.
  - do 2 eexists. split; [vm_compute; reflexivity|].
    split; [|vm_compute; reflexivity].
    eapply (Hconfirm sample_config sample_staging 2 []).
    vm_compute. reflexivity.
Defined.

(** C1 as the specification words it fails: the check-in of 2024-01-03,
    the third day in a row, appends the keys [daily_checkin:2024-01-03] and
    [streak_bonus:3:2024-01-03]; the ledger has no key [checkin:2024-01-03]
    and no key [streak:3:2024-01-03]. *)
Lemma checkin_keys_not_as_specified :
  exists d' out',
    on_callback sample_config (sample_env 0 738888) sample_checkins 2 None
                (Some "daily_checkin") = Done (d', out')
    /\ out' = [CheckinComplete 10 3 [(3, 50)]]
    /\ map unique_key (ledger d')
       = (map unique_key (ledger sample_checkins)
          ++ ["daily_checkin:2024-01-03"; "streak_bonus:3:2024-01-03"])%list
    /\ ~ In "checkin:2024-01-03" (map unique_key (ledger d'))
    /\ ~ In "streak:3:2024-01-03" (map unique_key (ledger d')).
Proof.
  do 2 eexists. split; [vm_compute; reflexivity|].
  split; [reflexivity|]. split; [reflexivity|].
  split; simpl; intros H;
    repeat (destruct H as [H|H]; [discriminate H|]); exact H.
Qed.

(* ------------------------------------------------------------------ *)
(** ** Users, and the settlement that opens every event *)

Section Store.

Local Open Scope list_scope.

Lemma get_user_update_user :
  forall d uid f u,
    (forall r, user_id (f r) = user_id r) ->
    get_user (update_user d uid f) u
    = if u =? uid then option_map f (get_user d uid) else get_user d u.
Proof.
  intros d uid f u Hid. unfold get_user, update_user. simpl.
  destruct (Z.eqb_spec u uid) as [->|Hne].
  - induction (users d) as [|r l IH]; simpl; [reflexivity|].
    destruct (user_id r =? uid) eqn:E1.
    + now rewrite Hid, E1.
    + now rewrite E1.
  - induction (users d) as [|r l IH]; simpl; [reflexivity|].
    destruct (Z.eqb_spec (user_id r) uid) as [E1|E1].
    + rewrite Hid. destruct (Z.eqb_spec (user_id r) u); [congruence | exact IH].
    + destruct (user_id r =? u); [reflexivity | exact IH].
Qed.

Lemma get_user_id :
  forall d uid row, get_user d uid = Some row -> user_id row = uid.
Proof.
  intros d uid row H. unfold get_user in H. apply find_some in H as [_ H].
  now apply Z.eqb_eq.
Qed.

Lemma get_user_In :
  forall d uid row, get_user d uid = Some row -> In row (users d).
Proof. intros d uid row H. unfold get_user in H. now apply find_some in H. Qed.

(** An update that leaves ids and active wallets alone. *)
Lemma wallets_update_user :
  forall d uid f,
    (forall r, user_id (f r) = user_id r) ->
    (forall r, wallet_address (f r) = wallet_address r) ->
    wallets (update_user d uid f) = wallets d.
Proof.
  intros d uid f Hid Hw. unfold wallets, update_user. simpl.
  rewrite map_map. apply map_ext. intros r.
  destruct (user_id r =? uid); [now rewrite Hid, Hw | reflexivity].
Qed.

Lemma wallet_of_another_wallets :
  forall d d' w uid,
    wallets d' = wallets d -> wallet_of_another d' w uid = wallet_of_another d w uid.
Proof.
  intros d d' w uid H. unfold wallet_of_another, wallets in *.
  assert (E : forall l,
             existsb (fun u => (match wallet_address u with
                                | Some x => String.eqb x w
                                | None => false
                                end && negb (user_id u =? uid))%bool) l
             = existsb (fun p => (match snd p with
                                  | Some x => String.eqb x w
                                  | None => false
                                  end && negb (fst p =? uid))%bool)
                       (map (fun u => (user_id u, wallet_address u)) l)).
  { induction l as [|r l IH]; simpl; [reflexivity | now rewrite IH]. }
  now rewrite !E, H.
Qed.


(** The settlement touches the ledger and the pending rewards only. *)
Lemma settle_fold_frame :
  forall uid rows d acc,
    let d' := fst (fold_left (settle_row uid) rows (d, acc)) in
    users d' = users d /\ submissions d' = submissions d
    /\ recipe_fingerprints d' = recipe_fingerprints d.
Proof.
  intros uid rows. induction rows as [|r rows IH]; intros d acc; simpl; [auto|].
  pose proof (add_points_once_frame d uid (pending_unique_key r)
                ("mission:" ++ pending_mission_id r) (pending_amount r)
                [("delayed", JBool true)]) as (Hu & Hs & Hf & _).
  destruct (add_points_once d uid _ _ _ _) as [d1 ok]. simpl in *.
  match goal with |- context [fold_left _ rows (?x, ?y)] =>
    specialize (IH x y) end.
  simpl in IH. destruct IH as (IHu & IHs & IHf).
  rewrite IHu, IHs, IHf. simpl. auto.
Qed.

Lemma process_due_rewards_frame :
  forall d now uid,
    let d' := fst (process_due_rewards d now uid) in
    users d' = users d /\ submissions d' = submissions d
    /\ recipe_fingerprints d' = recipe_fingerprints d.
Proof. intros. apply settle_fold_frame. Qed.

Lemma settle_fold_ledger :
  forall uid rows d acc u k,
    let d' := fst (fold_left (settle_row uid) rows (d, acc)) in
    extends (ledger d) (ledger d')
    /\ ((count_key (ledger d) u k <= 1)%nat -> (count_key (ledger d') u k <= 1)%nat).
Proof.
  intros uid rows. induction rows as [|r rows IH]; intros d acc u k; simpl.
  - split; [apply extends_refl | auto].
  - pose proof (add_points_once_extends d uid (pending_unique_key r)
                  ("mission:" ++ pending_mission_id r) (pending_amount r)
                  [("delayed", JBool true)]) as He.
    pose proof (add_points_once_count d uid (pending_unique_key r)
                  ("mission:" ++ pending_mission_id r) (pending_amount r)
                  [("delayed", JBool true)] u k) as (_ & Hc).
    destruct (add_points_once d uid _ _ _ _) as [d1 ok]. simpl in *.
    match goal with |- context [fold_left _ rows (?x, ?y)] =>
      specialize (IH x y u k) end.
    simpl in IH. destruct IH as (IHe & IHc).
    split; [eapply extends_trans; eassumption | auto].
Qed.

Lemma process_due_rewards_ledger :
  forall d now uid u k,
    let d' := fst (process_due_rewards d now uid) in
    extends (ledger d) (ledger d')
    /\ ((count_key (ledger d) u k <= 1)%nat -> (count_key (ledger d') u k <= 1)%nat).
Proof. intros. apply settle_fold_ledger. Qed.

Lemma after_prelude_frame :
  forall env d uid name,
    let d' := after_prelude env d uid name in
    users d' = users (update_user d uid (set_username name))
    /\ submissions d' = submissions d
    /\ recipe_fingerprints d' = recipe_fingerprints d
    /\ wallets d' = wallets d.
Proof.
  intros. unfold d', after_prelude.
  pose proof (process_due_rewards_frame (update_user d uid (set_username name))
                (clock_settle env) uid) as (Hu & Hs & Hf).
  simpl in *. rewrite Hs, Hf. repeat split; try assumption.
  unfold wallets at 1. rewrite Hu.
  now apply (wallets_update_user d uid (set_username name)).
Qed.

Lemma after_prelude_ledger :
  forall env d uid name u k,
    let d' := after_prelude env d uid name in
    extends (ledger d) (ledger d')
    /\ ((count_key (ledger d) u k <= 1)%nat -> (count_key (ledger d') u k <= 1)%nat).
Proof.
  intros. apply (process_due_rewards_ledger (update_user d uid (set_username name))).
Qed.

Lemma get_user_after_prelude :
  forall env d uid name u,
    get_user (after_prelude env d uid name) u
    = if u =? uid then option_map (set_username name) (get_user d uid)
      else get_user d u.
Proof.
  intros. pose proof (after_prelude_frame env d uid name) as (Hu & _).
  simpl in Hu. unfold get_user at 1. rewrite Hu.
  now apply (get_user_update_user d uid (set_username name)).
Qed.

(** For a user who is in the table already, the start of an event does
    not fail: the handler goes on from [after_prelude], with the row as
    refreshed. *)
Lemma prelude_existing :
  forall env d uid name row k,
    get_user d uid = Some row ->
    prelude env d uid name k
    = k (after_prelude env d uid name) (set_username name row)
        (prelude_replies env d uid name).
Proof.
  intros env d uid name row k G. unfold prelude, ensure_user. rewrite G. simpl.
  rewrite (get_user_update_user d uid (set_username name)) by reflexivity.
  rewrite Z.eqb_refl, G. simpl.
  unfold after_prelude, prelude_replies.
  destruct (process_due_rewards _ _ _) as [d2 newly]. simpl.
  now destruct newly.
Qed.

End Store.

(* ------------------------------------------------------------------ *)
(** ** Delayed rewards *)

Section Settlement.

Local Open Scope list_scope.

Lemma filter_filter :
  forall (A : Type) (f g : A -> bool) (l : list A),
    filter f (filter g l) = filter (fun x => (g x && f x)%bool) l.
Proof.
  intros A f g l. induction l as [|x l IH]; simpl; [reflexivity|].
  destruct (g x); simpl; [destruct (f x)|]; now rewrite IH.
Qed.

Lemma filter_none :
  forall (A : Type) (f : A -> bool) (l : list A),
    (forall x, In x l -> f x = false) -> filter f l = [].
Proof.
  intros A f l H. induction l as [|x l IH]; simpl; [reflexivity|].
  rewrite (H x (or_introl eq_refl)). apply IH. intros y Hy. apply H. now right.
Qed.

(** What is left of the pending rewards after the loop over [rows]: the
    rows of other users, and the user's rows for other missions. *)
Lemma settle_fold_pending :
  forall uid rows d acc,
    pending_rewards (fst (fold_left (settle_row uid) rows (d, acc)))
    = filter (fun r => negb ((pending_user_id r =? uid) && mission_among rows r))
             (pending_rewards d).
Proof.
  intros uid rows. induction rows as [|r0 rows IH]; intros d acc; simpl.
  - rewrite <- (filter_ext (fun _ => true)).
    + clear. induction (pending_rewards d) as [|x l IH]; simpl; congruence.
    + intros r. unfold mission_among. simpl. now rewrite andb_false_r.
  - pose proof (add_points_once_frame d uid (pending_unique_key r0)
                  ("mission:" ++ pending_mission_id r0) (pending_amount r0)
                  [("delayed", JBool true)]) as (_ & _ & _ & Hp).
    destruct (add_points_once d uid _ _ _ _) as [d1 ok]. simpl in Hp.
    rewrite IH. simpl. rewrite Hp, filter_filter. apply filter_ext.
    intros r. unfold mission_among. simpl.
    destruct (pending_user_id r =? uid); simpl; [|reflexivity].
    destruct (String.eqb (pending_mission_id r) (pending_mission_id r0));
      reflexivity.
Qed.

Lemma process_due_rewards_pending :
  forall d now uid,
    pending_rewards (fst (process_due_rewards d now uid))
    = filter (fun r => negb ((pending_user_id r =? uid)
                             && mission_among (due_rows d now uid) r))
             (pending_rewards d).
Proof. intros. apply settle_fold_pending. Qed.

(** No reward of the user that is due outlives the pass. *)
Lemma nothing_due_after_settlement :
  forall d now uid, due_rows (fst (process_due_rewards d now uid)) now uid = [].
Proof.
  intros d now uid. unfold due_rows at 1.
  rewrite process_due_rewards_pending, filter_filter.
  apply filter_none. intros r Hr.
  destruct ((pending_user_id r =? uid) && (available_at_ts r <=? now))%bool eqn:E.
  - assert (Hin : In r (due_rows d now uid))
      by (unfold due_rows; apply filter_In; auto).
    assert (Hm : mission_among (due_rows d now uid) r = true).
    { unfold mission_among. apply existsb_exists. exists r.
      split; [exact Hin | apply String.eqb_refl]. }
    apply andb_true_iff in E as [E _]. now rewrite E, Hm.
  - now rewrite andb_false_r.
Qed.

(** Every row of the loop ends with its key in the ledger. *)
Lemma settle_fold_credits :
  forall uid rows d acc r,
    In r rows ->
    ledger_has (ledger (fst (fold_left (settle_row uid) rows (d, acc))))
               uid (pending_unique_key r) = true.
Proof.
  intros uid rows. induction rows as [|r0 rows IH]; intros d acc r Hin;
    [contradiction|]. simpl.
  pose proof (add_points_once_has d uid (pending_unique_key r0)
                ("mission:" ++ pending_mission_id r0) (pending_amount r0)
                [("delayed", JBool true)]) as Hh.
  destruct (add_points_once d uid _ _ _ _) as [d1 ok]. simpl in Hh.
  destruct Hin as [->|Hin].
  - match goal with |- context [fold_left _ rows (?x, ?y)] =>
      pose proof (settle_fold_ledger uid rows x y uid (pending_unique_key r))
        as (He & _) end.
    simpl in He. eapply extends_has; [exact He | exact Hh].
  - now apply IH.
Qed.

(** The rows the loop appends are the user's, under keys of [rows]. *)
Lemma settle_fold_adds :
  forall uid rows d acc,
    adds (fun r => ledger_user_id r = uid /\
                   exists p, In p rows /\ unique_key r = pending_unique_key p)
         (ledger d) (ledger (fst (fold_left (settle_row uid) rows (d, acc)))).
Proof.
  intros uid rows. induction rows as [|r0 rows IH]; intros d acc; simpl.
  - apply adds_refl.
  - pose proof (add_points_once_adds
                  (fun r => ledger_user_id r = uid /\
                            exists p, In p (r0 :: rows) /\
                                      unique_key r = pending_unique_key p)
                  d uid (pending_unique_key r0)
                  ("mission:" ++ pending_mission_id r0) (pending_amount r0)
                  [("delayed", JBool true)]) as Ha.
    destruct (add_points_once d uid _ _ _ _) as [d1 ok]. simpl in Ha.
    eapply adds_trans.
    + apply Ha. split; [reflexivity|]. exists r0. split; [now left | reflexivity].
    + match goal with |- context [fold_left _ rows (?x, ?y)] =>
        specialize (IH x y) end.
      simpl in IH. destruct IH as (added & E & F). exists added.
      split; [exact E|]. eapply Forall_impl; [|exact F].
      intros a (Hu & p & Hp & Hk). split; [exact Hu|]. exists p. split; [now right|].
      exact Hk.
Qed.

Lemma adds_keeps_absent :
  forall P l l' uid key,
    adds P l l' ->
    (forall r, P r -> ledger_user_id r = uid -> unique_key r <> key) ->
    ledger_has l uid key = false -> ledger_has l' uid key = false.
Proof.
  intros P l l' uid key (added & -> & F) HP H.
  rewrite ledger_has_app, H. simpl. unfold ledger_has.
  induction F as [|r added Hr F IH]; simpl; [reflexivity|].
  rewrite IH, orb_false_r. destruct (Z.eqb_spec (ledger_user_id r) uid); [|reflexivity].
  simpl. apply String.eqb_neq. now apply HP.
Qed.

End Settlement.

(* ------------------------------------------------------------------ *)
(** ** What the handlers leave alone *)

Section Frames.

Local Open Scope list_scope.

Lemma ledger_grows_refl : forall d, ledger_grows d d.
Proof. intros d. split; [apply extends_refl | auto]. Qed.

Lemma ledger_grows_trans :
  forall d1 d2 d3, ledger_grows d1 d2 -> ledger_grows d2 d3 -> ledger_grows d1 d3.
Proof.
  intros d1 d2 d3 [E1 C1] [E2 C2]. split; [eapply extends_trans; eassumption | auto].
Qed.

Lemma ledger_grows_same :
  forall d d', ledger d' = ledger d -> ledger_grows d d'.
Proof.
  intros d d' H. unfold ledger_grows. rewrite H. split; [apply extends_refl | auto].
Qed.

Lemma ledger_grows_add_points_once :
  forall d uid key typ amt m,
    ledger_grows d (fst (add_points_once d uid key typ amt m)).
Proof.
  intros. split; [apply add_points_once_extends|].
  intros u k. apply add_points_once_count.
Qed.

Lemma wallets_unique_same :
  forall d d', wallets d' = wallets d -> wallets_unique d -> wallets_unique d'.
Proof. intros d d' H U. unfold wallets_unique. now rewrite H. Qed.

Lemma wallets_users :
  forall d d', users d' = users d -> wallets d' = wallets d.
Proof. intros d d' H. unfold wallets. now rewrite H. Qed.

Lemma quiet_refl : forall d, quiet d d.
Proof. intros d. split; [apply ledger_grows_refl | auto]. Qed.

Lemma quiet_trans : forall d1 d2 d3, quiet d1 d2 -> quiet d2 d3 -> quiet d1 d3.
Proof.
  intros d1 d2 d3 (G1 & P1 & W1) (G2 & P2 & W2).
  split; [eapply ledger_grows_trans; eassumption|]. split; [congruence | auto].
Qed.

Lemma quiet_same :
  forall d d',
    ledger d' = ledger d -> pending_rewards d' = pending_rewards d ->
    wallets d' = wallets d -> quiet d d'.
Proof.
  intros d d' Hl Hp Hw. split; [now apply ledger_grows_same|].
  split; [exact Hp | now apply wallets_unique_same].
Qed.

Lemma quiet_add_points_once :
  forall d uid key typ amt m, quiet d (fst (add_points_once d uid key typ amt m)).
Proof.
  intros. pose proof (add_points_once_frame d uid key typ amt m) as (Hu & _ & _ & Hp).
  split; [apply ledger_grows_add_points_once|]. split; [exact Hp|].
  apply wallets_unique_same. now apply wallets_users.
Qed.

(** An update of a row that keeps its id and its wallet. *)
Lemma quiet_update_user :
  forall d uid f,
    (forall r, user_id (f r) = user_id r) ->
    (forall r, wallet_address (f r) = wallet_address r) ->
    quiet d (update_user d uid f).
Proof.
  intros d uid f Hid Hw. apply quiet_same; try reflexivity.
  now apply wallets_update_user.
Qed.

(** An update that gives the user a wallet nobody else has. *)
Lemma quiet_update_wallet :
  forall d uid f w,
    (forall r, user_id (f r) = user_id r) ->
    (forall r, wallet_address (f r) = Some w) ->
    wallet_of_another d w uid = false ->
    quiet d (update_user d uid f).
Proof.
  intros d uid f w Hid Hw Hfree.
  split; [now apply ledger_grows_same|]. split; [reflexivity|].
  intros U i1 i2 w' H1 H2.
  assert (Hcase : forall i, In (i, Some w') (wallets (update_user d uid f)) ->
                            (i = uid /\ w' = w)
                            \/ (i <> uid /\ In (i, Some w') (wallets d))).
  { intros i H. unfold wallets, update_user in H. simpl in H.
    rewrite map_map in H. apply in_map_iff in H as (r & E & Hr).
    destruct (Z.eqb_spec (user_id r) uid) as [Eu|Eu].
    - rewrite Hid, Hw in E. injection E as Ei Ew. left. split; congruence.
    - injection E as Ei Ew. right. split; [congruence|].
      unfold wallets. apply in_map_iff. exists r. split; [|exact Hr].
      now rewrite Ei, Ew. }
  assert (Hother : forall i, i <> uid -> In (i, Some w) (wallets d) -> False).
  { intros i Hne Hin. unfold wallets in Hin.
    apply in_map_iff in Hin as (r & E & Hr). injection E as Ei Ew.
    assert (wallet_of_another d w uid = true); [|congruence].
    unfold wallet_of_another. apply existsb_exists. exists r. split; [exact Hr|].
    rewrite Ew, String.eqb_refl, Ei. simpl. apply negb_true_iff.
    now apply Z.eqb_neq. }
  destruct (Hcase i1 H1) as [[-> ->]|[N1 I1]], (Hcase i2 H2) as [[-> E2]|[N2 I2]];
    try reflexivity.
  - exfalso. eapply Hother; eassumption.
  - subst w'. exfalso. eapply Hother; eassumption.
  - eapply U; eassumption.
Qed.

Lemma quiet_grant_streak_bonus :
  forall uid streak today_str rules d lines,
    quiet d (fst (fold_left (grant_streak_bonus uid streak today_str) rules (d, lines))).
Proof.
  intros uid streak today_str rules.
  induction rules as [|rule rules IH]; intros d lines; simpl; [apply quiet_refl|].
  destruct (streak =? fst rule); [|apply IH].
  pose proof (quiet_add_points_once d uid (streak_bonus_key (fst rule) today_str)
                "streak_bonus" (snd rule)
                [("days", JInt (fst rule)); ("date", JStr today_str)]) as Q.
  destruct (add_points_once d uid _ _ _ _) as [d1 ok]. simpl in Q.
  eapply quiet_trans; [exact Q | apply IH].
Qed.

(** [ensure_user] refreshes a name or appends a user without a wallet. *)
Lemma quiet_ensure_user :
  forall d uid name tok d1, ensure_user d uid name tok = Ok d1 -> quiet d d1.
Proof.
  intros d uid name tok d1. unfold ensure_user.
  destruct (get_user d uid).
  - intros H; inversion H; subst. now apply quiet_update_user.
  - destruct (existsb _ _); [discriminate|].
    intros H; inversion H; subst.
    split; [now apply ledger_grows_same|]. split; [reflexivity|].
    intros U i1 i2 w H1 H2. unfold wallets in H1, H2. simpl in H1, H2.
    rewrite map_app in H1, H2. simpl in H1, H2.
    apply in_app_or in H1 as [H1|[H1|[]]]; [|discriminate H1].
    apply in_app_or in H2 as [H2|[H2|[]]]; [|discriminate H2].
    eapply U; eassumption.
Qed.

Lemma quiet_attempt_ensure_user :
  forall d uid name tok out k,
    (forall d1, quiet d1 (fst (final (k d1)))) ->
    quiet d (fst (final (attempt (ensure_user d uid name tok) d out k))).
Proof.
  intros d uid name tok out k Hk.
  pose proof (quiet_ensure_user d uid name tok) as Q.
  destruct (ensure_user d uid name tok) as [d1|e]; simpl; [|apply quiet_refl].
  eapply quiet_trans; [now apply Q | apply Hk].
Qed.

Lemma quiet_daily_checkin :
  forall cfg env d row out, quiet d (fst (final (daily_checkin cfg env d row out))).
Proof.
  intros. unfold daily_checkin.
  destruct (negb _); simpl; [apply quiet_refl|].
  match goal with |- context [add_points_once ?a ?b ?c ?e ?f ?g] =>
    pose proof (quiet_add_points_once a b c e f g) as Q;
    destruct (add_points_once a b c e f g) as [d1 awarded] end.
  simpl in Q. destruct (compute_streak d1 (user_id row) (today env)); simpl;
    [|exact Q].
  destruct awarded; simpl; [|exact Q].
  match goal with |- context [fold_left ?f ?rules (?x, ?y)] =>
    pose proof (quiet_grant_streak_bonus (user_id row) z
                  (Calendar.strftime_ymd (today env)) rules x y) as Q2;
    destruct (fold_left f rules (x, y)) as [d2 lines] end.
  simpl in *. eapply quiet_trans; eassumption.
Qed.

Lemma quiet_choose_mission :
  forall cfg d row data out, quiet d (fst (final (choose_mission cfg d row data out))).
Proof.
  intros. unfold choose_mission.
  destruct (negb _); simpl; [apply quiet_refl|].
  destruct (PyStr.after_first ":" data); simpl; [|apply quiet_refl].
  destruct (get_mission cfg s); simpl; [|apply quiet_refl].
  now apply quiet_update_user.
Qed.

Lemma quiet_wallet_change :
  forall d row out, quiet d (fst (final (wallet_change d row out))).
Proof.
  intros. unfold wallet_change.
  destruct (negb _); simpl; [apply quiet_refl|].
  destruct (1 <=? _); simpl; [apply quiet_refl | now apply quiet_update_user].
Qed.

Lemma quiet_wallet_confirm :
  forall cfg d uid out, quiet d (fst (final (wallet_confirm cfg d uid out))).
Proof.
  intros. unfold wallet_confirm.
  destruct (get_user d uid) as [dbrow|]; simpl; [|apply quiet_refl].
  destruct (PyStr.truthy _); simpl; [apply quiet_refl|].
  destruct (wallet_pending dbrow) as [[|c p]|]; simpl; try apply quiet_refl.
  destruct (wallet_of_another d (String c p) uid) eqn:Hfree; simpl;
    [apply quiet_refl|].
  match goal with |- context [add_points_once ?a ?b ?c ?e ?f ?g] =>
    pose proof (quiet_add_points_once a b c e f g) as Q;
    destruct (add_points_once a b c e f g) as [d2 ok] end.
  simpl in *.
  apply quiet_trans with (d2 := update_user d uid (confirmed (String c p))).
  { now apply quiet_update_wallet with (w := String c p). }
  eapply quiet_trans; [exact Q|].
  destruct (referrer_of dbrow); [apply quiet_add_points_once | apply quiet_refl].
Qed.

Lemma quiet_wallet_change_confirm :
  forall d uid out, quiet d (fst (final (wallet_change_confirm d uid out))).
Proof.
  intros. unfold wallet_change_confirm.
  destruct (get_user d uid) as [dbrow|]; [|apply quiet_refl].
  destruct (wallet_address dbrow) as [[|c0 w0]|]; try apply quiet_refl.
  destruct (wallet_pending dbrow) as [[|c p]|]; try apply quiet_refl.
  cbv beta iota zeta.
  destruct (String.eqb (String c p) (String c0 w0)); [apply quiet_refl|].
  destruct (wallet_of_another d (String c p) uid) eqn:Hfree; simpl;
    [apply quiet_refl|].
  now apply quiet_update_wallet with (w := String c p).
Qed.

(** The branches of [on_callback], after the settlement. *)
Lemma quiet_callback_branches :
  forall cfg env data d uid row out,
    quiet d
      (fst (final
         (if String.eqb data "daily_checkin" then daily_checkin cfg env d row out
          else if String.eqb data "invite_friend" then
            if negb (PyStr.truthy (wallet_address row)) then
              Done (d, say out ConnectWalletFirst)
            else Done (d, say out (InviteLink (ref_code row)))
          else if PyStr.startswith "mission:" data then
            choose_mission cfg d row data out
          else if String.eqb data "wallet_change" then wallet_change d row out
          else if String.eqb data "wallet_confirm" then wallet_confirm cfg d uid out
          else if String.eqb data "wallet_retry" then
            Done (update_user d uid
                    (fun u => set_user_state (Some "AWAIT_WALLET")
                                (set_wallet_pending None u)),
                  say out EnterWalletAgain)
          else if String.eqb data "wallet_change_confirm" then
            wallet_change_confirm d uid out
          else if String.eqb data "wallet_change_retry" then
            Done (update_user d uid
                    (fun u => set_user_state (Some "AWAIT_WALLET_CHANGE")
                                (set_wallet_pending None u)),
                  say out EnterNewWalletAgain)
          else Done (d, out)))).
Proof.
  intros cfg env data d uid row out.
  destruct (String.eqb data "daily_checkin"); [apply quiet_daily_checkin|].
  destruct (String.eqb data "invite_friend").
  { destruct (negb _); apply quiet_refl. }
  destruct (PyStr.startswith "mission:" data); [apply quiet_choose_mission|].
  destruct (String.eqb data "wallet_change"); [apply quiet_wallet_change|].
  destruct (String.eqb data "wallet_confirm"); [apply quiet_wallet_confirm|].
  destruct (String.eqb data "wallet_retry"); [now apply quiet_update_user|].
  destruct (String.eqb data "wallet_change_confirm");
    [apply quiet_wallet_change_confirm|].
  destruct (String.eqb data "wallet_change_retry");
    [now apply quiet_update_user | apply quiet_refl].
Qed.

(** After its settlement, a button press schedules nothing. *)
Lemma quiet_on_callback :
  forall cfg env d uid name data row,
    get_user d uid = Some row ->
    quiet (after_prelude env d uid name)
          (fst (final (on_callback cfg env d uid name data))).
Proof.
  intros cfg env d uid name data row G. unfold on_callback.
  rewrite (prelude_existing env d uid name row _ G).
  apply quiet_callback_branches.
Qed.

Lemma quiet_stage_wallet :
  forall d uid text confirm out,
    quiet d (fst (final (stage_wallet d uid text confirm out))).
Proof.
  intros. unfold stage_wallet.
  destruct (negb _); simpl; [apply quiet_refl | now apply quiet_update_user].
Qed.

(** The menu handlers schedule nothing. *)
Lemma quiet_menu_handlers :
  forall env d uid name out,
    quiet d (fst (final (bonus env d uid name out)))
    /\ quiet d (fst (final (connect_wallet env d uid name out)))
    /\ quiet d (fst (final (balance env d uid name out)))
    /\ quiet d (fst (final (ai_chat_start env d uid name out))).
Proof.
  intros. split; [|split; [|split]].
  - unfold bonus. apply quiet_attempt_ensure_user.
    intros d1. destruct (has_wallet d1 uid); apply quiet_refl.
  - unfold connect_wallet. apply quiet_attempt_ensure_user.
    intros d1. destruct (get_user d1 uid) as [row|]; simpl; [|apply quiet_refl].
    destruct (wallet_address row) as [[|c w]|]; simpl;
      try (now apply quiet_update_user); apply quiet_refl.
  - unfold balance. apply quiet_attempt_ensure_user.
    intros d1. destruct (has_wallet d1 uid); simpl; [|apply quiet_refl].
    destruct (get_referral_counts d1 uid). apply quiet_refl.
  - unfold ai_chat_start. apply quiet_attempt_ensure_user.
    intros d1. now apply quiet_update_user.
Qed.

(** A submission grows the ledger like any other step. *)
Lemma ledger_grows_submit_mission :
  forall cfg env d uid st text out,
    ledger_grows d (fst (final (submit_mission cfg env d uid st text out))).
Proof.
  intros. unfold submit_mission.
  destruct (PyStr.after_first ":" st) as [mid|]; simpl; [|apply ledger_grows_refl].
  destruct (get_mission cfg mid) as [m|]; simpl; [|now apply ledger_grows_same].
  destruct (validate (mission_validator m) text) as [[ok err] normalized].
  destruct ok; simpl; [|apply ledger_grows_refl].
  pose proof (claim_if_recipe_frame d mid uid normalized) as (_ & Hl1 & _).
  destruct (claim_if_recipe d mid uid normalized) as [d1 claimed]. simpl in Hl1.
  destruct claimed; simpl; [|now apply ledger_grows_same].
  pose proof (record_submission_frame d1 uid mid normalized) as (_ & Hl2 & _).
  simpl in Hl2.
  destruct (0 <? mission_delay_minutes m).
  - match goal with |- context [add_pending_reward ?a ?b ?c ?e ?f ?g ?h] =>
      pose proof (add_pending_reward_frame a b c e f g h) as (_ & Hl3 & _);
      destruct (add_pending_reward a b c e f g h) as [d3 [scheduled ts]] end.
    simpl in *. apply ledger_grows_same. simpl. congruence.
  - match goal with |- context [add_points_once ?a ?b ?c ?e ?f ?g] =>
      pose proof (ledger_grows_add_points_once a b c e f g) as Q;
      destruct (add_points_once a b c e f g) as [d3 awarded] end.
    simpl in *. eapply ledger_grows_trans; [|exact Q].
    apply ledger_grows_same. congruence.
Qed.

(** With no conversation state, a text is read as a menu label or not at
    all: nothing is scheduled. *)
Lemma quiet_on_any_text_idle :
  forall cfg env d uid name message_text row,
    get_user d uid = Some row -> state row = None ->
    quiet (after_prelude env d uid name)
          (fst (final (on_any_text cfg env d uid name message_text))).
Proof.
  intros cfg env d uid name message_text row G Hs. unfold on_any_text.
  rewrite (prelude_existing env d uid name row _ G).
  pose proof (quiet_menu_handlers env (after_prelude env d uid name) uid name
                (prelude_replies env d uid name)) as (Q1 & Q2 & Q3 & Q4).
  destruct (is_terms _ _); [apply quiet_refl|].
  destruct (is_bonus _ _); [exact Q1|].
  destruct (is_connect_wallet _ _); [exact Q2|].
  destruct (is_balance _ _); [exact Q3|].
  destruct (is_chat _ _); [exact Q4|].
  unfold dispatch_state. simpl. rewrite Hs. simpl. apply quiet_refl.
Qed.

End Frames.

(* ------------------------------------------------------------------ *)
(** ** Invariants of the store *)

Section Invariants.












Lemma prelude_grows :
  forall env d uid name k,
    (forall d1 row out, ledger_grows d1 (fst (final (k d1 row out)))) ->
    ledger_grows d (fst (final (prelude env d uid name k))).
Proof.
  intros env d uid name k Hk. unfold prelude.
  pose proof (quiet_ensure_user d uid name (token env)) as Q.
  destruct (ensure_user d uid name (token env)) as [d1|e]; simpl;
    [|apply ledger_grows_refl].
  destruct (Q d1 eq_refl) as (G1 & _).
  destruct (get_user d1 uid) as [row|]; simpl; [|exact G1].
  assert (G2 : ledger_grows d1 (fst (process_due_rewards d1 (clock_settle env) uid))).
  { split; [apply (process_due_rewards_ledger d1 (clock_settle env) uid uid EmptyString)|].
    intros u key. apply (process_due_rewards_ledger d1 (clock_settle env) uid u key). }
  destruct (process_due_rewards d1 (clock_settle env) uid) as [d2 newly].
  eapply ledger_grows_trans; [exact G1|].
  eapply ledger_grows_trans; [exact G2 | apply Hk].
Qed.

(** No event updates or deletes a ledger row. *)
Lemma handle_ledger_grows :
  forall cfg env d uid name e,
    ledger_grows d (fst (final (handle cfg env d uid name e))).
Proof.
  intros cfg env d uid name e. destruct e as [args | data | t]; simpl.
  - unfold start.
    pose proof (quiet_ensure_user d uid name (token env)) as Q.
    destruct (ensure_user d uid name (token env)) as [d1|err]; simpl;
      [|apply ledger_grows_refl].
    destruct (Q d1 eq_refl) as (G1 & _).
    eapply ledger_grows_trans; [exact G1|]. apply ledger_grows_same.
    destruct args as [|a args]; [reflexivity|].
    destruct (find_user_by_ref_code d1 (PyStr.strip a)) as [ref_user|]; [|reflexivity].
    unfold set_referred_by_if_empty.
    destruct (uid =? user_id ref_user); [reflexivity|].
    destruct (get_user d1 uid) as [row|]; [|reflexivity].
    now destruct (referred_by row).
  - unfold on_callback. apply prelude_grows.
    intros d1 row out. apply quiet_callback_branches.
  - unfold on_any_text. apply prelude_grows.
    intros d1 row out.
    pose proof (quiet_menu_handlers env d1 uid name out) as (Q1 & Q2 & Q3 & Q4).
    destruct (is_terms _ _); [apply ledger_grows_refl|].
    destruct (is_bonus _ _); [apply Q1|].
    destruct (is_connect_wallet _ _); [apply Q2|].
    destruct (is_balance _ _); [apply Q3|].
    destruct (is_chat _ _); [apply Q4|].
    unfold dispatch_state.
    destruct (String.eqb _ "AI_CHAT"); [apply ledger_grows_refl|].
    destruct (String.eqb _ "AWAIT_WALLET"); [apply quiet_stage_wallet|].
    destruct (String.eqb _ "AWAIT_WALLET_CHANGE"); [apply quiet_stage_wallet|].
    destruct (PyStr.startswith "MISSION:" _);
      [apply ledger_grows_submit_mission | apply ledger_grows_refl].
Qed.

Lemma run_ledger_grows :
  forall cfg evs d, ledger_grows d (run cfg d evs).
Proof.
  intros cfg evs. induction evs as [|[[[env uid] name] e] evs IH]; intros d;
    simpl; [apply ledger_grows_refl|].
  eapply ledger_grows_trans; [apply handle_ledger_grows | apply IH].
Qed.

End Invariants.

(* ------------------------------------------------------------------ *)
(** ** The ledger within 64 bits *)

Section Bounded.

Local Open Scope list_scope.

Lemma fits_range :
  forall n, Sqlite.fits n = true <-> Sqlite.INT64_MIN <= n <= Sqlite.INT64_MAX.
Proof.
  intros n. unfold Sqlite.fits. rewrite andb_true_iff, !Z.leb_le. tauto.
Qed.

(** While the absolute values stay within the range, so does every
    running total, and [SUM] gives the sum. *)
Lemma sum_from_small :
  forall values total,
    Z.abs total + sum (map Z.abs values) <= Sqlite.INT64_MAX ->
    Sqlite.sum_from total values = Ok (total + sum values).
Proof.
  induction values as [|v rest IH]; intros total H; simpl in *.
  - f_equal. lia.
  - assert (Hpos : 0 <= sum (map Z.abs rest)).
    { clear. induction rest as [|x l IHl]; simpl; lia. }
    assert (Hfit : Sqlite.fits (total + v) = true).
    { apply fits_range. unfold Sqlite.INT64_MIN, Sqlite.INT64_MAX in *. lia. }
    rewrite Hfit, IH by lia. f_equal. lia.
Qed.

(** When [SUM] gives a value, it is the sum. *)
Lemma sum_from_value :
  forall values total s,
    Sqlite.sum_from total values = Ok s -> s = total + sum values.
Proof.
  induction values as [|v rest IH]; intros total s H; simpl in *.
  - inversion H. lia.
  - destruct (Sqlite.fits (total + v)); [|discriminate].
    apply IH in H. lia.
Qed.

Lemma insert_by_key_perm :
  forall r l, Permutation (Exact.insert_by_key r l) (r :: l).
Proof.
  intros r l. induction l as [|x l IH]; simpl; [reflexivity|].
  destruct (String.leb (unique_key r) (unique_key x)); [reflexivity|].
  rewrite IH. apply perm_swap.
Qed.

Lemma index_order_perm : forall l, Permutation (Exact.index_order l) l.
Proof.
  induction l as [|r l IH]; simpl; [reflexivity|].
  unfold Exact.index_order in *. simpl. rewrite insert_by_key_perm.
  now constructor.
Qed.

Lemma sum_perm : forall l l', Permutation l l' -> sum l = sum l'.
Proof. induction 1; simpl in *; lia. Qed.

Lemma index_order_sum :
  forall l, sum (map amount (Exact.index_order l)) = sum (map amount l).
Proof. intros l. apply sum_perm, Permutation_map, index_order_perm. Qed.

Lemma index_order_sum_abs :
  forall l, sum (map Z.abs (map amount (Exact.index_order l)))
            = sum (map Z.abs (map amount l)).
Proof. intros l. apply sum_perm. do 2 apply Permutation_map. apply index_order_perm. Qed.

Lemma get_points_value :
  forall d uid s, Exact.get_points d uid = Ok s -> s = sum (amounts_of d uid).
Proof.
  intros d uid s H. unfold Exact.get_points in H.
  destruct (Sqlite.fits uid); [|discriminate].
  apply sum_from_value in H. rewrite index_order_sum in H. exact H.
Qed.

Lemma get_points_small :
  forall d uid,
    Sqlite.fits uid = true ->
    sum (map Z.abs (amounts_of d uid)) <= Sqlite.INT64_MAX ->
    Exact.get_points d uid = Ok (sum (amounts_of d uid)).
Proof.
  intros d uid Hu H. unfold Exact.get_points. rewrite Hu.
  rewrite sum_from_small.
  - now rewrite index_order_sum.
  - rewrite index_order_sum_abs. exact H.
Qed.

(** Within the range, the exact function is [add_points_once]. *)
Lemma add_points_once_fits :
  forall d uid key typ amt m,
    Sqlite.fits uid = true -> Sqlite.fits amt = true ->
    Exact.add_points_once d uid key typ amt m
    = Ok (add_points_once d uid key typ amt m).
Proof.
  intros d uid key typ amt m Hu Ha. unfold Exact.add_points_once, add_points_once.
  rewrite Hu, Ha. simpl. now destruct (ledger_has (ledger d) uid key).
Qed.

Lemma add_points_once_raises :
  forall d uid key typ amt m,
    (Sqlite.fits uid && Sqlite.fits amt)%bool = false ->
    Exact.add_points_once d uid key typ amt m = Raise OverflowError.
Proof. intros d uid key typ amt m H. unfold Exact.add_points_once. now rewrite H. Qed.

Lemma add_points_once_call :
  forall d c,
    Exact.add_points_once d (call_user c) (call_key c) (call_type c)
                          (call_amount c) (call_meta c)
    = if call_fits c
      then Ok (add_points_once d (call_user c) (call_key c) (call_type c)
                               (call_amount c) (call_meta c))
      else Raise OverflowError.
Proof.
  intros d c. unfold call_fits.
  destruct (Sqlite.fits (call_user c)) eqn:Hu, (Sqlite.fits (call_amount c)) eqn:Ha;
    simpl; try (apply add_points_once_raises; now rewrite Hu, Ha).
  now apply add_points_once_fits.
Qed.

(** The store after a sequence of calls is the store after those of
    them that fit. *)
Lemma replay_store :
  forall calls d,
    fst (Exact.replay d calls) = fst (replay d (filter call_fits calls)).
Proof.
  induction calls as [|c rest IH]; intros d; [reflexivity|].
  cbn [Exact.replay filter]. rewrite add_points_once_call.
  destruct (call_fits c).
  - cbn [replay].
    destruct (add_points_once d _ _ _ _ _) as [d1 ok].
    specialize (IH d1).
    destruct (Exact.replay d1 rest) as [d2 results].
    destruct (replay d1 (filter call_fits rest)) as [d2' oks].
    exact IH.
  - specialize (IH d). destruct (Exact.replay d rest) as [d2 results]. exact IH.
Qed.

Lemma amounts_of_snoc :
  forall d r uid,
    amounts_of (with_ledger d (ledger d ++ [r])) uid
    = amounts_of d uid ++ (if ledger_user_id r =? uid then [amount r] else []).
Proof.
  intros d r uid. unfold amounts_of. simpl.
  rewrite filter_app, map_app. simpl.
  now destruct (ledger_user_id r =? uid).
Qed.

Lemma sum_app : forall l1 l2, sum (l1 ++ l2) = sum l1 + sum l2.
Proof. induction l1 as [|x l1 IH]; intros l2; simpl; [reflexivity|]. rewrite IH. lia. Qed.

Lemma replay_amounts :
  forall calls d uid,
    sum (amounts_of (fst (Exact.replay d calls)) uid)
    = sum (amounts_of d uid)
      + sum (Exact.credited_amounts uid calls (snd (Exact.replay d calls))).
Proof.
  induction calls as [|c rest IH]; intros d uid; [simpl; lia|].
  cbn [Exact.replay]. unfold Exact.add_points_once.
  destruct (Sqlite.fits (call_user c) && Sqlite.fits (call_amount c))%bool.
  - destruct (ledger_has (ledger d) (call_user c) (call_key c)).
    + specialize (IH d uid). destruct (Exact.replay d rest) as [d2 results].
      simpl in *. exact IH.
    + match goal with |- context [Exact.replay ?d1 rest] => specialize (IH d1 uid);
        destruct (Exact.replay d1 rest) as [d2 results] end.
      simpl fst in *. simpl snd in *. rewrite IH, amounts_of_snoc, sum_app.
      cbn [Exact.credited_amounts ledger_user_id amount].
      destruct (call_user c =? uid); simpl; lia.
  - specialize (IH d uid). destruct (Exact.replay d rest) as [d2 results].
    simpl in *. exact IH.
Qed.

Lemma ledger_has_snoc :
  forall l r uid key,
    ledger_has (l ++ [r]) uid key
    = (ledger_has l uid key
       || (ledger_user_id r =? uid) && String.eqb (unique_key r) key)%bool.
Proof.
  intros l r uid key. unfold ledger_has. rewrite existsb_app. simpl.
  now rewrite orb_false_r.
Qed.

(** What the [i]-th call of a sequence gives: an exception when its user
    id or its amount does not fit; otherwise [True] exactly when neither
    the store nor an earlier call that fits has its user and key. *)
Lemma replay_result :
  forall calls d i c,
    nth_error calls i = Some c ->
    nth_error (snd (Exact.replay d calls)) i
    = Some (if call_fits c
            then Ok (negb (ledger_has (ledger d) (call_user c) (call_key c)
                           || existsb (fun x => (same_pair (call_user c) (call_key c) x
                                                 && call_fits x)%bool)
                                      (firstn i calls)))
            else Raise OverflowError).
Proof.
  induction calls as [|c0 rest IH]; intros d i c Hi; [destruct i; discriminate|].
  cbn [Exact.replay]. rewrite add_points_once_call.
  destruct i as [|i].
  - inversion Hi; subst c0. simpl firstn. simpl existsb. rewrite orb_false_r.
    destruct (call_fits c).
    + destruct (add_points_once d _ _ _ _ _) as [d1 ok] eqn:E.
      pose proof (add_points_once_result d (call_user c) (call_key c) (call_type c)
                    (call_amount c) (call_meta c)) as R.
      rewrite E in R. simpl in R. subst ok.
      now destruct (Exact.replay d1 rest).
    + now destruct (Exact.replay d rest).
  - simpl in Hi. cbn [firstn existsb].
    destruct (call_fits c0) eqn:F0.
    + destruct (add_points_once d _ _ _ _ _) as [d1 ok] eqn:E.
      specialize (IH d1 i c Hi).
      destruct (Exact.replay d1 rest) as [d2 results]. simpl in *. rewrite IH.
      f_equal. destruct (call_fits c); [|reflexivity]. do 2 f_equal.
      assert (Hl : ledger_has (ledger d1) (call_user c) (call_key c)
                   = (ledger_has (ledger d) (call_user c) (call_key c)
                      || same_pair (call_user c) (call_key c) c0)%bool).
      { unfold add_points_once in E.
        destruct (ledger_has (ledger d) (call_user c0) (call_key c0)) eqn:H0.
        - inversion E; subst d1 ok. unfold same_pair.
          destruct ((call_user c0 =? call_user c)
                    && String.eqb (call_key c0) (call_key c))%bool eqn:S;
            [|now rewrite orb_false_r].
          apply andb_true_iff in S as [S1 S2].
          apply Z.eqb_eq in S1. apply String.eqb_eq in S2.
          rewrite <- S1, <- S2, H0. reflexivity.
        - inversion E; subst d1 ok. simpl. rewrite ledger_has_snoc. reflexivity. }
      rewrite Hl, andb_true_r. now rewrite orb_assoc.
    + specialize (IH d i c Hi).
      destruct (Exact.replay d rest) as [d2 results]. simpl in *. rewrite IH.
      now rewrite andb_false_r.
Qed.

Lemma replay_keeps :
  forall calls d uid key,
    (ledger_has (ledger d) uid key = true ->
     ledger_has (ledger (fst (Exact.replay d calls))) uid key = true)
    /\ ((count_key (ledger d) uid key <= 1)%nat ->
        (count_key (ledger (fst (Exact.replay d calls))) uid key <= 1)%nat).
Proof.
  intros calls d uid key. rewrite replay_store. split.
  - intros H. apply extends_has with (l := ledger d); [apply replay_extends | exact H].
  - apply replay_count.
Qed.

End Bounded.

(** C2. The balance and the single credit, within what SQLite holds.
    [get_points] gives the sum of the amounts of the user's rows whenever
    it gives a value, and it gives one when the absolute values of the
    amounts sum to at most 2^63 - 1 (then no running total can leave the
    range); with no row it gives 0.  Along any sequence of calls of
    [add_points_once] that sum grows by the amounts of the calls for the
    user that returned [True].  A call whose user id or amount does not
    fit 64 bits raises [OverflowError] and writes nothing, also for a pair
    the ledger has; every other call returns [True] exactly when neither
    the store nor an earlier call that fits has its user and key.  So the
    first call with a pair inserts its row, and after it every call with
    that pair and an amount that fits, whatever was called in between,
    returns [False] and leaves the store as it is: the pair has one
    row. *)
Theorem ledger_balance_and_credit_once :
  forall d calls uid,
    let d' := fst (Exact.replay d calls) in
    let results := snd (Exact.replay d calls) in
    (forall s, Exact.get_points d' uid = Ok s -> s = sum (amounts_of d' uid))
    /\ (Sqlite.fits uid = true ->
        sum (map Z.abs (amounts_of d' uid)) <= Sqlite.INT64_MAX ->
        Exact.get_points d' uid = Ok (sum (amounts_of d' uid)))
    /\ (Sqlite.fits uid = true -> Exact.get_points empty_db uid = Ok 0)
    /\ sum (amounts_of d' uid)
       = sum (amounts_of d uid) + sum (Exact.credited_amounts uid calls results)
    /\ (forall i c,
          nth_error calls i = Some c ->
          nth_error results i
          = Some (if call_fits c
                  then Ok (negb (ledger_has (ledger d) (call_user c) (call_key c)
                                 || existsb
                                      (fun x => (same_pair (call_user c) (call_key c) x
                                                 && call_fits x)%bool)
                                      (firstn i calls)))
                  else Raise OverflowError))
    /\ (forall key typ amt m,
          Sqlite.fits uid = true -> Sqlite.fits amt = true ->
          ledger_has (ledger d) uid key = false ->
          exists d1,
            Exact.add_points_once d uid key typ amt m = Ok (d1, true)
            /\ count_key (ledger d1) uid key = 1%nat
            /\ forall later typ' amt' m',
                 Sqlite.fits amt' = true ->
                 let d2 := fst (Exact.replay d1 later) in
                 Exact.add_points_once d2 uid key typ' amt' m' = Ok (d2, false)
                 /\ count_key (ledger d2) uid key = 1%nat)
    /\ (forall key typ amt m,
          (Sqlite.fits uid && Sqlite.fits amt)%bool = false ->
          Exact.add_points_once d uid key typ amt m = Raise OverflowError).
Proof.
  intros d calls uid d' results.
  split; [apply get_points_value|].
  split; [apply get_points_small|].
  split; [intros Hu; unfold Exact.get_points; now rewrite Hu|].
  split; [apply replay_amounts|].
  split; [apply replay_result|].
  split; [|apply add_points_once_raises].
  intros key typ amt m Hu Ha Hnew.
  exists (with_ledger d (ledger d ++ [mkLedger uid key typ amt m])%list).
  assert (Hone : count_key (ledger d ++ [mkLedger uid key typ amt m])%list uid key
                 = 1%nat).
  { rewrite count_key_snoc. simpl.
    rewrite (ledger_has_false_count _ _ _ Hnew), Z.eqb_refl, String.eqb_refl.
    reflexivity. }
  split.
  { rewrite add_points_once_fits by assumption.
    now rewrite add_points_once_new by exact Hnew. }
  split; [exact Hone|].
  intros later typ' amt' m' Ha' d2.
  set (d1 := with_ledger d (ledger d ++ [mkLedger uid key typ amt m])%list) in *.
  destruct (replay_keeps later d1 uid key) as (Hkeep & Hcount).
  assert (Hhas : ledger_has (ledger d2) uid key = true).
  { apply Hkeep. simpl. rewrite ledger_has_snoc. simpl.
    now rewrite Z.eqb_refl, String.eqb_refl, orb_true_r. }
  split.
  - rewrite add_points_once_fits by assumption.
    now rewrite add_points_once_dup by exact Hhas.
  - pose proof (ledger_has_true_count _ _ _ Hhas).
    assert ((count_key (ledger d2) uid key <= 1)%nat).
    { apply Hcount. simpl. rewrite Hone. constructor. }
    lia.
Qed.

Lemma ledger_balance_and_credit_once_witness :
  let calls :=
    [ mkCall 7 "wallet_register" "wallet_register" 50 [];
      mkCall 7 "daily_checkin:2024-01-03" "daily_checkin" 10 [];
      mkCall 7 "wallet_register" "wallet_register" 50 [];
      mkCall 7 "mission:X" "mission:X" (2 ^ 63) [];
      mkCall 8 "wallet_register" "wallet_register" 50 [] ] in
  Exact.get_points (fst (Exact.replay empty_db calls)) 7 = Ok 60
  /\ nth_error (snd (Exact.replay empty_db calls)) 0 = Some (Ok true)
  /\ nth_error (snd (Exact.replay empty_db calls)) 2 = Some (Ok false)
  /\ nth_error (snd (Exact.replay empty_db calls)) 3 = Some (Raise OverflowError).
Proof.
  intros calls.
  destruct (ledger_balance_and_credit_once empty_db calls 7)
    as (_ & Hsum & _ & _ & Hres & _).
  split; [apply Hsum; [reflexivity | vm_compute; discriminate]|].
  split; [apply (Hres 0%nat (mkCall 7 "wallet_register" "wallet_register" 50 []));
          reflexivity|].
  split; [apply (Hres 2%nat (mkCall 7 "wallet_register" "wallet_register" 50 []));
          reflexivity|].
  apply (Hres 3%nat (mkCall 7 "mission:X" "mission:X" (2 ^ 63) [])); reflexivity.
Defined.

(** The claim as the specification has it fails outside 64 bits: a first
    call with the amount 2^63 raises instead of returning [True], and the
    balance of a user with two rows of 2^62 is an exception, not their
    sum. *)
Lemma credit_once_raises_outside_64_bits :
  Exact.add_points_once empty_db 7 "mission:X" "mission:X" (2 ^ 63) []
  = Raise OverflowError
  /\ ledger_has (ledger empty_db) 7 "mission:X" = false
  /\ Exact.get_points
       (mkDb [] [mkLedger 7 "mission:X" "mission:X" (2 ^ 62) [];
                 mkLedger 7 "mission:Y" "mission:Y" (2 ^ 62) []] [] [] []) 7
     = Raise OperationalError.
Proof. vm_compute. repeat split; reflexivity. Qed.

(* ------------------------------------------------------------------ *)
(** ** The wallet registry *)

Section Wallets.

Local Open Scope list_scope.

Lemma get_user_users :
  forall d d' u, users d' = users d -> get_user d' u = get_user d u.
Proof. intros d d' u H. unfold get_user. now rewrite H. Qed.


Lemma on_callback_wallet_change_confirm :
  forall cfg env d uid name row,
    get_user d uid = Some row ->
    on_callback cfg env d uid name (Some "wallet_change_confirm")
    = wallet_change_confirm (after_prelude env d uid name) uid
                            (prelude_replies env d uid name).
Proof.
  intros cfg env d uid name row G. unfold on_callback.
  rewrite (prelude_existing env d uid name row _ G). reflexivity.
Qed.

Lemma truthy_some :
  forall w, PyStr.truthy (Some w) = true -> exists c p, w = String c p.
Proof. intros [|c p] H; [discriminate | eauto]. Qed.




End Wallets.

Section WalletFlows.



Lemma due_rows_users :
  forall d d' now uid,
    pending_rewards d' = pending_rewards d -> due_rows d' now uid = due_rows d now uid.
Proof. intros d d' now uid H. unfold due_rows. now rewrite H. Qed.

(** With no reward due, the start of an event leaves the ledger alone. *)
Lemma after_prelude_nothing_due :
  forall env d uid name,
    due_rows d (clock_settle env) uid = [] ->
    ledger (after_prelude env d uid name) = ledger d
    /\ pending_rewards (after_prelude env d uid name) = pending_rewards d.
Proof.
  intros env d uid name H. unfold after_prelude, process_due_rewards.
  rewrite (due_rows_users d (update_user d uid (set_username name))) by reflexivity.
  rewrite H. simpl. auto.
Qed.



End WalletFlows.





(* ------------------------------------------------------------------ *)
(** ** Missions with a delay *)

Section DelayedMission.

Lemma dispatch_state_mission :
  forall cfg env d uid row text out mid,
    PyStr.strip (PyStr.or_empty (state row)) = "MISSION:" ++ mid ->
    dispatch_state cfg env d uid row text out
    = submit_mission cfg env d uid ("MISSION:" ++ mid) text out.
Proof.
  intros cfg env d uid row text out mid H. unfold dispatch_state.
  rewrite H. reflexivity.
Qed.

Lemma on_any_text_mission :
  forall cfg env d uid name message_text row mid,
    get_user d uid = Some row ->
    PyStr.strip (PyStr.or_empty (state row)) = "MISSION:" ++ mid ->
    is_menu cfg (PyStr.strip (PyStr.or_empty message_text)) = false ->
    on_any_text cfg env d uid name message_text
    = submit_mission cfg env (after_prelude env d uid name) uid ("MISSION:" ++ mid)
        (PyStr.strip (PyStr.or_empty message_text)) (prelude_replies env d uid name).
Proof.
  intros cfg env d uid name message_text row mid G Hs Hmenu. unfold on_any_text.
  rewrite (prelude_existing env d uid name row _ G).
  unfold is_menu in Hmenu.
  apply orb_false_iff in Hmenu as [Hmenu H5].
  apply orb_false_iff in Hmenu as [Hmenu H4].
  apply orb_false_iff in Hmenu as [Hmenu H3].
  apply orb_false_iff in Hmenu as [H1 H2].
  rewrite H1, H2, H3, H4, H5.
  now apply dispatch_state_mission.
Qed.

Lemma claim_if_recipe_fingerprints :
  forall d d' mid uid text,
    recipe_fingerprints d' = recipe_fingerprints d ->
    snd (claim_if_recipe d' mid uid text) = snd (claim_if_recipe d mid uid text).
Proof.
  intros d d' mid uid text H. unfold claim_if_recipe.
  destruct (String.eqb mid "recipe_submit"); [|reflexivity].
  now rewrite !claim_result, H.
Qed.

Lemma pending_has_filter :
  forall f l uid mid,
    pending_has l uid mid = false -> pending_has (filter f l) uid mid = false.
Proof.
  intros f l uid mid. unfold pending_has.
  induction l as [|r l IH]; simpl; [reflexivity|].
  intros H. apply orb_false_iff in H as [H1 H2].
  destruct (f r); simpl; [rewrite H1|]; now apply IH.
Qed.

Lemma pending_has_app :
  forall l1 l2 uid mid,
    pending_has (l1 ++ l2)%list uid mid
    = (pending_has l1 uid mid || pending_has l2 uid mid)%bool.
Proof. intros. unfold pending_has. apply existsb_app. Qed.

Lemma mission_key_inj :
  forall a b : string, "mission:" ++ a = "mission:" ++ b -> a = b.
Proof. intros a b H. simpl in H. now inversion H. Qed.

(** With well-formed pending rewards and none for the mission, the
    settlement does not create the key of the mission. *)
Lemma settlement_keeps_mission_absent :
  forall env d uid name mid,
    pending_keys_wf d ->
    pending_has (pending_rewards d) uid mid = false ->
    ledger_has (ledger d) uid ("mission:" ++ mid) = false ->
    ledger_has (ledger (after_prelude env d uid name)) uid ("mission:" ++ mid) = false.
Proof.
  intros env d uid name mid Hwf Hnop Hnew. unfold after_prelude, process_due_rewards.
  eapply adds_keeps_absent; [apply settle_fold_adds | | exact Hnew].
  intros r (_ & p & Hp & Hk) _ Heq. rewrite Hk in Heq.
  unfold due_rows in Hp. simpl in Hp. apply filter_In in Hp as [Hin Hdue].
  apply andb_true_iff in Hdue as [Hu _].
  unfold pending_keys_wf in Hwf. rewrite Forall_forall in Hwf.
  rewrite (Hwf p Hin) in Heq. apply mission_key_inj in Heq.
  assert (pending_has (pending_rewards d) uid mid = true); [|congruence].
  unfold pending_has. apply existsb_exists. exists p. split; [exact Hin|].
  rewrite Hu, Heq. apply String.eqb_refl.
Qed.

(** Once a reward of the mission is due, the settlement puts its key in
    the ledger and leaves no pending reward for the mission. *)
Lemma settlement_of_due_mission :
  forall env d uid name r,
    In r (pending_rewards d) ->
    pending_user_id r = uid -> available_at_ts r <= clock_settle env ->
    let d' := after_prelude env d uid name in
    ledger_has (ledger d') uid (pending_unique_key r) = true
    /\ pending_has (pending_rewards d') uid (pending_mission_id r) = false.
Proof.
  intros env d uid name r Hin Hu Hdue d'.
  assert (Hrow : In r (due_rows (update_user d uid (set_username name))
                          (clock_settle env) uid)).
  { unfold due_rows. simpl. apply filter_In. split; [exact Hin|].
    rewrite Hu, Z.eqb_refl. simpl. now apply Z.leb_le. }
  split.
  - unfold d', after_prelude, process_due_rewards. now apply settle_fold_credits.
  - unfold d', after_prelude. rewrite process_due_rewards_pending.
    unfold pending_has. apply not_true_is_false. intros H.
    apply existsb_exists in H as (x & Hx & Hm).
    apply filter_In in Hx as [_ Hx]. apply negb_true_iff in Hx.
    apply andb_true_iff in Hm as [Hxu Hxm].
    rewrite Hxu in Hx. simpl in Hx.
    assert (mission_among (due_rows (update_user d uid (set_username name))
                             (clock_settle env) uid) x = true); [|congruence].
    unfold mission_among. apply existsb_exists. exists r. split; assumption.
Qed.

End DelayedMission.

Section DelayedSubmission.

(** A valid submission for a mission with a delay: what it writes. *)
Lemma delayed_submission :
  forall cfg env d uid mid m text out err normalized,
    get_mission cfg mid = Some m ->
    0 < mission_delay_minutes m ->
    validate (mission_validator m) text = (true, err, normalized) ->
    snd (claim_if_recipe d mid uid normalized) = true ->
    pending_has (pending_rewards d) uid mid = false ->
    exists d1,
      submit_mission cfg env d uid ("MISSION:" ++ mid) text out
      = Done (d1, say out (SavedPending (mission_delay_minutes m)))
      /\ ledger d1 = ledger d
      /\ pending_rewards d1
         = (pending_rewards d
            ++ [mkPending uid mid ("mission:" ++ mid) (mission_points m)
                  (clock_schedule env + mission_delay_minutes m * 60)])%list
      /\ users d1 = users (update_user d uid (set_user_state None)).
Proof.
  intros cfg env d uid mid m text out err normalized Hm Hdelay Hvalid Hclaim Hnop.
  unfold submit_mission. rewrite after_mission_prefix, Hm, Hvalid.
  cbv beta iota zeta. simpl negb. cbv iota.
  pose proof (claim_if_recipe_frame d mid uid normalized) as (Fu & Fl & _ & Fp).
  destruct (claim_if_recipe d mid uid normalized) as [dC claimed].
  simpl in Hclaim, Fu, Fl, Fp. subst claimed. simpl negb. cbv iota.
  pose proof (record_submission_frame dC uid mid normalized) as (Su & Sl & _ & Sp).
  simpl in Su, Sl, Sp.
  apply Z.ltb_lt in Hdelay. rewrite Hdelay.
  unfold add_pending_reward. rewrite Sp, Fp, Hnop.
  eexists. split; [reflexivity|]. simpl.
  rewrite Sl, Fl, Su, Fu. auto.
Qed.

Lemma count_grows :
  forall d d' uid key,
    ledger_grows d d' ->
    count_key (ledger d) uid key = 1%nat -> count_key (ledger d') uid key = 1%nat.
Proof.
  intros d d' uid key [(added & E) Hle] H.
  specialize (Hle uid key ltac:(lia)). rewrite E, count_key_app in *. lia.
Qed.

End DelayedSubmission.

(** The settlement of due rewards.  A settlement pass credits every reward of
    the user that is due under the key stored with it, so that the key is
    in the ledger afterwards whether this pass or an earlier event put it
    there; it removes those rewards, leaves no due reward of the user
    behind, and keeps the rewards of other users and the user's rewards
    that are not due unless they are for a mission just settled.  A valid
    submission for a mission with a delay appends nothing to the ledger
    under [mission:<id>] and schedules the reward; once its time has come,
    the user's next button press or text message settles it: the ledger
    has one row under [mission:<id>] and no reward is pending for the
    mission.  The [/start] command does not settle. *)
Theorem due_rewards_settled_by_next_event :
  (forall d now uid,
      let d' := fst (process_due_rewards d now uid) in
      due_rows d' now uid = []
      /\ (forall r, In r (due_rows d now uid) ->
                    ledger_has (ledger d') uid (pending_unique_key r) = true)
      /\ pending_rewards d'
         = filter (fun r => negb ((pending_user_id r =? uid)
                                  && mission_among (due_rows d now uid) r))
                  (pending_rewards d)
      /\ ledger_grows d d')
  /\ (forall cfg env d uid name message_text row mid m err normalized,
         get_user d uid = Some row ->
         PyStr.strip (PyStr.or_empty (state row)) = "MISSION:" ++ mid ->
         get_mission cfg mid = Some m ->
         0 < mission_delay_minutes m ->
         is_menu cfg (PyStr.strip (PyStr.or_empty message_text)) = false ->
         validate (mission_validator m) (PyStr.strip (PyStr.or_empty message_text))
         = (true, err, normalized) ->
         snd (claim_if_recipe d mid uid normalized) = true ->
         ledger_has (ledger d) uid ("mission:" ++ mid) = false ->
         pending_has (pending_rewards d) uid mid = false ->
         pending_keys_wf d ->
         exists d1,
           on_any_text cfg env d uid name message_text
           = Done (d1, say (prelude_replies env d uid name)
                           (SavedPending (mission_delay_minutes m)))
           /\ ledger_has (ledger d1) uid ("mission:" ++ mid) = false
           /\ In (mkPending uid mid ("mission:" ++ mid) (mission_points m)
                    (clock_schedule env + mission_delay_minutes m * 60))
                 (pending_rewards d1)
           /\ forall env' name' e,
                settles e = true ->
                clock_schedule env + mission_delay_minutes m * 60 <= clock_settle env' ->
                let d2 := fst (final (handle cfg env' d1 uid name' e)) in
                count_key (ledger d2) uid ("mission:" ++ mid) = 1%nat
                /\ pending_has (pending_rewards d2) uid mid = false).
Proof.
  split.
  - intros d now uid d'. unfold d'.
    split; [apply nothing_due_after_settlement|].
    split; [intros r Hr; now apply settle_fold_credits|].
    split; [apply process_due_rewards_pending|].
    split; [apply (process_due_rewards_ledger d now uid uid EmptyString)|].
    intros u k. apply (process_due_rewards_ledger d now uid u k).
  - intros cfg env d uid name message_text row mid m err normalized
           G Hstate Hm Hdelay Hmenu Hvalid Hclaim Hnew Hnop Hwf.
    set (d0 := after_prelude env d uid name).
    pose proof (after_prelude_frame env d uid name) as (U0 & _ & F0 & _).
    fold d0 in U0, F0.
    assert (Hnop0 : pending_has (pending_rewards d0) uid mid = false).
    { unfold d0, after_prelude. rewrite process_due_rewards_pending.
      now apply pending_has_filter. }
    assert (Hnew0 : ledger_has (ledger d0) uid ("mission:" ++ mid) = false)
      by now apply settlement_keeps_mission_absent.
    assert (Hclaim0 : snd (claim_if_recipe d0 mid uid normalized) = true)
      by (rewrite (claim_if_recipe_fingerprints d d0); assumption).
    destruct (delayed_submission cfg env d0 uid mid m
                (PyStr.strip (PyStr.or_empty message_text))
                (prelude_replies env d uid name) err normalized
                Hm Hdelay Hvalid Hclaim0 Hnop0)
      as (d1 & Hrun & L1 & P1 & U1).
    exists d1.
    rewrite (on_any_text_mission cfg env d uid name message_text row mid G Hstate Hmenu).
    fold d0. split; [exact Hrun|].
    split; [now rewrite L1|].
    split; [rewrite P1; apply in_or_app; right; now left|].
    intros env' name' e He Hlate d2.
    set (r := mkPending uid mid ("mission:" ++ mid) (mission_points m)
                (clock_schedule env + mission_delay_minutes m * 60)).
    assert (G0 : get_user d0 uid = Some (set_username name row)).
    { unfold d0. now rewrite get_user_after_prelude, Z.eqb_refl, G. }
    assert (G1 : get_user d1 uid
                 = Some (set_user_state None (set_username name row))).
    { rewrite (get_user_users _ d1 uid U1).
      rewrite (get_user_update_user d0 uid (set_user_state None)) by reflexivity.
      now rewrite Z.eqb_refl, G0. }
    destruct (settlement_of_due_mission env' d1 uid name' r) as (Hhas & Hgone).
    { rewrite P1. apply in_or_app. right. now left. }
    { reflexivity. }
    { exact Hlate. }
    unfold r in Hhas, Hgone.
    cbn [pending_unique_key pending_mission_id] in Hhas, Hgone.
    set (ds := after_prelude env' d1 uid name') in *.
    assert (Hone : count_key (ledger ds) uid ("mission:" ++ mid) = 1%nat).
    { pose proof (ledger_has_true_count _ _ _ Hhas).
      destruct (after_prelude_ledger env' d1 uid name' uid ("mission:" ++ mid))
        as (_ & Hle).
      fold ds in Hle.
      assert (count_key (ledger d1) uid ("mission:" ++ mid) = 0%nat)
        by (apply ledger_has_false_count; now rewrite L1).
      specialize (Hle ltac:(lia)). lia. }
    assert (Q : quiet ds d2).
    { unfold d2, ds. destruct e as [args | data | t]; [discriminate He | |]; simpl.
      - eapply quiet_on_callback. exact G1.
      - eapply quiet_on_any_text_idle; [exact G1 | reflexivity]. }
    destruct Q as (Qg & Qp & _). split.
    + eapply count_grows; eassumption.
    + now rewrite Qp.
Qed.

Lemma due_rewards_settled_by_next_event_witness :
  exists d1,
    on_any_text sample_config (sample_env 100 738888) sample_awaiting 2 None
                (Some "done")
    = Done (d1, say (prelude_replies (sample_env 100 738888) sample_awaiting 2 None)
                    (SavedPending 30))
    /\ ledger_has (ledger d1) 2 ("mission:" ++ "X") = false
    /\ In (mkPending 2 "X" ("mission:" ++ "X") 20 (100 + 30 * 60)) (pending_rewards d1)
    /\ (let d2 := fst (final (handle sample_config (sample_env 1900 738888) d1 2 None
                                (Text (Some "hello")))) in
        count_key (ledger d2) 2 ("mission:" ++ "X") = 1%nat
        /\ pending_has (pending_rewards d2) 2 "X" = false).
Proof.
  destruct due_rewards_settled_by_next_event as [_ Hscenario].
  destruct (Hscenario sample_config (sample_env 100 738888) sample_awaiting 2 None
              (Some "done") (awaiting_user 2 "ref2" wallet_B "X") "X"
              (mkMission "X" 20 30 "") "" "done"
              eq_refl eq_refl eq_refl eq_refl eq_refl eq_refl eq_refl eq_refl eq_refl
              ltac:(vm_compute; constructor))
    as (d1 & H1 & H2 & H3 & H4).
  exists d1. split; [exact H1|]. split; [exact H2|]. split; [exact H3|].
  apply (H4 (sample_env 1900 738888) None (Text (Some "hello"))).
  - reflexivity.
  - vm_compute. discriminate.
Defined.

(** C5. The [/start] command is the one interaction that does not begin
    with the settlement: with a reward due since time 1900, the command
    at time 5000 leaves the reward pending and the ledger without a row
    for it, where a button press or a text message would have settled it;
    the text message that follows does. *)
Lemma start_command_does_not_settle :
  let d1 := fst (final (handle sample_config (sample_env 5000 738888) sample_pending
                          2 None (Start []))) in
  let d2 := fst (final (handle sample_config (sample_env 5001 738888) d1
                          2 None (Text (Some "hello")))) in
  due_rows sample_pending 5000 2 = [mkPending 2 "X" "mission:X" 20 1900]
  /\ d1 = sample_pending
  /\ due_rows d1 5000 2 = [mkPending 2 "X" "mission:X" 20 1900]
  /\ count_key (ledger d1) 2 "mission:X" = 0%nat
  /\ count_key (ledger d2) 2 "mission:X" = 1%nat
  /\ pending_rewards d2 = [].
Proof. vm_compute. repeat split; reflexivity. Qed.

(* ------------------------------------------------------------------ *)
(** ** Submissions *)

Section Submissions.

Lemma claim_if_recipe_taken :
  forall d uid normalized,
    fingerprint_has (recipe_fingerprints d) "recipe_submit"
      (Sha256.hexdigest (normalize_recipe_text normalized)) = true ->
    claim_if_recipe d "recipe_submit" uid normalized = (d, false).
Proof.
  intros d uid normalized H. unfold claim_if_recipe, claim_recipe_fingerprint.
  simpl String.eqb. cbv iota. now rewrite H.
Qed.

(** The branch of a refused recipe: nothing is written. *)
Lemma submit_recipe_taken :
  forall cfg env d uid m text out err normalized,
    get_mission cfg "recipe_submit" = Some m ->
    validate (mission_validator m) text = (true, err, normalized) ->
    fingerprint_has (recipe_fingerprints d) "recipe_submit"
      (Sha256.hexdigest (normalize_recipe_text normalized)) = true ->
    submit_mission cfg env d uid ("MISSION:" ++ "recipe_submit") text out
    = Done (d, say out RecipeAlreadySubmitted).
Proof.
  intros cfg env d uid m text out err normalized Hm Hvalid Htaken.
  unfold submit_mission. rewrite after_mission_prefix, Hm, Hvalid.
  cbv beta iota zeta. simpl negb. cbv iota.
  now rewrite (claim_if_recipe_taken d uid normalized Htaken).
Qed.

(** A valid submission for a mission without delay: the key of the
    mission is in the ledger afterwards and the state is reset. *)
Lemma immediate_submission :
  forall cfg env d uid mid m text out err normalized,
    get_mission cfg mid = Some m ->
    mission_delay_minutes m <= 0 ->
    validate (mission_validator m) text = (true, err, normalized) ->
    snd (claim_if_recipe d mid uid normalized) = true ->
    exists d1,
      submit_mission cfg env d uid ("MISSION:" ++ mid) text out
      = Done (d1, say out (if negb (ledger_has (ledger d) uid ("mission:" ++ mid))
                           then SavedWithPoints (mission_points m)
                           else SavedAlreadyGranted))
      /\ ledger_has (ledger d1) uid ("mission:" ++ mid) = true
      /\ users d1 = users (update_user d uid (set_user_state None)).
Proof.
  intros cfg env d uid mid m text out err normalized Hm Hdelay Hvalid Hclaim.
  unfold submit_mission. rewrite after_mission_prefix, Hm, Hvalid.
  cbv beta iota zeta. simpl negb. cbv iota.
  pose proof (claim_if_recipe_frame d mid uid normalized) as (Fu & Fl & _ & _).
  destruct (claim_if_recipe d mid uid normalized) as [dC claimed].
  simpl in Hclaim, Fu, Fl. subst claimed. simpl negb. cbv iota.
  pose proof (record_submission_frame dC uid mid normalized) as (Su & Sl & _ & _).
  simpl in Su, Sl.
  assert (Hnow : (0 <? mission_delay_minutes m) = false) by (apply Z.ltb_ge; lia).
  rewrite Hnow.
  unfold mission_key.
  pose proof (add_points_once_result (record_submission dC uid mid normalized) uid
                ("mission:" ++ mid) ("mission:" ++ mid) (mission_points m)
                [("payload", JStr normalized)]) as Hres.
  pose proof (add_points_once_has (record_submission dC uid mid normalized) uid
                ("mission:" ++ mid) ("mission:" ++ mid) (mission_points m)
                [("payload", JStr normalized)]) as Hhas.
  pose proof (add_points_once_frame (record_submission dC uid mid normalized) uid
                ("mission:" ++ mid) ("mission:" ++ mid) (mission_points m)
                [("payload", JStr normalized)]) as (Au & _).
  destruct (add_points_once _ uid _ _ _ _) as [d3 awarded].
  simpl in Hres, Hhas, Au. rewrite Sl, Fl in Hres. subst awarded.
  eexists. split; [reflexivity|]. split; [exact Hhas|].
  simpl. now rewrite Au, Su, Fu.
Qed.

End Submissions.

(* ------------------------------------------------------------------ *)
(** ** Submissions of any text *)

Section ExactSubmissions.

Variable U : Unicode.tables.

Lemma exact_dispatch_state_mission :
  forall cfg env d uid row text out mid,
    Exact.strip (PyStr.or_empty (state row)) = "MISSION:" ++ mid ->
    Exact.dispatch_state U cfg env d uid row text out
    = Exact.submit_mission U cfg env d uid ("MISSION:" ++ mid) text out.
Proof.
  intros cfg env d uid row text out mid H. unfold Exact.dispatch_state.
  rewrite H. reflexivity.
Qed.

(** A text that is no menu label, from a user who was asked for the
    submission of [mid], goes to the submission branch. *)
Lemma exact_on_any_text_mission :
  forall cfg env d uid name message_text row mid,
    Sqlite.fits uid = true ->
    get_user d uid = Some row ->
    Exact.strip (PyStr.or_empty (state row)) = "MISSION:" ++ mid ->
    is_menu cfg (Exact.strip (PyStr.or_empty message_text)) = false ->
    Exact.on_any_text U cfg env d uid name message_text
    = Exact.submit_mission U cfg env (after_prelude env d uid name) uid
        ("MISSION:" ++ mid) (Exact.strip (PyStr.or_empty message_text))
        (prelude_replies env d uid name).
Proof.
  intros cfg env d uid name message_text row mid Hu G Hs Hmenu.
  unfold Exact.on_any_text. rewrite Hu. cbn [negb].
  rewrite (prelude_existing env d uid name row _ G).
  unfold is_menu in Hmenu.
  apply orb_false_iff in Hmenu as [Hmenu H5].
  apply orb_false_iff in Hmenu as [Hmenu H4].
  apply orb_false_iff in Hmenu as [Hmenu H3].
  apply orb_false_iff in Hmenu as [H1 H2].
  rewrite H1, H2, H3, H4, H5.
  now apply exact_dispatch_state_mission.
Qed.

(** The branch of a refused recipe: nothing is written. *)
Lemma exact_submit_recipe_taken :
  forall cfg env d uid m text out err normalized,
    Sqlite.fits uid = true ->
    get_mission cfg "recipe_submit" = Some m ->
    Exact.validate U (mission_validator m) text = (true, err, normalized) ->
    fingerprint_has (recipe_fingerprints d) "recipe_submit"
      (Sha256.hexdigest (Exact.normalize_recipe_text U normalized)) = true ->
    Exact.submit_mission U cfg env d uid ("MISSION:" ++ "recipe_submit") text out
    = Done (d, say out RecipeAlreadySubmitted).
Proof.
  intros cfg env d uid m text out err normalized Hu Hm Hvalid Htaken.
  unfold Exact.submit_mission. rewrite after_mission_prefix, Hm, Hvalid.
  cbv beta iota zeta. simpl negb. cbv iota.
  unfold Exact.claim_if_recipe, Exact.claim_recipe_fingerprint.
  simpl String.eqb. cbv iota. rewrite Hu, Htaken. reflexivity.
Qed.

(** An original recipe for a mission without delay, with points that fit
    64 bits: the key of the mission is in the ledger afterwards and the
    state is reset. *)
Lemma exact_submit_recipe_free :
  forall cfg env d uid m text out err normalized,
    Sqlite.fits uid = true ->
    get_mission cfg "recipe_submit" = Some m ->
    mission_delay_minutes m <= 0 ->
    Sqlite.fits (mission_points m) = true ->
    Exact.validate U (mission_validator m) text = (true, err, normalized) ->
    fingerprint_has (recipe_fingerprints d) "recipe_submit"
      (Sha256.hexdigest (Exact.normalize_recipe_text U normalized)) = false ->
    exists d1,
      Exact.submit_mission U cfg env d uid ("MISSION:" ++ "recipe_submit") text out
      = Done (d1, say out (if negb (ledger_has (ledger d) uid
                                      ("mission:" ++ "recipe_submit"))
                           then SavedWithPoints (mission_points m)
                           else SavedAlreadyGranted))
      /\ ledger_has (ledger d1) uid ("mission:" ++ "recipe_submit") = true
      /\ users d1 = users (update_user d uid (set_user_state None)).
Proof.
  intros cfg env d uid m text out err normalized Hu Hm Hdelay Hpts Hvalid Hfree.
  unfold Exact.submit_mission. rewrite after_mission_prefix, Hm, Hvalid.
  cbv beta iota zeta. simpl negb. cbv iota.
  unfold Exact.claim_if_recipe, Exact.claim_recipe_fingerprint.
  simpl String.eqb. cbv iota. rewrite Hu, Hfree.
  cbn [attempt negb].
  set (dC := with_fingerprints d _).
  pose proof (record_submission_frame dC uid "recipe_submit" normalized)
    as (Su & Sl & _ & _).
  simpl in Su, Sl.
  assert (Hnow : (0 <? mission_delay_minutes m) = false) by (apply Z.ltb_ge; lia).
  rewrite Hnow. unfold mission_key.
  set (dS := record_submission dC uid "recipe_submit" normalized) in *.
  unfold Exact.add_points_once. rewrite Hu, Hpts. cbn [andb].
  rewrite Sl. change (ledger dC) with (ledger d).
  change ("mission:" ++ "recipe_submit") with "mission:recipe_submit".
  destruct (ledger_has (ledger d) uid "mission:recipe_submit") eqn:E;
    cbn [attempt negb].
  - eexists. split; [reflexivity|]. split.
    + simpl. now rewrite Sl.
    + simpl. now rewrite Su.
  - eexists. split; [reflexivity|]. split.
    + simpl. unfold ledger_has. rewrite existsb_app. simpl.
      rewrite Z.eqb_refl. simpl. apply orb_true_r.
    + simpl. now rewrite Su.
Qed.

End ExactSubmissions.

(** C8. A recipe whose fingerprint is already claimed is refused with a
    message and nothing else: the store is the one every event of the user
    starts from.  No submission is recorded, no fingerprint is added, the
    conversation state still awaits the mission, and the ledger holds
    nothing new under [mission:recipe_submit] (with no reward due it is
    unchanged).  A later text with an unclaimed fingerprint is accepted
    and, for a mission without delay whose points fit 64 bits, brings the
    key of the mission into the ledger.  The text is read as [str] reads
    it, whatever its characters; the user id is one of Telegram's. *)
Theorem refused_recipe_writes_nothing :
  forall U cfg env d uid name message_text row m err normalized,
    Sqlite.fits uid = true ->
    get_user d uid = Some row ->
    Exact.strip (PyStr.or_empty (state row)) = "MISSION:" ++ "recipe_submit" ->
    get_mission cfg "recipe_submit" = Some m ->
    is_menu cfg (Exact.strip (PyStr.or_empty message_text)) = false ->
    Exact.validate U (mission_validator m) (Exact.strip (PyStr.or_empty message_text))
    = (true, err, normalized) ->
    fingerprint_has (recipe_fingerprints d) "recipe_submit"
      (Sha256.hexdigest (Exact.normalize_recipe_text U normalized)) = true ->
    let d' := after_prelude env d uid name in
    Exact.on_any_text U cfg env d uid name message_text
    = Done (d', say (prelude_replies env d uid name) RecipeAlreadySubmitted)
    /\ submissions d' = submissions d
    /\ recipe_fingerprints d' = recipe_fingerprints d
    /\ option_map state (get_user d' uid) = Some (state row)
    /\ ledger_grows d d'
    /\ (due_rows d (clock_settle env) uid = [] ->
        ledger d' = ledger d /\ pending_rewards d' = pending_rewards d)
    /\ (pending_keys_wf d ->
        pending_has (pending_rewards d) uid "recipe_submit" = false ->
        ledger_has (ledger d) uid ("mission:" ++ "recipe_submit") = false ->
        ledger_has (ledger d') uid ("mission:" ++ "recipe_submit") = false)
    /\ (forall env2 name2 text2 err2 normalized2,
           is_menu cfg (Exact.strip (PyStr.or_empty text2)) = false ->
           Exact.validate U (mission_validator m) (Exact.strip (PyStr.or_empty text2))
           = (true, err2, normalized2) ->
           fingerprint_has (recipe_fingerprints d) "recipe_submit"
             (Sha256.hexdigest (Exact.normalize_recipe_text U normalized2)) = false ->
           mission_delay_minutes m <= 0 ->
           Sqlite.fits (mission_points m) = true ->
           exists d2 r,
             Exact.on_any_text U cfg env2 d' uid name2 text2 = Done (d2, r)
             /\ ledger_has (ledger d2) uid ("mission:" ++ "recipe_submit") = true
             /\ option_map state (get_user d2 uid) = Some None).
Proof.
  intros U cfg env d uid name message_text row m err normalized
         Hu G Hstate Hm Hmenu Hvalid Htaken d'.
  pose proof (after_prelude_frame env d uid name) as (_ & S0 & F0 & _).
  fold d' in S0, F0.
  assert (G' : get_user d' uid = Some (set_username name row)).
  { unfold d'. now rewrite get_user_after_prelude, Z.eqb_refl, G. }
  split.
  { rewrite (exact_on_any_text_mission U cfg env d uid name message_text row
               "recipe_submit" Hu G Hstate Hmenu).
    fold d'.
    apply (exact_submit_recipe_taken U cfg env d' uid m _ _ err normalized Hu Hm Hvalid).
    now rewrite F0. }
  split; [exact S0|]. split; [exact F0|].
  split; [now rewrite G'|].
  split.
  { split; [apply (after_prelude_ledger env d uid name uid EmptyString)|].
    intros u k. apply (after_prelude_ledger env d uid name u k). }
  split; [apply after_prelude_nothing_due|].
  split; [apply settlement_keeps_mission_absent|].
  intros env2 name2 text2 err2 normalized2 Hmenu2 Hvalid2 Hfree Hnodelay Hpts.
  set (d0 := after_prelude env2 d' uid name2).
  pose proof (after_prelude_frame env2 d' uid name2) as (_ & _ & F2 & _).
  fold d0 in F2.
  assert (G0 : get_user d0 uid = Some (set_username name2 (set_username name row))).
  { unfold d0. now rewrite get_user_after_prelude, Z.eqb_refl, G'. }
  assert (Hfree0 : fingerprint_has (recipe_fingerprints d0) "recipe_submit"
                     (Sha256.hexdigest (Exact.normalize_recipe_text U normalized2))
                   = false) by now rewrite F2, F0.
  destruct (exact_submit_recipe_free U cfg env2 d0 uid m
              (Exact.strip (PyStr.or_empty text2))
              (prelude_replies env2 d' uid name2) err2 normalized2
              Hu Hm Hnodelay Hpts Hvalid2 Hfree0) as (d1 & Hrun & Hhas & Hus).
  rewrite (exact_on_any_text_mission U cfg env2 d' uid name2 text2
             (set_username name row) "recipe_submit" Hu G' Hstate Hmenu2).
  fold d0. rewrite Hrun. do 2 eexists. split; [reflexivity|].
  split; [exact Hhas|].
  rewrite (get_user_users _ d1 uid Hus).
  rewrite (get_user_update_user d0 uid (set_user_state None)) by reflexivity.
  now rewrite Z.eqb_refl, G0.
Qed.

Lemma refused_recipe_writes_nothing_witness :
  let d' := after_prelude (sample_env 100 738888) sample_recipes_fr 2 None in
  Exact.on_any_text sample_tables sample_config (sample_env 100 738888)
                    sample_recipes_fr 2 None (Some sample_recipe_fr_copy)
  = Done (d', say (prelude_replies (sample_env 100 738888) sample_recipes_fr 2 None)
                  RecipeAlreadySubmitted)
  /\ submissions d' = submissions sample_recipes_fr
  /\ recipe_fingerprints d' = recipe_fingerprints sample_recipes_fr
  /\ option_map state (get_user d' 2) = Some (Some ("MISSION:" ++ "recipe_submit"))
  /\ ledger d' = ledger sample_recipes_fr.
Proof.
  destruct (refused_recipe_writes_nothing sample_tables sample_config
              (sample_env 100 738888)
              sample_recipes_fr 2 None (Some sample_recipe_fr_copy)
              (awaiting_user 2 "ref2" wallet_B "recipe_submit")
              (mkMission "recipe_submit" 30 0 "recipe_text") ""
              (Exact.strip sample_recipe_fr_copy)
              eq_refl eq_refl
              ltac:(vm_compute; reflexivity)
              eq_refl
              ltac:(vm_compute; reflexivity)
              ltac:(vm_compute; reflexivity)
              ltac:(vm_compute; reflexivity))
    as (H1 & H2 & H3 & H4 & _ & H6 & _).
  split; [exact H1|]. split; [exact H2|]. split; [exact H3|]. split; [exact H4|].
  apply H6. reflexivity.
Defined.

Example exact_recipe_validation :
  fst (fst (Exact.validate sample_tables "recipe_text" sample_recipe_fr)) = true
  /\ fst (fst (Exact.validate sample_tables "recipe_text" sample_recipe_fr_copy)) = true
  /\ Exact.len sample_recipe_fr = 317
  /\ PyStr.len sample_recipe_fr = 319
  /\ Exact.normalize_recipe_text sample_tables sample_recipe_fr_copy
     = Exact.normalize_recipe_text sample_tables sample_recipe_fr
  /\ snd (fst (Exact.validate sample_tables "recipe_text"
                 (sample_recipe ++ " See WWW.example.org")))
     = "Please do not include links in your recipe.".
Proof. vm_compute. repeat split; reflexivity. Qed.

(** The length is counted in characters, not in bytes: a text of 123
    characters, 100 of them Hangul syllables of three bytes each, is too
    short for the validator. *)
Example exact_length_in_characters :
  let t := Utf8.encode (repeat 44032 100%nat) ++ " Ingredients and steps." in
  PyStr.len t = 323 /\ Exact.len t = 123
  /\ fst (Exact.validate sample_tables "recipe_text" t)
     = (false, "Please send a longer recipe (min 200 characters). Include Ingredients + Steps.").
Proof. vm_compute. repeat split; reflexivity. Qed.

Example recipe_validation :
  fst (fst (validate "recipe_text" sample_recipe)) = true
  /\ fst (fst (validate "recipe_text" sample_recipe_copy)) = true
  /\ PyStr.len sample_recipe = 291
  /\ normalize_recipe_text sample_recipe_copy = normalize_recipe_text sample_recipe
  /\ validate "recipe_text" "Ingredients: salt. Steps: none."
     = (false, "Please send a longer recipe (min 200 characters). Include Ingredients + Steps.",
        "Ingredients: salt. Steps: none.")
  /\ snd (fst (validate "recipe_text" (sample_recipe ++ " See www.example.org")))
     = "Please do not include links in your recipe.".
Proof. vm_compute. repeat split; reflexivity. Qed.

(* ================================================================== *)
(** * Further properties of the handlers and of what they call *)

(* ------------------------------------------------------------------ *)
(** ** The languages of the patterns *)

Section Languages.

Import Re.

Lemma matches_cat :
  forall a b s,
    matches (Cat a b) s <-> exists s1 s2, s = s1 ++ s2 /\ matches a s1 /\ matches b s2.
Proof.
  intros a b s. split; [apply matches_cat_inv|].
  intros (s1 & s2 & -> & Ha & Hb). now constructor.
Qed.

Lemma matches_chr : forall c s, matches (chr c) s <-> s = String c EmptyString.
Proof.
  intros c s. unfold chr. split.
  - intros H. apply matches_cls_inv in H as (x & -> & E).
    apply Ascii.eqb_eq in E. now subst.
  - intros ->. constructor. apply Ascii.eqb_refl.
Qed.

Lemma matches_eps : forall s, matches Eps s <-> s = EmptyString.
Proof. intros s. split; [intros H; now inversion H | intros ->; constructor]. Qed.

Lemma matches_opt :
  forall r s, matches (opt r) s <-> s = EmptyString \/ matches r s.
Proof.
  intros r s. unfold opt. split.
  - intros H. apply matches_alt_inv in H as [H|H]; [left; now apply matches_eps | now right].
  - intros [->|H]; [apply MAltL; constructor | now apply MAltR].
Qed.

Lemma matches_lit : forall p s, matches (lit p) s <-> s = p.
Proof.
  induction p as [|c p IH]; intros s; simpl.
  - apply matches_eps.
  - rewrite matches_cat. split.
    + intros (s1 & s2 & -> & H1 & H2). apply matches_chr in H1. apply IH in H2.
      now subst.
    + intros ->. exists (String c EmptyString), p.
      split; [reflexivity|]. split; [now apply matches_chr | now apply IH].
Qed.

Lemma matches_rep_cls :
  forall f n s,
    matches (rep n (Cls f)) s <-> String.length s = n /\ all_chars f s = true.
Proof.
  intros f. induction n as [|n IH]; intros s; simpl.
  - rewrite matches_eps. split.
    + intros ->. now split.
    + intros [H _]. now destruct s.
  - rewrite matches_cat. split.
    + intros (s1 & s2 & -> & H1 & H2).
      apply matches_cls_inv in H1 as (c & -> & Hc). apply IH in H2 as [L A].
      simpl. split; [now rewrite L|]. unfold all_chars in *. simpl. now rewrite Hc.
    + intros [L A]. destruct s as [|c s]; [discriminate|].
      unfold all_chars in A. simpl in A. apply andb_true_iff in A as [Hc A].
      exists (String c EmptyString), s. split; [reflexivity|].
      split; [now constructor|]. apply IH. split; [now injection L | exact A].
Qed.

Lemma matches_upto_cls :
  forall f n s,
    matches (upto n (Cls f)) s
    <-> (String.length s <= n)%nat /\ all_chars f s = true.
Proof.
  intros f. induction n as [|n IH]; intros s; simpl.
  - rewrite matches_eps. split.
    + intros ->. split; [simpl; lia | reflexivity].
    + intros [H _]. destruct s; [reflexivity | simpl in H; lia].
  - rewrite matches_opt, matches_cat. split.
    + intros [->|(s1 & s2 & -> & H1 & H2)].
      * split; [simpl; lia | reflexivity].
      * apply matches_cls_inv in H1 as (c & -> & Hc). apply IH in H2 as [L A].
        simpl. split; [lia|]. unfold all_chars in *. simpl. now rewrite Hc.
    + intros [L A]. destruct s as [|c s]; [now left | right].
      unfold all_chars in A. simpl in A. apply andb_true_iff in A as [Hc A].
      exists (String c EmptyString), s. split; [reflexivity|].
      split; [now constructor|]. apply IH. split; [simpl in L; lia | exact A].
Qed.

Lemma length_append :
  forall a b, String.length (a ++ b) = (String.length a + String.length b)%nat.
Proof. induction a as [|c a IH]; intros b; simpl; [reflexivity | now rewrite IH]. Qed.

Lemma all_chars_append :
  forall f a b, all_chars f (a ++ b) = (all_chars f a && all_chars f b)%bool.
Proof.
  intros f. induction a as [|c a IH]; intros b; [reflexivity|].
  unfold all_chars in *. simpl. now rewrite IH, andb_assoc.
Qed.

Lemma append_assoc : forall a b c : string, (a ++ b) ++ c = a ++ (b ++ c).
Proof. induction a as [|x a IH]; intros b c; simpl; [reflexivity | now rewrite IH]. Qed.

Lemma append_nil_r : forall a : string, a ++ "" = a.
Proof. induction a as [|x a IH]; simpl; [reflexivity | now rewrite IH]. Qed.

Lemma substring_split :
  forall (n : nat) s, (n <= String.length s)%nat ->
    exists a b, s = a ++ b /\ String.length a = n.
Proof.
  induction n as [|n IH]; intros s H.
  - exists EmptyString, s. now split.
  - destruct s as [|c s]; [simpl in H; lia|].
    destruct (IH s) as (a & b & -> & L); [simpl in H; lia|].
    exists (String c a), b. split; [reflexivity | simpl; now rewrite L].
Qed.

Lemma matches_between_cls :
  forall f lo hi s,
    (lo <= hi)%nat ->
    matches (between lo hi (Cls f)) s
    <-> (lo <= String.length s <= hi)%nat /\ all_chars f s = true.
Proof.
  intros f lo hi s Hle. unfold between. rewrite matches_cat. split.
  - intros (s1 & s2 & -> & H1 & H2).
    apply matches_rep_cls in H1 as [L1 A1]. apply matches_upto_cls in H2 as [L2 A2].
    rewrite length_append, all_chars_append, A1, A2. split; [lia | reflexivity].
  - intros [L A]. destruct (substring_split lo s) as (a & b & -> & La); [lia|].
    rewrite length_append in L. rewrite all_chars_append in A.
    apply andb_true_iff in A as [Aa Ab].
    exists a, b. split; [reflexivity|].
    split; [now apply matches_rep_cls | apply matches_upto_cls; split; [lia | exact Ab]].
Qed.

(** [^body$]: the text is in the language of [body], with at most one
    newline after it. *)
Lemma match_anchored_language :
  forall body s,
    match_anchored body s = true
    <-> exists t, matches body t /\ (s = t \/ s = t ++ String PyStr.newline EmptyString).
Proof.
  intros body s. unfold match_anchored, dollar.
  rewrite fullmatch_matches, matches_cat. split.
  - intros (s1 & s2 & -> & H1 & H2). exists s1. split; [exact H1|].
    apply matches_opt in H2 as [->|H2].
    + left. apply append_nil_r.
    + right. apply matches_chr in H2. now subst.
  - intros (t & Ht & [->| ->]).
    + exists t, EmptyString. split; [now rewrite append_nil_r|].
      split; [exact Ht | apply matches_opt; now left].
    + exists t, (String PyStr.newline EmptyString). split; [reflexivity|].
      split; [exact Ht | apply matches_opt; right; now apply matches_chr].
Qed.

End Languages.

Lemma rstrip_last :
  forall a c, PyStr.rstrip (a ++ String c "") = a ++ String c "" ->
              PyStr.isspace c = false.
Proof.
  induction a as [|x a IH]; intros c H.
  - simpl in H. destruct (PyStr.isspace c); [discriminate | reflexivity].
  - apply IH. simpl append in H. now apply rstrip_tail in H.
Qed.

Lemma is_address_shape :
  forall s, is_address s = true
            <-> exists h, s = "0x" ++ h /\ String.length h = 40%nat
                          /\ all_chars PyStr.ishex h = true.
Proof.
  intros s. split.
  - destruct s as [|a [|b h]]; try discriminate. unfold is_address.
    intros H. repeat (apply andb_true_iff in H as [H ?]).
    apply Ascii.eqb_eq in H. apply Ascii.eqb_eq in H2. apply Nat.eqb_eq in H1.
    subst. exists h. auto.
  - intros (h & -> & L & A). unfold is_address. simpl.
    rewrite L. simpl. exact A.
Qed.

(** The language of [WALLET_RE]. *)
Lemma wallet_re_language :
  forall s,
    Re.match_anchored WALLET_RE s = true
    <-> is_address s = true
        \/ exists w, is_address w = true /\ s = w ++ String PyStr.newline "".
Proof.
  intros s. rewrite match_anchored_language. unfold WALLET_RE. split.
  - intros (t & Ht & Hs). apply matches_cat in Ht as (s1 & s2 & -> & H1 & H2).
    apply matches_lit in H1. apply matches_rep_cls in H2 as [L A]. subst s1.
    assert (Ha : is_address ("0x" ++ s2) = true)
      by (apply is_address_shape; exists s2; auto).
    destruct Hs as [->| ->]; [now left | right; eauto].
  - intros H.
    assert (Hm : forall w, is_address w = true ->
                 Re.matches (Re.Cat (Re.lit "0x") (Re.rep 40 (Re.Cls PyStr.ishex))) w).
    { intros w Hw. apply is_address_shape in Hw as (h & -> & L & A).
      apply matches_cat. exists "0x", h. split; [reflexivity|].
      split; [now apply matches_lit | now apply matches_rep_cls]. }
    destruct H as [H|(w & H & ->)]; eauto.
Qed.

Lemma rstrip_strip : forall s, PyStr.rstrip (PyStr.strip s) = PyStr.strip s.
Proof. intros s. unfold PyStr.strip. apply rstrip_idem. Qed.

(** A text accepted by [WALLET_RE] that does not end in white space is an
    address. *)
Lemma wallet_re_stripped :
  forall s, Re.match_anchored WALLET_RE s = true -> PyStr.rstrip s = s ->
            is_address s = true.
Proof.
  intros s H R. apply wallet_re_language in H as [H|(w & _ & ->)]; [exact H|].
  apply rstrip_last in R. discriminate.
Qed.

(** X1. The texts [WALLET_RE] accepts are the addresses, [0x] and forty
    hexadecimal digits, and an address followed by one newline, which [$]
    lets through.  On a text that went through [strip], as every message
    of [on_any_text] does, it accepts the addresses and nothing else. *)
Theorem wallet_address_language :
  forall text,
    (Re.match_anchored WALLET_RE text = true
     <-> up_to_newline (fun s => is_address s = true) text)
    /\ (Re.match_anchored WALLET_RE (PyStr.strip text) = true
        <-> is_address (PyStr.strip text) = true).
Proof.
  intros text. split; [apply wallet_re_language|]. split.
  - intros H. apply wallet_re_stripped; [exact H | apply rstrip_strip].
  - intros H. apply wallet_re_language. now left.
Qed.

Section Validators.

Import Re.

Lemma matches_alt :
  forall a b s, matches (Alt a b) s <-> matches a s \/ matches b s.
Proof.
  intros a b s. split; [apply matches_alt_inv|].
  intros [H|H]; [now apply MAltL | now apply MAltR].
Qed.

Lemma anchored_up_to_newline :
  forall body P text,
    (forall s, matches body s <-> P s) ->
    match_anchored body text = true <-> up_to_newline P text.
Proof.
  intros body P text H. rewrite match_anchored_language. unfold up_to_newline. split.
  - intros (t & Ht & [->| ->]); [left | right; exists t; split; auto]; now apply H.
  - intros [Ht|(s & Hs & ->)]; [exists text | exists s]; (split; [now apply H | auto]).
Qed.

Lemma tg_username_language :
  forall s, matches TG_USERNAME_RE s <-> tg_username_text s.
Proof.
  intros s. unfold TG_USERNAME_RE, tg_username_text. rewrite matches_cat. split.
  - intros (s1 & s2 & -> & H1 & H2). apply matches_chr in H1. subst s1.
    apply matches_between_cls in H2 as [L A]; [|lia]. exists s2. auto.
  - intros (w & -> & L & A). exists "@", w. split; [reflexivity|].
    split; [now apply matches_chr | apply matches_between_cls; [lia | auto]].
Qed.

Lemma x_profile_language :
  forall s, matches X_PROFILE_URL_RE s <-> x_profile_text s.
Proof.
  intros s. unfold X_PROFILE_URL_RE, x_profile_text. split.
  - intros H.
    apply matches_cat in H as (a1 & r1 & -> & H1 & H).
    apply matches_cat in H as (a2 & r2 & -> & H2 & H).
    apply matches_cat in H as (a3 & r3 & -> & H3 & H).
    apply matches_cat in H as (a4 & r4 & -> & H4 & H).
    apply matches_cat in H as (a5 & r5 & -> & H5 & H).
    apply matches_cat in H as (a6 & r6 & -> & H6 & H).
    apply matches_cat in H as (a7 & a8 & -> & H7 & H8).
    apply matches_lit in H1, H3. apply matches_chr in H6. subst a1 a3 a6.
    apply matches_opt in H2, H4, H8.
    apply matches_alt in H5. apply matches_between_cls in H7 as [L A]; [|lia].
    exists ("http" ++ a2), a4, a5, a7, a8.
    split; [now rewrite !append_assoc|].
    split.
    { destruct H2 as [->|H2]; [now left | right].
      apply matches_chr in H2. now subst. }
    split.
    { destruct H4 as [->|H4]; [now left | right]. now apply matches_lit in H4. }
    split.
    { destruct H5 as [H5|H5]; apply matches_lit in H5; auto. }
    split; [exact L|]. split; [exact A|].
    destruct H8 as [->|H8]; [now left | right]. now apply matches_chr in H8.
  - intros (scheme & www & host & handle & slash & -> & Hs & Hw & Hh & L & A & Hl).
    set (rest := "://" ++ www ++ host ++ "/" ++ handle ++ slash).
    assert (Tail : exists r, matches r rest /\
              X_PROFILE_URL_RE = Cat (lit "http") (Cat (opt (chr "s")) r)).
    { eexists. split; [|reflexivity]. unfold rest.
      apply matches_cat. eexists _, _. split; [reflexivity|].
      split; [now apply matches_lit|].
      apply matches_cat. eexists _, _. split; [reflexivity|]. split.
      { apply matches_opt. destruct Hw as [->| ->]; [now left | right; now apply matches_lit]. }
      apply matches_cat. eexists _, _. split; [reflexivity|]. split.
      { apply matches_alt. destruct Hh as [->| ->]; [left | right]; now apply matches_lit. }
      apply matches_cat. eexists _, _. split; [reflexivity|].
      split; [now apply matches_chr|].
      apply matches_cat. eexists _, _. split; [reflexivity|]. split.
      { apply matches_between_cls; [lia | auto]. }
      apply matches_opt. destruct Hl as [->| ->]; [now left | right; now apply matches_chr]. }
    destruct Tail as (r & Hr & E). unfold X_PROFILE_URL_RE in E. rewrite E.
    apply matches_cat. destruct Hs as [->| ->].
    + exists "http", rest. split; [reflexivity|]. split; [now apply matches_lit|].
      apply matches_cat. exists "", rest. split; [reflexivity|].
      split; [apply matches_opt; now left | exact Hr].
    + exists "http", ("s" ++ rest). split; [reflexivity|]. split; [now apply matches_lit|].
      apply matches_cat. exists "s", rest. split; [reflexivity|].
      split; [apply matches_opt; right; now apply matches_chr | exact Hr].
Qed.

End Validators.

(** X2. [validate] with the kind [tg_username] accepts [@] and 5 to 32 word
    characters, with the kind [x_profile] an [http] or [https] address of
    [x.com] or [twitter.com], with or without [www.], a handle of 1 to 15
    word characters and at most one closing slash; each also with one
    newline at the end, and nothing else.  Both hand the text back as it
    came. *)
Theorem validate_accepts :
  forall text,
    (fst (fst (validate "tg_username" text)) = true
     <-> up_to_newline tg_username_text text)
    /\ (fst (fst (validate "x_profile" text)) = true
        <-> up_to_newline x_profile_text text)
    /\ snd (validate "tg_username" text) = text
    /\ snd (validate "x_profile" text) = text.
Proof.
  intros text.
  pose proof (anchored_up_to_newline TG_USERNAME_RE tg_username_text text
                tg_username_language) as T.
  pose proof (anchored_up_to_newline X_PROFILE_URL_RE x_profile_text text
                x_profile_language) as X.
  unfold validate. simpl String.eqb. cbv iota.
  destruct (Re.match_anchored TG_USERNAME_RE text),
           (Re.match_anchored X_PROFILE_URL_RE text); simpl;
    repeat split; try tauto; intros; try discriminate;
    match goal with
    | H : up_to_newline _ _ |- _ => first [apply T in H | apply X in H]; discriminate
    end.
Qed.

(* ------------------------------------------------------------------ *)
(** ** Dates and their text *)

Lemma holds_from_spec :
  forall n lo f, holds_from n lo f = true ->
                 forall z, lo <= z < lo + Z.of_nat n -> f z = true.
Proof.
  induction n as [|n IH]; intros lo f H z Hz; [lia|].
  simpl in H. apply andb_true_iff in H as [H0 H1].
  destruct (Z.eq_dec z lo) as [->|Hne]; [exact H0|].
  apply (IH (lo + 1) f H1). lia.
Qed.

Lemma month_day_all :
  holds_from 365 0 (month_day_ok false) = true
  /\ holds_from 366 0 (month_day_ok true) = true.
Proof. vm_compute. split; reflexivity. Qed.


Lemma is_leap_digits :
  forall a b c e,
    0 <= b <= 3 -> 0 <= c <= 24 -> 0 <= e <= 3 ->
    Calendar.is_leap (400 * a + 100 * b + 4 * c + e + 1)
    = ((e =? 3) && (negb (c =? 24) || (b =? 3)))%bool.
Proof.
  intros a b c e Hb Hc He. unfold Calendar.is_leap.
  destruct (Z.eqb_spec e 3), (Z.eqb_spec c 24), (Z.eqb_spec b 3);
    cbn [andb orb negb];
    repeat match goal with
           | |- context [?x mod ?k =? 0] =>
               destruct (Z.eqb_spec (x mod k) 0)
           end; cbn [andb orb negb]; try reflexivity;
    exfalso; Z.div_mod_to_equations; lia.
Qed.

Lemma days_before_year_digits :
  forall a b c e,
    0 <= a -> 0 <= b <= 3 -> 0 <= c <= 24 -> 0 <= e <= 3 ->
    Calendar.days_before_year (400 * a + 100 * b + 4 * c + e + 1)
    = 146097 * a + 36524 * b + 1461 * c + 365 * e.
Proof.
  intros a b c e Ha Hb Hc He. unfold Calendar.days_before_year. cbv zeta.
  Z.div_mod_to_equations. lia.
Qed.

Lemma ord2ymd_split :
  forall d,
    Calendar.ord2ymd d
    = let n400 := (d - 1) / 146097 in
      let r400 := (d - 1) mod 146097 in
      let n100 := r400 / 36524 in
      let r100 := r400 mod 36524 in
      let n4 := r100 / 1461 in
      let r4 := r100 mod 1461 in
      let n1 := r4 / 365 in
      let n := r4 mod 365 in
      let year := n400 * 400 + 1 + n100 * 100 + n4 * 4 + n1 in
      if ((n1 =? 4) || (n100 =? 4))%bool then (year - 1, 12, 31)
      else
        let '(m, dd) :=
          month_day ((n1 =? 3) && (negb (n4 =? 24) || (n100 =? 3)))%bool n in
        (year, m, dd).
Proof.
  intros d. unfold Calendar.ord2ymd, month_day, Calendar.DI400Y, Calendar.DI100Y,
    Calendar.DI4Y. cbv zeta.
  destruct (_ || _)%bool; [reflexivity|].
  destruct (_ <? _); reflexivity.
Qed.

Lemma ord2ymd_valid :
  forall d, Calendar.min_ordinal <= d <= Calendar.max_ordinal ->
    let '(y, m, dd) := Calendar.ord2ymd d in
    Calendar.make_date y m dd = Some d.
Proof.
  intros d Hd. unfold Calendar.min_ordinal, Calendar.max_ordinal in Hd.
  rewrite ord2ymd_split. cbv zeta.
  set (n400 := (d - 1) / 146097).
  set (r400 := (d - 1) mod 146097).
  set (n100 := r400 / 36524).
  set (r100 := r400 mod 36524).
  set (n4 := r100 / 1461).
  set (r4 := r100 mod 1461).
  set (n1 := r4 / 365).
  set (n := r4 mod 365).
  assert (F : 0 <= n400 <= 24 /\ 0 <= n100 <= 4 /\ 0 <= n4 <= 24 /\ 0 <= n1 <= 4
              /\ 0 <= n < 365
              /\ d - 1 = 146097 * n400 + 36524 * n100 + 1461 * n4 + 365 * n1 + n
              /\ (n100 = 4 -> n4 = 0 /\ n1 = 0 /\ n = 0)
              /\ (n1 = 4 -> n = 0 /\ n4 <= 23)).
  { unfold n400, n100, n4, n1, n, r4, r100, r400. Z.div_mod_to_equations. lia. }
  clearbody n400 n100 n4 n1 n. clear r400 r100 r4.
  destruct F as (F400 & F100 & F4 & F1 & Fn & Fd & Fs100 & Fs1).
  unfold Calendar.make_date, Calendar.ymd2ord, Calendar.days_in_month,
    Calendar.days_before_month, Calendar.MINYEAR, Calendar.MAXYEAR.
  destruct (Z.eqb_spec n1 4) as [E1|E1]; [|destruct (Z.eqb_spec n100 4) as [E100|E100]];
    cbn [orb].
  - (* the last day of a leap year that ends a group of four *)
    destruct (Fs1 E1) as (-> & Hn4). subst n1.
    assert (n100 <= 3) by (destruct (Z.eq_dec n100 4) as [E|E]; [apply Fs100 in E|]; lia).
    replace (n400 * 400 + 1 + n100 * 100 + n4 * 4 + 4 - 1)
      with (400 * n400 + 100 * n100 + 4 * n4 + 3 + 1) by lia.
    rewrite is_leap_digits, days_before_year_digits by lia.
    replace (n4 =? 24) with false by (symmetry; apply Z.eqb_neq; lia).
    remember (400 * n400 + 100 * n100 + 4 * n4 + 3 + 1) as Y eqn:EY.
    remember (146097 * n400 + 36524 * n100 + 1461 * n4 + 365 * 3) as D eqn:ED.
    simpl.
    repeat match goal with
           | |- context [?a <=? ?b] => destruct (Z.leb_spec a b); [|lia]
           end.
    simpl. f_equal. lia.
  - (* the last day of a cycle of 400 years *)
    destruct (Fs100 E100) as (-> & -> & ->). subst n100.
    replace (n400 * 400 + 1 + 4 * 100 + 0 * 4 + 0 - 1)
      with (400 * n400 + 100 * 3 + 4 * 24 + 3 + 1) by lia.
    rewrite is_leap_digits, days_before_year_digits by lia.
    remember (400 * n400 + 100 * 3 + 4 * 24 + 3 + 1) as Y eqn:EY.
    remember (146097 * n400 + 36524 * 3 + 1461 * 24 + 365 * 3) as D eqn:ED.
    simpl.
    repeat match goal with
           | |- context [?a <=? ?b] => destruct (Z.leb_spec a b); [|lia]
           end.
    simpl. f_equal. lia.
  - replace (n400 * 400 + 1 + n100 * 100 + n4 * 4 + n1)
      with (400 * n400 + 100 * n100 + 4 * n4 + n1 + 1) by lia.
    set (leapyear := ((n1 =? 3) && (negb (n4 =? 24) || (n100 =? 3)))%bool).
    assert (Hmd : month_day_ok leapyear n = true).
    { destruct month_day_all as [Hf Ht].
      destruct leapyear; [apply (holds_from_spec _ _ _ Ht) | apply (holds_from_spec _ _ _ Hf)];
        lia. }
    unfold month_day_ok in Hmd.
    destruct (month_day leapyear n) as [m dd].
    rewrite is_leap_digits, days_before_year_digits by lia. fold leapyear.
    repeat (apply andb_true_iff in Hmd as [Hmd ?]).
    repeat match goal with
           | H : (_ <=? _) = true |- _ => apply Z.leb_le in H
           | H : (_ =? _) = true |- _ => apply Z.eqb_eq in H
           end.
    (* the year does not pass 9999 *)
    assert (Hy : 400 * n400 + 100 * n100 + 4 * n4 + n1 + 1 <= 9999).
    { assert (0 <= Calendar.DAYS_BEFORE_MONTH m).
      { assert (Hm : m = 1 \/ m = 2 \/ m = 3 \/ m = 4 \/ m = 5 \/ m = 6 \/ m = 7
                     \/ m = 8 \/ m = 9 \/ m = 10 \/ m = 11 \/ m = 12) by lia.
        repeat (destruct Hm as [-> | Hm]; [simpl; lia|]). subst m. simpl. lia. }
      lia. }
    repeat match goal with
           | |- context [?a <=? ?b] => destruct (Z.leb_spec a b); [|lia]
           end.
    cbn [andb]. f_equal. lia.
Qed.

Lemma year_texts_ok : holds_from (Z.to_nat 9999) 1 year_text_ok = true.
Proof. vm_compute. reflexivity. Qed.

Lemma month_day_texts_ok :
  holds_from 12 1 (fun m => holds_from 31 1 (month_day_text_ok m)) = true.
Proof. vm_compute. reflexivity. Qed.

Lemma strptime_of_text :
  forall y m dd,
    1 <= y <= 9999 -> 1 <= m <= 12 -> 1 <= dd <= 31 ->
    Calendar.strptime_ymd
      (Calendar.zpad 4 y ++ "-" ++ Calendar.zpad 2 m ++ "-" ++ Calendar.zpad 2 dd)
    = Calendar.make_date y m dd.
Proof.
  intros y m dd Hy Hm Hd.
  pose proof (holds_from_spec _ _ _ year_texts_ok y ltac:(lia)) as Y.
  pose proof (holds_from_spec _ _ _ month_day_texts_ok m ltac:(lia)) as M.
  apply (holds_from_spec 31 1) with (z := dd) in M; [|lia].
  unfold year_text_ok in Y. unfold month_day_text_ok in M.
  destruct (Calendar.zpad 4 y) as [|a [|b [|c [|e [|]]]]]; try discriminate.
  cbn [append]. unfold Calendar.strptime_ymd.
  apply andb_true_iff in Y as [Y Ey]. rewrite Y. cbn [andb].
  change (Ascii.eqb "-" "-") with true. cbv iota.
  destruct (Calendar.first_month _) as [[m' dd']|]; [|discriminate].
  apply andb_true_iff in M as [Em Ed].
  apply Z.eqb_eq in Ey, Em, Ed. now subst.
Qed.

Lemma strptime_strftime :
  forall d, Calendar.min_ordinal <= d <= Calendar.max_ordinal ->
            Calendar.strptime_ymd (Calendar.strftime_ymd d) = Some d.
Proof.
  intros d Hd. pose proof (ord2ymd_valid d Hd) as V.
  unfold Calendar.strftime_ymd. destruct (Calendar.ord2ymd d) as [[y m] dd].
  rewrite strptime_of_text; [exact V | | |];
    unfold Calendar.make_date in V;
    destruct (_ && _)%bool eqn:E in V; try discriminate;
    repeat (apply andb_true_iff in E as [E ?]);
    repeat match goal with
           | H : (_ <=? _) = true |- _ => apply Z.leb_le in H
           end; unfold Calendar.MINYEAR, Calendar.MAXYEAR in *; try lia.
  assert (Calendar.days_in_month y m <= 31); [|lia].
  unfold Calendar.days_in_month.
  destruct (_ && _)%bool; [lia|].
  assert (Hm : m = 1 \/ m = 2 \/ m = 3 \/ m = 4 \/ m = 5 \/ m = 6 \/ m = 7
               \/ m = 8 \/ m = 9 \/ m = 10 \/ m = 11 \/ m = 12) by lia.
  repeat (destruct Hm as [-> | Hm]; [simpl; lia|]). subst m. simpl. lia.
Qed.

(* ------------------------------------------------------------------ *)
(** ** The table of streak bonuses *)

Section StreakRules.

Local Open Scope list_scope.

Lemma insert_by_days_perm :
  forall r l, Permutation (insert_by_days r l) (r :: l).
Proof.
  intros r l. induction l as [|x l IH]; simpl; [reflexivity|].
  destruct (fst r <=? fst x); [reflexivity|].
  rewrite IH. apply perm_swap.
Qed.

Lemma insert_by_days_sorted :
  forall r l,
    StronglySorted (fun a b => fst a <= fst b) l ->
    StronglySorted (fun a b => fst a <= fst b) (insert_by_days r l).
Proof.
  intros r l S. induction S as [|x l S IH F]; simpl.
  - repeat constructor.
  - destruct (Z.leb_spec (fst r) (fst x)) as [L|L].
    + constructor; [now constructor|]. constructor; [exact L|].
      eapply Forall_impl; [|exact F]. intros a Ha. simpl in *. lia.
    + constructor; [exact IH|].
      eapply Permutation_Forall; [symmetry; apply insert_by_days_perm|].
      constructor; [lia | exact F].
Qed.

Lemma insert_by_days_filter :
  forall k r l,
    filter (fun x => fst x =? k) (insert_by_days r l)
    = filter (fun x => fst x =? k) (r :: l).
Proof.
  intros k r l. induction l as [|x l IH]; [reflexivity|].
  simpl insert_by_days. destruct (Z.leb_spec (fst r) (fst x)) as [L|L]; [reflexivity|].
  simpl filter in *. rewrite IH.
  destruct (Z.eqb_spec (fst r) k), (Z.eqb_spec (fst x) k); try reflexivity. lia.
Qed.

(** [STREAK_BONUSES]: the valid rules of the configuration, by rising
    [days], the rules for the same [days] in the order of the file. *)
Lemma sort_by_days_perm : forall l, Permutation (sort_by_days l) l.
Proof.
  induction l as [|r l IH]; simpl; [reflexivity|].
  unfold sort_by_days in *. simpl. rewrite insert_by_days_perm. now constructor.
Qed.

Lemma sort_by_days_sorted :
  forall l,
    StronglySorted (fun a b => fst a <= fst b) (sort_by_days l)
    /\ forall k, filter (fun r => fst r =? k) (sort_by_days l)
                 = filter (fun r => fst r =? k) l.
Proof.
  induction l as [|r l [IS IF]]; simpl.
  - split; [constructor | reflexivity].
  - unfold sort_by_days in *. simpl. split; [now apply insert_by_days_sorted|].
    intros k. rewrite insert_by_days_filter. simpl. now rewrite IF.
Qed.

(** X3. [STREAK_BONUSES] is sorted by rising [days]; it holds the rules of
    the configuration, read as integers, with [days > 0] and
    [points != 0], each as often as
    the configuration has it, and no other; the rules for one number of
    days stand in the order of the configuration. *)
Theorem streak_bonuses_sorted :
  forall cfg,
    StronglySorted (fun a b => fst a <= fst b) (STREAK_BONUSES cfg)
    /\ Permutation (STREAK_BONUSES cfg) (filter valid_rule (RAW_STREAK_BONUSES cfg))
    /\ (forall r, In r (STREAK_BONUSES cfg) <->
                  In r (RAW_STREAK_BONUSES cfg) /\ 0 < fst r /\ snd r <> 0)
    /\ (forall k, filter (fun r => fst r =? k) (STREAK_BONUSES cfg)
                  = filter (fun r => fst r =? k)
                           (filter valid_rule (RAW_STREAK_BONUSES cfg))).
Proof.
  intros cfg. unfold STREAK_BONUSES.
  change (fun r : Z * Z => ((0 <? fst r) && negb (snd r =? 0))%bool) with valid_rule.
  set (l := filter valid_rule (RAW_STREAK_BONUSES cfg)).
  destruct (sort_by_days_sorted l) as [S F].
  split; [exact S|]. split; [apply sort_by_days_perm|]. split; [|exact F].
  assert (V : forall r, In r l <->
                        In r (RAW_STREAK_BONUSES cfg) /\ 0 < fst r /\ snd r <> 0).
  { intros r. unfold l. rewrite filter_In. unfold valid_rule.
    rewrite andb_true_iff, negb_true_iff, Z.ltb_lt, Z.eqb_neq. tauto. }
  intros r. rewrite <- V. split; apply Permutation_in;
    [apply sort_by_days_perm | symmetry; apply sort_by_days_perm].
Qed.

End StreakRules.

(* ------------------------------------------------------------------ *)
(** ** The handlers as sequences of writes *)

Section Writes.

Local Open Scope list_scope.

Lemma writes_trans :
  forall cfg now d1 d2 d3,
    writes cfg now d1 d2 -> writes cfg now d2 d3 -> writes cfg now d1 d3.
Proof.
  intros cfg now d1 d2 d3 H12 H23. induction H23 as [|d3 d4 _ IH W]; [exact H12|].
  eapply writes_snoc; eassumption.
Qed.

Lemma writes_one : forall cfg now d d', write cfg now d d' -> writes cfg now d d'.
Proof. intros. eapply writes_snoc; [apply writes_nil | eassumption]. Qed.

Lemma In_update_user :
  forall d uid f u',
    In u' (users (update_user d uid f)) ->
    exists u, In u (users d) /\ u' = (if user_id u =? uid then f u else u).
Proof.
  intros d uid f u' H. unfold update_user in H. simpl in H.
  apply in_map_iff in H as (u & E & Hu). exists u. auto.
Qed.

Lemma map_update_user :
  forall (A : Type) (g : user_row -> A) d uid f,
    (forall u, g (f u) = g u) ->
    map g (users (update_user d uid f)) = map g (users d).
Proof.
  intros A g d uid f H. unfold update_user. simpl. rewrite map_map.
  apply map_ext. intros u. destruct (user_id u =? uid); [apply H | reflexivity].
Qed.

Lemma update_user_compose :
  forall d uid f g,
    (forall u, user_id (g u) = user_id u) ->
    update_user (update_user d uid g) uid f = update_user d uid (fun u => f (g u)).
Proof.
  intros d uid f g H. unfold update_user, with_users. simpl. f_equal.
  rewrite map_map. apply map_ext. intros u.
  destruct (user_id u =? uid) eqn:E; [|now rewrite E].
  now rewrite H, E.
Qed.

Lemma get_user_none_ids :
  forall d uid, get_user d uid = None -> ~ In uid (map user_id (users d)).
Proof.
  intros d uid H Hin. apply in_map_iff in Hin as (u & E & Hu).
  unfold get_user in H. eapply find_none in H; [|exact Hu].
  simpl in H. rewrite E, Z.eqb_refl in H. discriminate.
Qed.

Lemma NoDup_snoc :
  forall (A : Type) (l : list A) x, NoDup l -> ~ In x l -> NoDup (l ++ [x]).
Proof.
  intros A l x Hl Hx. apply NoDup_app; [exact Hl | repeat constructor; auto |].
  intros a Ha [<-|[]]. contradiction.
Qed.

Lemma NoDup_map_filter :
  forall (A B : Type) (g : A -> B) (f : A -> bool) (l : list A),
    NoDup (map g l) -> NoDup (map g (filter f l)).
Proof.
  intros A B g f l. induction l as [|x l IH]; simpl; intros H; [constructor|].
  inversion H as [|? ? Hx Hl]; subst.
  destruct (f x); simpl; [constructor|]; auto.
  intros Hin. apply Hx. apply in_map_iff in Hin as (y & E & Hy).
  apply filter_In in Hy as [Hy _]. apply in_map_iff. eauto.
Qed.

Lemma ledger_unique_snoc :
  forall d row,
    ledger_unique d ->
    ledger_has (ledger d) (ledger_user_id row) (unique_key row) = false ->
    ledger_unique (with_ledger d (ledger d ++ [row])).
Proof.
  intros d row U H u k. simpl. rewrite count_key_snoc.
  destruct ((ledger_user_id row =? u) && String.eqb (unique_key row) k)%bool eqn:E.
  - apply andb_true_iff in E as [Eu Ek].
    apply Z.eqb_eq in Eu. apply String.eqb_eq in Ek. subst u k.
    rewrite (ledger_has_false_count _ _ _ H). simpl. lia.
  - specialize (U u k). lia.
Qed.

Lemma pending_has_keys :
  forall l uid mid,
    pending_has l uid mid = false -> ~ In (uid, mid) (map pending_key l).
Proof.
  intros l uid mid H Hin. apply in_map_iff in Hin as (p & E & Hp).
  unfold pending_key in E. injection E as Eu Em.
  unfold pending_has in H.
  assert (existsb (fun r => ((pending_user_id r =? uid)
                             && String.eqb (pending_mission_id r) mid)%bool) l = true).
  { apply existsb_exists. exists p. split; [exact Hp|].
    now rewrite Eu, Em, Z.eqb_refl, String.eqb_refl. }
  congruence.
Qed.

Lemma submission_has_keys :
  forall l uid mid,
    submission_has l uid mid = false -> ~ In (uid, mid) (map submission_key l).
Proof.
  intros l uid mid H Hin. apply in_map_iff in Hin as (p & E & Hp).
  unfold submission_key in E. injection E as Eu Em.
  unfold submission_has in H.
  assert (existsb (fun r => ((submission_user_id r =? uid)
                             && String.eqb (submission_mission_id r) mid)%bool) l = true).
  { apply existsb_exists. exists p. split; [exact Hp|].
    now rewrite Eu, Em, Z.eqb_refl, String.eqb_refl. }
  congruence.
Qed.

Lemma fingerprint_has_keys :
  forall l mid fp,
    fingerprint_has l mid fp = false -> ~ In (mid, fp) (map fingerprint_key l).
Proof.
  intros l mid fp H Hin. apply in_map_iff in Hin as (p & E & Hp).
  unfold fingerprint_key in E. injection E as Eu Em.
  unfold fingerprint_has in H.
  assert (existsb (fun r => (String.eqb (fingerprint_mission_id r) mid
                             && String.eqb (fingerprint r) fp)%bool) l = true).
  { apply existsb_exists. exists p. split; [exact Hp|].
    now rewrite Eu, Em, !String.eqb_refl. }
  congruence.
Qed.

(** An update of one user's row keeps the store consistent when the new
    row keeps its identity and stays within the rules of the columns. *)
Lemma consistent_update_user :
  forall cfg d uid f,
    consistent cfg d ->
    (forall u, user_id (f u) = user_id u) ->
    (forall u, ref_code (f u) = ref_code u) ->
    (forall u, In u (users d) -> user_id u = uid ->
               referred_by (f u) <> Some uid
               /\ forall r, referred_by (f u) = Some r ->
                            exists v, In v (users d) /\ user_id v = r) ->
    (forall u w, In u (users d) -> user_id u = uid ->
                 wallet_address (f u) = Some w \/ wallet_pending (f u) = Some w ->
                 is_address w = true) ->
    wallets_unique (update_user d uid f) ->
    consistent cfg (update_user d uid f).
Proof.
  intros cfg d uid f C Hid Hcode Href Hwal Huniq.
  assert (Hex : forall r, (exists v, In v (users d) /\ user_id v = r) ->
                exists v, In v (users (update_user d uid f)) /\ user_id v = r).
  { intros r (v & Hv & E). exists (if user_id v =? uid then f v else v). split.
    - unfold update_user. simpl.
      apply in_map_iff. exists v. auto.
    - destruct (user_id v =? uid); [now rewrite Hid | exact E]. }
  constructor; try apply C.
  - rewrite map_update_user by exact Hid. apply C.
  - rewrite map_update_user by exact Hcode. apply C.
  - intros u' H. apply In_update_user in H as (u & Hu & ->).
    destruct (Z.eqb_spec (user_id u) uid) as [E|E].
    + rewrite Hid, E. now apply Href.
    + now apply (no_self_referral cfg d C).
  - intros u' r H Hr. apply In_update_user in H as (u & Hu & ->). apply Hex.
    destruct (Z.eqb_spec (user_id u) uid) as [E|E].
    + now apply (proj2 (Href u Hu E)).
    + eapply (referrers_exist cfg d C); eassumption.
  - intros u' w H Hw. apply In_update_user in H as (u & Hu & ->).
    destruct (Z.eqb_spec (user_id u) uid) as [E|E].
    + eapply Hwal; eassumption.
    + eapply (wallets_wf cfg d C); eassumption.
  - exact Huniq.
Qed.

Lemma minor_wallets :
  forall d uid f, minor f -> wallets (update_user d uid f) = wallets d.
Proof.
  intros d uid f M. apply wallets_update_user; intros r; apply (M r).
Qed.

Lemma consistent_minor :
  forall cfg d uid f, consistent cfg d -> minor f -> consistent cfg (update_user d uid f).
Proof.
  intros cfg d uid f C M. apply consistent_update_user; try exact C.
  - intros u. apply (M u).
  - intros u. apply (M u).
  - intros u Hu E. destruct (M u) as (_ & _ & -> & _). split.
    + rewrite <- E. now apply (no_self_referral cfg d C).
    + intros r Hr. eapply (referrers_exist cfg d C); eassumption.
  - intros u w Hu E [H|H]; destruct (M u) as (_ & _ & _ & Hw & Hp & _).
    + rewrite Hw in H. eapply (wallets_wf cfg d C); eauto.
    + destruct Hp as [Hp|Hp]; rewrite Hp in H; [|discriminate].
      eapply (wallets_wf cfg d C); eauto.
  - eapply wallets_unique_same; [apply minor_wallets; exact M | apply C].
Qed.

Lemma wallets_unique_new_user :
  forall d row,
    wallet_address row = None -> wallets_unique d ->
    wallets_unique (with_users d (users d ++ [row])).
Proof.
  intros d row Hw U i1 i2 w H1 H2. unfold wallets in *. simpl in *.
  rewrite map_app in H1, H2. simpl in H1, H2. rewrite Hw in H1, H2.
  apply in_app_or in H1 as [H1|[H1|[]]]; [|discriminate].
  apply in_app_or in H2 as [H2|[H2|[]]]; [|discriminate].
  eapply U; eassumption.
Qed.

Lemma write_consistent :
  forall cfg now d d', write cfg now d d' -> consistent cfg d -> consistent cfg d'.
Proof.
  intros cfg now d d' W C. destruct W.
  - (* a new user *)
    constructor; simpl; try apply C.
    + rewrite map_app. apply NoDup_snoc; [apply C | now apply get_user_none_ids].
    + rewrite map_app. apply NoDup_snoc; [apply C|].
      intros Hin. apply in_map_iff in Hin as (u & E & Hu). now apply (H0 u).
    + intros u Hu. apply in_app_or in Hu as [Hu|[<-|[]]]; [|discriminate].
      now apply (no_self_referral cfg d C).
    + intros u r Hu Hr. apply in_app_or in Hu as [Hu|[<-|[]]]; [|discriminate].
      destruct (referrers_exist cfg d C u r Hu Hr) as (v & Hv & E).
      exists v. split; [apply in_or_app; now left | exact E].
    + intros u w Hu Hw. apply in_app_or in Hu as [Hu|[<-|[]]].
      * eapply (wallets_wf cfg d C); eassumption.
      * destruct Hw; discriminate.
    + apply wallets_unique_new_user; [reflexivity | apply C].
  - now apply consistent_minor.
  - (* the referrer *)
    apply consistent_update_user; try exact C; try reflexivity.
    + intros u Hu E. simpl. split; [congruence|].
      intros r0 Hr0. injection Hr0 as <-. assumption.
    + intros u w Hu E Hw. simpl in Hw. eapply (wallets_wf cfg d C); eassumption.
    + eapply wallets_unique_same; [|apply C]. now apply wallets_update_user.
  - (* a staged address *)
    apply consistent_update_user; try exact C; try reflexivity.
    + intros u Hu E. simpl. split.
      * rewrite <- E. now apply (no_self_referral cfg d C).
      * intros r Hr. eapply (referrers_exist cfg d C); eassumption.
    + intros u w Hu E [Hw|Hw]; simpl in Hw.
      * eapply (wallets_wf cfg d C); eauto.
      * now injection Hw as <-.
    + eapply wallets_unique_same; [|apply C]. now apply wallets_update_user.
  - (* the active wallet *)
    apply consistent_update_user; try exact C; try reflexivity.
    + intros u Hu E. simpl. split.
      * rewrite <- E. now apply (no_self_referral cfg d C).
      * intros r Hr. eapply (referrers_exist cfg d C); eassumption.
    + intros u w0 Hu E [Hw|Hw]; simpl in Hw.
      * injection Hw as <-. apply get_user_In in H.
        apply (wallets_wf cfg d C row); [exact H | now right].
      * eapply (wallets_wf cfg d C); eauto.
    + eapply (quiet_update_wallet d uid (set_wallet_address (Some w)) w);
        try reflexivity; [assumption | apply C].
  - (* a credit *)
    constructor; simpl; try apply C.
    + apply (ledger_unique_snoc d row); [apply C | assumption].
    + apply Forall_app. split; [apply C|]. constructor; [|constructor]. now left.
  - (* a settled reward *)
    constructor; simpl; try apply C.
    + apply (ledger_unique_snoc d (settled_row p)); [apply C | assumption].
    + apply Forall_app. split; [apply C|]. constructor; [|constructor].
      right. exists p. split; [|reflexivity].
      pose proof (pending_rows_ok cfg d C) as F.
      rewrite Forall_forall in F. now apply F.
  - (* a scheduled reward *)
    constructor; simpl; try apply C.
    + apply Forall_app. split; [apply C|]. now repeat constructor.
    + rewrite map_app. apply NoDup_snoc; [apply C|]. now apply pending_has_keys.
  - (* a reward removed *)
    constructor; simpl; try apply C.
    + apply Forall_forall. intros q Hq. apply filter_In in Hq as [Hq _].
      pose proof (pending_rows_ok cfg d C) as F.
      rewrite Forall_forall in F. now apply F.
    + apply NoDup_map_filter. apply C.
  - constructor; simpl; try apply C.
    rewrite map_app. apply NoDup_snoc; [apply C|]. now apply submission_has_keys.
  - constructor; simpl; try apply C.
    rewrite map_app. apply NoDup_snoc; [apply C|]. now apply fingerprint_has_keys.
Qed.

Lemma writes_consistent :
  forall cfg now d d', writes cfg now d d' -> consistent cfg d -> consistent cfg d'.
Proof.
  intros cfg now d d' W C. induction W as [|d1 d2 _ IH W]; [exact C|].
  eapply write_consistent; eauto.
Qed.

Lemma consistent_empty : forall cfg, consistent cfg empty_db.
Proof.
  intros cfg. constructor; simpl; try (now constructor); try contradiction.
  all: try (intros; contradiction).
  intros i1 i2 w [].
Qed.

End Writes.

Section HandlerWrites.

Local Open Scope list_scope.

Variable cfg : config.

Ltac minor_row := intros u; cbn; repeat split; auto; lia.

Lemma ensure_user_writes :
  forall now d uid name tok d1,
    ensure_user d uid name tok = Ok d1 -> writes cfg now d d1.
Proof.
  intros now d uid name tok d1. unfold ensure_user.
  destruct (get_user d uid) as [row|] eqn:G.
  - intros E. injection E as <-. apply writes_one, WMinor. minor_row.
  - destruct (existsb _ (users d)) eqn:X; [discriminate|].
    intros E. injection E as <-. apply writes_one, WNewUser; [exact G|].
    intros u Hu Ec.
    assert (existsb (fun u => String.eqb (ref_code u)
                       (PyStr.remove_char "_" (PyStr.remove_char "-" tok)))
                    (users d) = true); [|congruence].
    apply existsb_exists. exists u. split; [exact Hu | now apply String.eqb_eq].
Qed.

Lemma add_points_once_writes :
  forall now d uid key typ amt m,
    ledger_kind cfg (mkLedger uid key typ amt m) ->
    writes cfg now d (fst (add_points_once d uid key typ amt m)).
Proof.
  intros now d uid key typ amt m K. unfold add_points_once.
  destruct (ledger_has (ledger d) uid key) eqn:H; simpl; [apply writes_nil|].
  apply writes_one. now apply (WCredit cfg now d (mkLedger uid key typ amt m)).
Qed.

Lemma set_state_writes :
  forall now d uid st, writes cfg now d (set_state d uid st).
Proof. intros. apply writes_one, WMinor. minor_row. Qed.

Lemma settle_row_writes :
  forall now d acc uid r,
    In r (pending_rewards d) -> available_at_ts r <= now -> pending_user_id r = uid ->
    writes cfg now d (fst (settle_row uid (d, acc) r))
    /\ pending_rewards (fst (settle_row uid (d, acc) r))
       = filter (fun x => negb ((pending_user_id x =? uid)
                                && String.eqb (pending_mission_id x)
                                              (pending_mission_id r))%bool)
                (pending_rewards d).
Proof.
  intros now d acc uid r Hin Hdue Hu. subst uid. unfold settle_row, add_points_once.
  destruct (ledger_has (ledger d) (pending_user_id r) (pending_unique_key r)) eqn:H;
    simpl.
  - split; [|reflexivity]. apply writes_one. now apply (WUnschedule cfg now d r).
  - split; [|reflexivity].
    eapply writes_snoc.
    + apply writes_one. apply (WSettle cfg now d r Hin Hdue H).
    + apply (WUnschedule cfg now _ r); assumption.
Qed.

Lemma settle_fold_writes :
  forall now uid rows d acc,
    consistent cfg d ->
    (forall r, In r rows ->
               In r (pending_rewards d) /\ available_at_ts r <= now
               /\ pending_user_id r = uid) ->
    NoDup (map pending_key rows) ->
    writes cfg now d (fst (fold_left (settle_row uid) rows (d, acc))).
Proof.
  intros now uid rows. induction rows as [|r0 rows IH]; intros d acc C Hrows Hnd;
    [apply writes_nil|].
  change (fold_left (settle_row uid) (r0 :: rows) (d, acc))
    with (fold_left (settle_row uid) rows (settle_row uid (d, acc) r0)).
  destruct (Hrows r0 (or_introl eq_refl)) as (Hin & Hdue & Hu).
  destruct (settle_row_writes now d acc uid r0 Hin Hdue Hu) as [W P].
  destruct (settle_row uid (d, acc) r0) as [d2 acc2]. simpl in W, P.
  eapply writes_trans; [exact W|].
  simpl in Hnd. apply NoDup_cons_iff in Hnd as [Hr0 Hnd'].
  apply IH; [eapply writes_consistent; eassumption | | exact Hnd'].
  intros r Hr. destruct (Hrows r (or_intror Hr)) as (Hin' & Hdue' & Hu').
  split; [|now split]. rewrite P. apply filter_In. split; [exact Hin'|].
  rewrite Hu', Z.eqb_refl. simpl.
  destruct (String.eqb_spec (pending_mission_id r) (pending_mission_id r0)) as [E|E];
    [|reflexivity].
  exfalso. apply Hr0. apply in_map_iff. exists r. split; [|exact Hr].
  unfold pending_key. now rewrite Hu', Hu, E.
Qed.

Lemma process_due_rewards_writes :
  forall now d uid,
    consistent cfg d -> writes cfg now d (fst (process_due_rewards d now uid)).
Proof.
  intros now d uid C. unfold process_due_rewards.
  apply settle_fold_writes; [exact C | |].
  - intros r Hr. unfold due_rows in Hr. apply filter_In in Hr as [Hin Hr].
    apply andb_true_iff in Hr as [Hu Hd].
    apply Z.eqb_eq in Hu. apply Z.leb_le in Hd. auto.
  - apply NoDup_map_filter. apply C.
Qed.

Lemma grant_streak_bonus_writes :
  forall now uid streak day rules d lines,
    (forall r, In r rules -> In r (STREAK_BONUSES cfg)) ->
    writes cfg now d
      (fst (fold_left (grant_streak_bonus uid streak (Calendar.strftime_ymd day))
                      rules (d, lines))).
Proof.
  intros now uid streak day rules. induction rules as [|r rules IH];
    intros d lines Hin; [apply writes_nil|].
  cbn [fold_left]. unfold grant_streak_bonus at 2.
  destruct (streak =? fst r).
  - pose proof (add_points_once_writes now d uid
                  (streak_bonus_key (fst r) (Calendar.strftime_ymd day))
                  "streak_bonus" (snd r)
                  [("days", JInt (fst r)); ("date", JStr (Calendar.strftime_ymd day))]
                  (KStreak cfg uid day r (Hin r (or_introl eq_refl)))) as W.
    destruct (add_points_once d uid _ _ _ _) as [d1 ok]. simpl in W.
    eapply writes_trans; [exact W|]. apply IH. intros x Hx. apply Hin. now right.
  - apply IH. intros x Hx. apply Hin. now right.
Qed.

Lemma daily_checkin_writes :
  forall now env d row out,
    writes cfg now d (fst (final (daily_checkin cfg env d row out))).
Proof.
  intros now env d row out. unfold daily_checkin.
  destruct (negb _); [apply writes_nil|].
  pose proof (add_points_once_writes now d (user_id row)
                (checkin_key (Calendar.strftime_ymd (today env))) "daily_checkin"
                (POINT_DAILY_CHECKIN cfg)
                [("date", JStr (Calendar.strftime_ymd (today env)))]
                (KCheckin cfg (user_id row) (today env))) as W.
  destruct (add_points_once d (user_id row) _ _ _ _) as [d1 awarded]. simpl in W.
  destruct (compute_streak d1 (user_id row) (today env)) as [streak|e]; simpl;
    [|exact W].
  destruct (negb awarded); simpl; [exact W|].
  pose proof (grant_streak_bonus_writes now (user_id row) streak (today env)
                (STREAK_BONUSES cfg) d1 [] (fun r H => H)) as W2.
  destruct (fold_left _ _ _) as [d2 lines]. simpl in *.
  eapply writes_trans; eassumption.
Qed.

Lemma choose_mission_writes :
  forall now d row data out,
    writes cfg now d (fst (final (choose_mission cfg d row data out))).
Proof.
  intros now d row data out. unfold choose_mission.
  destruct (negb _); [apply writes_nil|].
  destruct (PyStr.after_first ":" data) as [mid|]; [|apply writes_nil].
  destruct (get_mission cfg mid); [apply set_state_writes | apply writes_nil].
Qed.

Lemma wallet_change_writes :
  forall now d row out, writes cfg now d (fst (final (wallet_change d row out))).
Proof.
  intros now d row out. unfold wallet_change.
  destruct (negb _); [apply writes_nil|].
  destruct (1 <=? _); [apply writes_nil|].
  apply writes_one, WMinor. minor_row.
Qed.

Lemma wallet_confirm_writes :
  forall now d uid out,
    writes cfg now d (fst (final (wallet_confirm cfg d uid out))).
Proof.
  intros now d uid out. unfold wallet_confirm.
  destruct (get_user d uid) as [row|] eqn:G; [|apply writes_nil].
  destruct (PyStr.truthy (wallet_address row)); [apply writes_nil|].
  destruct (wallet_pending row) as [[|c p]|] eqn:P; try apply writes_nil.
  destruct (wallet_of_another d (String c p) uid) eqn:A; [apply writes_nil|].
  set (d1 := update_user d uid _).
  assert (W1 : writes cfg now d d1).
  { unfold d1.
    rewrite <- (update_user_compose d uid
                  (fun u => set_user_state None (set_wallet_pending None u))
                  (set_wallet_address (Some (String c p)))) by reflexivity.
    eapply writes_snoc.
    - apply writes_one. apply (WWallet cfg now d uid row (String c p)); auto.
    - apply WMinor. minor_row. }
  pose proof (add_points_once_writes now d1 uid "wallet_register" "wallet_register"
                (POINT_WALLET_REGISTER cfg) [] (KWallet cfg uid)) as W2.
  destruct (add_points_once d1 uid _ _ _ _) as [d2 ok]. simpl in W2.
  assert (W12 : writes cfg now d d2) by (eapply writes_trans; eassumption).
  destruct (referrer_of row) as [r|]; simpl; [|exact W12].
  eapply writes_trans; [exact W12|].
  apply add_points_once_writes. apply KReferral.
Qed.

Lemma wallet_change_confirm_writes :
  forall now d uid out,
    writes cfg now d (fst (final (wallet_change_confirm d uid out))).
Proof.
  intros now d uid out. unfold wallet_change_confirm.
  destruct (get_user d uid) as [row|] eqn:G; [|apply writes_nil].
  destruct (wallet_address row) as [[|c0 w0]|]; try apply writes_nil.
  destruct (wallet_pending row) as [[|c p]|] eqn:P; try apply writes_nil.
  destruct (String.eqb _ _); [apply writes_nil|].
  destruct (wallet_of_another d (String c p) uid) eqn:A; [apply writes_nil|].
  simpl.
  match goal with
  | |- writes _ _ _ ?x =>
      replace x
        with (update_user (update_user d uid (set_wallet_address (Some (String c p))))
                uid
                (fun u => set_wallet_change_count (wallet_change_count u + 1)
                            (set_user_state None (set_wallet_pending None u))))
        by (rewrite update_user_compose by reflexivity; reflexivity)
  end.
  eapply writes_snoc.
  - apply writes_one. apply (WWallet cfg now d uid row (String c p)); auto.
  - apply WMinor. minor_row.
Qed.


Lemma prelude_writes :
  forall env d uid name k,
    consistent cfg d ->
    (forall d1 row out,
        consistent cfg d1 ->
        writes cfg (clock_settle env) d1 (fst (final (k d1 row out)))) ->
    writes cfg (clock_settle env) d (fst (final (prelude env d uid name k))).
Proof.
  intros env d uid name k C Hk. unfold prelude, attempt.
  destruct (ensure_user d uid name (token env)) as [d1|e] eqn:E; [|apply writes_nil].
  pose proof (ensure_user_writes (clock_settle env) _ _ _ _ _ E) as W1.
  pose proof (writes_consistent _ _ _ _ W1 C) as C1.
  destruct (get_user d1 uid) as [row|]; [|exact W1].
  pose proof (process_due_rewards_writes (clock_settle env) d1 uid C1) as W2.
  destruct (process_due_rewards d1 (clock_settle env) uid) as [d2 newly]. simpl in W2.
  pose proof (writes_consistent _ _ _ _ W2 C1) as C2.
  eapply writes_trans; [exact W1|]. eapply writes_trans; [exact W2|].
  now apply Hk.
Qed.

Lemma on_callback_writes :
  forall env d uid name data,
    consistent cfg d ->
    writes cfg (clock_settle env) d (fst (final (on_callback cfg env d uid name data))).
Proof.
  intros env d uid name data C. unfold on_callback.
  apply prelude_writes; [exact C|]. intros d1 row out C1.
  destruct (String.eqb _ "daily_checkin"); [apply daily_checkin_writes|].
  destruct (String.eqb _ "invite_friend");
    [destruct (negb _); apply writes_nil|].
  destruct (PyStr.startswith _ _); [apply choose_mission_writes|].
  destruct (String.eqb _ "wallet_change"); [apply wallet_change_writes|].
  destruct (String.eqb _ "wallet_confirm"); [apply wallet_confirm_writes|].
  destruct (String.eqb _ "wallet_retry");
    [apply writes_one, WMinor; minor_row|].
  destruct (String.eqb _ "wallet_change_confirm"); [apply wallet_change_confirm_writes|].
  destruct (String.eqb _ "wallet_change_retry");
    [apply writes_one, WMinor; minor_row|].
  apply writes_nil.
Qed.

Lemma set_referred_by_if_empty_writes :
  forall now d uid ref_user,
    In ref_user (users d) ->
    writes cfg now d (set_referred_by_if_empty d uid (user_id ref_user)).
Proof.
  intros now d uid ref_user Hin. unfold set_referred_by_if_empty.
  destruct (Z.eqb_spec uid (user_id ref_user)) as [E|E]; [apply writes_nil|].
  destruct (get_user d uid) as [row|] eqn:G; [|apply writes_nil].
  destruct (referred_by row) eqn:R; [apply writes_nil|].
  apply writes_one. apply (WReferred cfg now d uid row); auto. eauto.
Qed.

Lemma start_writes :
  forall now env d uid name args,
    writes cfg now d (fst (final (start env d uid name args))).
Proof.
  intros now env d uid name args. unfold start, attempt.
  destruct (ensure_user d uid name (token env)) as [d1|e] eqn:E; [|apply writes_nil].
  pose proof (ensure_user_writes now _ _ _ _ _ E) as W1.
  eapply writes_trans; [exact W1|]. simpl.
  destruct args as [|a args]; [apply writes_nil|].
  destruct (find_user_by_ref_code d1 (PyStr.strip a)) as [ref_user|] eqn:F;
    [|apply writes_nil].
  apply set_referred_by_if_empty_writes.
  unfold find_user_by_ref_code in F. now apply find_some in F as [F _].
Qed.

Lemma menu_handlers_writes :
  forall now env d uid name out,
    writes cfg now d (fst (final (bonus env d uid name out)))
    /\ writes cfg now d (fst (final (connect_wallet env d uid name out)))
    /\ writes cfg now d (fst (final (balance env d uid name out)))
    /\ writes cfg now d (fst (final (ai_chat_start env d uid name out))).
Proof.
  intros now env d uid name out.
  unfold bonus, connect_wallet, balance, ai_chat_start, attempt.
  destruct (ensure_user d uid name (token env)) as [d1|e] eqn:E;
    [|repeat split; apply writes_nil].
  pose proof (ensure_user_writes now _ _ _ _ _ E) as W1.
  repeat split.
  - destruct (negb _); exact W1.
  - destruct (get_user d1 uid) as [row|]; [|exact W1].
    destruct (wallet_address row) as [[|c w]|]; simpl; try exact W1;
      (eapply writes_trans; [exact W1 | apply set_state_writes]).
  - destruct (negb _); [exact W1|]. destruct (get_referral_counts d1 uid). exact W1.
  - simpl. eapply writes_trans; [exact W1 | apply set_state_writes].
Qed.

Lemma stage_wallet_writes :
  forall now d uid text confirm out,
    PyStr.rstrip text = text ->
    writes cfg now d (fst (final (stage_wallet d uid text confirm out))).
Proof.
  intros now d uid text confirm out R. unfold stage_wallet.
  destruct (Re.match_anchored WALLET_RE text) eqn:M; simpl; [|apply writes_nil].
  apply writes_one, WStage. now apply wallet_re_stripped.
Qed.

Lemma claim_if_recipe_writes :
  forall now d mid uid text,
    writes cfg now d (fst (claim_if_recipe d mid uid text)).
Proof.
  intros now d mid uid text. unfold claim_if_recipe, claim_recipe_fingerprint.
  destruct (String.eqb mid "recipe_submit"); [|apply writes_nil].
  destruct (fingerprint_has _ _ _) eqn:H; simpl; [apply writes_nil|].
  apply writes_one.
  now apply (WFingerprint cfg now d
               (mkFingerprint mid (Sha256.hexdigest (normalize_recipe_text text)) uid)).
Qed.

Lemma record_submission_writes :
  forall now d uid mid text, writes cfg now d (record_submission d uid mid text).
Proof.
  intros now d uid mid text. unfold record_submission.
  destruct (submission_has _ _ _) eqn:H; [apply writes_nil|].
  apply writes_one. now apply (WSubmit cfg now d (mkSubmission uid mid text)).
Qed.

Lemma submit_mission_writes :
  forall now env d uid st text out,
    writes cfg now d (fst (final (submit_mission cfg env d uid st text out))).
Proof.
  intros now env d uid st text out. unfold submit_mission.
  destruct (PyStr.after_first ":" st) as [mid|]; [|apply writes_nil].
  destruct (get_mission cfg mid) as [m|] eqn:G; [|apply set_state_writes].
  destruct (validate (mission_validator m) text) as [[ok err] normalized].
  destruct ok; simpl; [|apply writes_nil].
  pose proof (claim_if_recipe_writes now d mid uid normalized) as W1.
  destruct (claim_if_recipe d mid uid normalized) as [d1 claimed]. simpl in W1.
  destruct claimed; simpl; [|exact W1].
  pose proof (record_submission_writes now d1 uid mid normalized) as W2.
  set (d2 := record_submission d1 uid mid normalized) in *.
  assert (W12 : writes cfg now d d2) by (eapply writes_trans; eassumption).
  destruct (Z.ltb_spec 0 (mission_delay_minutes m)) as [Hd|Hd].
  - unfold add_pending_reward.
    destruct (pending_has (pending_rewards d2) uid mid) eqn:P; simpl.
    + eapply writes_trans; [exact W12 | apply set_state_writes].
    + eapply writes_trans; [|apply set_state_writes].
      eapply writes_snoc; [exact W12|].
      apply (WSchedule cfg now d2
               (mkPending uid mid (mission_key mid) (mission_points m)
                  (clock_schedule env + mission_delay_minutes m * 60)));
        [|exact P].
      exists m. simpl. auto.
  - pose proof (add_points_once_writes now d2 uid (mission_key mid) (mission_key mid)
                  (mission_points m) [("payload", JStr normalized)]
                  (KMission cfg uid mid m normalized G Hd)) as W3.
    destruct (add_points_once d2 uid _ _ _ _) as [d3 awarded]. simpl in *.
    eapply writes_trans; [exact W12|].
    eapply writes_trans; [exact W3 | apply set_state_writes].
Qed.

Lemma dispatch_state_writes :
  forall now env d uid row text out,
    PyStr.rstrip text = text ->
    writes cfg now d (fst (final (dispatch_state cfg env d uid row text out))).
Proof.
  intros now env d uid row text out R. unfold dispatch_state.
  destruct (String.eqb _ "AI_CHAT"); [apply writes_nil|].
  destruct (String.eqb _ "AWAIT_WALLET"); [now apply stage_wallet_writes|].
  destruct (String.eqb _ "AWAIT_WALLET_CHANGE"); [now apply stage_wallet_writes|].
  destruct (PyStr.startswith _ _); [apply submit_mission_writes | apply writes_nil].
Qed.

Lemma on_any_text_writes :
  forall env d uid name message_text,
    consistent cfg d ->
    writes cfg (clock_settle env) d
           (fst (final (on_any_text cfg env d uid name message_text))).
Proof.
  intros env d uid name message_text C. unfold on_any_text.
  apply prelude_writes; [exact C|]. intros d1 row out C1.
  destruct (menu_handlers_writes (clock_settle env) env d1 uid name out)
    as (Wb & Wc & Wl & Wa).
  destruct (is_terms _ _); [apply writes_nil|].
  destruct (is_bonus _ _); [exact Wb|].
  destruct (is_connect_wallet _ _); [exact Wc|].
  destruct (is_balance _ _); [exact Wl|].
  destruct (is_chat _ _); [exact Wa|].
  apply dispatch_state_writes. apply rstrip_strip.
Qed.

(** Every handler is a sequence of writes. *)
Lemma handle_writes :
  forall env d uid name e,
    consistent cfg d ->
    writes cfg (clock_settle env) d (fst (final (handle cfg env d uid name e))).
Proof.
  intros env d uid name [args|data|t] C; simpl.
  - apply start_writes.
  - now apply on_callback_writes.
  - now apply on_any_text_writes.
Qed.

Lemma handle_consistent :
  forall env d uid name e,
    consistent cfg d -> consistent cfg (fst (final (handle cfg env d uid name e))).
Proof.
  intros env d uid name e C.
  eapply writes_consistent; [now apply handle_writes | exact C].
Qed.

Lemma run_consistent :
  forall evs d, consistent cfg d -> consistent cfg (run cfg d evs).
Proof.
  induction evs as [|[[[env uid] name] e] evs IH]; intros d C; [exact C|].
  simpl. apply IH. now apply handle_consistent.
Qed.

End HandlerWrites.

(* ------------------------------------------------------------------ *)
(** ** What stays of a row *)

Section Kept.

Local Open Scope list_scope.

Lemma row_kept_refl : forall row, row_kept row row.
Proof. intros row. unfold row_kept. repeat split; auto. lia. Qed.

Lemma users_kept_refl : forall d, users_kept d d.
Proof. intros d uid row G. exists row. split; [exact G | apply row_kept_refl]. Qed.

Lemma users_kept_trans :
  forall d1 d2 d3, users_kept d1 d2 -> users_kept d2 d3 -> users_kept d1 d3.
Proof.
  intros d1 d2 d3 H12 H23 uid row G.
  destruct (H12 uid row G) as (row2 & G2 & K2).
  destruct (H23 uid row2 G2) as (row3 & G3 & K3).
  exists row3. split; [exact G3|].
  destruct K2 as (a2 & b2 & c2 & e2 & f2), K3 as (a3 & b3 & c3 & e3 & f3).
  unfold row_kept. repeat split; try congruence; auto. lia.
Qed.

Lemma users_kept_same : forall d d', users d' = users d -> users_kept d d'.
Proof.
  intros d d' E uid row G. exists row.
  split; [now rewrite (get_user_users d d' uid E) | apply row_kept_refl].
Qed.

Lemma users_kept_update :
  forall d uid f,
    (forall r, user_id (f r) = user_id r) ->
    (forall row, get_user d uid = Some row -> row_kept row (f row)) ->
    users_kept d (update_user d uid f).
Proof.
  intros d uid f Hid Hf u row G. rewrite get_user_update_user by exact Hid.
  destruct (Z.eqb_spec u uid) as [->|Hne].
  - rewrite G. simpl. exists (f row). split; [reflexivity | now apply Hf].
  - exists row. split; [exact G | apply row_kept_refl].
Qed.

Lemma find_app :
  forall (A : Type) (f : A -> bool) l l' x,
    find f l = Some x -> find f (l ++ l') = Some x.
Proof.
  intros A f l l' x. induction l as [|a l IH]; simpl; [discriminate|].
  destruct (f a); [auto | exact IH].
Qed.

Lemma write_kept : forall cfg now d d', write cfg now d d' -> users_kept d d'.
Proof.
  intros cfg now d d' W. destruct W; try (apply users_kept_same; reflexivity).
  - intros u row G. exists row. split; [|apply row_kept_refl].
    unfold get_user in *. simpl. now apply find_app.
  - apply users_kept_update; [intros r; apply (H r)|].
    intros row _. destruct (H row) as (a & b & c & e & _ & g).
    unfold row_kept. repeat split; auto; congruence.
  - apply users_kept_update; [reflexivity|].
    intros row0 G. assert (row0 = row) by congruence. subst row0.
    unfold row_kept. simpl. repeat split; auto; try lia.
    intros r0 Hr0. congruence.
  - apply users_kept_update; [reflexivity|].
    intros row0 _. unfold row_kept. simpl. repeat split; auto; lia.
  - apply users_kept_update; [reflexivity|].
    intros row0 _. unfold row_kept. simpl. repeat split; auto; lia.
Qed.

Lemma writes_kept : forall cfg now d d', writes cfg now d d' -> users_kept d d'.
Proof.
  intros cfg now d d' W. induction W as [|d1 d2 _ IH W]; [apply users_kept_refl|].
  eapply users_kept_trans; [exact IH | eapply write_kept; exact W].
Qed.

Lemma run_kept :
  forall cfg evs d, consistent cfg d -> users_kept d (run cfg d evs).
Proof.
  intros cfg evs. induction evs as [|[[[env uid] name] e] evs IH]; intros d C;
    [apply users_kept_refl|].
  simpl. eapply users_kept_trans.
  - eapply writes_kept. apply (handle_writes cfg env d uid name e C).
  - apply IH. now apply handle_consistent.
Qed.

End Kept.

(* ------------------------------------------------------------------ *)
(** ** The stores the program reaches *)

Example sample_store_value :
  users sample_store
  = [sample_alice; sample_bob]
  /\ map (fun r => (ledger_user_id r, unique_key r, amount r)) (ledger sample_store)
     = [ (1, "wallet_register", 50); (2, "wallet_register", 50); (1, "referral:2", 100);
         (2, "daily_checkin:2024-01-03", 10) ]
  /\ pending_rewards sample_store = [sample_reward]
  /\ submissions sample_store = [mkSubmission 2 "X" "done"]
  /\ option_map state (get_user sample_chatting 2) = Some (Some "AI_CHAT").
Proof. vm_compute. repeat split; reflexivity. Qed.

(** X4. In every store reached from the empty one, no two rows of [users]
    have the same [user_id], and no two the same [ref_code]. *)
Theorem users_have_unique_keys :
  forall cfg evs,
    NoDup (map user_id (users (run cfg empty_db evs)))
    /\ NoDup (map ref_code (users (run cfg empty_db evs))).
Proof.
  intros cfg evs. pose proof (run_consistent cfg evs empty_db (consistent_empty cfg)) as C.
  split; apply C.
Qed.

(** X5. In every store reached from the empty one, no user is their own
    referrer, and the referrer of a user has a row in [users]. *)
Theorem referrals_are_sound :
  forall cfg evs u,
    In u (users (run cfg empty_db evs)) ->
    referred_by u <> Some (user_id u)
    /\ forall r, referred_by u = Some r ->
                 exists v, In v (users (run cfg empty_db evs)) /\ user_id v = r.
Proof.
  intros cfg evs u Hu.
  pose proof (run_consistent cfg evs empty_db (consistent_empty cfg)) as C. split.
  - now apply (no_self_referral cfg _ C).
  - intros r Hr. now apply (referrers_exist cfg _ C u).
Qed.

Lemma referrals_are_sound_witness :
  referred_by sample_bob <> Some (user_id sample_bob)
  /\ forall r, referred_by sample_bob = Some r ->
               exists v, In v (users (run sample_config empty_db sample_events))
                         /\ user_id v = r.
Proof.
  apply (referrals_are_sound sample_config sample_events sample_bob).
  vm_compute. auto.
Defined.

(** X6. In every store reached from the empty one, the active wallet and the
    staged wallet of a user are addresses: [0x] and forty hexadecimal
    digits, with nothing before or after. *)
Theorem wallet_addresses_wellformed :
  forall cfg evs u w,
    In u (users (run cfg empty_db evs)) ->
    wallet_address u = Some w \/ wallet_pending u = Some w ->
    is_address w = true.
Proof.
  intros cfg evs u w Hu Hw.
  pose proof (run_consistent cfg evs empty_db (consistent_empty cfg)) as C.
  now apply (wallets_wf cfg _ C u).
Qed.

Lemma wallet_addresses_wellformed_witness : is_address wallet_B = true.
Proof.
  apply (wallet_addresses_wellformed sample_config sample_events sample_bob wallet_B).
  - vm_compute. auto.
  - left. reflexivity.
Defined.

(** X7. In every store reached from the empty one, each ledger row is one of
    those the handlers write: a daily check-in, a streak bonus for a rule
    of [STREAK_BONUSES], a wallet registration, a referral, a mission
    without delay credited at its submission, or the settlement of a
    scheduled reward; key, type, amount and meta are those of its kind. *)
Theorem ledger_rows_of_known_kinds :
  forall cfg evs, Forall (ledger_row_ok cfg) (ledger (run cfg empty_db evs)).
Proof.
  intros cfg evs. apply (run_consistent cfg evs empty_db (consistent_empty cfg)).
Qed.

(** X8. In every store reached from the empty one, each pending reward is for
    a configured mission with a delay, under the key [mission:<id>] and
    for the points of the mission; a user has at most one pending reward
    and at most one submission per mission, and a mission at most one row
    per fingerprint. *)
Theorem pending_rewards_wellformed :
  forall cfg evs,
    Forall (pending_ok cfg) (pending_rewards (run cfg empty_db evs))
    /\ NoDup (map pending_key (pending_rewards (run cfg empty_db evs)))
    /\ NoDup (map submission_key (submissions (run cfg empty_db evs)))
    /\ NoDup (map fingerprint_key
                  (recipe_fingerprints (run cfg empty_db evs))).
Proof.
  intros cfg evs. pose proof (run_consistent cfg evs empty_db (consistent_empty cfg)) as C.
  repeat split; apply C.
Qed.

(** X9. A row of [users] is never removed, and later events keep its
    [user_id] and [ref_code], its referrer once it has one, the fact that
    it has a wallet, and never lower its count of wallet changes. *)
Theorem user_rows_kept :
  forall cfg evs later uid row,
    get_user (run cfg empty_db evs) uid = Some row ->
    exists row',
      get_user (run cfg (run cfg empty_db evs) later) uid = Some row'
      /\ row_kept row row'.
Proof.
  intros cfg evs later uid row G.
  apply (run_kept cfg later (run cfg empty_db evs)); [|exact G].
  apply run_consistent, consistent_empty.
Qed.

Lemma user_rows_kept_witness :
  exists row',
    get_user (run sample_config (run sample_config empty_db sample_events)
                  [(env_at 400 738888 "Qm9i", 2, None, Callback (Some "wallet_retry"));
                   (env_at 410 738888 "Qm9i", 2, None, Start ["Qm9i"])]) 2
    = Some row'
    /\ row_kept sample_bob row'.
Proof.
  apply (user_rows_kept sample_config sample_events
           [(env_at 400 738888 "Qm9i", 2, None, Callback (Some "wallet_retry"));
            (env_at 410 738888 "Qm9i", 2, None, Start ["Qm9i"])] 2 sample_bob).
  vm_compute. reflexivity.
Defined.

(* ------------------------------------------------------------------ *)
(** ** Rewards before their time *)

Section NotBeforeDue.

Local Open Scope list_scope.

Lemma NoDup_map_inj :
  forall (A B : Type) (g : A -> B) (l : list A) x y,
    NoDup (map g l) -> In x l -> In y l -> g x = g y -> x = y.
Proof.
  intros A B g l x y. induction l as [|a l IH]; simpl; intros N Hx Hy E; [contradiction|].
  apply NoDup_cons_iff in N as [Na N].
  destruct Hx as [->|Hx], Hy as [->|Hy]; auto.
  - exfalso. apply Na. rewrite E. now apply in_map.
  - exfalso. apply Na. rewrite <- E. now apply in_map.
Qed.

Lemma ledger_kind_not_delayed_mission :
  forall cfg row uid mid m,
    ledger_kind cfg row ->
    get_mission cfg mid = Some m -> 0 < mission_delay_minutes m ->
    ((ledger_user_id row =? uid) && String.eqb (unique_key row) (mission_key mid))%bool
    = false.
Proof.
  intros cfg row uid mid m K G D.
  destruct K as [u day|u day rule Hr|u|r u|u mid' m' norm G' D']; simpl;
    try (apply andb_false_iff; right; reflexivity).
  apply andb_false_iff. right. apply String.eqb_neq. intros E.
  try apply mission_key_inj in E. subst mid'. rewrite G in G'. injection G' as <-. lia.
Qed.

Lemma write_waiting :
  forall cfg now d d' p,
    write cfg now d d' -> consistent cfg d -> now < available_at_ts p ->
    waiting p d -> waiting p d'.
Proof.
  intros cfg now d d' p W C Hp [Hin Hl].
  assert (Pok : pending_ok cfg p).
  { pose proof (pending_rows_ok cfg d C) as F. rewrite Forall_forall in F. auto. }
  destruct Pok as (m & G & D & Hk & Ha).
  destruct W; try (split; assumption); unfold waiting; simpl.
  - (* a credit *)
    split; [exact Hin|]. rewrite ledger_has_app, Hl. simpl. rewrite orb_false_r.
    eapply ledger_kind_not_delayed_mission; eassumption.
  - (* a settled reward *)
    split; [exact Hin|]. rewrite ledger_has_app, Hl. simpl. rewrite orb_false_r.
    apply andb_false_iff.
    destruct (Z.eqb_spec (pending_user_id p0) (pending_user_id p)) as [Eu|]; [right | now left].
    apply String.eqb_neq. intros Ek.
    assert (Pok0 : pending_ok cfg p0).
    { pose proof (pending_rows_ok cfg d C) as F. rewrite Forall_forall in F. auto. }
    destruct Pok0 as (m0 & _ & _ & Hk0 & _). rewrite Hk0 in Ek.
    apply mission_key_inj in Ek.
    assert (p0 = p).
    { apply (NoDup_map_inj _ _ pending_key (pending_rewards d));
        [apply C | assumption | assumption |].
      unfold pending_key. now rewrite Eu, Ek. }
    subst p0. lia.
  - (* a scheduled reward *)
    split; [|exact Hl]. apply in_or_app. now left.
  - (* a reward removed *)
    split; [|exact Hl]. apply filter_In. split; [exact Hin|].
    apply negb_true_iff. apply andb_false_iff.
    destruct (Z.eqb_spec (pending_user_id p) (pending_user_id p0)) as [Eu|]; [right | now left].
    apply String.eqb_neq. intros Em.
    assert (p0 = p).
    { apply (NoDup_map_inj _ _ pending_key (pending_rewards d));
        [apply C | assumption | assumption |].
      unfold pending_key. now rewrite Eu, Em. }
    subst p0. lia.
Qed.

Lemma writes_waiting :
  forall cfg now d d' p,
    writes cfg now d d' -> consistent cfg d -> now < available_at_ts p ->
    waiting p d -> waiting p d'.
Proof.
  intros cfg now d d' p W C Hp. induction W as [|d1 d2 W1 IH W]; [auto|].
  intros H. eapply write_waiting; [exact W | | exact Hp | now apply IH].
  eapply writes_consistent; eassumption.
Qed.

End NotBeforeDue.

(** X10. A pending reward whose time has not come stays pending through the
    handling of any event of any user, and that event puts no row for
    its mission into the ledger of its user. *)
Theorem reward_not_credited_early :
  forall cfg evs env uid name e p,
    waiting p (run cfg empty_db evs) ->
    clock_settle env < available_at_ts p ->
    waiting p (fst (final (handle cfg env (run cfg empty_db evs) uid name e))).
Proof.
  intros cfg evs env uid name e p Hw Hp.
  pose proof (run_consistent cfg evs empty_db (consistent_empty cfg)) as C.
  eapply writes_waiting; [apply (handle_writes cfg env _ uid name e C) | exact C
                         | exact Hp | exact Hw].
Qed.

Lemma reward_not_credited_early_witness :
  waiting sample_reward
    (fst (final (handle sample_config (env_at 2099 738888 "Qm9i")
                   (run sample_config empty_db sample_events)
                   2 (Some "bob") (Text (Some "hello"))))).
Proof.
  apply (reward_not_credited_early sample_config sample_events
           (env_at 2099 738888 "Qm9i") 2 (Some "bob") (Text (Some "hello"))
           sample_reward).
  - split; vm_compute; auto.
  - vm_compute. reflexivity.
Defined.

(* ------------------------------------------------------------------ *)
(** ** The daily check-in *)

Section Checkin.

Local Open Scope list_scope.

Lemma star_any_matches : forall s, Re.matches (Re.Star Re.any) s.
Proof.
  induction s as [|c s IH]; [constructor|].
  apply (Re.MStarApp Re.any (String c EmptyString) s); [now constructor | exact IH].
Qed.

Lemma like_checkin_key :
  forall s, like "daily_checkin:%" (checkin_key s) = true.
Proof.
  intros s. unfold like, checkin_key. apply fullmatch_matches. simpl like_re.
  repeat match goal with
         | |- Re.matches (Re.Cat _ _) (String ?c ?r ++ _)%string =>
             apply (Re.MCat _ _ (String c EmptyString) (r ++ s)%string);
             [constructor; reflexivity|]
         end.
  simpl append. rewrite <- (append_nil_r s).
  apply Re.MCat; [apply star_any_matches | constructor].
Qed.

Lemma after_first_checkin_key :
  forall s, PyStr.after_first ":" (checkin_key s) = Some s.
Proof. reflexivity. Qed.

Lemma checkin_dates_app :
  forall d rows uid,
    get_checkin_dates (with_ledger d (ledger d ++ rows)) uid
    = get_checkin_dates d uid ++ get_checkin_dates (with_ledger d rows) uid.
Proof.
  intros d rows uid. unfold get_checkin_dates. simpl.
  now rewrite filter_app, flat_map_app.
Qed.


Lemma checkin_dates_row :
  forall d uid day amt m,
    Calendar.min_ordinal <= day <= Calendar.max_ordinal ->
    get_checkin_dates
      (with_ledger d [mkLedger uid (checkin_key (Calendar.strftime_ymd day))
                        "daily_checkin" amt m]) uid
    = [day].
Proof.
  intros d uid day amt m Hd. unfold get_checkin_dates. simpl.
  rewrite Z.eqb_refl, like_checkin_key. simpl.
  now rewrite strptime_strftime.
Qed.










Lemma get_points_snoc :
  forall d row uid,
    get_points (with_ledger d (ledger d ++ [row])) uid
    = get_points d uid + (if ledger_user_id row =? uid then amount row else 0).
Proof.
  intros d row uid. rewrite !get_points_sum. simpl ledger. rewrite points_of_app.
  f_equal. simpl. destruct (ledger_user_id row =? uid); simpl; lia.
Qed.


End Checkin.

(** X11. For a day from 1000-01-01 to 9999-12-31, the text [strftime] writes
    is read back by [strptime] as that day; so the row a check-in of the
    day appends adds exactly that day to the dates [get_checkin_dates]
    finds for the user. *)
Theorem checkin_date_round_trip :
  forall day,
    Calendar.ymd2ord 1000 1 1 <= day <= Calendar.max_ordinal ->
    Calendar.strptime_ymd (Calendar.strftime_ymd day) = Some day
    /\ forall d uid amt m,
         get_checkin_dates
           (with_ledger d
              (ledger d ++ [mkLedger uid (checkin_key (Calendar.strftime_ymd day))
                              "daily_checkin" amt m])%list) uid
         = (get_checkin_dates d uid ++ [day])%list.
Proof.
  intros day Hd.
  assert (Hv : Calendar.min_ordinal <= day <= Calendar.max_ordinal).
  { change (Calendar.ymd2ord 1000 1 1) with 364878 in Hd.
    unfold Calendar.min_ordinal. lia. }
  split; [now apply strptime_strftime|].
  intros d uid amt m. rewrite checkin_dates_app. f_equal. now apply checkin_dates_row.
Qed.

Lemma checkin_date_round_trip_witness :
  Calendar.strptime_ymd (Calendar.strftime_ymd 738888) = Some 738888
  /\ forall d uid amt m,
       get_checkin_dates
         (with_ledger d
            (ledger d ++ [mkLedger uid (checkin_key (Calendar.strftime_ymd 738888))
                            "daily_checkin" amt m])%list) uid
       = (get_checkin_dates d uid ++ [738888])%list.
Proof.
  apply (checkin_date_round_trip 738888). vm_compute. split; discriminate.
Defined.





(* ------------------------------------------------------------------ *)
(** ** How a handler can fail *)

Section Failures.

Local Open Scope list_scope.

Lemma find_app_none :
  forall (A : Type) (f : A -> bool) l l',
    find f l = None -> find f (l ++ l') = find f l'.
Proof.
  intros A f l l'. induction l as [|a l IH]; simpl; [reflexivity|].
  destruct (f a); [discriminate | exact IH].
Qed.

Lemma ensure_user_existing :
  forall d uid name tok row,
    get_user d uid = Some row ->
    ensure_user d uid name tok = Ok (update_user d uid (set_username name)).
Proof. intros d uid name tok row G. unfold ensure_user. now rewrite G. Qed.

(** After [ensure_user] the user has a row. *)
Lemma get_user_ensure_user :
  forall d uid name tok d1,
    ensure_user d uid name tok = Ok d1 -> exists row, get_user d1 uid = Some row.
Proof.
  intros d uid name tok d1. unfold ensure_user.
  destruct (get_user d uid) as [row|] eqn:G.
  - intros E. injection E as <-.
    rewrite get_user_update_user by reflexivity. rewrite Z.eqb_refl, G. simpl. eauto.
  - destruct (existsb _ _); [discriminate|]. intros E. injection E as <-.
    unfold get_user in *. simpl. rewrite find_app_none by exact G.
    simpl. rewrite Z.eqb_refl. eauto.
Qed.

Lemma ensure_user_failure :
  forall d uid name tok e,
    ensure_user d uid name tok = Raise e ->
    e = IntegrityError /\ get_user d uid = None
    /\ exists other,
         In other (users d)
         /\ ref_code other = PyStr.remove_char "_" (PyStr.remove_char "-" tok).
Proof.
  intros d uid name tok e. unfold ensure_user.
  destruct (get_user d uid); [discriminate|].
  destruct (existsb _ _) eqn:X; [|discriminate].
  intros E. injection E as <-. split; [reflexivity|]. split; [reflexivity|].
  apply existsb_exists in X as (u & Hu & Ec). apply String.eqb_eq in Ec. eauto.
Qed.

Lemma done_Done : forall r, done (Done r).
Proof. intros r. now exists r. Qed.

Lemma startswith_after :
  forall p s c, PyStr.startswith (p ++ String c "") s = true ->
                (forall x, In x (list_ascii_of_string p) -> x <> c) ->
                exists rest, PyStr.after_first c s = Some rest.
Proof.
  induction p as [|a p IH]; intros s c H Hp; simpl in H.
  - destruct s as [|b s]; [discriminate|]. apply andb_true_iff in H as [E _].
    apply Ascii.eqb_eq in E. subst b. simpl. rewrite Ascii.eqb_refl. eauto.
  - destruct s as [|b s]; [discriminate|]. apply andb_true_iff in H as [E H].
    apply Ascii.eqb_eq in E. subst b. simpl.
    destruct (Ascii.eqb_spec a c) as [->|Hne].
    + exfalso. apply (Hp c); [now left | reflexivity].
    + apply IH; [exact H|]. intros x Hx. apply Hp. now right.
Qed.

Lemma after_first_mission_prefix :
  forall data, PyStr.startswith "mission:" data = true ->
               exists mid, PyStr.after_first ":" data = Some mid.
Proof.
  intros data H. apply (startswith_after "mission" data ":" H).
  intros x Hx. simpl in Hx.
  repeat (destruct Hx as [<-|Hx]; [discriminate|]). contradiction.
Qed.

Lemma after_first_state_prefix :
  forall st, PyStr.startswith "MISSION:" st = true ->
             exists mid, PyStr.after_first ":" st = Some mid.
Proof.
  intros st H. apply (startswith_after "MISSION" st ":" H).
  intros x Hx. simpl in Hx.
  repeat (destruct Hx as [<-|Hx]; [discriminate|]). contradiction.
Qed.

Lemma choose_mission_done :
  forall cfg d row data out,
    PyStr.startswith "mission:" data = true ->
    done (choose_mission cfg d row data out).
Proof.
  intros cfg d row data out H. unfold choose_mission.
  destruct (negb _); [apply done_Done|].
  destruct (after_first_mission_prefix data H) as (mid & ->).
  destruct (get_mission cfg mid); apply done_Done.
Qed.

Lemma wallet_flows_done :
  forall cfg d uid row out,
    done (wallet_change d row out) /\ done (wallet_confirm cfg d uid out)
    /\ done (wallet_change_confirm d uid out).
Proof.
  intros cfg d uid row out. repeat split.
  - unfold wallet_change. destruct (negb _); [apply done_Done|].
    destruct (1 <=? _); apply done_Done.
  - unfold wallet_confirm. destruct (get_user d uid) as [r|]; [|apply done_Done].
    destruct (PyStr.truthy _); [apply done_Done|].
    destruct (wallet_pending r) as [[|c p]|]; try apply done_Done.
    destruct (wallet_of_another d (String c p) uid); [apply done_Done|].
    destruct (add_points_once _ _ _ _ _ _). apply done_Done.
  - unfold wallet_change_confirm. destruct (get_user d uid) as [r|]; [|apply done_Done].
    destruct (wallet_address r) as [[|c0 w0]|]; try apply done_Done.
    destruct (wallet_pending r) as [[|c p]|]; try apply done_Done.
    destruct (String.eqb _ _); [apply done_Done|].
    destruct (wallet_of_another d (String c p) uid); apply done_Done.
Qed.

Lemma streak_loop_failure :
  forall fuel dates s x e,
    streak_loop fuel dates s x = Raise e -> e = OverflowError.
Proof.
  induction fuel as [|fuel IH]; intros dates s x e; simpl;
    destruct (date_in x dates); try discriminate.
  unfold Calendar.minus_one_day. destruct (x - 1 <? _); simpl.
  - intros E. now injection E as <-.
  - apply IH.
Qed.

Lemma daily_checkin_failure :
  forall cfg env d row out e r,
    daily_checkin cfg env d row out = Failed e r -> e = OverflowError.
Proof.
  intros cfg env d row out e r. unfold daily_checkin.
  destruct (negb _); [discriminate|].
  destruct (add_points_once _ _ _ _ _ _) as [d1 awarded].
  unfold attempt.
  destruct (compute_streak d1 (user_id row) (today env)) as [streak|e0] eqn:S.
  - destruct (negb awarded); [discriminate|].
    destruct (fold_left _ _ _). discriminate.
  - intros E. injection E as <- _. unfold compute_streak in S.
    now apply streak_loop_failure in S.
Qed.

Lemma menu_handlers_done :
  forall env d uid name out row,
    get_user d uid = Some row ->
    done (bonus env d uid name out) /\ done (connect_wallet env d uid name out)
    /\ done (balance env d uid name out) /\ done (ai_chat_start env d uid name out).
Proof.
  intros env d uid name out row G.
  unfold bonus, connect_wallet, balance, ai_chat_start.
  rewrite (ensure_user_existing d uid name (token env) row G). unfold attempt.
  repeat split.
  - destruct (negb _); apply done_Done.
  - rewrite get_user_update_user by reflexivity. rewrite Z.eqb_refl, G. simpl.
    destruct (wallet_address row) as [[|c w]|]; apply done_Done.
  - destruct (negb _); [apply done_Done|].
    destruct (get_referral_counts _ _). apply done_Done.
  - apply done_Done.
Qed.

Lemma submit_mission_done :
  forall cfg env d uid st text out,
    PyStr.startswith "MISSION:" st = true ->
    done (submit_mission cfg env d uid st text out).
Proof.
  intros cfg env d uid st text out H. unfold submit_mission.
  destruct (after_first_state_prefix st H) as (mid & ->).
  destruct (get_mission cfg mid) as [m|]; [|apply done_Done].
  destruct (validate _ _) as [[ok err] normalized].
  destruct (negb ok); [apply done_Done|].
  destruct (claim_if_recipe _ _ _ _) as [d1 claimed].
  destruct (negb claimed); [apply done_Done|].
  destruct (0 <? _).
  - destruct (add_pending_reward _ _ _ _ _ _ _) as [d3 [scheduled ts]]. apply done_Done.
  - destruct (add_points_once _ _ _ _ _ _) as [d3 awarded]. apply done_Done.
Qed.

Lemma dispatch_state_done :
  forall cfg env d uid row text out,
    done (dispatch_state cfg env d uid row text out).
Proof.
  intros cfg env d uid row text out. unfold dispatch_state.
  destruct (String.eqb _ "AI_CHAT"); [apply done_Done|].
  destruct (String.eqb _ "AWAIT_WALLET");
    [unfold stage_wallet; destruct (negb _); apply done_Done|].
  destruct (String.eqb _ "AWAIT_WALLET_CHANGE");
    [unfold stage_wallet; destruct (negb _); apply done_Done|].
  destruct (PyStr.startswith _ _) eqn:S; [now apply submit_mission_done | apply done_Done].
Qed.

End Failures.

(* ------------------------------------------------------------------ *)
(** ** How a handler can fail, on any text and any integer *)

Section ExactFailures.

Local Open Scope list_scope.

Variable U : Unicode.tables.

Lemma sum_from_failure :
  forall values total e, Sqlite.sum_from total values = Raise e -> e = OperationalError.
Proof.
  induction values as [|v rest IH]; intros total e H; simpl in H; [discriminate|].
  destruct (Sqlite.fits (total + v)); [now apply IH in H | now inversion H].
Qed.

(** [get_points] raises for a user id that fits only when the absolute
    values of the amounts pass 2^63 - 1. *)
Lemma exact_get_points_failure :
  forall d uid e,
    Sqlite.fits uid = true ->
    Exact.get_points d uid = Raise e ->
    e = OperationalError /\ Sqlite.INT64_MAX < sum (map Z.abs (amounts_of d uid)).
Proof.
  intros d uid e Hu H. split.
  - unfold Exact.get_points in H. rewrite Hu in H. now apply sum_from_failure in H.
  - destruct (Z.lt_ge_cases Sqlite.INT64_MAX (sum (map Z.abs (amounts_of d uid))))
      as [L|L]; [exact L|].
    rewrite (get_points_small d uid Hu L) in H. discriminate.
Qed.

Lemma exact_add_points_once_failure :
  forall d uid key typ amt m e,
    Exact.add_points_once d uid key typ amt m = Raise e -> e = OverflowError.
Proof.
  intros d uid key typ amt m e. unfold Exact.add_points_once.
  destruct (Sqlite.fits uid && Sqlite.fits amt)%bool.
  - destruct (ledger_has _ _ _); discriminate.
  - intros E. now inversion E.
Qed.

Lemma exact_add_points_once_returns :
  forall d uid key typ amt m,
    Sqlite.fits uid = true -> Sqlite.fits amt = true ->
    exists r, Exact.add_points_once d uid key typ amt m = Ok r.
Proof.
  intros d uid key typ amt m Hu Ha. rewrite add_points_once_fits by assumption. eauto.
Qed.

Lemma grant_streak_bonuses_failure :
  forall uid streak ts rules d lines d' e,
    Exact.grant_streak_bonuses uid streak ts rules d lines = (d', Raise e) ->
    e = OverflowError.
Proof.
  intros uid streak ts rules. induction rules as [|rule rest IH];
    intros d lines d' e H; simpl in H; [discriminate|].
  destruct (streak =? fst rule); [|now apply IH in H].
  destruct (Exact.add_points_once _ _ _ _ _ _) as [[d1 ok]|e0] eqn:A.
  - now apply IH in H.
  - inversion H; subst. now apply exact_add_points_once_failure in A.
Qed.

Lemma exact_daily_checkin_failure :
  forall cfg env d row out e r,
    Exact.daily_checkin cfg env d row out = Failed e r -> e = OverflowError.
Proof.
  intros cfg env d row out e r. unfold Exact.daily_checkin.
  destruct (negb _); [discriminate|]. unfold attempt.
  destruct (Exact.add_points_once _ _ _ _ _ _) as [[d1 awarded]|e0] eqn:A.
  2:{ intros E. inversion E; subst. now apply exact_add_points_once_failure in A. }
  destruct (compute_streak d1 (user_id row) (today env)) as [streak|e0] eqn:S.
  2:{ intros E. inversion E; subst. unfold compute_streak in S.
      now apply streak_loop_failure in S. }
  destruct (negb awarded); [discriminate|].
  destruct (Exact.grant_streak_bonuses _ _ _ _ _ _) as [d2 [lines|e0]] eqn:G;
    [discriminate|].
  intros E. inversion E; subst. now apply grant_streak_bonuses_failure in G.
Qed.

Lemma exact_wallet_confirm_failure :
  forall cfg d uid out e r,
    Exact.wallet_confirm cfg d uid out = Failed e r -> e = OverflowError.
Proof.
  intros cfg d uid out e r. unfold Exact.wallet_confirm.
  destruct (get_user d uid) as [row|]; [|discriminate].
  destruct (PyStr.truthy _); [discriminate|].
  destruct (wallet_pending row) as [[|c p]|]; try discriminate.
  destruct (wallet_of_another d (String c p) uid); [discriminate|].
  unfold attempt.
  destruct (Exact.add_points_once _ uid _ _ _ _) as [a|e0] eqn:A.
  2:{ intros E. inversion E; subst. now apply exact_add_points_once_failure in A. }
  destruct (referrer_of row) as [ref|]; [|discriminate].
  destruct (Exact.add_points_once _ ref _ _ _ _) as [b|e0] eqn:B; [discriminate|].
  intros E. inversion E; subst. now apply exact_add_points_once_failure in B.
Qed.

Lemma referrer_of_referred_by :
  forall row r, referrer_of row = Some r -> referred_by row = Some r.
Proof.
  intros row r. unfold referrer_of. destruct (referred_by row) as [x|]; [|discriminate].
  destruct (x =? 0); [discriminate|]. auto.
Qed.

Lemma exact_wallet_confirm_done :
  forall cfg env d uid out,
    Sqlite.fits uid = true -> campaign_fits cfg env ->
    (forall row r, get_user d uid = Some row -> referred_by row = Some r ->
                   Sqlite.fits r = true) ->
    done (Exact.wallet_confirm cfg d uid out).
Proof.
  intros cfg env d uid out Hu (Hw & Hr & _) Href. unfold Exact.wallet_confirm.
  destruct (get_user d uid) as [row|] eqn:G; [|apply done_Done].
  destruct (PyStr.truthy _); [apply done_Done|].
  destruct (wallet_pending row) as [[|c p]|]; try apply done_Done.
  destruct (wallet_of_another d (String c p) uid); [apply done_Done|].
  rewrite add_points_once_fits by assumption. cbn [attempt].
  destruct (referrer_of row) as [ref|] eqn:R; [|apply done_Done].
  rewrite add_points_once_fits;
    [apply done_Done | apply (Href row ref eq_refl), referrer_of_referred_by, R | exact Hr].
Qed.

Lemma exact_submit_mission_failure :
  forall cfg env d uid st text out e r,
    PyStr.startswith "MISSION:" st = true ->
    Exact.submit_mission U cfg env d uid st text out = Failed e r ->
    e = OverflowError.
Proof.
  intros cfg env d uid st text out e r H. unfold Exact.submit_mission.
  destruct (after_first_state_prefix st H) as (mid & ->).
  destruct (get_mission cfg mid) as [m|]; [|discriminate].
  destruct (Exact.validate _ _ _) as [[ok err] normalized].
  destruct (negb ok); [discriminate|]. unfold attempt.
  destruct (Exact.claim_if_recipe U d mid uid normalized) as [[d1 claimed]|e0] eqn:C.
  2:{ intros E. inversion E; subst. unfold Exact.claim_if_recipe in C.
      destruct (String.eqb mid "recipe_submit"); [|discriminate].
      unfold Exact.claim_recipe_fingerprint in C.
      destruct (Sqlite.fits uid); [destruct (fingerprint_has _ _ _); discriminate|].
      now inversion C. }
  destruct (negb claimed); [discriminate|].
  destruct (0 <? _).
  - destruct (Exact.add_pending_reward _ _ _ _ _ _ _) as [[d3 [scheduled ts]]|e0] eqn:P;
      [discriminate|].
    intros E. inversion E; subst. unfold Exact.add_pending_reward in P.
    destruct (_ && _)%bool; [destruct (pending_has _ _ _); discriminate|].
    now inversion P.
  - destruct (Exact.add_points_once _ _ _ _ _ _) as [[d3 awarded]|e0] eqn:A;
      [discriminate|].
    intros E. inversion E; subst. now apply exact_add_points_once_failure in A.
Qed.

Lemma exact_submit_mission_done :
  forall cfg env d uid st text out,
    Sqlite.fits uid = true -> campaign_fits cfg env ->
    PyStr.startswith "MISSION:" st = true ->
    done (Exact.submit_mission U cfg env d uid st text out).
Proof.
  intros cfg env d uid st text out Hu (_ & _ & _ & _ & Hm) H.
  unfold Exact.submit_mission.
  destruct (after_first_state_prefix st H) as (mid & ->).
  destruct (get_mission cfg mid) as [m|] eqn:G; [|apply done_Done].
  assert (Hfit : Sqlite.fits (mission_points m) = true
                 /\ Sqlite.fits (clock_schedule env + mission_delay_minutes m * 60) = true).
  { unfold get_mission in G. apply find_some in G as [G _].
    rewrite Forall_forall in Hm. now apply Hm. }
  destruct Hfit as (Hp & Ht).
  destruct (Exact.validate _ _ _) as [[ok err] normalized].
  destruct (negb ok); [apply done_Done|].
  assert (C : exists d1 claimed,
             Exact.claim_if_recipe U d mid uid normalized = Ok (d1, claimed)).
  { unfold Exact.claim_if_recipe, Exact.claim_recipe_fingerprint. rewrite Hu.
    destruct (String.eqb mid "recipe_submit"); [|eauto].
    destruct (fingerprint_has _ _ _); eauto. }
  destruct C as (d1 & claimed & ->). cbn [attempt].
  destruct (negb claimed); [apply done_Done|].
  destruct (0 <? _).
  - unfold Exact.add_pending_reward. rewrite Hu, Hp, Ht. cbn [andb].
    destruct (pending_has _ _ _); apply done_Done.
  - rewrite add_points_once_fits by assumption. cbn [attempt].
    destruct (add_points_once _ _ _ _ _ _). apply done_Done.
Qed.

Lemma stage_wallet_done :
  forall d uid text confirm out, done (stage_wallet d uid text confirm out).
Proof.
  intros d uid text confirm out. unfold stage_wallet.
  destruct (negb _); apply done_Done.
Qed.

Lemma exact_dispatch_state_failure :
  forall cfg env d uid row text out e r,
    Exact.dispatch_state U cfg env d uid row text out = Failed e r ->
    e = OverflowError.
Proof.
  intros cfg env d uid row text out e r. unfold Exact.dispatch_state.
  destruct (String.eqb _ "AI_CHAT"); [discriminate|].
  destruct (String.eqb _ "AWAIT_WALLET");
    [destruct (stage_wallet_done d uid text ConfirmWallet out) as (x & ->); discriminate|].
  destruct (String.eqb _ "AWAIT_WALLET_CHANGE");
    [destruct (stage_wallet_done d uid text ConfirmNewWallet out) as (x & ->);
     discriminate|].
  destruct (PyStr.startswith _ _) eqn:S; [|discriminate].
  now apply exact_submit_mission_failure.
Qed.

Lemma exact_dispatch_state_done :
  forall cfg env d uid row text out,
    Sqlite.fits uid = true -> campaign_fits cfg env ->
    done (Exact.dispatch_state U cfg env d uid row text out).
Proof.
  intros cfg env d uid row text out Hu Hc. unfold Exact.dispatch_state.
  destruct (String.eqb _ "AI_CHAT"); [apply done_Done|].
  destruct (String.eqb _ "AWAIT_WALLET"); [apply stage_wallet_done|].
  destruct (String.eqb _ "AWAIT_WALLET_CHANGE"); [apply stage_wallet_done|].
  destruct (PyStr.startswith _ _) eqn:S;
    [now apply exact_submit_mission_done | apply done_Done].
Qed.

(** The menu handler [balance] for a user who has a row. *)
Lemma exact_balance_cases :
  forall env d uid name out row,
    Sqlite.fits uid = true ->
    get_user d uid = Some row ->
    (forall e r, Exact.balance env d uid name out = Failed e r ->
                 e = OperationalError
                 /\ Sqlite.INT64_MAX < sum (map Z.abs (amounts_of (fst r) uid))
                 /\ ledger (fst r) = ledger d)
    /\ (sum (map Z.abs (amounts_of d uid)) <= Sqlite.INT64_MAX ->
        done (Exact.balance env d uid name out)).
Proof.
  intros env d uid name out row Hu G. unfold Exact.balance.
  rewrite (ensure_user_existing d uid name (token env) row G). cbn [attempt].
  set (d1 := update_user d uid (set_username name)).
  assert (A : amounts_of d1 uid = amounts_of d uid) by reflexivity.
  destruct (negb _).
  { split; [discriminate | intros _; apply done_Done]. }
  destruct (Exact.get_points d1 uid) as [points|e0] eqn:P; cbn [attempt].
  - split; [|intros _; destruct (get_referral_counts _ _); apply done_Done].
    intros e r. destruct (get_referral_counts _ _). discriminate.
  - apply exact_get_points_failure in P as (-> & L); [|exact Hu]. split.
    + intros e r E. inversion E; subst. simpl. auto.
    + intros H. rewrite A in L. lia.
Qed.

End ExactFailures.

(** X14. How the handling of an event can end with an exception, the
    sends to Telegram and the call of the recipe service apart.
    [IntegrityError]: the user is new and the referral code drawn for
    them is the code of another user; nothing was written or sent.
    [OverflowError]: the user id does not fit 64 bits, and nothing was
    written; or the event is the daily check-in, the confirmation of a
    wallet or a text message.  [OperationalError]: the event is a text
    message and the absolute values of the amounts of the user's ledger
    rows pass 2^63 - 1.  For a user who has a row and whose id fits, when
    the amounts of the campaign and the id of the referrer fit and the
    absolute values of the user's amounts after the settlement sum to at
    most 2^63 - 1, every event but the daily check-in is handled to its
    end. *)
Theorem handler_failures :
  forall U cfg env d uid name e,
    (forall ex r,
        Exact.handle U cfg env d uid name e = Failed ex r ->
        (ex = IntegrityError /\ get_user d uid = None /\ r = (d, [])
         /\ exists other,
              In other (users d)
              /\ ref_code other
                 = PyStr.remove_char "_" (PyStr.remove_char "-" (token env)))
        \/ (ex = OverflowError
            /\ (Sqlite.fits uid = false /\ r = (d, [])
                \/ e = Callback (Some "daily_checkin")
                \/ e = Callback (Some "wallet_confirm")
                \/ exists t, e = Text t))
        \/ (ex = OperationalError /\ (exists t, e = Text t)
            /\ Sqlite.INT64_MAX < sum (map Z.abs (amounts_of (fst r) uid))))
    /\ (forall row,
           get_user d uid = Some row ->
           Sqlite.fits uid = true ->
           e <> Callback (Some "daily_checkin") ->
           campaign_fits cfg env ->
           (forall r, referred_by row = Some r -> Sqlite.fits r = true) ->
           sum (map Z.abs (amounts_of (after_prelude env d uid name) uid))
           <= Sqlite.INT64_MAX ->
           done (Exact.handle U cfg env d uid name e)).
Proof.
  intros U cfg env d uid name e. split.
  - intros ex r.
    destruct (Sqlite.fits uid) eqn:Hu.
    2:{ destruct e as [args|data|t]; simpl;
          unfold Exact.start, Exact.on_callback, Exact.on_any_text; rewrite Hu;
          cbn [negb]; intros E; inversion E; subst; right; left; auto. }
    assert (New : forall e0, ensure_user d uid name (token env) = Raise e0 ->
              ex = e0 -> r = (d, []) ->
              ex = IntegrityError /\ get_user d uid = None /\ r = (d, [])
              /\ exists other,
                   In other (users d)
                   /\ ref_code other
                      = PyStr.remove_char "_" (PyStr.remove_char "-" (token env))).
    { intros e0 E -> ->. apply ensure_user_failure in E as (-> & G & X). auto. }
    destruct e as [args|data|t]; simpl.
    + unfold Exact.start, attempt. rewrite Hu. cbn [negb].
      destruct (ensure_user d uid name (token env)) as [d1|e0] eqn:E1; [discriminate|].
      intros E. inversion E; subst. left. now apply (New ex).
    + unfold Exact.on_callback, prelude, attempt. rewrite Hu. cbn [negb].
      destruct (ensure_user d uid name (token env)) as [d1|e0] eqn:E1.
      2:{ intros E. inversion E; subst. left. now apply (New ex). }
      destruct (get_user_ensure_user _ _ _ _ _ E1) as (row & ->).
      destruct (process_due_rewards d1 (clock_settle env) uid) as [d2 newly].
      set (out := match newly with [] => [] | _ :: _ => _ end).
      destruct (String.eqb_spec (PyStr.or_empty data) "daily_checkin") as [Ed|Ed].
      { intros E. apply exact_daily_checkin_failure in E. right. left.
        split; [exact E|]. right. left.
        destruct data as [s|]; simpl in Ed; [now subst | discriminate]. }
      destruct (String.eqb _ "invite_friend");
        [destruct (negb _); discriminate|].
      destruct (PyStr.startswith _ _) eqn:S.
      { destruct (choose_mission_done cfg d2 row (PyStr.or_empty data) out S)
          as (x & ->). discriminate. }
      destruct (wallet_flows_done cfg d2 uid row out) as ((x1 & E1') & _ & (x3 & E3')).
      destruct (String.eqb _ "wallet_change"); [rewrite E1'; discriminate|].
      destruct (String.eqb_spec (PyStr.or_empty data) "wallet_confirm") as [Ew|Ew].
      { intros E. apply exact_wallet_confirm_failure in E. right. left.
        split; [exact E|]. right. right. left.
        destruct data as [s|]; simpl in Ew; [now subst | discriminate]. }
      destruct (String.eqb _ "wallet_retry"); [discriminate|].
      destruct (String.eqb _ "wallet_change_confirm"); [rewrite E3'; discriminate|].
      destruct (String.eqb _ "wallet_change_retry"); discriminate.
    + unfold Exact.on_any_text, prelude, attempt. rewrite Hu. cbn [negb].
      destruct (ensure_user d uid name (token env)) as [d1|e0] eqn:E1.
      2:{ intros E. inversion E; subst. left. now apply (New ex). }
      destruct (get_user_ensure_user _ _ _ _ _ E1) as (row & G1). rewrite G1.
      pose proof (process_due_rewards_frame d1 (clock_settle env) uid) as (Us & _).
      destruct (process_due_rewards d1 (clock_settle env) uid) as [d2 newly].
      simpl in Us. rewrite <- (get_user_users d1 d2 uid Us) in G1.
      set (out := match newly with [] => [] | _ :: _ => _ end).
      destruct (menu_handlers_done env d2 uid name out row G1)
        as ((x1 & E1') & (x2 & E2') & _ & (x4 & E4')).
      destruct (is_terms _ _); [discriminate|].
      destruct (is_bonus _ _); [rewrite E1'; discriminate|].
      destruct (is_connect_wallet _ _); [rewrite E2'; discriminate|].
      destruct (is_balance _ _).
      { intros E.
        destruct (exact_balance_cases env d2 uid name out row Hu G1) as (F & _).
        apply F in E as (-> & L & _). right. right. eauto. }
      destruct (is_chat _ _); [rewrite E4'; discriminate|].
      intros E. apply exact_dispatch_state_failure in E. right. left.
      split; [exact E|]. right. right. right. eauto.
  - intros row G Hu Hne Hc Href Hsum.
    destruct e as [args|data|t]; simpl.
    + unfold Exact.start. rewrite Hu. cbn [negb].
      rewrite (ensure_user_existing d uid name (token env) row G). apply done_Done.
    + unfold Exact.on_callback. rewrite Hu. cbn [negb].
      rewrite (prelude_existing env d uid name row _ G).
      set (d2 := after_prelude env d uid name).
      set (out := prelude_replies env d uid name).
      destruct (String.eqb_spec (PyStr.or_empty data) "daily_checkin") as [Ed|Ed].
      { exfalso. apply Hne. destruct data as [s|]; simpl in Ed; [now subst | discriminate]. }
      destruct (String.eqb _ "invite_friend");
        [destruct (negb _); apply done_Done|].
      destruct (PyStr.startswith _ _) eqn:S; [now apply choose_mission_done|].
      destruct (wallet_flows_done cfg d2 uid (set_username name row) out)
        as (D1 & _ & D3).
      destruct (String.eqb _ "wallet_change"); [exact D1|].
      destruct (String.eqb _ "wallet_confirm").
      { apply (exact_wallet_confirm_done cfg env d2 uid out Hu Hc).
        intros row2 r G2 R. unfold d2 in G2.
        rewrite get_user_after_prelude, Z.eqb_refl, G in G2. simpl in G2.
        inversion G2; subst row2. simpl in R. now apply Href. }
      destruct (String.eqb _ "wallet_retry"); [apply done_Done|].
      destruct (String.eqb _ "wallet_change_confirm"); [exact D3|].
      destruct (String.eqb _ "wallet_change_retry"); apply done_Done.
    + unfold Exact.on_any_text. rewrite Hu. cbn [negb].
      rewrite (prelude_existing env d uid name row _ G).
      set (d2 := after_prelude env d uid name) in *.
      set (out := prelude_replies env d uid name).
      assert (G2 : get_user d2 uid = Some (set_username name row)).
      { unfold d2. now rewrite get_user_after_prelude, Z.eqb_refl, G. }
      destruct (menu_handlers_done env d2 uid name out _ G2)
        as (D1 & D2 & _ & D4).
      destruct (is_terms _ _); [apply done_Done|].
      destruct (is_bonus _ _); [exact D1|].
      destruct (is_connect_wallet _ _); [exact D2|].
      destruct (is_balance _ _).
      { destruct (exact_balance_cases env d2 uid name out _ Hu G2) as (_ & D).
        now apply D. }
      destruct (is_chat _ _); [exact D4|].
      now apply exact_dispatch_state_done.
Qed.

(** The two failures beyond 64 bits, at concrete inputs: with a
    registration award of 2^63 the confirmation of a wallet raises after
    the wallet is written; with two rows of 2^62 the balance raises. *)
Example exact_failures_known :
  (let cfg := mkConfig None None None None None (2 ^ 63) 100 10 [] [] in
   exists d1,
     Exact.handle sample_tables cfg (sample_env 100 738888) sample_staging 2 None
                  (Callback (Some "wallet_confirm"))
     = Failed OverflowError (d1, [])
     /\ wallet_of d1 2 = Some wallet_B
     /\ ledger d1 = [])
  /\ (let d := mkDb [sample_user 7 "ref7" None wallet_A]
                    [mkLedger 7 "mission:X" "mission:X" (2 ^ 62) [];
                     mkLedger 7 "mission:Y" "mission:Y" (2 ^ 62) []] [] [] [] in
      exists d1,
        Exact.handle sample_tables sample_config (sample_env 100 738888) d 7 None
                     (Text (Some "Balance"))
        = Failed OperationalError (d1, [])).
Proof. split; eexists; vm_compute; repeat split; reflexivity. Qed.

(* ------------------------------------------------------------------ *)
(** ** Photos and captions *)

Section Outbound.

Variables text markup : Type.
Variable len : text -> Z.

Lemma photo_caption_bounded :
  forall image_exists opens fails (caption : text) (reply_markup : option markup),
    let '(delivered, raised) :=
      reply_photo_or_text len image_exists opens fails caption reply_markup in
    (forall c k, In (Photo (Some c) k) delivered -> len c <= 900)
    /\ (raised = false ->
        exists before after m,
          delivered = (before ++ m :: after)%list /\ carries caption m
          /\ (forall x, In x (before ++ after)%list -> ~ carries caption x))
    /\ (raised = false -> exists m, In m delivered /\ has_markup reply_markup m)
    /\ (raised = true -> forall x, In x delivered -> ~ carries caption x).
Proof.
  intros image_exists opens fails caption reply_markup.
  unfold reply_photo_or_text.
  destruct image_exists; [destruct opens; simpl negb; cbv iota|].
  - destruct (Z.leb_spec (len caption) 900) as [L|L].
    + destruct (fails 0%nat).
      * destruct (fails 1%nat); simpl.
        -- repeat split; try discriminate; intros; contradiction.
        -- repeat split; try discriminate.
           ++ intros c k [H|[]]. discriminate.
           ++ intros _. exists [], [], (TextMessage caption reply_markup).
              repeat split. intros x [].
           ++ intros _. eexists. split; [now left | reflexivity].
      * repeat split; try discriminate.
        -- intros c k [H|[]]. injection H as <- _. exact L.
        -- intros _. exists [], [], (Photo (Some caption) reply_markup).
           repeat split. intros x [].
        -- intros _. eexists. split; [now left | reflexivity].
    + destruct (fails 0%nat).
      * destruct (fails 1%nat); simpl.
        -- repeat split; try discriminate; intros; contradiction.
        -- repeat split; try discriminate.
           ++ intros c k [H|[]]. discriminate.
           ++ intros _. exists [], [], (TextMessage caption reply_markup).
              repeat split. intros x [].
           ++ intros _. eexists. split; [now left | reflexivity].
      * destruct (fails 1%nat).
        -- destruct (fails 2%nat); simpl.
           ++ repeat split; try discriminate.
              ** intros c k [H|[]]. discriminate.
              ** intros _ x [<-|[]]. simpl. discriminate.
           ++ repeat split; try discriminate.
              ** intros c k [H|[H|[]]]; discriminate.
              ** intros _. exists [Photo None reply_markup], [],
                   (TextMessage caption reply_markup).
                 repeat split. intros x [<-|[]]. simpl. discriminate.
              ** intros _. eexists. split; [now left | reflexivity].
        -- repeat split; try discriminate.
           ++ intros c k [H|[H|[]]]; discriminate.
           ++ intros _. exists [Photo None reply_markup], [], (TextMessage caption None).
              repeat split. intros x [<-|[]]. simpl. discriminate.
           ++ intros _. eexists. split; [now left | reflexivity].
  - destruct (fails 0%nat); simpl.
    + repeat split; try discriminate; intros; contradiction.
    + repeat split; try discriminate.
      * intros c k [H|[]]. discriminate.
      * intros _. exists [], [], (TextMessage caption reply_markup).
        repeat split. intros x [].
      * intros _. eexists. split; [now left | reflexivity].
  - destruct (fails 0%nat); simpl.
    + repeat split; try discriminate; intros; contradiction.
    + repeat split; try discriminate.
      * intros c k [H|[]]. discriminate.
      * intros _. exists [], [], (TextMessage caption reply_markup).
        repeat split. intros x [].
      * intros _. eexists. split; [now left | reflexivity].
Qed.

End Outbound.

(** X15. [reply_photo_or_text] never sends a photo with a caption of more than
    900 characters.  When its last call does not raise, the caption has
    reached the chat exactly once, under the photo or as a message, and
    something sent carries the keyboard; when it raises, the caption has
    not reached the chat. *)
Theorem photo_caption_limit :
  forall (text markup : Type) (len : text -> Z) image_exists opens fails
         (caption : text) (reply_markup : option markup),
    let r := reply_photo_or_text len image_exists opens fails caption reply_markup in
    (forall c k, In (Photo (Some c) k) (fst r) -> len c <= 900)
    /\ (snd r = false ->
        exists before after m,
          fst r = (before ++ m :: after)%list /\ carries caption m
          /\ (forall x, In x (before ++ after)%list -> ~ carries caption x))
    /\ (snd r = false -> exists m, In m (fst r) /\ has_markup reply_markup m)
    /\ (snd r = true -> forall x, In x (fst r) -> ~ carries caption x).
Proof.
  intros text markup len image_exists opens fails caption reply_markup r.
  pose proof (photo_caption_bounded text markup len image_exists opens fails caption
                reply_markup) as H.
  fold r in H. destruct r as [delivered raised]. exact H.
Qed.

(* ------------------------------------------------------------------ *)
(** ** The menu, the buttons and the settlement *)

Section Menu.

Local Open Scope list_scope.








End Menu.

Section Buttons.

Lemma find_exists :
  forall (A : Type) (f : A -> bool) l x,
    In x l -> f x = true -> exists y, find f l = Some y /\ f y = true.
Proof.
  intros A f l x. induction l as [|a l IH]; simpl; [contradiction|].
  intros [->|Hin] Hx.
  - rewrite Hx. eauto.
  - destruct (f a) eqn:E; [eauto | now apply IH].
Qed.

Lemma rstrip_cons :
  forall c s, PyStr.isspace c = false ->
              PyStr.rstrip (String c s) = String c (PyStr.rstrip s).
Proof. intros c s H. simpl. destruct (PyStr.rstrip s); [now rewrite H | reflexivity]. Qed.






End Buttons.

Section SettlementTotal.

Local Open Scope list_scope.

Lemma total_credited_snoc :
  forall acc x, total_credited (acc ++ [x]) = total_credited acc + snd x.
Proof.
  intros acc x. unfold total_credited. rewrite map_app. simpl.
  induction (map snd acc) as [|y l IH]; simpl; lia.
Qed.

Lemma get_points_delete_pending :
  forall d uid mid u, get_points (delete_pending d uid mid) u = get_points d u.
Proof. reflexivity. Qed.

(** The balance minus the total reported so far does not change in a
    turn of the loop. *)
Lemma settle_row_total :
  forall uid st r,
    get_points (fst (settle_row uid st r)) uid - total_credited (snd (settle_row uid st r))
    = get_points (fst st) uid - total_credited (snd st).
Proof.
  intros uid [d acc] r. unfold settle_row, add_points_once.
  destruct (ledger_has (ledger d) uid (pending_unique_key r)); simpl fst; simpl snd;
    rewrite get_points_delete_pending; [reflexivity|].
  rewrite total_credited_snoc, get_points_snoc. simpl. rewrite Z.eqb_refl. lia.
Qed.

Lemma settle_fold_total :
  forall uid rows st,
    get_points (fst (fold_left (settle_row uid) rows st)) uid
    - total_credited (snd (fold_left (settle_row uid) rows st))
    = get_points (fst st) uid - total_credited (snd st).
Proof.
  intros uid rows. induction rows as [|r rows IH]; intros st; [reflexivity|].
  cbn [fold_left]. rewrite IH. apply settle_row_total.
Qed.

(** X19. The total [process_due_rewards] reports for a user is what the
    balance of the user has grown by. *)
Theorem settlement_total_is_credited :
  forall d now uid,
    get_points (fst (process_due_rewards d now uid)) uid
    = get_points d uid + total_credited (snd (process_due_rewards d now uid)).
Proof.
  intros d now uid. unfold process_due_rewards.
  pose proof (settle_fold_total uid (due_rows d now uid) (d, [])) as H.
  cbn [fst snd] in H. change (total_credited []) with 0 in H. lia.
Qed.

End SettlementTotal.

(* ------------------------------------------------------------------ *)
(** ** Changing the wallet *)

Section WalletChange.

Lemma ishex_not_space : forall c, PyStr.ishex c = true -> PyStr.isspace c = false.
Proof.
  intros c H. destruct (PyStr.isspace c) eqn:S; [|reflexivity].
  exfalso. revert H S. unfold PyStr.ishex, PyStr.isspace, PyStr.isdigit, PyStr.in_range.
  generalize (PyStr.ord c). intros n H S.
  repeat match goal with
         | H : (_ || _)%bool = true |- _ => apply orb_true_iff in H as [H|H]
         | H : (_ && _)%bool = true |- _ => apply andb_true_iff in H as [? ?]
         | H : Nat.leb _ _ = true |- _ => apply Nat.leb_le in H
         end; lia.
Qed.

Lemma rstrip_no_space :
  forall s, all_chars (fun c => negb (PyStr.isspace c)) s = true -> PyStr.rstrip s = s.
Proof.
  induction s as [|c s IH]; intros H; [reflexivity|].
  unfold all_chars in H. simpl in H. apply andb_true_iff in H as [Hc Hs].
  apply negb_true_iff in Hc. rewrite rstrip_cons by exact Hc. now rewrite IH.
Qed.

Lemma all_chars_impl :
  forall (f g : ascii -> bool) s,
    (forall c, f c = true -> g c = true) -> all_chars f s = true -> all_chars g s = true.
Proof.
  intros f g s H. unfold all_chars. induction (list_ascii_of_string s) as [|c l IH];
    simpl; [reflexivity|].
  intros A. apply andb_true_iff in A as [Hc Hl]. now rewrite (H c Hc), IH.
Qed.

Lemma strip_address : forall w, is_address w = true -> PyStr.strip w = w.
Proof.
  intros w H. apply is_address_shape in H as (h & -> & _ & A).
  unfold PyStr.strip. simpl PyStr.lstrip. rewrite !rstrip_cons by reflexivity.
  rewrite rstrip_no_space; [reflexivity|].
  eapply all_chars_impl; [|exact A].
  intros c Hc. apply negb_true_iff. now apply ishex_not_space.
Qed.

Lemma wallet_re_address :
  forall w, is_address w = true -> Re.match_anchored WALLET_RE w = true.
Proof. intros w H. apply wallet_re_language. now left. Qed.

(** X20. The limit on wallet changes is tested by the button [wallet_change]
    only.  For a user with a wallet, whatever the count of changes, the
    button [wallet_change_retry], a new address that no other user holds,
    and the button [wallet_change_confirm] make that address the wallet
    and raise the count by one. *)
Theorem wallet_change_cycle :
  forall cfg d uid row w0 w env1 env2 env3 name1 name2 name3,
    get_user d uid = Some row ->
    wallet_address row = Some w0 -> PyStr.truthy (Some w0) = true ->
    is_address w = true -> w <> w0 ->
    wallet_of_another d w uid = false ->
    is_menu cfg w = false ->
    let d3 :=
      run cfg d [ (env1, uid, name1, Callback (Some "wallet_change_retry"));
                  (env2, uid, name2, Text (Some w));
                  (env3, uid, name3, Callback (Some "wallet_change_confirm")) ] in
    exists row3,
      get_user d3 uid = Some row3
      /\ wallet_address row3 = Some w
      /\ wallet_change_count row3 = wallet_change_count row + 1
      /\ wallet_pending row3 = None /\ state row3 = None.
Proof.
  intros cfg d uid row w0 w env1 env2 env3 name1 name2 name3
         G Hw0 Ht0 Hw Hne Hother Hmenu d3.
  destruct (truthy_some w0 Ht0) as (c0 & p0 & ->).
  assert (Ht : PyStr.truthy (Some w) = true).
  { apply is_address_shape in Hw as (h & -> & _). reflexivity. }
  destruct (truthy_some w Ht) as (c & p & Ew).
  (* the button [wallet_change_retry] *)
  set (d1 := fst (final (handle cfg env1 d uid name1
                           (Callback (Some "wallet_change_retry"))))).
  set (row1 := set_user_state (Some "AWAIT_WALLET_CHANGE")
                 (set_wallet_pending None (set_username name1 row))).
  assert (S1 : get_user d1 uid = Some row1 /\ wallets d1 = wallets d).
  { unfold d1. simpl handle. unfold on_callback.
    rewrite (prelude_existing env1 d uid name1 row _ G). simpl final. simpl fst.
    split.
    - rewrite get_user_update_user by reflexivity.
      now rewrite Z.eqb_refl, get_user_after_prelude, Z.eqb_refl, G.
    - rewrite wallets_update_user by reflexivity.
      apply (after_prelude_frame env1 d uid name1). }
  destruct S1 as [G1 W1].
  (* the new address *)
  set (d2 := fst (final (handle cfg env2 d1 uid name2 (Text (Some w))))).
  set (row2 := set_wallet_pending (Some w) (set_username name2 row1)).
  assert (S2 : get_user d2 uid = Some row2 /\ wallets d2 = wallets d1).
  { unfold d2. simpl handle. unfold on_any_text.
    rewrite (prelude_existing env2 d1 uid name2 row1 _ G1).
    simpl PyStr.or_empty. rewrite (strip_address w Hw).
    unfold is_menu in Hmenu.
    apply orb_false_iff in Hmenu as [Hmenu M5].
    apply orb_false_iff in Hmenu as [Hmenu M4].
    apply orb_false_iff in Hmenu as [Hmenu M3].
    apply orb_false_iff in Hmenu as [M1 M2].
    rewrite M1, M2, M3, M4, M5.
    unfold dispatch_state. simpl state. simpl PyStr.or_empty.
    change (PyStr.strip "AWAIT_WALLET_CHANGE") with "AWAIT_WALLET_CHANGE".
    simpl String.eqb. cbv iota. unfold stage_wallet.
    rewrite (wallet_re_address w Hw). simpl negb. cbv iota. simpl final. simpl fst.
    split.
    - rewrite get_user_update_user by reflexivity.
      now rewrite Z.eqb_refl, get_user_after_prelude, Z.eqb_refl, G1.
    - rewrite wallets_update_user by reflexivity.
      apply (after_prelude_frame env2 d1 uid name2). }
  destruct S2 as [G2 W2].
  (* the button [wallet_change_confirm] *)
  change d3 with (fst (final (handle cfg env3 d2 uid name3
                                (Callback (Some "wallet_change_confirm"))))).
  simpl handle.
  rewrite (on_callback_wallet_change_confirm cfg env3 d2 uid name3 row2 G2).
  set (d0 := after_prelude env3 d2 uid name3).
  assert (G0 : get_user d0 uid = Some (set_username name3 row2))
    by (unfold d0; now rewrite get_user_after_prelude, Z.eqb_refl, G2).
  assert (A0 : wallet_of_another d0 w uid = false).
  { rewrite (wallet_of_another_wallets d d0); [exact Hother|].
    unfold d0. destruct (after_prelude_frame env3 d2 uid name3) as (_ & _ & _ & ->).
    now rewrite W2, W1. }
  unfold wallet_change_confirm. rewrite G0.
  simpl wallet_address. rewrite Hw0. simpl wallet_pending. rewrite Ew. rewrite <- Ew.
  destruct (String.eqb_spec w (String c0 p0)) as [E|_]; [contradiction|].
  rewrite A0. simpl final. simpl fst.
  rewrite get_user_update_user by reflexivity. rewrite Z.eqb_refl, G0. simpl option_map.
  eexists. split; [reflexivity|]. simpl. repeat split; reflexivity.
Qed.

Lemma wallet_change_cycle_witness :
  let d3 :=
    run sample_config sample_store
        [ (env_at 400 738888 "Qm9i", 2, Some "bob", Callback (Some "wallet_change_retry"));
          (env_at 410 738888 "Qm9i", 2, Some "bob", Text (Some wallet_C));
          (env_at 420 738888 "Qm9i", 2, Some "bob",
            Callback (Some "wallet_change_confirm")) ] in
  exists row3,
    get_user d3 2 = Some row3
    /\ wallet_address row3 = Some wallet_C
    /\ wallet_change_count row3 = wallet_change_count sample_bob + 1
    /\ wallet_pending row3 = None /\ state row3 = None.
Proof.
  apply (wallet_change_cycle sample_config sample_store 2 sample_bob wallet_B wallet_C
           (env_at 400 738888 "Qm9i") (env_at 410 738888 "Qm9i")
           (env_at 420 738888 "Qm9i") (Some "bob") (Some "bob") (Some "bob")).
  - vm_compute. reflexivity.
  - reflexivity.
  - reflexivity.
  - vm_compute. reflexivity.
  - vm_compute. discriminate.
  - vm_compute. reflexivity.
  - vm_compute. reflexivity.
Defined.

End WalletChange.

(* ------------------------------------------------------------------ *)
(** ** Invitation links *)

Section Referral.

Local Open Scope list_scope.

(** X21. The code of an invitation link, given to [/start] by a user who has
    no row yet, makes the owner of the code the referrer of the new
    user, and leaves the rows of all other users as they are; the code
    has no white space around it, codes are unique, and the code drawn
    for the new user is free. *)
Theorem referral_link_round_trip :
  forall env d A B rowA name,
    NoDup (map ref_code (users d)) ->
    get_user d A = Some rowA ->
    get_user d B = None ->
    PyStr.strip (ref_code rowA) = ref_code rowA ->
    let code := PyStr.remove_char "_" (PyStr.remove_char "-" (token env)) in
    (forall u, In u (users d) -> ref_code u <> code) ->
    exists d',
      start env d B name [ref_code rowA] = Done (d', [Welcome])
      /\ get_user d' B = Some (mkUser B name code (Some A) None None 0 None)
      /\ (forall u, u <> B -> get_user d' u = get_user d u).
Proof.
  intros env d A B rowA name N GA GB Hs code Hfresh.
  pose proof (get_user_id d A rowA GA) as EA.
  pose proof (get_user_In d A rowA GA) as InA.
  assert (HAB : A <> B) by (intros ->; congruence).
  unfold start, ensure_user. rewrite GB. fold code.
  replace (existsb (fun u => String.eqb (ref_code u) code) (users d)) with false.
  2:{ symmetry. apply not_true_is_false. intros X.
      apply existsb_exists in X as (u & Hu & E). apply String.eqb_eq in E.
      now apply (Hfresh u). }
  unfold attempt. rewrite Hs.
  set (new := mkUser B name code None None None 0 None).
  set (d1 := with_users d (users d ++ [new])).
  assert (F : find_user_by_ref_code d1 (ref_code rowA) = Some rowA).
  { unfold find_user_by_ref_code, d1. simpl users. apply find_app.
    destruct (find_exists _ (fun u => String.eqb (ref_code u) (ref_code rowA))
                (users d) rowA InA (String.eqb_refl _)) as (y & Fy & Ey).
    rewrite Fy. f_equal. apply String.eqb_eq in Ey.
    apply find_some in Fy as [Hy _].
    now apply (NoDup_map_inj _ _ ref_code (users d)). }
  rewrite F. unfold set_referred_by_if_empty. rewrite EA.
  replace (B =? A) with false by (symmetry; apply Z.eqb_neq; congruence).
  assert (G1 : get_user d1 B = Some new).
  { unfold get_user, d1 in *. simpl users. rewrite find_app_none by exact GB.
    simpl. now rewrite Z.eqb_refl. }
  rewrite G1. simpl referred_by. cbv iota.
  eexists. split; [reflexivity|]. split.
  - rewrite get_user_update_user by reflexivity. now rewrite Z.eqb_refl, G1.
  - intros u Hu. rewrite get_user_update_user by reflexivity.
    replace (u =? B) with false by (symmetry; now apply Z.eqb_neq).
    unfold get_user, d1. simpl users.
    destruct (find (fun x => user_id x =? u) (users d)) as [x|] eqn:Fu.
    + now apply find_app.
    + rewrite find_app_none by exact Fu. simpl.
      now replace (B =? u) with false by (symmetry; apply Z.eqb_neq; congruence).
Qed.

Lemma referral_link_round_trip_witness :
  exists d',
    start (env_at 600 738888 "Q2Fyb2w") sample_store 3 (Some "carol") ["QWxpY2U"]
    = Done (d', [Welcome])
    /\ get_user d' 3
       = Some (mkUser 3 (Some "carol")
                 (PyStr.remove_char "_" (PyStr.remove_char "-" "Q2Fyb2w"))
                 (Some 1) None None 0 None)
    /\ (forall u, u <> 3 -> get_user d' u = get_user sample_store u).
Proof.
  apply (referral_link_round_trip (env_at 600 738888 "Q2Fyb2w") sample_store 1 3
           sample_alice
           (Some "carol")).
  - vm_compute. repeat constructor; simpl; intuition discriminate.
  - vm_compute. reflexivity.
  - vm_compute. reflexivity.
  - vm_compute. reflexivity.
  - vm_compute. intros u [<-|[<-|[]]]; discriminate.
Defined.

End Referral.
